(* ===== verification/_CoqProject ===== *)
-Q . S2P
Prelude.v
StdMap.v
Text.v
WrappingIntegers.v
ByteStream.v
StreamReassembler.v
ReassemblerProgress.v
ReassemblerLimits.v
Buffer.v
FileDescriptor.v
EventLoop.v
Parser.v
Checksum.v
TCPSegment.v
IPv4.v
Ethernet.v
Address.v
Resolver.v
Texts.v
Socket.v
FdAdapter.v
NetworkInterface.v
ARPExchange.v
Router.v
TunTap.v
TCPReceiver.v
TCPSender.v
TCPState.v
TCPConnection.v
ConnectionStreams.v
Handshake.v
Clock.v
TCPSpongeSocket.v
SocketAdapters.v
SocketLoop.v
SocketThread.v
HelperSockets.v
StreamCopy.v
Delivery.v
Duplex.v
Ordered.v
Recovery.v
Benchmark.v
CommandLine.v
Programs.v
Mains.v
Tcpdump.v
NetworkSimulator.v
Doctests.v
