(* ===== verification/Prelude.v ===== *)
(** * A verified model of the sponge TCP/IP stack

    The program under [src/libsponge] is a user-space TCP/IP stack.  From the
    bottom up: Ethernet frames and ARP messages, IPv4 datagrams and TCP segments
    are parsed and serialized ([tcp_helpers/]); a [NetworkInterface] resolves next
    hops with ARP; adapters carry TCP segments over UDP, over IPv4 on a TUN device
    and over Ethernet on a TAP device; a [TCPConnection] combines a [TCPReceiver]
    (with its [StreamReassembler] and [ByteStream]) and a [TCPSender]; and an
    [EventLoop] over file descriptors drives everything.  A [Router] is present in
    outline only.  [src/apps] has programs on top of it: sessions between the
    terminal and a connection, a web client, a benchmark, a packet dumper and a
    network simulator; [src/doctests] has the examples of the documentation.

    ** The model

    Every class is a record with the members of the class, every method a
    function from the object to the result and the new object.  Integers are [Z]
    reduced to the width of their C++ type where the code computes ([u8] to [u64],
    [s32], [s64]), bytes are [Byte.byte], strings lists of bytes.  An exception is
    a value of [exn], and code that may throw returns a [result] (here) or is a
    [method] (state and exception together, also here).  The kernel, the resolver
    and the random generator are outside of the sources: what they answer is an
    argument of the definitions, or a parameter of a section with what is relied
    upon in a type class ([NumericResolver], instantiated in [Resolver]).
    A call that may run for ever has fuel or returns an [option].

    - [Prelude] (this file): machine integers, bytes, lists indexed by [Z],
      exceptions, the method monad, tactics and the hint database.
    - [StdMap], [Text]: [std::map] with integer keys; [std::to_string], [std::stoi] and
      hexadecimal numbers.
    - [WrappingIntegers]: [wrapping_integers.hh/.cc].
    - [ByteStream]: [byte_stream.hh/.cc].
    - [StreamReassembler], [ReassemblerProgress], [ReassemblerLimits]:
      [stream_reassembler.hh/.cc]; the model and its safety, what terminates and
      what is assembled, and where the class leaves its contract.
    - [Buffer], [Parser], [Checksum]: [util/buffer.hh/.cc], [util/parser.hh/.cc] and
      [InternetChecksum] of [util/util.hh/.cc].
    - [TCPSegment], [IPv4], [Ethernet]: headers and payloads on the wire,
      [tcp_helpers/tcp_header], [tcp_segment], [ipv4_header], [ipv4_datagram],
      [ethernet_header], [ethernet_frame] and [arp_message].
    - [Address], [Resolver]: [util/address.hh/.cc], with [getaddrinfo] and
      [getnameinfo] as parameters, and a resolver for dotted quads.
    - [Texts]: the texts of the headers ([to_string], [summary]) and [hexdump] of
      [util/util.cc].
    - [FileDescriptor], [EventLoop], [Socket]: [util/file_descriptor], [eventloop],
      [socket] and [tun], with the kernel's answers as arguments.
    - [FdAdapter], [TunTap]: [tcp_helpers/fd_adapter], [tcp_over_ip],
      [lossy_fd_adapter] and [tuntap_adapter].
    - [NetworkInterface], [ARPExchange], [Router]: [network_interface.hh/.cc], two
      interfaces on one wire, and [router.hh/.cc].
    - [TCPReceiver], [TCPSender], [TCPState], [TCPConnection]: the classes of the same
      names, [tcp_config.hh] with the sender.
    - [ConnectionStreams], [Handshake]: the streams inside a connection, and two
      connections opening to each other.
    - [Clock]: [timestamp_ms] of [util/util.cc], which times the ticks of the socket.
    - [TCPSpongeSocket], [SocketAdapters], [SocketLoop], [SocketThread],
      [HelperSockets]: [tcp_helpers/tcp_sponge_socket.hh/.cc]; the socket with the
      four rules of its event loop over the class [DatagramAdapter], the adapters
      as instances of that class, the connection inside a run of the socket, the
      end of its thread, and the sockets with fixed devices.
    - [StreamCopy]: [apps/bidirectional_stream_copy.cc].
    - [Delivery], [Duplex], [Ordered], [Recovery]: two connections and the network
      between them, one direction and both, a network that keeps segments in order,
      and how what it loses is made up for.
    - [Benchmark]: [apps/tcp_benchmark.cc].
    - [CommandLine], [Programs], [Mains]: what the programs use of the C library on
      their arguments, the command lines of [apps/tcp_udp.cc], [tcp_ipv4.cc] and
      [tcp_ip_ethernet.cc], and their [main] functions with those of [tcp_native.cc]
      and [webget.cc].
    - [Tcpdump]: [apps/udp_tcpdump.cc] and [apps/tun.cc].
    - [NetworkSimulator]: [apps/network_simulator.cc].
    - [Doctests]: the programs and fragments of [doctests/].

    ** What is shown

    Streams: a byte stream refines the history of what was accepted and popped;
    the reassembler writes only prefixes of the peer's stream and, for a peer that
    sends fixed segments, exactly what has arrived; sequence numbers unwrap to
    the closest candidate.

    Endpoints: the receiver acknowledges only what it has written; the sender's
    outstanding segments are the unacknowledged part of the stream, windows are
    respected and used up, acknowledgments and timeouts do what TCP asks; a
    connection answers what occupies sequence numbers, opens with the three-way
    handshake, resets, gives up and shuts down.

    Wire formats: serialization and parsing are inverse to each other, parsing is
    total and well typed on arbitrary bytes, and the checksum is the one's
    complement sum and detects changes.

    Network: an interface keeps its tables consistent and its methods return; ARP
    delivers; adapters give back the segments of their connection and no others,
    and the lossy one only loses; a SYN gets through over Ethernet.

    System: a complete write, and the event loop's service of its rules; what
    happens to the connection in a run of the socket is a sequence of the
    connection's own operations, and the errors that leave its loop are named; the
    thread ends when the socket is destroyed; copying between terminal and socket
    loses nothing and keeps the order.

    End to end: two connections over a network that loses, repeats and reorders
    segments deliver to either reader a prefix of what the other side wrote, and
    all of it where the stream ends ([Duplex.streams_delivered]); where the network
    loses segments but keeps their order, every segment that arrives is received
    ([Ordered.ordered_received]), so only overtaking makes a connection hang, and
    from every state all that was written can still be delivered
    ([Recovery.delivery_possible]), so no loss is a deadlock; the benchmark, whose two connections are in one process, passes its own checks, and
    its turns return as long as it does not reorder.

    Programs: exactly the documented command lines are accepted and configure the
    connection as they say; a hex dump can be read back, and the packet dumper
    shows the segment that was sent; the examples of the documentation pass.

    Flaws: properties the code does not have are stated as theorems as well, each
    about all inputs of a class or about a run from the start: the reassembler and
    the interface's [tick] can hang, two connections can reach such a hang when an
    acknowledgment is overtaken by data ([Duplex.overtaken_ack_hangs]), the network
    simulator fails its first test since the router does not route, overlapping
    excess and a FIN at a full buffer are lost, the announced window wraps around, headers that do not parse are accepted, and more.

    ** Bounds and fuel

    [StreamReassembler.push] has the fuel [enough], computed from the stored
    datagrams; [push_terminates] shows that it suffices when the call returns at
    all, and [push_hangs] that otherwise no fuel does.  [NetworkInterface.tick] has
    two turns for each pending request, which is all a call that returns can use;
    [interface_safe] and [tick_hangs] show the same for it.  [TCPSender.fill_loop] and [ack_loop] have one
    unit per byte and per segment, the loop of [InternetChecksum::value] three
    turns, [send_loop] one per queued segment.  The loops of the programs that
    wait for the outside take their turns from a list of answers, and the loop of
    the benchmark has the number of turns as an argument.  Statements about absolute
    sequence numbers keep below [2^63], where [unwrap] is right.  Two connections are
    followed for [2^62] steps; [Recovery] starts from any of the first [2^61], and
    from connections that have sent a segment again fewer than eight times in a row,
    since the ninth resets the connection.

    ** Not modelled

    What the clock reads and the seeding of random generators: the values are arguments.  What
    is printed as a trace for a human, except for the texts named above.  The
    contents of [tests/], which are not part of the program. *)
From stdpp Require Export prelude list strings sorting.
From Stdlib Require Export ZArith Lia.
From Stdlib Require Import Strings.Byte.

#[global] Open Scope Z_scope.

(** ** Machine integers: a w-bit unsigned value is a [Z] kept in range by an
    explicit reduction, a signed one is re-centred around zero. *)

Definition u8 (x : Z) : Z := x mod 2 ^ 8.
Definition u16 (x : Z) : Z := x mod 2 ^ 16.
Definition u32 (x : Z) : Z := x mod 2 ^ 32.
Definition u64 (x : Z) : Z := x mod 2 ^ 64.

(** The two's complement reading of a w-bit pattern ([int32_t], [int64_t]). *)
Definition s32 (x : Z) : Z := let r := u32 x in if r <? 2 ^ 31 then r else r - 2 ^ 32.
Definition s64 (x : Z) : Z := let r := u64 x in if r <? 2 ^ 63 then r else r - 2 ^ 64.
Arguments u8 : simpl never.
Arguments u16 : simpl never.
Arguments u32 : simpl never.
Arguments u64 : simpl never.
Arguments s32 : simpl never.
Arguments s64 : simpl never.

Lemma u8_small x : 0 <= x < 2 ^ 8 -> u8 x = x.
Proof. apply Z.mod_small. Qed.
Lemma u16_small x : 0 <= x < 2 ^ 16 -> u16 x = x.
Proof. apply Z.mod_small. Qed.
Lemma u32_small x : 0 <= x < 2 ^ 32 -> u32 x = x.
Proof. apply Z.mod_small. Qed.
Lemma u64_small x : 0 <= x < 2 ^ 64 -> u64 x = x.
Proof. apply Z.mod_small. Qed.

Lemma u8_range x : 0 <= u8 x < 2 ^ 8.
Proof. by apply Z.mod_pos_bound. Qed.
Lemma u16_range x : 0 <= u16 x < 2 ^ 16.
Proof. by apply Z.mod_pos_bound. Qed.
Lemma u32_range x : 0 <= u32 x < 2 ^ 32.
Proof. by apply Z.mod_pos_bound. Qed.
Lemma u64_range x : 0 <= u64 x < 2 ^ 64.
Proof. by apply Z.mod_pos_bound. Qed.

(** A value is congruent to its reduction: the form [lia] can use. *)
Lemma u32_eq x : exists k, u32 x = x - 2 ^ 32 * k.
Proof. exists (x / 2 ^ 32). unfold u32. pose proof (Z.div_mod x (2 ^ 32)). lia. Qed.
Lemma u64_eq x : exists k, u64 x = x - 2 ^ 64 * k.
Proof. exists (x / 2 ^ 64). unfold u64. pose proof (Z.div_mod x (2 ^ 64)). lia. Qed.

Lemma u32_add_l x y : u32 (u32 x + y) = u32 (x + y).
Proof. apply Zplus_mod_idemp_l. Qed.
Lemma u32_add_r x y : u32 (x + u32 y) = u32 (x + y).
Proof. apply Zplus_mod_idemp_r. Qed.
Lemma u64_add_r x y : u64 (x + u64 y) = u64 (x + y).
Proof. unfold u64. by rewrite Zplus_mod_idemp_r. Qed.
Lemma u64_add_l x y : u64 (u64 x + y) = u64 (x + y).
Proof. apply Zplus_mod_idemp_l. Qed.

(** ** Bytes: [char] and [uint8_t] are the 256 values of [Byte.byte]. *)

Abbreviation byte := Byte.byte.

Definition b2z (b : byte) : Z := Z.of_N (Byte.to_N b).
Definition z2b (z : Z) : byte := default x00 (Byte.of_N (Z.to_N (u8 z))).

#[export] Instance byte_eq_dec : EqDecision byte := Byte.byte_eq_dec.

(** The bytes of a string literal. *)
Definition lit (s : string) : list byte := String.list_byte_of_string s.
Arguments lit s%_string.

Lemma b2z_range b : 0 <= b2z b < 2 ^ 8.
Proof. unfold b2z. pose proof (Byte.to_N_bounded b). lia. Qed.

Lemma b2z_z2b z : b2z (z2b z) = u8 z.
Proof.
  unfold b2z, z2b. pose proof (u8_range z).
  destruct (Byte.of_N (Z.to_N (u8 z))) as [b|] eqn:E; simpl.
  - apply Byte.to_of_N in E. rewrite E. lia.
  - apply Byte.of_N_None_iff in E. lia.
Qed.

Lemma z2b_b2z b : z2b (b2z b) = b.
Proof.
  unfold z2b. rewrite u8_small by apply b2z_range. unfold b2z.
  by rewrite N2Z.id, Byte.of_to_N.
Qed.

(** ** Exceptions: a function that may throw returns a [result]. *)

Inductive exn :=
  | out_of_range (what : string)
  | runtime_error (what : string)
  | invalid_argument (what : string)
  | length_error (what : string)
  | tagged_error (category : string) (attempt : list byte) (error_code : Z).

Inductive result (A : Type) :=
  | Ok (a : A)
  | Throw (e : exn).
Arguments Ok {A} a.
Arguments Throw {A} e.

Definition bind {A B} (m : result A) (k : A -> result B) : result B :=
  match m with Ok a => k a | Throw e => Throw e end.

Declare Scope sponge_scope.
#[global] Open Scope sponge_scope.
Notation "'let*' x := m 'in' k" := (bind m (fun x => k))
  (at level 10, x pattern, m at level 100, k at level 200) : sponge_scope.

Lemma bind_ok {A B} (m : result A) (k : A -> result B) b : bind m k = Ok b -> exists a, m = Ok a /\ k a = Ok b.
Proof. destruct m as [a|]; [|done]. intros E. by exists a. Qed.

(** Methods that change their object and may throw: the changes made before the
    exception stay. *)
Definition method (S A : Type) : Type := S -> result A * S.

Definition returns {S A} (a : A) : method S A := fun s => (Ok a, s).
Definition lift {S A} (m : result A) : method S A := fun s => (m, s).
Definition modify {S} (f : S -> S) : method S unit := fun s => (Ok tt, f s).
Definition gets {S A} (f : S -> A) : method S A := fun s => (Ok (f s), s).
Definition andthen {S A B} (m : method S A) (k : A -> method S B) : method S B :=
  fun s => match m s with (Ok a, s) => k a s | (Throw e, s) => (Throw e, s) end.

Notation "'do' x := m 'in' k" := (andthen m (fun x => k))
  (at level 10, x pattern, m at level 100, k at level 200) : sponge_scope.

(** Calls that may not return, or throw. *)
Definition partial (A : Type) : Type := option (result A).
Definition run_bind {A B} (m : partial A) (k : A -> partial B) : partial B :=
  match m with None => None | Some (Throw e) => Some (Throw e) | Some (Ok a) => k a end.
Definition lift_run {A} (r : result A) : partial A := Some r.
Definition done_with {A} (a : A) : partial A := Some (Ok a).
Notation "'run*' x := m 'in' k" := (run_bind m (fun x => k))
  (at level 10, x pattern, m at level 100, k at level 200) : sponge_scope.

(** ** Automation *)

Create HintDb sponge discriminated.
#[export] Hint Resolve u8_range u16_range u32_range u64_range b2z_range : sponge.

(** Case analysis on the integer comparisons of the code. *)
Ltac zcase :=
  match goal with
  | |- context [?a <? ?b] => destruct (Z.ltb_spec a b)
  | |- context [?a <=? ?b] => destruct (Z.leb_spec a b)
  | |- context [?a =? ?b] => destruct (Z.eqb_spec a b)
  | H : context [?a <? ?b] |- _ => destruct (Z.ltb_spec a b)
  | H : context [?a <=? ?b] |- _ => destruct (Z.leb_spec a b)
  | H : context [?a =? ?b] |- _ => destruct (Z.eqb_spec a b)
  end.

(** Case analysis on the outermost [if] of the goal. *)
Ltac split_if :=
  match goal with
  | |- is_Some (if ?b then _ else _) => destruct b eqn:?
  | |- (if ?b then _ else _) = _ => destruct b eqn:?
  | |- (if ?b then _ else _) = _ -> _ => destruct b eqn:?
  end.

(** Drop the reductions of values known to be in range. *)
Ltac unwrap_uint :=
  repeat match goal with
  | |- context [u64 ?x] => rewrite (u64_small x) by lia
  | |- context [u32 ?x] => rewrite (u32_small x) by lia
  | H : context [u64 ?x] |- _ => rewrite (u64_small x) in H by lia
  end.

(** ** Lists indexed by [size_t] values *)

Abbreviation len l := (Z.of_nat (length l)).

Definition ztake {A} (n : Z) (l : list A) : list A := take (Z.to_nat n) l.
Definition zdrop {A} (n : Z) (l : list A) : list A := drop (Z.to_nat n) l.

(** The [n] elements of [l] from position [i] on. *)
Definition slice {A} (i n : Z) (l : list A) : list A := ztake n (zdrop i l).

Section zlists.
Context {A : Type}.
Implicit Types (l k : list A) (i n m : Z).

Lemma len_nonneg l : 0 <= len l.
Proof. lia. Qed.

Lemma len_app l k : len (l ++ k) = len l + len k.
Proof. rewrite length_app. lia. Qed.

Lemma len_ztake n l : 0 <= n -> len (ztake n l) = Z.min n (len l).
Proof. intros. unfold ztake. rewrite length_take. lia. Qed.

Lemma len_zdrop n l : 0 <= n -> len (zdrop n l) = Z.max 0 (len l - n).
Proof. intros. unfold zdrop. rewrite length_drop. lia. Qed.

Lemma ztake_zdrop n l : ztake n l ++ zdrop n l = l.
Proof. apply take_drop. Qed.

Lemma ztake_all n l : len l <= n -> ztake n l = l.
Proof. intros. apply take_ge. lia. Qed.

Lemma zdrop_all n l : len l <= n -> zdrop n l = [].
Proof. intros. apply drop_ge. lia. Qed.

Lemma ztake_0 l : ztake 0 l = [].
Proof. done. Qed.

Lemma zdrop_0 l : zdrop 0 l = l.
Proof. done. Qed.

Lemma zdrop_zdrop n m l : 0 <= n -> 0 <= m -> zdrop n (zdrop m l) = zdrop (m + n) l.
Proof. intros. unfold zdrop. rewrite drop_drop. f_equal. lia. Qed.

Lemma zdrop_app_le n l k : 0 <= n <= len l -> zdrop n (l ++ k) = zdrop n l ++ k.
Proof. intros. unfold zdrop. rewrite drop_app_le by lia. done. Qed.

Lemma zdrop_app_ge n l k : len l <= n -> zdrop n (l ++ k) = zdrop (n - len l) k.
Proof. intros. unfold zdrop. rewrite drop_app_ge by lia. f_equal. lia. Qed.

Lemma ztake_app_le n l k : 0 <= n <= len l -> ztake n (l ++ k) = ztake n l.
Proof. intros. unfold ztake. rewrite take_app_le by lia. done. Qed.

Lemma ztake_app_exact l k : ztake (len l) (l ++ k) = l.
Proof. unfold ztake. rewrite Nat2Z.id. apply take_app_length. Qed.

Lemma zdrop_app_exact l k : zdrop (len l) (l ++ k) = k.
Proof. unfold zdrop. rewrite Nat2Z.id. apply drop_app_length. Qed.

Lemma ztake_ztake n m l : 0 <= n <= m -> ztake n (ztake m l) = ztake n l.
Proof. intros. unfold ztake. rewrite take_take. f_equal. lia. Qed.

(** Adjacent slices join. *)
Lemma ztake_slice n m l : 0 <= n -> 0 <= m -> ztake n l ++ slice n m l = ztake (n + m) l.
Proof.
  intros. unfold slice, ztake, zdrop.
  rewrite take_take_drop. f_equal. lia.
Qed.

Lemma len_slice i n l : 0 <= i -> 0 <= n -> i + n <= len l -> len (slice i n l) = n.
Proof. intros. unfold slice. rewrite len_ztake, len_zdrop; lia. Qed.

Lemma slice_app i n m l : 0 <= i -> 0 <= n -> 0 <= m -> slice i n l ++ slice (i + n) m l = slice i (n + m) l.
Proof.
  intros. unfold slice. rewrite <- (zdrop_zdrop n i) by done. by rewrite <- ztake_slice.
Qed.

Lemma zdrop_slice m i n l : 0 <= m <= n -> 0 <= i -> zdrop m (slice i n l) = slice (i + m) (n - m) l.
Proof.
  intros. unfold slice. rewrite <- (zdrop_zdrop m i) by lia. unfold ztake, zdrop.
  rewrite skipn_firstn_comm. f_equal. lia.
Qed.

Lemma ztake_slice_le m i n l : 0 <= m <= n -> ztake m (slice i n l) = slice i m l.
Proof. intros. unfold slice. by apply ztake_ztake. Qed.
End zlists.

Lemma Forall_sublist_of {A} (P : A -> Prop) (l k : list A) : sublist l k -> Forall P k -> Forall P l.
Proof. induction 1; inversion_clear 1; auto. Qed.

Lemma resize_pad {A} (x : A) l n : (length l <= n)%nat -> resize n x l = l ++ replicate (n - length l) x.
Proof. intros. by rewrite resize_spec, take_ge. Qed.
