(* ===== verification/StdMap.v ===== *)
(** [std::map] with unsigned integer keys: an association list in ascending
    order of keys, which is the order its iterators visit. *)
From S2P Require Import Prelude.

Section maps.
Context {V : Type}.
Implicit Types (m : list (Z * V)) (k : Z) (v : V).

Fixpoint find k m : option V :=
  match m with
  | [] => None
  | (k', v) :: m => if k =? k' then Some v else find k m
  end.

(** [m[k] = v] *)
Fixpoint assign k v m : list (Z * V) :=
  match m with
  | [] => [(k, v)]
  | (k', v') :: m' =>
      if k <? k' then (k, v) :: m else if k =? k' then (k, v) :: m' else (k', v') :: assign k v m'
  end.

(** [m.erase(k)] *)
Fixpoint erase k m : list (Z * V) :=
  match m with
  | [] => []
  | (k', v') :: m' => if k =? k' then m' else (k', v') :: erase k m'
  end.

(** ** The order of the keys *)

Fixpoint above (lo : Z) m : Prop :=
  match m with
  | [] => True
  | (k, _) :: m => lo < k /\ above k m
  end.

Definition sorted m : Prop := exists lo, above lo m.

Lemma above_weaken lo lo' m : lo' <= lo -> above lo m -> above lo' m.
Proof. destruct m as [|[k v] m]; simpl; [done|]. intros ? []. split; [lia|done]. Qed.

Lemma find_below lo k m : above lo m -> k <= lo -> find k m = None.
Proof.
  revert lo. induction m as [|[k' v'] m IH]; intros lo; simpl; [done|]. intros [Hl Ha] Hk.
  destruct (Z.eqb_spec k k'); [lia|]. apply (IH k'); [done|lia].
Qed.

Lemma assign_above lo k v m : above lo m -> lo < k -> above lo (assign k v m).
Proof.
  revert lo. induction m as [|[k' v'] m IH]; intros lo; simpl; [done|]. intros [Hl Ha] Hk.
  destruct (Z.ltb_spec k k'); [done|]. destruct (Z.eqb_spec k k') as [->|]; [done|]. simpl. split; [done|]. apply IH; [done|lia].
Qed.

Lemma erase_above lo k m : above lo m -> above lo (erase k m).
Proof.
  revert lo. induction m as [|[k' v'] m IH]; intros lo; simpl; [done|]. intros [Hl Ha].
  destruct (Z.eqb_spec k k'); [by apply (above_weaken k'); [lia|]|]. by split; [|apply IH].
Qed.

Lemma assign_sorted k v m : sorted m -> sorted (assign k v m).
Proof.
  intros [lo H]. exists (Z.min lo (k - 1)). apply assign_above; [|lia]. by apply (above_weaken lo); [lia|].
Qed.

Lemma erase_sorted k m : sorted m -> sorted (erase k m).
Proof. intros [lo H]. exists lo. by apply erase_above. Qed.

Lemma sorted_nil : sorted [].
Proof. by exists 0. Qed.

(** ** Lookups *)

Lemma find_assign k k' v m : find k (assign k' v m) = if k =? k' then Some v else find k m.
Proof.
  induction m as [|[k1 v1] m IH]; simpl; [by destruct (k =? k')|].
  destruct (Z.ltb_spec k' k1); [done|]. destruct (Z.eqb_spec k' k1) as [->|]; simpl.
  - by destruct (Z.eqb_spec k k1).
  - rewrite IH. destruct (Z.eqb_spec k k1), (Z.eqb_spec k k'); done || lia.
Qed.

Lemma find_erase k k' m : sorted m -> find k (erase k' m) = if k =? k' then None else find k m.
Proof.
  intros [lo Ha]. revert lo Ha. induction m as [|[k1 v1] m IH]; intros lo; simpl; [by destruct (k =? k')|].
  intros [Hl Ha]. destruct (Z.eqb_spec k' k1) as [->|]; simpl.
  - destruct (Z.eqb_spec k k1) as [->|]; [|done]. by apply (find_below k1); [|lia].
  - rewrite (IH k1 Ha). destruct (Z.eqb_spec k k1), (Z.eqb_spec k k'); done || lia.
Qed.

(** Only the contents matter: two maps that answer alike are the same. *)
Lemma sorted_ext m1 m2 : sorted m1 -> sorted m2 -> (forall k, find k m1 = find k m2) -> m1 = m2.
Proof.
  intros [lo1 H1] [lo2 H2]. assert (above (Z.min lo1 lo2) m1) as A1 by (apply (above_weaken lo1); [lia|done]).
  assert (above (Z.min lo1 lo2) m2) as A2 by (apply (above_weaken lo2); [lia|done]). clear H1 H2.
  revert A1 A2. generalize (Z.min lo1 lo2). clear lo1 lo2. revert m2.
  induction m1 as [|[k1 v1] m1 IH]; intros [|[k2 v2] m2] lo; simpl; intros A1 A2 E; [done| | |].
  - specialize (E k2). simpl in E. by rewrite Z.eqb_refl in E.
  - specialize (E k1). by rewrite Z.eqb_refl in E.
  - destruct A1 as [? A1], A2 as [? A2]. pose proof (E k1) as E1. pose proof (E k2) as E2. rewrite Z.eqb_refl in E1, E2.
    destruct (Z.eqb_spec k1 k2) as [->|Hne].
    + rewrite Z.eqb_refl in E2. injection E2 as ->. f_equal. apply (IH _ k2); [done|done|]. intros k. specialize (E k). cbn [find] in E.
      destruct (Z.eqb_spec k k2) as [Ek|]; [|done]. rewrite Ek, (find_below k2 k2 m1), (find_below k2 k2 m2); done || lia.
    + destruct (Z.eqb_spec k2 k1); [lia|]. destruct (Z.lt_ge_cases k1 k2).
      * rewrite (find_below k2 k1 m2) in E1; [done|done|lia].
      * rewrite (find_below k1 k2 m1) in E2; [done|done|lia].
Qed.

Lemma find_In k v m : sorted m -> (find k m = Some v <-> In (k, v) m).
Proof.
  intros [lo Ha]. revert lo Ha. induction m as [|[k' v'] m IH]; intros lo; simpl; [done|]. intros [Hl Ha].
  specialize (IH k' Ha). destruct (Z.eqb_spec k k') as [->|Hne].
  - split; [intros [= ->]; by left|]. intros [[= ->]|Hin]; [done|]. apply IH in Hin.
    by rewrite (find_below k' k' m Ha ltac:(lia)) in Hin.
  - rewrite IH. split; [by right|]. by intros [[= ? ?]|?].
Qed.
End maps.

(** ** Visiting every entry: erasing some and changing others *)

Fixpoint visit {V} (f : V -> option V) (m : list (Z * V)) : list (Z * V) :=
  match m with
  | [] => []
  | (k, v) :: m => match f v with Some v' => (k, v') :: visit f m | None => visit f m end
  end.

Lemma visit_above {V} (f : V -> option V) lo m : above lo m -> above lo (visit f m).
Proof.
  revert lo. induction m as [|[k v] m IH]; intros lo; simpl; [done|]. intros [Hl Ha].
  destruct (f v); simpl; [by split; [|apply IH]|]. apply (above_weaken k); [lia|]. by apply IH.
Qed.

Lemma visit_sorted {V} (f : V -> option V) m : sorted m -> sorted (visit f m).
Proof. intros [lo H]. exists lo. by apply visit_above. Qed.

Lemma find_visit {V} (f : V -> option V) k m : sorted m -> find k (visit f m) = find k m ≫= f.
Proof.
  intros [lo Ha]. revert lo Ha. induction m as [|[k' v] m IH]; intros lo; simpl; [done|]. intros [Hl Ha].
  destruct (Z.eqb_spec k k') as [->|Hne].
  - simpl. destruct (f v) eqn:E; simpl; [by rewrite Z.eqb_refl|]. rewrite (IH k' Ha). by rewrite (find_below k' k' m Ha).
  - destruct (f v); simpl; [|by apply (IH k')]. destruct (Z.eqb_spec k k'); [lia|]. by apply (IH k').
Qed.
