(* ===== verification/Text.v ===== *)
(** Numbers as text, as the sources use them: [std::to_string], [std::stoi], and the
    manipulators [hex], [setfill] and [setw] of streams. *)
From S2P Require Import Prelude.

Definition digit (d : Z) : byte := z2b (48 + d).
Definition is_digit (b : byte) : bool := (48 <=? b2z b) && (b2z b <=? 57).
Definition is_space (b : byte) : bool := (b2z b =? 32) || ((9 <=? b2z b) && (b2z b <=? 13)).

(** The decimal digits of [n] in front of [acc]: a turn per digit, and a number
    has at most as many decimal digits as binary ones. *)
Fixpoint decimal (fuel : nat) (n : Z) (acc : list byte) : list byte :=
  match fuel with
  | O => acc
  | S fuel => if n <? 10 then digit n :: acc else decimal fuel (n / 10) (digit (n mod 10) :: acc)
  end.

Definition to_string (n : Z) : list byte :=
  let m := Z.abs n in
  (if n <? 0 then [z2b 45] else []) ++ decimal (S (Z.to_nat (Z.log2 m))) m [].

(** The same in lower case hexadecimal: the [hex] manipulator of a stream. *)
Definition hex_digit (d : Z) : byte := if d <? 10 then z2b (48 + d) else z2b (87 + d).

Fixpoint hexadecimal (fuel : nat) (n : Z) (acc : list byte) : list byte :=
  match fuel with
  | O => acc
  | S fuel => if n <? 16 then hex_digit n :: acc else hexadecimal fuel (n / 16) (hex_digit (n mod 16) :: acc)
  end.

Definition to_hex (n : Z) : list byte := hexadecimal (S (Z.to_nat (Z.log2 n))) n [].

(** The fill character in front, up to the width set by [setw]. *)
Definition pad (fill : byte) (width : Z) (s : list byte) : list byte := replicate (Z.to_nat (width - len s)) fill ++ s.

(** The value of the digits at the front of [s], and how many there are. *)
Fixpoint read_digits (s : list byte) (acc : Z) (count : nat) : Z * nat :=
  match s with
  | b :: s => if is_digit b then read_digits s (acc * 10 + (b2z b - 48)) (S count) else (acc, count)
  | [] => (acc, count)
  end.

Fixpoint skip_spaces (s : list byte) : list byte :=
  match s with
  | b :: s' => if is_space b then skip_spaces s' else s
  | [] => []
  end.

Definition stoi (s : list byte) : result Z :=
  let s := skip_spaces s in
  let '(neg, s) :=
    match s with
    | b :: s' => if b2z b =? 45 then (true, s') else if b2z b =? 43 then (false, s') else (false, s)
    | [] => (false, [])
    end in
  let '(v, count) := read_digits s 0 0 in
  match count with
  | O => Throw (invalid_argument "stoi")
  | S _ =>
      let v := if neg then - v else v in
      if (v <? - 2 ^ 31) || (2 ^ 31 <=? v) then Throw (out_of_range "stoi") else Ok v
  end.

(** ** Reading back what was printed *)

Lemma b2z_digit d : 0 <= d < 10 -> b2z (digit d) = 48 + d.
Proof. intros. unfold digit. rewrite b2z_z2b. apply u8_small. lia. Qed.

Lemma is_digit_digit d : 0 <= d < 10 -> is_digit (digit d) = true.
Proof. intros. unfold is_digit. rewrite b2z_digit by done. apply andb_true_iff. split; apply Z.leb_le; lia. Qed.

Lemma read_decimal fuel n acc k v c :
  0 <= n < 2 ^ Z.of_nat fuel ->
  exists x y, read_digits (decimal fuel n acc ++ k) v c =
    read_digits (acc ++ k) (v * 10 ^ x + n) (c + y)%nat /\ (fuel = O \/ (0 < y)%nat) /\ 0 <= x.
Proof.
  revert n acc c. induction fuel as [|fuel IH]; intros n acc c Hn; cbn [decimal].
  - exists 0, 0%nat. rewrite Nat.add_0_r. replace (v * 10 ^ 0 + n) with v by lia. split_and!; [done|by left|lia].
  - destruct (Z.ltb_spec n 10).
    + exists 1, 1%nat. cbn [app read_digits]. rewrite is_digit_digit, b2z_digit by lia. split_and!; [|by right; lia|lia].
      f_equal; lia.
    + assert (0 <= n / 10 < 2 ^ Z.of_nat fuel) as Hq.
      { split; [apply Z.div_pos; lia|]. apply Z.div_lt_upper_bound; [lia|]. rewrite Nat2Z.inj_succ, Z.pow_succ_r in Hn by lia. lia. }
      pose proof (Z.mod_pos_bound n 10 ltac:(lia)).
      destruct (IH (n / 10) (digit (n mod 10) :: acc) c Hq) as (x & y & E & Hy & Hx).
      rewrite E. cbn [app read_digits]. rewrite is_digit_digit, b2z_digit by done.
      exists (x + 1), (S y). split_and!; [|right; lia|lia]. f_equal; [|lia].
      rewrite Z.pow_add_r by lia. pose proof (Z.div_mod n 10 ltac:(lia)). lia.
Qed.

Lemma decimal_front fuel n acc : 0 <= n -> (0 < fuel)%nat -> exists d r, decimal fuel n acc = digit d :: r /\ 0 <= d < 10.
Proof.
  revert n acc. induction fuel as [|fuel IH]; intros n acc Hn Hf; [lia|]. cbn [decimal].
  destruct (Z.ltb_spec n 10); [by eexists _, _|]. destruct fuel as [|fuel].
  - cbn [decimal]. eexists _, _. split; [done|]. by apply Z.mod_pos_bound.
  - apply IH; [apply Z.div_pos; lia|lia].
Qed.

(** A number printed by [to_string] is read back by [stoi]. *)
Lemma stoi_to_string n : 0 <= n < 2 ^ 31 -> stoi (to_string n) = Ok n.
Proof.
  intros Hn. unfold to_string. rewrite Z.abs_eq by lia. destruct (Z.ltb_spec n 0); [lia|]. cbn [app].
  set (fuel := S (Z.to_nat (Z.log2 n))).
  assert (0 <= n < 2 ^ Z.of_nat fuel) as Hf.
  { unfold fuel. rewrite Nat2Z.inj_succ, Z2Nat.id by apply Z.log2_nonneg. destruct (Z.eq_dec n 0) as [->|]; [by vm_compute|].
    pose proof (Z.log2_spec n ltac:(lia)). lia. }
  destruct (read_decimal fuel n [] [] 0 0 Hf) as (x & y & E & Hy & _).
  rewrite !app_nil_r in E. cbn [read_digits] in E.
  destruct (decimal_front fuel n [] ltac:(lia) ltac:(lia)) as (d & r & Ed & Hd). rewrite Ed in E |- *.
  unfold stoi. cbn [skip_spaces]. unfold is_space. rewrite b2z_digit by done.
  destruct (Z.eqb_spec (48 + d) 32), (Z.leb_spec (48 + d) 13), (Z.eqb_spec (48 + d) 45), (Z.eqb_spec (48 + d) 43); try lia.
  rewrite andb_false_r. cbn [orb]. rewrite b2z_digit by done.
  destruct (Z.eqb_spec (48 + d) 45), (Z.eqb_spec (48 + d) 43); try lia.
  rewrite E. rewrite Z.mul_0_l, Z.add_0_l, Nat.add_0_l. destruct y as [|y]; [destruct Hy; [done|lia]|].
  destruct (Z.ltb_spec n (- 2 ^ 31)), (Z.leb_spec (2 ^ 31) n); done || lia.
Qed.

(** The value of a hexadecimal digit. *)
Definition of_hex_digit (b : byte) : option Z :=
  let z := b2z b in
  if is_digit b then Some (z - 48) else if (97 <=? z) && (z <=? 102) then Some (z - 87) else None.

Lemma of_hex_digit_eq d : 0 <= d < 16 -> of_hex_digit (hex_digit d) = Some d.
Proof.
  intros Hd. unfold of_hex_digit, hex_digit, is_digit. destruct (Z.ltb_spec d 10); rewrite b2z_z2b, u8_small by lia;
    repeat (case_match; rewrite ?andb_true_iff, ?andb_false_iff, ?Z.leb_le, ?Z.leb_gt in *); try (f_equal; lia); lia.
Qed.

Lemma length_hexadecimal fuel n acc k :
  0 <= n < 16 ^ Z.of_nat k -> (0 < k)%nat -> exists m, (m <= k)%nat /\ length (hexadecimal fuel n acc) = (m + length acc)%nat.
Proof.
  revert n acc k. induction fuel as [|fuel IH]; intros n acc k Hn Hk; cbn [hexadecimal]; [by exists 0%nat; lia|].
  destruct (Z.ltb_spec n 16); [by exists 1%nat; simpl; lia|].
  destruct k as [|[|k]]; [lia|simpl in Hn; lia|].
  destruct (IH (n / 16) (hex_digit (n mod 16) :: acc) (S k)) as (m & Hm & E); [|lia|].
  - split; [apply Z.div_pos; lia|]. apply Z.div_lt_upper_bound; [lia|]. rewrite (Nat2Z.inj_succ (S k)), Z.pow_succ_r in Hn by lia. lia.
  - exists (S m). rewrite E. simpl. lia.
Qed.

(** A number of at most [k] digits, filled up to [k]. *)
Lemma length_pad_hex fill n k : 0 <= n < 16 ^ Z.of_nat k -> (0 < k)%nat -> length (pad fill (Z.of_nat k) (to_hex n)) = k.
Proof.
  intros Hn Hk. destruct (length_hexadecimal (S (Z.to_nat (Z.log2 n))) n [] k Hn Hk) as (m & Hm & E).
  unfold pad. rewrite length_app, length_replicate. unfold to_hex. rewrite E. simpl. lia.
Qed.

(** A byte in two digits. *)
Lemma pad_hex_byte b :
  pad (z2b 48) 2 (to_hex (b2z b)) = [hex_digit (b2z b / 16); hex_digit (b2z b mod 16)].
Proof. by destruct b. Qed.
