(* ===== verification/WrappingIntegers.v ===== *)
(** * 32-bit sequence numbers ([libsponge/wrapping_integers.hh], [.cc])

    [WrappingInt32] is a raw 32-bit value; [wrap] and [unwrap] convert between
    it and a 64-bit absolute sequence number, every conversion of the C++ code
    ([uint32_t], [int32_t], [int64_t], [uint64_t]) written out. *)
From S2P Require Import Prelude.

(** ** The type and its operators *)

Record WrappingInt32 := mkWrappingInt32 { _raw_value : Z }.

(** The constructor takes a [uint32_t]: its argument is reduced to 32 bits. *)
Definition WrappingInt32_of (raw_value : Z) : WrappingInt32 := mkWrappingInt32 (u32 raw_value).

Definition raw_value (w : WrappingInt32) : Z := _raw_value w.

#[export] Instance WrappingInt32_eq_dec : EqDecision WrappingInt32.
Proof. solve_decision. Defined.

(** [operator-(WrappingInt32, WrappingInt32)], an [int32_t]. *)
Definition sub_wrapping (a b : WrappingInt32) : Z := s32 (u32 (raw_value a - raw_value b)).

(** The comparison operators compare raw values. *)
Definition eq_wrapping (a b : WrappingInt32) : bool := raw_value a =? raw_value b.
Definition ne_wrapping (a b : WrappingInt32) : bool := negb (eq_wrapping a b).
Definition ge_wrapping (a b : WrappingInt32) : bool := raw_value b <=? raw_value a.
Definition gt_wrapping (a b : WrappingInt32) : bool := raw_value b <? raw_value a.
Definition lt_wrapping (a b : WrappingInt32) : bool := raw_value a <? raw_value b.

(** [operator+(WrappingInt32, uint32_t)] and [operator-(WrappingInt32, uint32_t)]. *)
Definition add_u32 (a : WrappingInt32) (b : Z) : WrappingInt32 := WrappingInt32_of (raw_value a + b).
Definition sub_u32 (a : WrappingInt32) (b : Z) : WrappingInt32 := add_u32 a (u32 (- b)).

(** ** Conversions *)

Definition wrap (n : Z) (isn : WrappingInt32) : WrappingInt32 := add_u32 isn (u32 n).

Definition unwrap (n isn : WrappingInt32) (checkpoint : Z) : Z :=
  let rlt := wrap checkpoint isn in
  let distance := sub_wrapping n rlt in
  let Abs_seqno := s64 (u64 (checkpoint + u64 distance)) in
  if 0 <=? Abs_seqno then u64 Abs_seqno else u64 (Abs_seqno + Z.shiftl 1 32).

(** A value that the constructor can build: its raw value has 32 bits. *)
Definition wf (w : WrappingInt32) : Prop := 0 <= raw_value w < 2 ^ 32.

Lemma wf_wrap n isn : wf (wrap n isn).
Proof. apply u32_range. Qed.
#[export] Hint Resolve wf_wrap : sponge.

Lemma wf_ext a b : raw_value a = raw_value b -> a = b.
Proof. destruct a, b; simpl; congruence. Qed.

Lemma raw_wrap n isn : raw_value (wrap n isn) = u32 (raw_value isn + n).
Proof. unfold wrap, add_u32, WrappingInt32_of; simpl. apply u32_add_r. Qed.

(** The signed distance is the representative of the difference in
    [[-2^31, 2^31)]. *)
Lemma sub_wrapping_range a b : - 2 ^ 31 <= sub_wrapping a b < 2 ^ 31.
Proof. unfold sub_wrapping, s32. pose proof (u32_range (u32 (raw_value a - raw_value b))). case_match; lia. Qed.

Lemma sub_wrapping_cong a b : exists k, sub_wrapping a b = raw_value a - raw_value b + 2 ^ 32 * k.
Proof.
  unfold sub_wrapping, s32.
  destruct (u32_eq (u32 (raw_value a - raw_value b))) as [k1 E1].
  destruct (u32_eq (raw_value a - raw_value b)) as [k2 E2].
  case_match; [exists (- k1 - k2)|exists (- k1 - k2 - 1)]; lia.
Qed.

(** Two absolute numbers wrap alike exactly when they differ by a multiple of
    [2^32]. *)
Lemma wrap_cong m n isn : wrap m isn = wrap n isn <-> exists k, m = n + 2 ^ 32 * k.
Proof.
  split.
  - intros E. apply (f_equal raw_value) in E. rewrite !raw_wrap in E.
    destruct (u32_eq (raw_value isn + m)) as [k1 E1], (u32_eq (raw_value isn + n)) as [k2 E2].
    exists (k1 - k2). lia.
  - intros [k ->]. apply wf_ext. rewrite !raw_wrap. unfold u32.
    replace (raw_value isn + (n + 2 ^ 32 * k)) with ((raw_value isn + n) + k * 2 ^ 32) by lia.
    apply Z_mod_plus_full.
Qed.

(** Every 32-bit value is the wrapping of some absolute number. *)
Lemma wrap_surj n isn : wf n -> exists m, wrap m isn = n.
Proof.
  intros Hn. exists (raw_value n - raw_value isn). apply wf_ext.
  rewrite raw_wrap. rewrite u32_small; unfold wf in Hn; lia.
Qed.

(** [unwrap] below [2^63]: the checkpoint plus the signed distance, moved up by
    [2^32] when that would be negative. *)
Lemma unwrap_spec n isn cp :
  0 <= cp < 2 ^ 63 - 2 ^ 31 ->
  let d := sub_wrapping n (wrap cp isn) in
  unwrap n isn cp = if 0 <=? cp + d then cp + d else cp + d + 2 ^ 32.
Proof.
  intros Hcp d. unfold unwrap. fold d.
  pose proof (sub_wrapping_range n (wrap cp isn)) as Hd. fold d in Hd.
  assert (s64 (u64 (cp + u64 d)) = cp + d) as ->.
  { assert (u64 (cp + u64 d) = u64 (cp + d)) as -> by apply Zplus_mod_idemp_r.
    unfold s64. rewrite (u64_small (u64 _)) by apply u64_range.
    destruct (decide (0 <= cp + d)).
    - rewrite u64_small by lia. case_match; lia.
    - assert (u64 (cp + d) = cp + d + 2 ^ 64) as ->; [|case_match; lia].
      unfold u64. rewrite <- (Z_mod_plus_full _ 1). rewrite Z.mod_small; lia. }
  change (Z.shiftl 1 32) with (2 ^ 32).
  destruct (Z.leb_spec 0 (cp + d)); rewrite u64_small; lia.
Qed.

Lemma unwrap_range n isn cp : 0 <= unwrap n isn cp < 2 ^ 64.
Proof. unfold unwrap. case_match; apply u64_range. Qed.

Lemma wrap_unwrap n isn cp :
  wf n -> 0 <= cp < 2 ^ 63 - 2 ^ 31 -> wrap (unwrap n isn cp) isn = n.
Proof.
  intros Hn Hcp. rewrite unwrap_spec by done.
  destruct (wrap_surj n isn Hn) as [m Hm]. trans (wrap m isn); [apply wrap_cong|done].
  destruct (sub_wrapping_cong n (wrap cp isn)) as [k Hk].
  rewrite raw_wrap in Hk.
  assert (exists j, raw_value n = raw_value isn + m - 2 ^ 32 * j) as [j Hj].
  { rewrite <- Hm, raw_wrap. apply u32_eq. }
  destruct (u32_eq (raw_value isn + cp)) as [i Hi].
  case_match; [exists (k - j + i)|exists (k - j + i + 1)]; lia.
Qed.

(** [unwrap] inverts [wrap] for every number within [2^31] of the checkpoint. *)
Lemma unwrap_wrap_near n isn cp :
  0 <= n -> 0 <= cp < 2 ^ 63 - 2 ^ 31 -> - 2 ^ 31 <= n - cp < 2 ^ 31 ->
  unwrap (wrap n isn) isn cp = n.
Proof.
  intros Hn Hcp Hd. rewrite unwrap_spec by done.
  assert (sub_wrapping (wrap n isn) (wrap cp isn) = n - cp) as ->.
  { pose proof (sub_wrapping_range (wrap n isn) (wrap cp isn)).
    destruct (sub_wrapping_cong (wrap n isn) (wrap cp isn)) as [k Hk].
    rewrite !raw_wrap in Hk.
    destruct (u32_eq (raw_value isn + n)) as [i Hi], (u32_eq (raw_value isn + cp)) as [j Hj].
    lia. }
  case_match; lia.
Qed.

(** ** What the conversions promise *)

(** C14: [unwrap(n, isn, checkpoint)] is a 64-bit absolute sequence number that
    wraps back to [n], and no other non-negative number wrapping to [n] is
    closer to the checkpoint, for every checkpoint below [2^63 - 2^31]. *)
Theorem unwrap_closest n isn cp :
  wf n -> 0 <= cp < 2 ^ 63 - 2 ^ 31 ->
  wrap (unwrap n isn cp) isn = n /\
  0 <= unwrap n isn cp < 2 ^ 64 /\
  forall m, 0 <= m -> wrap m isn = n -> Z.abs (unwrap n isn cp - cp) <= Z.abs (m - cp).
Proof.
  intros Hn Hcp. pose proof (wrap_unwrap n isn cp Hn Hcp) as Hw.
  split_and!; [done|apply unwrap_range..|].
  intros m Hm Em. rewrite <- Hw in Em. apply wrap_cong in Em as [k Hk].
  rewrite unwrap_spec in * by done.
  pose proof (sub_wrapping_range n (wrap cp isn)). case_match; lia.
Qed.

Lemma unwrap_closest_witness :
  wrap (unwrap (WrappingInt32_of 17) (WrappingInt32_of 15) (2 ^ 32 + 1)) (WrappingInt32_of 15)
    = WrappingInt32_of 17 /\
  unwrap (WrappingInt32_of 17) (WrappingInt32_of 15) (2 ^ 32 + 1) = 2 ^ 32 + 2.
Proof.
  split; [|reflexivity].
  apply (unwrap_closest (WrappingInt32_of 17) (WrappingInt32_of 15) (2 ^ 32 + 1)).
  - unfold wf; simpl. vm_compute. done.
  - lia.
Defined.

(** wrapping then unwrapping is the identity on every absolute sequence
    number less than [2^31] away from the checkpoint, whatever the ISN. *)
Theorem unwrap_wrap_roundtrip n isn cp :
  0 <= n -> 0 <= cp < 2 ^ 63 - 2 ^ 31 -> Z.abs (n - cp) < 2 ^ 31 ->
  unwrap (wrap n isn) isn cp = n.
Proof. intros. apply unwrap_wrap_near; lia. Qed.

Lemma unwrap_wrap_roundtrip_witness :
  unwrap (wrap (3 * 2 ^ 32 - 7) (WrappingInt32_of 4294967290)) (WrappingInt32_of 4294967290) (3 * 2 ^ 32 + 9)
    = 3 * 2 ^ 32 - 7.
Proof. apply (unwrap_wrap_roundtrip (3 * 2 ^ 32 - 7) (WrappingInt32_of 4294967290) (3 * 2 ^ 32 + 9)); lia. Defined.

(** the signed test in [unwrap] reads a checkpoint of [2^63] or more as
    negative, so unwrapping a number at its own checkpoint returns a value
    [2^32] too large there instead of the checkpoint itself. *)
Theorem unwrap_high_checkpoint isn cp :
  2 ^ 63 <= cp < 2 ^ 64 - 2 ^ 32 -> unwrap (wrap cp isn) isn cp = cp + 2 ^ 32.
Proof.
  intros Hcp. unfold unwrap.
  assert (sub_wrapping (wrap cp isn) (wrap cp isn) = 0) as ->.
  { unfold sub_wrapping. by rewrite Z.sub_diag. }
  rewrite (u64_small 0), Z.add_0_r, (u64_small cp) by lia.
  assert (s64 cp = cp - 2 ^ 64) as ->.
  { unfold s64. rewrite u64_small by lia. case_match; lia. }
  change (Z.shiftl 1 32) with (2 ^ 32).
  destruct (Z.leb_spec 0 (cp - 2 ^ 64)); [lia|].
  rewrite <- (u64_small (cp + 2 ^ 32)) by lia. unfold u64.
  rewrite <- (Z_mod_plus_full _ 1). f_equal. lia.
Qed.

Lemma unwrap_high_checkpoint_witness :
  unwrap (wrap (2 ^ 63) (WrappingInt32_of 0)) (WrappingInt32_of 0) (2 ^ 63) = 2 ^ 63 + 2 ^ 32.
Proof. apply (unwrap_high_checkpoint (WrappingInt32_of 0) (2 ^ 63)). lia. Defined.
