(* ===== verification/ByteStream.v ===== *)
(** * The in-memory byte stream ([libsponge/byte_stream.hh], [.cc])

    A bounded FIFO of bytes with a writer and a reader side, and the counters
    the rest of the stack reads.  The abstract specification is the pair of the
    whole history of accepted bytes and the number of bytes popped. *)
From S2P Require Import Prelude.

(** ** State *)

Record ByteStream := mkByteStream {
  _error : bool;
  _input_ended : bool;
  _capacity : Z;
  _buffer_size : Z;
  _bytes_written : Z;
  _bytes_read : Z;
  _stream : list byte
}.

(** ** Operations *)

Definition ByteStream_of (capacity : Z) : ByteStream := mkByteStream false false capacity 0 0 0 [].

(** One turn of the loop of [write]: the three statements of its body. *)
Definition push_back (c : byte) (s : ByteStream) : ByteStream :=
  mkByteStream (_error s) (_input_ended s) (_capacity s)
    (u64 (_buffer_size s + 1)) (u64 (_bytes_written s + 1)) (_bytes_read s) (_stream s ++ [c]).

Fixpoint write_loop (writeable_size : nat) (data : list byte) (s : ByteStream) : ByteStream :=
  match writeable_size, data with
  | S n, c :: data' => write_loop n data' (push_back c s)
  | _, _ => s
  end.

Definition write (data : list byte) (s : ByteStream) : Z * ByteStream :=
  let remaining_capacity := u64 (_capacity s - _buffer_size s) in
  if (remaining_capacity =? 0) || (len data =? 0) then (0, s)
  else
    let writeable_size := if remaining_capacity <? len data then remaining_capacity else len data in
    (writeable_size, write_loop (Z.to_nat writeable_size) data s).

Definition peek_output (n : Z) (s : ByteStream) : list byte :=
  let peek_len := if _buffer_size s <? n then _buffer_size s else n in
  ztake peek_len (_stream s).

Definition pop_output (n : Z) (s : ByteStream) : ByteStream :=
  let pop_len := if _buffer_size s <? n then _buffer_size s else n in
  mkByteStream (_error s) (_input_ended s) (_capacity s)
    (u64 (_buffer_size s - pop_len)) (_bytes_written s) (u64 (_bytes_read s + pop_len))
    (zdrop pop_len (_stream s)).

Definition read (n : Z) (s : ByteStream) : list byte * ByteStream :=
  if n =? 0 then ([], s) else (peek_output n s, pop_output n s).

Definition end_input (s : ByteStream) : ByteStream :=
  mkByteStream (_error s) true (_capacity s) (_buffer_size s) (_bytes_written s) (_bytes_read s) (_stream s).

Definition set_error (s : ByteStream) : ByteStream :=
  mkByteStream true (_input_ended s) (_capacity s) (_buffer_size s) (_bytes_written s) (_bytes_read s) (_stream s).

Definition error (s : ByteStream) : bool := _error s.
Definition input_ended (s : ByteStream) : bool := _input_ended s.
Definition buffer_size (s : ByteStream) : Z := _buffer_size s.
Definition buffer_empty (s : ByteStream) : bool := len (_stream s) =? 0.
Definition eof (s : ByteStream) : bool := _input_ended s && buffer_empty s.
Definition bytes_written (s : ByteStream) : Z := _bytes_written s.
Definition bytes_read (s : ByteStream) : Z := _bytes_read s.
Definition remaining_capacity (s : ByteStream) : Z := u64 (_capacity s - _buffer_size s).

(** ** Invariant *)

Record wf (s : ByteStream) : Prop := {
  wf_capacity : 0 <= _capacity s < 2 ^ 64;
  wf_size : _buffer_size s = len (_stream s);
  wf_fits : len (_stream s) <= _capacity s;
  wf_written : _bytes_written s = u64 (_bytes_read s + len (_stream s));
  wf_read : 0 <= _bytes_read s < 2 ^ 64
}.

Lemma wf_init capacity : 0 <= capacity < 2 ^ 64 -> wf (ByteStream_of capacity).
Proof. intros. constructor; simpl; try lia. done. Qed.

Lemma remaining_capacity_eq s : wf s -> remaining_capacity s = _capacity s - len (_stream s).
Proof. intros []. unfold remaining_capacity. rewrite wf_size0. apply u64_small. lia. Qed.

(** The byte-by-byte loop is one append. *)
Lemma write_loop_eq n data s :
  let d := take n data in
  write_loop n data s =
  mkByteStream (_error s) (_input_ended s) (_capacity s)
    (match d with [] => _buffer_size s | _ => u64 (_buffer_size s + len d) end)
    (match d with [] => _bytes_written s | _ => u64 (_bytes_written s + len d) end)
    (_bytes_read s) (_stream s ++ d).
Proof.
  revert data s. induction n as [|n IH]; intros [|c data] s; simpl.
  1-3: destruct s; simpl; by rewrite app_nil_r.
  rewrite IH; simpl. rewrite <- app_assoc. simpl. f_equal.
  - destruct (take n data) eqn:E; simpl; [f_equal; lia|]. rewrite u64_add_l. f_equal. lia.
  - destruct (take n data) eqn:E; simpl; [f_equal; lia|]. rewrite u64_add_l. f_equal. lia.
Qed.

(** What [write] accepts: as much as fits. *)
Definition accepted (data : list byte) (s : ByteStream) : list byte :=
  ztake (_capacity s - len (_stream s)) data.

Lemma write_eq data s :
  wf s ->
  let d := accepted data s in
  write data s =
  (len d, mkByteStream (_error s) (_input_ended s) (_capacity s) (len (_stream s) + len d)
            (u64 (_bytes_read s + len (_stream s) + len d)) (_bytes_read s) (_stream s ++ d)).
Proof.
  intros Hwf d. destruct Hwf as [Hc Hs Hf Hw Hr]. subst d.
  unfold write, accepted. rewrite Hs. rewrite u64_small by lia.
  assert (Hid : (0, s) = (0, mkByteStream (_error s) (_input_ended s) (_capacity s) (len (_stream s) + 0)
            (u64 (_bytes_read s + len (_stream s) + 0)) (_bytes_read s) (_stream s ++ []))).
  { f_equal. rewrite app_nil_r, !Z.add_0_r. destruct s; simpl in *. congruence. }
  destruct (Z.eqb_spec (_capacity s - len (_stream s)) 0) as [->|]; simpl.
  { rewrite ztake_0. exact Hid. }
  destruct (Z.eqb_spec (len data) 0) as [E|]; simpl.
  { assert (data = []) as -> by (destruct data; [done|simpl in E; lia]).
    rewrite ztake_all by (simpl; lia). exact Hid. }
  rewrite write_loop_eq.
  set (w := if _ <? _ then _ else _).
  assert (take (Z.to_nat w) data = ztake (_capacity s - len (_stream s)) data) as ->.
  { subst w. zcase; unfold ztake; [done|]. rewrite !take_ge by lia. done. }
  assert (w = len (ztake (_capacity s - len (_stream s)) data)) as ->.
  { rewrite len_ztake by lia. subst w. zcase; lia. }
  destruct (ztake (_capacity s - len (_stream s)) data) as [|c d] eqn:E.
  { apply (f_equal length) in E. unfold ztake in E. rewrite length_take in E. simpl in E. lia. }
  assert (len (c :: d) <= _capacity s - len (_stream s)).
  { rewrite <- E, len_ztake; lia. }
  f_equal. f_equal.
  - rewrite Hs. apply u64_small. lia.
  - rewrite Hw, u64_add_l. done.
Qed.

Lemma pop_output_eq n s :
  wf s -> 0 <= n ->
  let k := Z.min n (len (_stream s)) in
  pop_output n s = mkByteStream (_error s) (_input_ended s) (_capacity s) (len (_stream s) - k)
                     (_bytes_written s) (u64 (_bytes_read s + k)) (zdrop n (_stream s)).
Proof.
  intros [Hc Hs Hf Hw Hr] Hn k. unfold pop_output. rewrite Hs.
  destruct (Z.ltb_spec (len (_stream s)) n).
  - assert (k = len (_stream s)) as -> by lia. f_equal; [apply u64_small; lia|].
    rewrite !zdrop_all by lia. done.
  - assert (k = n) as -> by lia. f_equal. apply u64_small; lia.
Qed.

Lemma peek_output_eq n s : wf s -> peek_output n s = ztake n (_stream s).
Proof.
  intros [Hc Hs Hf Hw Hr]. unfold peek_output. rewrite Hs. zcase; [|done].
  rewrite !ztake_all by lia. done.
Qed.

Lemma wf_write data s : wf s -> wf (write data s).2.
Proof.
  intros Hwf. rewrite write_eq by done. destruct Hwf. constructor; simpl; try done.
  - rewrite len_app. done.
  - rewrite len_app. unfold accepted. rewrite len_ztake; lia.
  - rewrite len_app. f_equal. lia.
Qed.

Lemma wf_pop n s : wf s -> 0 <= n -> wf (pop_output n s).
Proof.
  intros Hwf Hn. rewrite pop_output_eq by done. destruct Hwf as [Hc Hs Hf Hw Hr].
  constructor; simpl; try done; rewrite ?len_zdrop by done; try lia.
  - rewrite Hw, u64_add_l. f_equal. lia.
  - apply u64_range.
Qed.

Lemma wf_read_op n s : wf s -> 0 <= n -> wf (read n s).2.
Proof. intros. unfold read. zcase; [done|]. by apply wf_pop. Qed.

Lemma wf_end_input s : wf s -> wf (end_input s).
Proof. intros []. by constructor. Qed.

Lemma wf_set_error s : wf s -> wf (set_error s).
Proof. intros []. by constructor. Qed.

#[export] Hint Resolve wf_init wf_write wf_pop wf_read_op wf_end_input wf_set_error : sponge.

(** ** Abstract specification: the history of the stream *)

(** Everything ever accepted, and how much of it the reader has taken. *)
Record history := mkHistory { h_written : list byte; h_popped : Z; h_ended : bool; h_error : bool }.

Inductive op :=
  | OWrite (data : list byte)
  | OPop (n : Z)
  | ORead (n : Z)
  | OEnd
  | OError.

(** Lengths are [size_t] values. *)
Definition op_ok (o : op) : Prop :=
  match o with OPop n | ORead n => 0 <= n < 2 ^ 64 | _ => True end.

Definition exec (s : ByteStream) (o : op) : ByteStream :=
  match o with
  | OWrite data => (write data s).2
  | OPop n => pop_output n s
  | ORead n => (read n s).2
  | OEnd => end_input s
  | OError => set_error s
  end.

(** The bytes an operation hands to the reader. *)
Definition delivers (s : ByteStream) (o : op) : list byte :=
  match o with
  | OPop n => peek_output n s
  | ORead n => (read n s).1
  | _ => []
  end.

Definition spec_exec (capacity : Z) (h : history) (o : op) : history :=
  match o with
  | OWrite data =>
      mkHistory (h_written h ++ ztake (capacity - (len (h_written h) - h_popped h)) data)
        (h_popped h) (h_ended h) (h_error h)
  | OPop n | ORead n =>
      mkHistory (h_written h) (Z.min (h_popped h + n) (len (h_written h))) (h_ended h) (h_error h)
  | OEnd => mkHistory (h_written h) (h_popped h) true (h_error h)
  | OError => mkHistory (h_written h) (h_popped h) (h_ended h) true
  end.

Definition history0 : history := mkHistory [] 0 false false.

(** The stream state that a history stands for. *)
Definition of_history (capacity : Z) (h : history) : ByteStream :=
  mkByteStream (h_error h) (h_ended h) capacity (len (h_written h) - h_popped h)
    (u64 (len (h_written h))) (u64 (h_popped h)) (zdrop (h_popped h) (h_written h)).

Definition history_ok (capacity : Z) (h : history) : Prop :=
  0 <= h_popped h <= len (h_written h) /\ len (h_written h) - h_popped h <= capacity.

Lemma wf_of_history capacity h :
  0 <= capacity < 2 ^ 64 -> history_ok capacity h -> wf (of_history capacity h).
Proof.
  intros Hc [Hp Hf]. constructor; simpl; rewrite ?len_zdrop by lia; try lia.
  - rewrite u64_add_l. f_equal. lia.
  - apply u64_range.
Qed.

Lemma spec_exec_ok capacity h o :
  0 <= capacity < 2 ^ 64 -> op_ok o -> history_ok capacity h -> history_ok capacity (spec_exec capacity h o).
Proof.
  intros Hc Ho [Hp Hf]. destruct o; unfold history_ok; simpl in *; try lia.
  rewrite len_app, len_ztake; lia.
Qed.

(** One operation: the code's step is the specification's step. *)
Lemma exec_of_history capacity h o :
  0 <= capacity < 2 ^ 64 -> op_ok o -> history_ok capacity h ->
  exec (of_history capacity h) o = of_history capacity (spec_exec capacity h o).
Proof.
  intros Hc Ho Hh. pose proof (wf_of_history capacity h Hc Hh) as Hwf. destruct Hh as [Hp Hf].
  assert (Hpop : forall n, 0 <= n -> pop_output n (of_history capacity h) =
    of_history capacity (spec_exec capacity h (OPop n))).
  { intros n Hn. rewrite pop_output_eq by done. unfold of_history; simpl.
    rewrite len_zdrop by lia. f_equal; try lia.
    - rewrite u64_add_l. f_equal. lia.
    - rewrite zdrop_zdrop by lia. destruct (decide (h_popped h + n <= len (h_written h))).
      + f_equal. lia.
      + rewrite !zdrop_all by lia. done. }
  destruct o as [data|n|n| |]; simpl in *; [|by apply Hpop; lia| |done|done].
  - rewrite write_eq by done. unfold accepted, of_history; simpl.
    rewrite len_zdrop by lia. rewrite Z.max_r by lia. f_equal.
    + rewrite len_app. lia.
    + rewrite len_app, <- Z.add_assoc, u64_add_l. f_equal. lia.
    + rewrite zdrop_app_le by lia. done.
  - unfold read. destruct (Z.eqb_spec n 0) as [->|]; simpl; [|apply Hpop; lia].
    unfold of_history; simpl. rewrite Z.add_0_r, Z.min_l by lia. done.
Qed.

Lemma delivers_of_history capacity h o :
  0 <= capacity < 2 ^ 64 -> op_ok o -> history_ok capacity h ->
  ztake (h_popped h) (h_written h) ++ delivers (of_history capacity h) o =
  ztake (h_popped (spec_exec capacity h o)) (h_written (spec_exec capacity h o)).
Proof.
  intros Hc Ho Hh. pose proof (wf_of_history capacity h Hc Hh) as Hwf. destruct Hh as [Hp Hf].
  assert (Htk : forall n, 0 <= n -> ztake (h_popped h) (h_written h) ++ peek_output n (of_history capacity h) =
    ztake (Z.min (h_popped h + n) (len (h_written h))) (h_written h)).
  { intros n Hn. rewrite peek_output_eq by done. simpl.
    pose proof (ztake_slice (h_popped h) n (h_written h)) as E. unfold slice in E. rewrite E by lia.
    destruct (decide (h_popped h + n <= len (h_written h))); [f_equal; lia|].
    rewrite !ztake_all by lia. done. }
  destruct o as [data|n|n| |]; simpl in *; rewrite ?app_nil_r; try done.
  - rewrite ztake_app_le by lia. done.
  - apply Htk. lia.
  - unfold read. destruct (Z.eqb_spec n 0) as [->|]; simpl; [|apply Htk; lia].
    rewrite app_nil_r. f_equal. lia.
Qed.

(** Running a sequence of operations: the final state and what was delivered. *)
Fixpoint run (ops : list op) (s : ByteStream) : list byte * ByteStream :=
  match ops with
  | [] => ([], s)
  | o :: ops' => let '(out, s') := run ops' (exec s o) in (delivers s o ++ out, s')
  end.

Lemma run_of_history capacity ops h :
  0 <= capacity < 2 ^ 64 -> Forall op_ok ops -> history_ok capacity h ->
  let h' := foldl (spec_exec capacity) h ops in
  history_ok capacity h' /\
  (run ops (of_history capacity h)).2 = of_history capacity h' /\
  ztake (h_popped h) (h_written h) ++ (run ops (of_history capacity h)).1 = ztake (h_popped h') (h_written h').
Proof.
  intros Hc Hops. revert h. induction Hops as [|o ops Ho Hops IH]; intros h Hh h'; subst h'; simpl.
  { by rewrite app_nil_r. }
  rewrite exec_of_history by done.
  destruct (IH (spec_exec capacity h o)) as (IH1 & IH2 & IH3); [by apply spec_exec_ok|].
  destruct (run ops (of_history capacity (spec_exec capacity h o))) as [out s'] eqn:E; simpl in *.
  split_and!; [done..|]. rewrite app_assoc, delivers_of_history; done.
Qed.

(** ** What the stream promises *)

(** C12: the stream refines its history.  After any sequence of writes, pops,
    reads, [end_input] and [set_error] on a fresh stream, the whole object
    (buffer, counters modulo [2^64] and flags) is the one the specification
    derives from the bytes accepted and the number popped; every write accepts
    exactly what fits. *)
Theorem bytestream_refines_history capacity ops :
  0 <= capacity < 2 ^ 64 -> Forall op_ok ops ->
  (run ops (ByteStream_of capacity)).2 = of_history capacity (foldl (spec_exec capacity) history0 ops).
Proof.
  intros Hc Hops. apply (run_of_history capacity ops history0); try done.
  split; simpl; lia.
Qed.

Lemma bytestream_refines_history_witness :
  (run [OWrite (lit "abc"); ORead 1; OWrite (lit "de"); OEnd] (ByteStream_of 3)).2
    = of_history 3 (mkHistory (lit "abcd") 1 true false).
Proof.
  apply (bytestream_refines_history 3 [OWrite (lit "abc"); ORead 1; OWrite (lit "de"); OEnd]).
  - lia.
  - repeat constructor; simpl; lia.
Defined.

(** no byte is lost, duplicated or reordered: what readers have been
    given, followed by what is still buffered, is exactly the concatenation of
    the accepted prefixes of the writes, and the buffer never exceeds the
    capacity. *)
Theorem bytestream_fifo capacity ops :
  0 <= capacity < 2 ^ 64 -> Forall op_ok ops ->
  let '(out, s) := run ops (ByteStream_of capacity) in
  out ++ _stream s = h_written (foldl (spec_exec capacity) history0 ops) /\
  buffer_size s = len (_stream s) /\ len (_stream s) <= capacity.
Proof.
  intros Hc Hops.
  destruct (run_of_history capacity ops history0) as ([Hp Hf] & Hs & Hout); try done.
  { split; simpl; lia. }
  change (of_history capacity history0) with (ByteStream_of capacity) in *.
  destruct (run ops (ByteStream_of capacity)) as [out s]; simpl in *. subst s out; simpl.
  rewrite ztake_zdrop, len_zdrop by lia. unfold buffer_size; simpl. split; [done|lia].
Qed.

Lemma bytestream_fifo_witness :
  let '(out, s) := run [OWrite (lit "abc"); ORead 2; OWrite (lit "def"); OPop 1] (ByteStream_of 3) in
  out ++ _stream s = (lit "abcde") /\ buffer_size s = len (_stream s) /\ len (_stream s) <= 3.
Proof.
  apply (bytestream_fifo 3 [OWrite (lit "abc"); ORead 2; OWrite (lit "def"); OPop 1]).
  - lia.
  - repeat constructor; simpl; lia.
Defined.

(** the class comment says that no more bytes can be written once the
    writer has ended the input; [write] does not look at the flag and accepts
    bytes after [end_input] exactly as before it, so a stream at end of file
    can leave that state again. *)
Theorem write_after_end_input data s :
  wf s -> 0 < remaining_capacity s -> data <> [] ->
  input_ended (end_input s) = true /\
  0 < (write data (end_input s)).1 /\ (write data (end_input s)).1 = (write data s).1 /\
  eof (write data (end_input s)).2 = false.
Proof.
  intros Hwf Hrc Hd. rewrite remaining_capacity_eq in Hrc by done.
  rewrite !write_eq by (try done; by apply wf_end_input). unfold accepted; simpl.
  assert (0 < len (ztake (_capacity s - len (_stream s)) data)).
  { rewrite len_ztake by lia. destruct data; [done|simpl; lia]. }
  split_and!; try done.
  unfold eof, buffer_empty; simpl. rewrite len_app. apply Z.eqb_neq. lia.
Qed.

Lemma write_after_end_input_witness :
  (write (lit "a") (end_input (ByteStream_of 4))).1 = 1 /\ eof (write (lit "a") (end_input (ByteStream_of 4))).2 = false.
Proof.
  split; [reflexivity|].
  apply (write_after_end_input (lit "a") (ByteStream_of 4)); [apply wf_init; lia|vm_compute; done|done].
Defined.
