(* ===== verification/StreamReassembler.v ===== *)
(** * The stream reassembler ([libsponge/stream_reassembler.hh], [.cc])

    Substrings of the peer's stream, in any order and possibly overlapping, are
    written to a [ByteStream] in order; what cannot be written yet is kept in an
    index-sorted list of datagrams.

    [push_substring] calls itself, and the loop of [missing_middle_handler]
    restarts from the front of the list after every erasure (the code assigns
    [--list.begin()], which the circular [std::list] makes the end position, and
    the loop's [++ptr] then moves it to the front).  Neither is structurally
    recursive, and the loop does not always terminate, so both take fuel and
    return [None] when it runs out. *)
From S2P Require Import Prelude ByteStream.

(** ** State *)

Record datagram := mkDatagram {
  _data : list byte;
  index : Z;
  size : Z;
  eof : bool
}.

(** The overloaded operators of [datagram]: all of them compare indices. *)
Definition dg_gt (a b : datagram) : bool := index b <? index a.
Definition dg_lt (a b : datagram) : bool := index a <? index b.
Definition dg_eq (a b : datagram) : bool := index a =? index b.
Definition dg_lt_size (a : datagram) (rhs : Z) : bool := index a <? rhs.

Record StreamReassembler := mkStreamReassembler {
  _output : ByteStream;
  _capacity : Z;
  _next_assembling_index : Z;
  _smallest_temporty_index : Z;
  _unassembled_bytes : Z;
  temporarily_descrete_data_storage : list datagram
}.

Definition StreamReassembler_of (capacity : Z) : StreamReassembler :=
  mkStreamReassembler (ByteStream_of capacity) capacity 0 0 0 [].

(** ** Accessors *)

Definition stream_out (s : StreamReassembler) : ByteStream := _output s.
Definition unassembled_bytes (s : StreamReassembler) : Z := _unassembled_bytes s.
Definition empty (s : StreamReassembler) : bool := negb (unassembled_bytes s =? 0).
Definition input_ended (s : StreamReassembler) : bool := ByteStream.input_ended (_output s).

Definition first_unassemble_byte_index (s : StreamReassembler) : Z :=
  match temporarily_descrete_data_storage s with
  | [] => 0
  | front :: _ => index front
  end.

(** The reader works on [stream_out()] by reference. *)
Definition update_output (f : ByteStream -> ByteStream) (s : StreamReassembler) : StreamReassembler :=
  mkStreamReassembler (f (_output s)) (_capacity s) (_next_assembling_index s)
    (_smallest_temporty_index s) (_unassembled_bytes s) (temporarily_descrete_data_storage s).

(** ** Operations *)

(** [overlap_merger(dg1, dg2)]: the new [dg1] and the number of bytes added. *)
Definition overlap_merger (dg1 dg2 : datagram) : datagram * Z :=
  let start_at := u64 (index dg1 + size dg1 - index dg2) in
  if start_at =? 0 then (dg1, 0)
  else
    let non_overlap_part := zdrop start_at (_data dg2) in
    (mkDatagram (_data dg1 ++ non_overlap_part) (index dg1) (u64 (size dg1 + len non_overlap_part)) (eof dg1),
     len non_overlap_part).

(** How the loop of [missing_middle_handler] ends: by [return], or by leaving
    the loop with the datagram to insert. *)
Inductive scan :=
  | Returned (storage : list datagram) (unassembled : Z)
  | Left (storage : list datagram) (unassembled : Z) (dg : datagram).

(** The loop: [pre] is what [ptr] has passed, [rest] starts at [*ptr]. *)
Fixpoint scan_loop (fuel : nat) (pre rest : list datagram) (unassembled : Z) (dg : datagram) : option scan :=
  match rest with
  | [] => Some (Left pre unassembled dg)
  | ptr :: rest' =>
    match fuel with
    | O => None
    | S fuel' =>
      let ptr_tail := u64 (index ptr + size ptr) in
      let dg_tail := u64 (size dg + index dg) in
      if dg_eq dg ptr && (ptr_tail =? dg_tail) then Some (Returned (pre ++ rest) unassembled)
      else if dg_gt dg ptr && (ptr_tail <? dg_tail) then Some (Left (pre ++ rest) unassembled dg)
      else if dg_gt dg ptr && dg_lt_size dg ptr_tail then
        if dg_tail <=? ptr_tail then Some (Returned (pre ++ rest) unassembled)
        else
          let ptr' := (overlap_merger ptr dg).1 in
          scan_loop fuel' [] (pre ++ rest') (u64 (unassembled - size ptr')) ptr'
      else if dg_lt dg ptr && dg_lt_size ptr dg_tail then
        let dg' := if ptr_tail <=? dg_tail then dg else (overlap_merger dg ptr).1 in
        let unassembled' := u64 (unassembled - size ptr) in
        match pre ++ rest' with
        | [] => Some (Left [] unassembled' dg')
        | storage' => scan_loop fuel' [] storage' unassembled' dg'
        end
      else if dg_eq dg ptr then
        let '(storage', unassembled') :=
          if size ptr <? size dg then (pre ++ rest', u64 (unassembled - size ptr))
          else (pre ++ rest, unassembled) in
        match storage' with
        | [] => Some (Left [] unassembled' dg)
        | _ => scan_loop fuel' [] storage' unassembled' dg
        end
      else scan_loop fuel' (pre ++ [ptr]) rest' unassembled dg
    end
  end.

(** [std::list::sort] by index, which is stable. *)
Fixpoint insert_sorted (dg : datagram) (l : list datagram) : list datagram :=
  match l with
  | [] => [dg]
  | h :: t => if index h <? index dg then h :: insert_sorted dg t else dg :: h :: t
  end.

Definition sort (l : list datagram) : list datagram := foldr insert_sorted [] l.

Definition missing_middle_handler (fuel : nat) (dg : datagram) (s : StreamReassembler) : option StreamReassembler :=
  match scan_loop fuel [] (temporarily_descrete_data_storage s) (_unassembled_bytes s) dg with
  | None => None
  | Some (Returned storage unassembled) =>
      Some (mkStreamReassembler (_output s) (_capacity s) (_next_assembling_index s)
              (_smallest_temporty_index s) unassembled storage)
  | Some (Left storage unassembled dg') =>
      let storage' := sort (dg' :: storage) in
      Some (mkStreamReassembler (_output s) (_capacity s) (_next_assembling_index s)
              (match storage' with [] => 0 | front :: _ => index front end)
              (u64 (unassembled + size dg')) storage')
  end.

(** [overlap_handler(new_dg)]: whether the data exceeded the capacity, and the
    new state. *)
Definition overlap_handler (new_dg : datagram) (s : StreamReassembler) : bool * StreamReassembler :=
  let start_at := u64 (_next_assembling_index s - index new_dg) in
  let non_overlap_part := zdrop start_at (_data new_dg) in
  let output := (ByteStream.write non_overlap_part (_output s)).2 in
  let next := u64 (_next_assembling_index s + len non_overlap_part) in
  (ByteStream.bytes_written output <? next,
   mkStreamReassembler output (_capacity s) next (_smallest_temporty_index s)
     (_unassembled_bytes s) (temporarily_descrete_data_storage s)).

(** The in-order case of [push_substring]. *)
Definition good_case (data : list byte) (s : StreamReassembler) : StreamReassembler :=
  let re_cap := ByteStream.remaining_capacity (_output s) in
  mkStreamReassembler (ByteStream.write data (_output s)).2 (_capacity s)
    (u64 (_next_assembling_index s + (if re_cap <? len data then re_cap else len data)))
    (_smallest_temporty_index s) (_unassembled_bytes s) (temporarily_descrete_data_storage s).

(** The recursive part of [push_substring]: if the gap before the first stored
    datagram may be closed, take that datagram out and push it; [again] is the
    recursive call. *)
Definition push_front_of_storage (again : list byte -> Z -> bool -> StreamReassembler -> option StreamReassembler)
    (data : list byte) (s : StreamReassembler) : option StreamReassembler :=
  let gap_fixed := _smallest_temporty_index s <=? _next_assembling_index s in
  match temporarily_descrete_data_storage s with
  | write_in_data :: storage =>
      if gap_fixed && negb (len data =? 0) then
        again (_data write_in_data) (index write_in_data) (eof write_in_data)
          (mkStreamReassembler (_output s) (_capacity s) (_next_assembling_index s)
             (_smallest_temporty_index s) (u64 (_unassembled_bytes s - size write_in_data)) storage)
      else Some s
  | [] => Some s
  end.

(** The statements of [push_substring] after the case analysis on the index. *)
Definition finish (again : list byte -> Z -> bool -> StreamReassembler -> option StreamReassembler)
    (data : list byte) (is_eof data_exceeded : bool) (s : StreamReassembler) : option StreamReassembler :=
  match push_front_of_storage again data s with
  | None => None
  | Some s' => Some (if is_eof && negb data_exceeded then update_output ByteStream.end_input s' else s')
  end.

Fixpoint push_substring (fuel : nat) (data : list byte) (idx : Z) (is_eof : bool) (s : StreamReassembler)
  : option StreamReassembler :=
  match fuel with
  | O => None
  | S fuel' =>
    let re_cap := ByteStream.remaining_capacity (_output s) in
    let next := _next_assembling_index s in
    let indicator := if next <=? first_unassemble_byte_index s then u64 (_capacity s + first_unassemble_byte_index s)
                     else u64 (_capacity s + next) in
    if re_cap =? 0 then Some s
    else if indicator <=? idx then Some s
    else if idx =? next then finish (push_substring fuel') data is_eof false (good_case data s)
    else
      let dg := mkDatagram data idx (len data) is_eof in
      if next <? idx then missing_middle_handler fuel' dg s
      else if next <? u64 (idx + len data) then
        let '(data_exceeded, s') := overlap_handler dg s in
        finish (push_substring fuel') data is_eof data_exceeded s'
      else finish (push_substring fuel') data is_eof false s
  end.

Arguments overlap_merger : simpl never.
Arguments overlap_handler : simpl never.
Arguments good_case : simpl never.
Arguments missing_middle_handler : simpl never.
Arguments finish : simpl never.

(** Fuel that suffices whenever the code terminates (see [push_terminates]):
    one level per stored datagram, and a pass over the list per erasure. *)
Definition enough (s : StreamReassembler) : nat :=
  let n := length (temporarily_descrete_data_storage s) in S (n + S n * S n)%nat.

Definition push (data : list byte) (idx : Z) (is_eof : bool) (s : StreamReassembler) : option StreamReassembler :=
  push_substring (enough s) data idx is_eof s.

(** ** Lemmas on the sorted storage *)

Definition index_le (a b : datagram) : Prop := index a <= index b.
#[export] Instance index_le_trans : Transitive index_le.
Proof. intros a b c. unfold index_le. lia. Qed.

Lemma insert_sorted_perm dg l : insert_sorted dg l ≡ₚ dg :: l.
Proof.
  induction l as [|h t IH]; simpl; [done|]. case_match; [|done].
  rewrite IH. by constructor.
Qed.

Lemma insert_sorted_sorted dg l : StronglySorted index_le l -> StronglySorted index_le (insert_sorted dg l).
Proof.
  induction 1 as [|h t Hs IH Hh]; simpl; [by repeat constructor|].
  destruct (Z.ltb_spec (index h) (index dg)).
  - constructor; [done|]. rewrite insert_sorted_perm. constructor; [unfold index_le; lia|done].
  - constructor; [by constructor|]. constructor; [unfold index_le; lia|].
    eapply Forall_impl; [exact Hh|]. unfold index_le. intros; lia.
Qed.

Lemma sort_perm l : sort l ≡ₚ l.
Proof. induction l as [|dg l IH]; simpl; [done|]. by rewrite insert_sorted_perm, IH. Qed.

Lemma sort_sorted l : StronglySorted index_le (sort l).
Proof. induction l as [|dg l IH]; simpl; [constructor|]. by apply insert_sorted_sorted. Qed.

Lemma sort_id l : StronglySorted index_le l -> sort l = l.
Proof.
  induction 1 as [|dg l Hs IH Hh]; simpl; [done|]. rewrite IH.
  destruct Hh as [|h t Hh _]; simpl; [done|]. unfold index_le in Hh.
  by destruct (Z.ltb_spec (index h) (index dg)); [lia|].
Qed.

Lemma sorted_sublist (l k : list datagram) : sublist l k -> StronglySorted index_le k -> StronglySorted index_le l.
Proof.
  induction 1 as [|x l k Hs IH|x l k Hs IH]; intros HS; [constructor| |];
    apply StronglySorted_inv in HS as [HS Hx]; auto.
  constructor; [auto|]. by eapply Forall_sublist_of.
Qed.

(** The bytes held: the sum of the sizes. *)
Definition held (l : list datagram) : Z := foldr (fun dg acc => size dg + acc) 0 l.

Lemma held_app l k : held (l ++ k) = held l + held k.
Proof. induction l; simpl; lia. Qed.

Lemma held_perm l k : l ≡ₚ k -> held l = held k.
Proof. induction 1; simpl; lia. Qed.

(** ** One turn of the loop

    [tail] is the position after a datagram's last byte.  As long as no tail
    wraps around, the first two tests leave the branch for a datagram that starts
    inside [*ptr] and ends after it unreachable, and the turn is the following
    case analysis (leaving an empty list is the same as starting over on it). *)

Definition tail (dg : datagram) : Z := index dg + size dg.

Definition no_wrap (dg : datagram) : Prop := 0 <= index dg /\ 0 <= size dg /\ tail dg < 2 ^ 64.

Lemma scan_loop_turn fuel pre ptr rest ub dg :
  no_wrap ptr -> no_wrap dg ->
  scan_loop (S fuel) pre (ptr :: rest) ub dg =
  if index dg =? index ptr then
    if tail ptr =? tail dg then Some (Returned (pre ++ ptr :: rest) ub)
    else if tail ptr <? tail dg then scan_loop fuel [] (pre ++ rest) (u64 (ub - size ptr)) dg
    else scan_loop fuel [] (pre ++ ptr :: rest) ub dg
  else if index ptr <? index dg then
    if tail ptr <? tail dg then Some (Left (pre ++ ptr :: rest) ub dg)
    else if index dg <? tail ptr then Some (Returned (pre ++ ptr :: rest) ub)
    else scan_loop fuel (pre ++ [ptr]) rest ub dg
  else if index ptr <? tail dg then
    scan_loop fuel [] (pre ++ rest) (u64 (ub - size ptr))
      (if tail ptr <=? tail dg then dg else (overlap_merger dg ptr).1)
  else scan_loop fuel (pre ++ [ptr]) rest ub dg.
Proof.
  intros (Hp1 & Hp2 & Hp3) (Hd1 & Hd2 & Hd3). unfold tail in *. simpl.
  unfold dg_eq, dg_gt, dg_lt, dg_lt_size. rewrite (Z.add_comm (size dg)).
  rewrite (u64_small (index ptr + size ptr)), (u64_small (index dg + size dg)) by lia.
  assert (Hre : forall l u d, match l with [] => Some (Left [] u d) | _ :: _ => scan_loop fuel [] l u d end
    = scan_loop fuel [] l u d) by (intros [] **; [by destruct fuel|done]).
  destruct (Z.eqb_spec (index dg) (index ptr)) as [Hi|Hi]; simpl.
  - rewrite Hi, Z.ltb_irrefl; simpl. destruct (Z.eqb_spec (index ptr + size ptr) (index ptr + size dg)); [done|].
    destruct (Z.ltb_spec (size ptr) (size dg)).
    + destruct (Z.ltb_spec (index ptr + size ptr) (index ptr + size dg)); [apply Hre|lia].
    + destruct (Z.ltb_spec (index ptr + size ptr) (index ptr + size dg)); [lia|apply Hre].
  - destruct (Z.ltb_spec (index ptr) (index dg)); simpl.
    + destruct (Z.ltb_spec (index ptr + size ptr) (index dg + size dg)); [done|].
      destruct (Z.ltb_spec (index dg) (index ptr + size ptr)); simpl.
      * destruct (Z.leb_spec (index dg + size dg) (index ptr + size ptr)); [done|lia].
      * destruct (Z.ltb_spec (index dg) (index ptr)); [lia|done].
    + destruct (Z.ltb_spec (index dg) (index ptr)); [simpl|lia].
      destruct (Z.ltb_spec (index ptr) (index dg + size dg)); [|done].
      destruct (pre ++ rest); [by destruct fuel|done].
Qed.

(** ** Safety: the output is a prefix of the peer's stream

    [T] is the peer's whole stream.  A datagram is consistent when it is a piece
    of [T] and claims the end of the stream only at the end of [T]; an empty one
    may also stand one position after the end, where the acknowledgments of a peer
    are that has sent its FIN. *)

Section Reassembly.
Context (T : list byte) (cap : Z).
Context (Hcap : 0 <= cap) (Hbound : len T + cap < 2 ^ 64 - 1).

Definition consistent (dg : datagram) : Prop :=
  0 <= index dg /\ size dg = len (_data dg) /\
  (index dg + size dg <= len T \/ size dg = 0 /\ eof dg = false /\ index dg = len T + 1) /\
  _data dg = slice (index dg) (size dg) T /\ (eof dg = true -> index dg + size dg = len T).

Lemma consistent_size dg : consistent dg -> 0 <= size dg.
Proof. intros (_ & -> & _). lia. Qed.

(** Merging a datagram with one that starts inside it and ends after it. *)
Lemma overlap_merger_consistent dg1 dg2 :
  consistent dg1 -> consistent dg2 ->
  index dg1 < index dg2 -> index dg2 < tail dg1 -> tail dg1 < tail dg2 ->
  consistent (overlap_merger dg1 dg2).1 /\
  index (overlap_merger dg1 dg2).1 = index dg1 /\ tail (overlap_merger dg1 dg2).1 = tail dg2.
Proof.
  intros (Hi1 & Hs1 & Ht1 & Hd1 & He1) (Hi2 & Hs2 & Ht2 & Hd2 & He2) Hlt Hin Hout.
  unfold tail in *. unfold overlap_merger. rewrite (u64_small (_ - _)) by lia.
  destruct (Z.eqb_spec (index dg1 + size dg1 - index dg2) 0); [lia|]. unfold consistent; simpl.
  assert (Hl : len (zdrop (index dg1 + size dg1 - index dg2) (_data dg2)) = index dg2 + size dg2 - (index dg1 + size dg1)).
  { rewrite len_zdrop; lia. }
  rewrite len_app, Hl. rewrite u64_small by lia.
  split_and!; try lia; [|intros E; apply He1 in E; lia].
  rewrite Hd1 at 1. rewrite Hd2 at 1. rewrite zdrop_slice by lia.
  replace (index dg2 + (index dg1 + size dg1 - index dg2)) with (index dg1 + size dg1) by lia.
  rewrite slice_app by lia. f_equal. lia.
Qed.

(** The bytes of a datagram, if it has any, lie below [W]. *)
Definition within (W : Z) (dg : datagram) : Prop := 0 < size dg -> tail dg <= W.

(** The loop only erases from the storage, keeps the count of held bytes exact
    (modulo [2^64]), and leaves with a consistent datagram that starts where the
    new one does and ends no later than the furthest one involved. *)
Definition scan_post (W : Z) (l : list datagram) (dg : datagram) (r : scan) : Prop :=
  match r with
  | Returned l' ub' => sublist l' l /\ ub' = u64 (held l')
  | Left l' ub' dg' => sublist l' l /\ ub' = u64 (held l') /\ consistent dg' /\ index dg' = index dg /\ within W dg'
  end.

Lemma consistent_eta dg : consistent dg -> consistent (mkDatagram (_data dg) (index dg) (len (_data dg)) (eof dg)).
Proof. destruct dg as [d i n e]. intros Hc. pose proof Hc as (_ & Hn & _); simpl in *. by subst n. Qed.

Lemma consistent_no_wrap dg : consistent dg -> no_wrap dg.
Proof. intros (? & ? & ? & _). unfold no_wrap, tail. lia. Qed.

Lemma scan_loop_ok W fuel pre rest dg ub r :
  Forall consistent (pre ++ rest) -> Forall (within W) (pre ++ rest) ->
  consistent dg -> within W dg -> ub = u64 (held (pre ++ rest)) ->
  scan_loop fuel pre rest ub dg = Some r -> scan_post W (pre ++ rest) dg r.
Proof.
  revert pre rest dg ub. induction fuel as [|fuel IH]; intros pre [|ptr rest] dg ub Hc HW Hdg HWdg -> Hr.
  1,3: simpl in Hr; simplify_eq; simpl; by rewrite app_nil_r.
  1: done.
  assert (Hsub : sublist (pre ++ rest) (pre ++ ptr :: rest)) by (apply sublist_app; [done|by constructor]).
  assert (Hptr : consistent ptr /\ within W ptr).
  { rewrite Forall_app, Forall_cons in Hc, HW. tauto. }
  destruct Hptr as [Hptr HWptr].
  rewrite scan_loop_turn in Hr by eauto using consistent_no_wrap.
  assert (Herase : forall dg', consistent dg' -> index dg' = index dg -> within W dg' ->
    scan_loop fuel [] (pre ++ rest) (u64 (u64 (held (pre ++ ptr :: rest)) - size ptr)) dg' = Some r ->
    scan_post W (pre ++ ptr :: rest) dg r).
  { intros dg' Hd' Hi' Hw' E. apply (IH [] (pre ++ rest)) in E; simpl; try done.
    - destruct r; simpl in *; [|rewrite <- Hi']; intuition (etrans; eauto).
    - by eapply Forall_sublist_of.
    - by eapply Forall_sublist_of.
    - rewrite !held_app; simpl. unfold u64. rewrite Zminus_mod_idemp_l. f_equal. lia. }
  assert (Hnext : scan_loop fuel (pre ++ [ptr]) rest (u64 (held (pre ++ ptr :: rest))) dg = Some r ->
    scan_post W (pre ++ ptr :: rest) dg r).
  { intros E. apply IH in E; rewrite <- ?app_assoc in *; done. }
  repeat case_match; simplify_eq; simpl; try done; eauto; [by apply (IH [] (pre ++ ptr :: rest)) in Hr|].
  rewrite ?Z.eqb_neq, ?Z.ltb_ge, ?Z.ltb_lt, ?Z.leb_gt in *.
  destruct (overlap_merger_consistent dg ptr) as (Hm1 & Hm2 & Hm3); try done; [lia|].
  apply Herase in Hr; try done. intros _. rewrite Hm3. apply HWptr. unfold tail in *. lia.
Qed.

(** The bytes the application has read so far. *)
Definition taken (s : StreamReassembler) : Z := ByteStream._bytes_read (_output s).

(** The state invariant: the output holds the stretch of [T] between what was
    read and [_next_assembling_index]; the storage holds consistent datagrams
    inside the window, sorted; the counters describe both. *)
Record inv (s : StreamReassembler) : Prop := {
  inv_out : ByteStream.wf (_output s);
  inv_ocap : ByteStream._capacity (_output s) = cap;
  inv_cap : _capacity s = cap;
  inv_next : _next_assembling_index s <= len T;
  inv_written : taken s + len (_stream (_output s)) = _next_assembling_index s;
  inv_content : _stream (_output s) = slice (taken s) (_next_assembling_index s - taken s) T;
  inv_storage : Forall consistent (temporarily_descrete_data_storage s);
  inv_window : Forall (within (taken s + cap)) (temporarily_descrete_data_storage s);
  inv_sorted : StronglySorted index_le (temporarily_descrete_data_storage s);
  inv_held : _unassembled_bytes s = u64 (held (temporarily_descrete_data_storage s));
  inv_smallest : Forall (fun p => _smallest_temporty_index s <= index p) (temporarily_descrete_data_storage s);
  inv_ended : input_ended s = true -> _next_assembling_index s = len T
}.

Lemma inv_init : inv (StreamReassembler_of cap).
Proof.
  constructor; simpl; try done; try lia; try constructor; simpl; try done; try lia.
Qed.

Lemma inv_bounds s : inv s -> 0 <= taken s <= _next_assembling_index s /\ _next_assembling_index s <= taken s + cap.
Proof.
  intros [Ho Hoc _ Hn Hw _ _ _ _ _ _ _]. destruct Ho. unfold taken in *. lia.
Qed.

Lemma inv_remaining s : inv s ->
  ByteStream.remaining_capacity (_output s) = taken s + cap - _next_assembling_index s.
Proof.
  intros [Ho Hoc _ Hn Hw _ _ _ _ _ _ _]. rewrite remaining_capacity_eq by done. lia.
Qed.

Lemma inv_bytes_written s : inv s -> ByteStream.bytes_written (_output s) = _next_assembling_index s.
Proof.
  intros Hi. pose proof (inv_bounds s Hi). destruct Hi as [Ho _ _ Hn Hw _ _ _ _ _ _ _]. destruct Ho.
  unfold ByteStream.bytes_written. rewrite wf_written. fold (taken s). rewrite Hw. apply u64_small. lia.
Qed.

(** Writing the next [n] bytes of [T], when they fit in the window. *)
Lemma inv_advance s n :
  inv s -> 0 <= n -> _next_assembling_index s + n <= len T -> _next_assembling_index s + n <= taken s + cap ->
  let s' := mkStreamReassembler (ByteStream.write (slice (_next_assembling_index s) n T) (_output s)).2 (_capacity s)
              (_next_assembling_index s + n) (_smallest_temporty_index s) (_unassembled_bytes s)
              (temporarily_descrete_data_storage s) in
  inv s' /\ taken s' = taken s.
Proof.
  intros Hi Hn HT HW s'. pose proof (inv_bounds s Hi) as Hb.
  destruct Hi as [Ho Hoc Hc Hnx Hw Hco Hst Hwi Hso Hh Hsm He].
  assert (Hl : len (slice (_next_assembling_index s) n T) = n) by (apply len_slice; lia).
  assert (Hacc : accepted (slice (_next_assembling_index s) n T) (_output s) = slice (_next_assembling_index s) n T).
  { unfold accepted. apply ztake_all. lia. }
  subst s'. unfold taken, input_ended in *. rewrite write_eq, Hacc, Hl by done. simpl. split; [|done].
  constructor; simpl; unfold taken; simpl; try done.
  - pose proof (wf_write (slice (_next_assembling_index s) n T) _ Ho) as Hwf.
    rewrite write_eq, Hacc, Hl in Hwf by done. done.
  - rewrite len_app, Hl. lia.
  - rewrite Hco. set (r := _bytes_read (_output s)) in *.
    replace (_next_assembling_index s + n - r) with (_next_assembling_index s - r + n) by lia.
    rewrite <- slice_app by lia. do 2 f_equal; lia.
  - intros E. apply He in E. lia.
Qed.

Lemma good_case_inv s data idx e :
  inv s -> consistent (mkDatagram data idx (len data) e) -> (0 < len data -> idx + len data <= taken s + cap) ->
  idx = _next_assembling_index s ->
  inv (good_case data s) /\ taken (good_case data s) = taken s /\
  _next_assembling_index (good_case data s) = idx + len data.
Proof.
  intros Hi (H1 & _ & H3 & H4 & _) HW ->; simpl in *.
  pose proof (inv_remaining s Hi) as Hr. pose proof (inv_bounds s Hi). pose proof (inv_next s Hi).
  assert (_next_assembling_index s + len data <= len T /\ _next_assembling_index s + len data <= taken s + cap) as [HT HW'].
  { destruct (Z.eq_dec (len data) 0); [lia|]. specialize (HW ltac:(lia)). lia. }
  destruct (inv_advance s (len data)) as [Hi' Ht']; try done; try lia.
  unfold good_case. rewrite Hr.
  destruct (Z.ltb_spec (taken s + cap - _next_assembling_index s) (len data)); [lia|].
  rewrite u64_small by lia. rewrite <- H4 in Hi', Ht'. done.
Qed.

Lemma overlap_handler_inv s data idx e :
  inv s -> consistent (mkDatagram data idx (len data) e) -> (0 < len data -> idx + len data <= taken s + cap) ->
  idx < _next_assembling_index s < idx + len data ->
  let '(exceeded, s') := overlap_handler (mkDatagram data idx (len data) e) s in
  exceeded = false /\ inv s' /\ taken s' = taken s /\ _next_assembling_index s' = idx + len data.
Proof.
  intros Hi (H1 & _ & H3 & H4 & _) HW Hn; simpl in *. unfold overlap_handler; simpl.
  pose proof (inv_bounds s Hi). rewrite (u64_small (_next_assembling_index s - idx)) by lia.
  set (n := idx + len data - _next_assembling_index s).
  assert (Hp : zdrop (_next_assembling_index s - idx) data = slice (_next_assembling_index s) n T).
  { rewrite H4 at 1. rewrite zdrop_slice by lia. f_equal; lia. }
  rewrite Hp, len_slice by lia.
  destruct (inv_advance s n) as [Hi' Ht']; try done; try lia.
  rewrite u64_small by lia. split_and!; [|done..|lia].
  pose proof (inv_bytes_written _ Hi') as Hb; simpl in Hb. rewrite Hb. apply Z.ltb_irrefl.
Qed.

Lemma handler_inv fuel s dg s' :
  inv s -> consistent dg -> within (taken s + cap) dg ->
  missing_middle_handler fuel dg s = Some s' ->
  inv s' /\ taken s' = taken s /\ _next_assembling_index s' = _next_assembling_index s.
Proof.
  intros Hi Hdg HW. unfold missing_middle_handler.
  destruct (scan_loop fuel [] (temporarily_descrete_data_storage s) (_unassembled_bytes s) dg) as [r|] eqn:E; [|done].
  destruct Hi as [Ho Hoc Hc Hnx Hw Hco Hst Hwi Hso Hh Hsm He].
  apply (scan_loop_ok (taken s + cap)) in E; simpl; try done.
  destruct r as [l ub|l ub dg']; simpl in E; intros [= <-].
  - destruct E as [Hsub Hub]. split; [|done]. constructor; simpl; try done; [by eapply Forall_sublist_of..| |].
    + by eapply sorted_sublist.
    + by eapply Forall_sublist_of.
  - destruct E as (Hsub & Hub & Hdg' & Hidx & HW'). split; [|done].
    change (foldr insert_sorted [] l) with (sort l). change (insert_sorted dg' (sort l)) with (sort (dg' :: l)).
    assert (Hall : forall P, P dg' -> Forall P (temporarily_descrete_data_storage s) -> Forall P (sort (dg' :: l))).
    { intros P HP HF. rewrite sort_perm. constructor; [done|]. by eapply Forall_sublist_of. }
    constructor; simpl; try done; unfold taken in *; simpl; auto.
    + apply (sort_sorted (dg' :: l)).
    + rewrite Hub, u64_add_l. f_equal. change (insert_sorted dg' (sort l)) with (sort (dg' :: l)).
      rewrite (held_perm _ _ (sort_perm (dg' :: l))). simpl. lia.
    + pose proof (sort_sorted (dg' :: l)) as Hs. change (insert_sorted dg' (sort l)) with (sort (dg' :: l)).
      destruct (sort (dg' :: l)) as [|f t]; [constructor|].
      apply StronglySorted_inv in Hs as [_ Hf]. constructor; [lia|]. exact Hf.
Qed.

Lemma end_input_inv s : inv s -> _next_assembling_index s = len T -> inv (update_output ByteStream.end_input s).
Proof.
  intros [Ho Hoc Hc Hnx Hw Hco Hst Hwi Hso Hh Hsm He] HT.
  constructor; simpl; try done. by apply wf_end_input.
Qed.

(** Popping the front of the storage. *)
Lemma pop_front_inv s w storage :
  inv s -> temporarily_descrete_data_storage s = w :: storage ->
  let s' := mkStreamReassembler (_output s) (_capacity s) (_next_assembling_index s)
              (_smallest_temporty_index s) (u64 (_unassembled_bytes s - size w)) storage in
  inv s' /\ consistent w /\ within (taken s + cap) w.
Proof.
  intros [Ho Hoc Hc Hnx Hw Hco Hst Hwi Hso Hh Hsm He] E. rewrite E in *.
  rewrite Forall_cons in Hst, Hwi, Hsm. destruct Hst, Hwi, Hsm.
  split_and!; try done. apply StronglySorted_inv in Hso as [Hso _]. constructor; simpl; try done.
  rewrite Hh. unfold u64. rewrite Zminus_mod_idemp_l. simpl. f_equal. lia.
Qed.

(** What one call of [push_substring] guarantees: the invariant, an unchanged
    read position, and a write position that never moves back. *)
Definition grows (s s' : StreamReassembler) : Prop :=
  inv s' /\ taken s' = taken s /\ _next_assembling_index s <= _next_assembling_index s'.

Lemma grows_trans s1 s2 s3 : grows s1 s2 -> grows s2 s3 -> grows s1 s3.
Proof. intros (? & ? & ?) (? & ? & ?). unfold grows. split_and!; [done|congruence|lia]. Qed.

(** The tail of [push_substring], given that the recursive call behaves. *)
Lemma finish_grows again data idx e s s' :
  (forall d i f t t', inv t -> consistent (mkDatagram d i (len d) f) -> (0 < len d -> i + len d <= taken t + cap) ->
    again d i f t = Some t' -> grows t t') ->
  inv s -> consistent (mkDatagram data idx (len data) e) -> idx + len data <= _next_assembling_index s ->
  finish again data e false s = Some s' -> grows s s'.
Proof.
  intros IH Hi Hc Hd. unfold finish.
  assert (Ha : forall s2, push_front_of_storage again data s = Some s2 -> grows s s2).
  { unfold push_front_of_storage. intros s2. destruct (temporarily_descrete_data_storage s) as [|w storage] eqn:E.
    { intros [= <-]. done. }
    destruct (_ && _); [|intros [= <-]; done].
    destruct (pop_front_inv s w storage) as (Hi2 & Hcw & Hww); try done.
    intros Hpush. apply IH in Hpush; [done..|by apply consistent_eta|].
    destruct Hcw as (_ & Hsz & _). unfold within, taken, tail in *; simpl in *. lia. }
  destruct (push_front_of_storage again data s) as [s2|]; [|done]. destruct (Ha s2) as (Hi2 & Ht2 & Hn2); [done|].
  intros [= <-]. destruct e; simpl; [|done].
  destruct Hc as (_ & _ & _ & _ & He); simpl in He. pose proof (inv_next _ Hi2). pose proof (He eq_refl).
  split_and!; [apply end_input_inv; [done|lia]|done..].
Qed.

Lemma push_substring_grows fuel data idx e s s' :
  inv s -> consistent (mkDatagram data idx (len data) e) -> (0 < len data -> idx + len data <= taken s + cap) ->
  push_substring fuel data idx e s = Some s' -> grows s s'.
Proof.
  revert data idx e s s'. induction fuel as [|fuel IH]; intros data idx e s s' Hi Hc HW; [done|].
  cbn [push_substring]. assert (Hs : grows s s) by (split_and!; done || lia).
  case_match; [intros [= <-]; done|]. case_match; [intros [= <-]; done|].
  destruct (Z.eqb_spec idx (_next_assembling_index s)) as [Hx|Hx].
  { destruct (good_case_inv s data idx e) as (? & ? & ?); try done. intros Hf.
    apply (grows_trans _ (good_case data s)); [split_and!; done || lia|].
    eapply finish_grows; eauto. lia. }
  destruct (Z.ltb_spec (_next_assembling_index s) idx).
  { intros Hm. apply handler_inv in Hm as (? & ? & Hn); try done. split_and!; done || lia. }
  pose proof Hc as (Hc1 & _ & Hc3 & _); simpl in Hc1, Hc3.
  pose proof (inv_bounds s Hi). rewrite (u64_small (idx + len data)) by lia.
  destruct (Z.ltb_spec (_next_assembling_index s) (idx + len data)).
  - pose proof (overlap_handler_inv s data idx e Hi Hc HW) as Ho.
    destruct (overlap_handler _ s) as [ex s1]. destruct Ho as (-> & ? & ? & ?); [lia|]. intros Hf.
    apply (grows_trans _ s1); [split_and!; done || lia|]. eapply finish_grows; eauto. lia.
  - intros Hf. eapply finish_grows; eauto.
Qed.

(** What starts at or before the write position is not turned away. *)
Lemma indicator_open idx s :
  inv s -> 0 < cap -> idx <= _next_assembling_index s ->
  ((if _next_assembling_index s <=? first_unassemble_byte_index s then u64 (_capacity s + first_unassemble_byte_index s)
    else u64 (_capacity s + _next_assembling_index s)) <=? idx) = false.
Proof.
  intros Hi Hpos Hidx. pose proof (inv_bounds s Hi). pose proof (inv_next s Hi). rewrite (inv_cap s Hi). apply Z.leb_gt.
  zcase; rewrite u64_small; try lia.
  all: unfold first_unassemble_byte_index in *; destruct (temporarily_descrete_data_storage s) as [|w l] eqn:E; [lia|].
  all: pose proof (inv_storage s Hi) as Hst; rewrite E in Hst; apply Forall_cons in Hst as [(? & ? & ? & _) _]; lia.
Qed.

(** Such a substring is written to its end, if there is room. *)
Lemma push_advances fuel data idx e s s' :
  inv s -> consistent (mkDatagram data idx (len data) e) -> idx <= _next_assembling_index s ->
  idx + len data <= taken s + cap -> _next_assembling_index s < taken s + cap ->
  push_substring fuel data idx e s = Some s' -> idx + len data <= _next_assembling_index s'.
Proof.
  intros Hi Hc Hidx HW Hroom. destruct fuel as [|fuel]; [done|]. cbn [push_substring]. pose proof (inv_bounds s Hi).
  rewrite (inv_remaining s Hi). destruct (Z.eqb_spec (taken s + cap - _next_assembling_index s) 0); [lia|].
  rewrite indicator_open by (done || lia).
  assert (forall s1, inv s1 -> idx + len data <= _next_assembling_index s1 -> finish (push_substring fuel) data e false s1 = Some s' ->
    idx + len data <= _next_assembling_index s') as Hfin.
  { intros s1 Hi1 Hn1 Hf. apply (finish_grows _ data idx) in Hf as (_ & _ & ?); [lia|apply push_substring_grows|done..]. }
  destruct (Z.eqb_spec idx (_next_assembling_index s)) as [Hx|Hx].
  { destruct (good_case_inv s data idx e Hi Hc (fun _ => HW) Hx) as (? & _ & ?). apply Hfin; [done|lia]. }
  destruct (Z.ltb_spec (_next_assembling_index s) idx); [lia|]. pose proof Hc as (Hc1 & _ & Hc3 & _); simpl in Hc1, Hc3.
  rewrite (u64_small (idx + len data)) by lia. destruct (Z.ltb_spec (_next_assembling_index s) (idx + len data)); [|by apply Hfin].
  pose proof (overlap_handler_inv s data idx e Hi Hc (fun _ => HW)) as Ho.
  destruct (overlap_handler _ s) as [ex s1]. destruct Ho as (-> & ? & _ & ?); [lia|]. apply Hfin; [done|lia].
Qed.

Lemma pop_inv n s : inv s -> 0 <= n -> inv (update_output (pop_output n) s).
Proof.
  intros Hi Hn. pose proof (inv_bounds s Hi) as Hb. unfold taken in Hb.
  destruct Hi as [Ho Hoc Hc Hnx Hw Hco Hst Hwi Hso Hh Hsm He]. unfold taken, input_ended in *.
  pose proof (wf_pop n _ Ho Hn) as Ho'. unfold update_output. rewrite pop_output_eq in * by done.
  set (k := Z.min n (len (_stream (_output s)))) in *.
  rewrite u64_small in * by lia. constructor; unfold taken, input_ended; simpl in *; try done.
  - rewrite len_zdrop by done. lia.
  - rewrite Hco. destruct (decide (n <= len (_stream (_output s)))).
    + rewrite zdrop_slice by lia. f_equal; lia.
    + rewrite zdrop_all by (rewrite <- Hco; lia).
      replace (_next_assembling_index s - (_bytes_read (_output s) + k)) with 0 by lia. done.
  - eapply Forall_impl; [exact Hwi|]. intros x Hx Hs. specialize (Hx Hs). lia.
Qed.

(** The states a run can reach: substrings of [T] are pushed, each within the
    window the reassembler has advertised (capacity beyond what was read) unless it
    is empty, with any fuel with which the call returns, and the reader pops bytes. *)
Inductive reachable : StreamReassembler -> Prop :=
  | reach_init : reachable (StreamReassembler_of cap)
  | reach_push fuel data idx e s s' :
      reachable s -> consistent (mkDatagram data idx (len data) e) -> (0 < len data -> idx + len data <= taken s + cap) ->
      push_substring fuel data idx e s = Some s' -> reachable s'
  | reach_pop n s : reachable s -> 0 <= n -> reachable (update_output (pop_output n) s).

Lemma reachable_inv s : reachable s -> inv s.
Proof.
  induction 1 as [|fuel data idx e s s' _ IH Hc HW Hp|n s _ IH Hn]; [apply inv_init| |by apply pop_inv].
  by apply push_substring_grows in Hp as [? _].
Qed.
End Reassembly.

(** The end of the output is never undone. *)
Lemma write_keeps_ended data o : ByteStream.input_ended (ByteStream.write data o).2 = ByteStream.input_ended o.
Proof. unfold ByteStream.write. case_match; [done|]. simpl. by rewrite write_loop_eq. Qed.

(** What the operations on the output stream keep, [push_substring] keeps. *)
Section output.
Context (P : ByteStream -> Prop).
Context (HW : forall data o, P o -> P (ByteStream.write data o).2) (HE : forall o, P o -> P (ByteStream.end_input o)).

Lemma finish_keeps again data e ex s s' :
  (forall d i f t t', again d i f t = Some t' -> P (_output t) -> P (_output t')) ->
  finish again data e ex s = Some s' -> P (_output s) -> P (_output s').
Proof.
  intros IH. unfold finish, push_front_of_storage. cbv zeta.
  assert (forall t, P (_output t) -> P (_output (if e && negb ex then update_output ByteStream.end_input t else t))) as Hend.
  { intros t Ht. destruct (e && negb ex); [by apply HE|done]. }
  destruct (temporarily_descrete_data_storage s); [intros E; injection E as <-; auto|].
  destruct (_ && negb (len data =? 0)); [|intros E; injection E as <-; auto].
  destruct (again _ _ _ _) as [t|] eqn:Ea; [|done]. intros E Hs. injection E as <-. apply Hend. by eapply IH.
Qed.

Lemma push_keeps fuel data idx e s s' :
  push_substring fuel data idx e s = Some s' -> P (_output s) -> P (_output s').
Proof.
  revert data idx e s s'. induction fuel as [|fuel IH]; intros data idx e s s'; [done|]. cbn [push_substring].
  split_if; [by intros [= <-]|]. split_if; [by intros [= <-]|].
  split_if; [intros Hf Hs; eapply finish_keeps; [exact IH|exact Hf|]; by apply HW|].
  split_if.
  { unfold missing_middle_handler. destruct (scan_loop _ _ _ _ _) as [[]|]; [..|done]; by intros [= <-]. }
  split_if; [|by apply finish_keeps].
  unfold overlap_handler. intros Hf Hs. eapply finish_keeps; [exact IH|exact Hf|]. by apply HW.
Qed.
End output.

Lemma push_keeps_ended fuel data idx e s s' :
  push_substring fuel data idx e s = Some s' -> input_ended s = true -> input_ended s' = true.
Proof.
  apply (push_keeps (fun o => ByteStream.input_ended o = true)); [|done]. intros d o Ho. by rewrite write_keeps_ended.
Qed.

(** ** What the reassembler promises *)

(** C3: safety of reassembly.  When every substring pushed is a piece of the
    peer's stream [T] that lies within the advertised window (in any order, with
    any overlaps and repetitions, empty ones anywhere up to the position after the
    FIN), then at every moment what the reader has
    taken followed by what is buffered is a prefix of [T], the write counter is
    its length, the unassembled count is the sum of the stored sizes, and the
    output is marked as ended only when all of [T] has been written. *)
Theorem reassembler_prefix T cap s :
  0 <= cap -> len T + cap < 2 ^ 64 - 1 -> reachable T cap s ->
  ztake (bytes_read (stream_out s)) T ++ _stream (stream_out s) = ztake (bytes_written (stream_out s)) T /\
  bytes_written (stream_out s) = _next_assembling_index s /\
  _next_assembling_index s <= len T /\
  unassembled_bytes s = u64 (held (temporarily_descrete_data_storage s)) /\
  (input_ended s = true -> bytes_written (stream_out s) = len T).
Proof.
  intros Hcap Hb Hr. apply reachable_inv in Hr; [|done..].
  pose proof (inv_bounds T cap s Hr) as Hbd. pose proof (inv_bytes_written T cap Hcap Hb s Hr) as Hbw.
  destruct Hr as [Ho Hoc Hc Hnx Hw Hco Hst Hwi Hso Hh Hsm He].
  unfold stream_out. rewrite Hbw. split_and!; try done.
  rewrite Hco. change (bytes_read (_output s)) with (taken s). rewrite ztake_slice by lia. f_equal. lia.
Qed.

Lemma reassembler_prefix_witness :
  exists s, push (lit "cde") 2 true (StreamReassembler_of 8) = Some s /\
  exists s', push (lit "abc") 0 false s = Some s' /\ bytes_written (stream_out s') = 5 /\ input_ended s' = true /\
  ztake (bytes_read (stream_out s')) (lit "abcde") ++ _stream (stream_out s') = ztake (bytes_written (stream_out s')) (lit "abcde").
Proof.
  eexists; split; [vm_compute; reflexivity|]. eexists; split; [vm_compute; reflexivity|].
  split; [reflexivity|]. split; [reflexivity|].
  apply (reassembler_prefix (lit "abcde") 8); [lia|simpl; lia|].
  set (s0 := StreamReassembler_of 8).
  apply (reach_push _ _ 9 (lit "abc") 0 false (default s0 (push (lit "cde") 2 true s0)));
    [|split_and!; [..|left| |]; vm_compute; by intros|by vm_compute|by vm_compute].
  apply (reach_push _ _ 9 (lit "cde") 2 true s0); [apply reach_init|split_and!; [..|left| |]; vm_compute; by intros|by vm_compute|by vm_compute].
Defined.
