(* ===== verification/ReassemblerProgress.v ===== *)
(** * Progress of the reassembler

    When [push_substring] terminates and when it does not, and what is
    assembled: for a peer that cuts its stream into fixed segments and
    retransmits them whole, every call returns and the output is the longest
    prefix all of whose segments have arrived. *)
From S2P Require Import Prelude ByteStream StreamReassembler.

(** ** Termination *)

(** A datagram built by the code: no wrap-around, and [size] is the length of
    the data. *)
Definition sized (dg : datagram) : Prop := no_wrap dg /\ size dg = len (_data dg).

(** [a] does not lose against [b] when both start at the same index. *)
Definition yields (a b : datagram) : Prop := index a = index b -> size b <= size a.

Lemma overlap_merger_sized dg1 dg2 :
  sized dg1 -> sized dg2 -> index dg1 < index dg2 -> index dg2 < tail dg1 -> tail dg1 < tail dg2 ->
  sized (overlap_merger dg1 dg2).1 /\ index (overlap_merger dg1 dg2).1 = index dg1 /\
  size dg1 <= size (overlap_merger dg1 dg2).1.
Proof.
  intros [(Hi1 & Hs1 & Ht1) Hl1] [(Hi2 & Hs2 & Ht2) Hl2] Hlt Hin Hout.
  unfold tail in *. unfold overlap_merger. rewrite (u64_small (_ - _)) by lia.
  destruct (Z.eqb_spec (index dg1 + size dg1 - index dg2) 0); [lia|].
  unfold sized, no_wrap, tail; simpl.
  assert (Hl : len (zdrop (index dg1 + size dg1 - index dg2) (_data dg2)) = index dg2 + size dg2 - (index dg1 + size dg1)).
  { rewrite len_zdrop; lia. }
  rewrite len_app, Hl. rewrite u64_small by lia. lia.
Qed.

(** The loop ends within one pass per stored datagram, unless a stored datagram
    starts at the index of the new one and is longer. *)
Lemma scan_loop_terminates fuel pre rest ub dg :
  Forall sized (pre ++ rest) -> sized dg -> Forall (yields dg) (pre ++ rest) ->
  (length rest + length (pre ++ rest) * length (pre ++ rest) <= fuel)%nat ->
  is_Some (scan_loop fuel pre rest ub dg).
Proof.
  revert pre rest ub dg. induction fuel as [|fuel IH]; intros pre [|ptr rest] ub dg Hs Hdg Hy Hf; try done.
  { simpl in Hf. lia. }
  assert (Hptr : sized ptr /\ yields dg ptr).
  { rewrite Forall_app, Forall_cons in Hs, Hy. tauto. }
  destruct Hptr as [Hptr Hyp]. pose proof Hptr as [Hnw _]. pose proof Hdg as [Hdw _].
  rewrite scan_loop_turn by done.
  assert (Hsub : sublist (pre ++ rest) (pre ++ ptr :: rest)) by (apply sublist_app; [done|by constructor]).
  assert (Herase : forall dg' ub', sized dg' -> index dg' = index dg -> size dg <= size dg' ->
    is_Some (scan_loop fuel [] (pre ++ rest) ub' dg')).
  { intros dg' ub' Hd' Hi' Hz'. apply IH; simpl; try done.
    - by eapply Forall_sublist_of.
    - eapply Forall_sublist_of; [done|]. eapply Forall_impl; [exact Hy|]. unfold yields. intros p Hp. rewrite Hi'. lia.
    - rewrite !length_app in *. simpl in *. nia. }
  assert (Hnext : is_Some (scan_loop fuel (pre ++ [ptr]) rest ub dg)).
  { apply IH; rewrite <- ?app_assoc; try done. simpl in *. lia. }
  destruct (Z.eqb_spec (index dg) (index ptr)) as [Hi|Hi].
  { destruct (Z.eqb_spec (tail ptr) (tail dg)); [done|]. apply Hyp in Hi as Hle. unfold tail in *.
    destruct (Z.ltb_spec (index ptr + size ptr) (index dg + size dg)); [by apply Herase|lia]. }
  destruct (Z.ltb_spec (index ptr) (index dg)); [repeat case_match; done|].
  destruct (Z.ltb_spec (index ptr) (tail dg)); [|done].
  destruct (Z.leb_spec (tail ptr) (tail dg)); [by apply Herase|].
  destruct (overlap_merger_sized dg ptr) as (? & ? & ?); try done; [lia|]. by apply Herase.
Qed.

Lemma handler_terminates fuel dg s :
  let l := temporarily_descrete_data_storage s in
  Forall sized l -> sized dg -> Forall (yields dg) l -> (length l + length l * length l <= fuel)%nat ->
  is_Some (missing_middle_handler fuel dg s).
Proof.
  intros l Hs Hdg Hy Hf. unfold missing_middle_handler.
  destruct (scan_loop_terminates fuel [] l (_unassembled_bytes s) dg) as [r Hr]; try done.
  subst l. rewrite Hr. destruct r; eauto.
Qed.

Lemma push_substring_terminates fuel data idx e s :
  let l := temporarily_descrete_data_storage s in
  Forall sized l -> StronglySorted yields l ->
  0 <= idx -> idx + len data < 2 ^ 64 -> Forall (yields (mkDatagram data idx (len data) e)) l ->
  (length l + S (length l) * S (length l) < fuel)%nat ->
  is_Some (push_substring fuel data idx e s).
Proof.
  revert data idx e s. induction fuel as [|fuel IH]; intros data idx e s l Hs Hso Hi Hd Hy Hf; [lia|].
  cbn [push_substring].
  assert (Hfin : forall ex s1, temporarily_descrete_data_storage s1 = l ->
    is_Some (finish (push_substring fuel) data e ex s1)).
  { intros ex s1 E. unfold finish, push_front_of_storage. rewrite E. clearbody l. destruct l as [|w storage]; [done|].
    destruct (_ && _); [|done]. rewrite Forall_cons in Hs. destruct Hs as [[(Hw1 & Hw2 & Hw3) Hw4] Hs].
    apply StronglySorted_inv in Hso as [Hso Hyw]. unfold tail in Hw3.
    set (s2 := mkStreamReassembler _ _ _ _ _ _).
    destruct (IH (_data w) (index w) (eof w) s2) as [s3 Hs3]; simpl; try done; try lia.
    - eapply Forall_impl; [exact Hyw|]. unfold yields; simpl. intros p. by rewrite Hw4.
    - simpl in Hf. nia.
    - rewrite Hs3. eauto. }
  split_if; [done|]. split_if; [done|]. split_if; [by apply Hfin|]. split_if.
  { apply handler_terminates; try done; [|subst l; nia].
    unfold sized, no_wrap, tail; simpl. lia. }
  split_if; [|by apply Hfin]. unfold overlap_handler. by apply Hfin.
Qed.

(** termination.  If no stored datagram starts at the index of the pushed
    substring with more data (nor at the index of a stored one before it),
    [push_substring] returns: the recursion and the restarting loop need at most
    one level per stored datagram and one pass per erasure. *)
Theorem push_terminates data idx e s :
  Forall sized (temporarily_descrete_data_storage s) ->
  StronglySorted yields (temporarily_descrete_data_storage s) ->
  0 <= idx -> idx + len data < 2 ^ 64 ->
  Forall (yields (mkDatagram data idx (len data) e)) (temporarily_descrete_data_storage s) ->
  exists s', push data idx e s = Some s'.
Proof. intros. apply push_substring_terminates; try done. unfold enough. lia. Qed.

Lemma push_terminates_witness :
  exists s', push (lit "abcd") 3 false
    (mkStreamReassembler (ByteStream_of 9) 9 0 3 4
       [mkDatagram (lit "ab") 3 2 false; mkDatagram (lit "de") 6 2 false]) = Some s'.
Proof.
  apply push_terminates; repeat constructor; try (vm_compute; by intros).
  all: unfold yields; simpl; lia.
Defined.

(** No amount of fuel suffices when the first stored datagram starts at the index of the
    pushed substring and is longer. *)
Lemma push_spins fuel data idx e s p rest :
  temporarily_descrete_data_storage s = p :: rest -> no_wrap p ->
  index p = idx -> len data < size p ->
  remaining_capacity (_output s) <> 0 -> _next_assembling_index s < idx ->
  0 < StreamReassembler._capacity s -> idx + StreamReassembler._capacity s < 2 ^ 64 ->
  push_substring fuel data idx e s = None.
Proof.
  intros Hl Hp <- Hd Hrc Hn Hc Hb. destruct fuel as [|fuel]; [done|]. cbn [push_substring].
  destruct Hp as (Hp1 & Hp2 & Hp3).
  destruct (Z.eqb_spec (remaining_capacity (_output s)) 0); [done|].
  unfold first_unassemble_byte_index. rewrite Hl.
  destruct (Z.leb_spec (_next_assembling_index s) (index p)); [|lia]. rewrite u64_small by lia.
  destruct (Z.leb_spec (StreamReassembler._capacity s + index p) (index p)); [lia|].
  destruct (Z.eqb_spec (index p) (_next_assembling_index s)); [lia|].
  destruct (Z.ltb_spec (_next_assembling_index s) (index p)); [|lia].
  unfold missing_middle_handler. rewrite Hl.
  assert (scan_loop fuel [] (p :: rest) (_unassembled_bytes s) (mkDatagram data (index p) (len data) e) = None) as ->; [|done].
  induction fuel as [|fuel IH]; [done|]. rewrite scan_loop_turn; simpl; [|done|].
  - rewrite Z.eqb_refl. unfold tail in *; simpl.
    destruct (Z.eqb_spec (index p + size p) (index p + len data)); [lia|].
    destruct (Z.ltb_spec (index p + size p) (index p + len data)); [lia|done].
  - unfold no_wrap, tail in *; simpl. lia.
Qed.



(** ** Completeness for a fixed segmentation

    [seg i n] says that the peer sends the [n] bytes from [i] on as one segment.
    Segments are non-empty, and two of them are equal or disjoint. *)

Section Segmented.
Context (T : list byte) (cap : Z).
Context (Hcap : 0 <= cap) (Hbound : len T + cap < 2 ^ 64 - 1).
Context (seg : Z -> Z -> Prop).
Context (seg_range : forall i n, seg i n -> 0 <= i /\ 0 < n /\ i + n <= len T).
Context (seg_disjoint : forall i n j m, seg i n -> seg j m -> (i = j /\ n = m) \/ i + n <= j \/ j + m <= i).

Abbreviation next := _next_assembling_index.
Abbreviation storage := temporarily_descrete_data_storage.

(** The datagram for a segment. *)
Definition segment (i n : Z) : datagram := mkDatagram (slice i n T) i n (i + n =? len T).

Definition is_segment (p : datagram) : Prop := seg (index p) (size p) /\ p = segment (index p) (size p).

Definition stored (s : StreamReassembler) (j m : Z) : Prop := segment j m ∈ storage s.

(** The write position is a segment boundary. *)
Definition boundary (k : Z) : Prop := k = 0 \/ exists i n, seg i n /\ i + n = k.

Lemma seg_at_boundary i n k : boundary k -> seg i n -> i + n <= k \/ k <= i.
Proof.
  intros [->|(j & m & Hj & <-)] Hi.
  - apply seg_range in Hi. lia.
  - destruct (seg_disjoint i n j m Hi Hj) as [[-> ->]|[?|?]]; [lia| |lia].
    apply seg_range in Hi, Hj. lia.
Qed.

Lemma seg_len i n : seg i n -> len (slice i n T) = n.
Proof. intros Hi. apply seg_range in Hi. apply len_slice; lia. Qed.

Lemma segment_consistent i n : seg i n -> consistent T (segment i n).
Proof.
  intros Hi. pose proof (seg_len i n Hi) as Hl. apply seg_range in Hi. unfold consistent; simpl.
  rewrite Hl. split_and!; try done; try lia.
Qed.

(** On segments the loop erases nothing: it finds the segment already stored,
    or leaves with the new datagram. *)
Lemma scan_loop_segments fuel pre rest ub i n :
  Forall is_segment (pre ++ rest) -> seg i n -> (length rest <= fuel)%nat ->
  (segment i n ∈ pre ++ rest /\ scan_loop fuel pre rest ub (segment i n) = Some (Returned (pre ++ rest) ub)) \/
  scan_loop fuel pre rest ub (segment i n) = Some (Left (pre ++ rest) ub (segment i n)).
Proof.
  intros Hs Hi. revert pre rest Hs. induction fuel as [|fuel IH]; intros pre [|ptr rest] Hs Hf; simpl in Hf; try lia.
  1,2: right; by rewrite app_nil_r.
  assert (Hptr : is_segment ptr) by (rewrite Forall_app, Forall_cons in Hs; tauto).
  destruct Hptr as [Hp Heq]. pose proof (consistent_no_wrap T cap Hcap Hbound) as Hnw.
  rewrite scan_loop_turn; [|rewrite Heq; by apply Hnw, segment_consistent|by apply Hnw, segment_consistent].
  destruct (IH (pre ++ [ptr]) rest) as [[Hin E]|E]; rewrite <- ?app_assoc in *; simpl in *; try done; try lia.
  all: unfold tail; simpl.
  all: destruct (seg_disjoint i n _ _ Hi Hp) as [[Ha Hb]|Hd]; [left|].
  1,3: split; [apply elem_of_app; right; rewrite Ha, Hb, <- Heq; constructor|].
  1,2: rewrite Ha, Hb, !Z.eqb_refl; done.
  all: pose proof (seg_range _ _ Hi); pose proof (seg_range _ _ Hp).
  all: destruct (Z.eqb_spec i (index ptr)); [lia|].
  all: destruct (Z.ltb_spec (index ptr) i).
  1,3: destruct (Z.ltb_spec (index ptr + size ptr) (i + n)); [by right|lia].
  all: destruct (Z.ltb_spec (index ptr) (i + n)); [lia|].
  - left. done.
  - right. done.
Qed.

(** Everything stored is a segment, and the write position is a boundary. *)
Definition aligned (s : StreamReassembler) : Prop :=
  inv T cap s /\ Forall is_segment (storage s) /\ boundary (next s).

(** No stored segment continues the output. *)
Definition drained (s : StreamReassembler) : Prop :=
  Forall (fun p => next s < index p \/ tail p <= next s) (storage s).

(** The effect of pushing segment [(i, n)] in [s]: what was known and is not yet
    written stays stored, nothing else is stored, everything written was known,
    nothing that could be written is left behind, and the end is signalled. *)
Record absorbs (i n : Z) (s s' : StreamReassembler) : Prop := {
  ab_grows : grows T cap s s';
  ab_aligned : aligned s';
  ab_drained : drained s';
  ab_kept : forall j m, (j = i /\ m = n) \/ stored s j m -> seg j m -> j + m <= next s' \/ stored s' j m;
  ab_only : forall j m, stored s' j m -> (j = i /\ m = n) \/ stored s j m;
  ab_written : forall k, next s <= k < next s' ->
    exists j m, seg j m /\ ((j = i /\ m = n) \/ stored s j m) /\ j <= k < j + m;
  ab_ended : input_ended s = true -> input_ended s' = true;
  ab_finished : next s < len T -> next s' = len T -> input_ended s' = true
}.

(** The recursive call, as the induction on the fuel provides it. *)
Definition push_absorbs (fuel : nat) : Prop :=
  forall i n s, aligned s -> seg i n -> i + n <= taken s + cap ->
    Forall (fun p => next s < index p \/ tail p <= next s \/ i <= index p) (storage s) ->
    (2 * length (storage s) < fuel)%nat ->
    exists s', push_substring fuel (slice i n T) i (i + n =? len T) s = Some s' /\ absorbs i n s s'.

(** The effect of the recursion alone: [absorbs] without a new segment. *)
Record drains (s s' : StreamReassembler) : Prop := {
  dr_grows : grows T cap s s';
  dr_aligned : aligned s';
  dr_drained : drained s';
  dr_kept : forall j m, stored s j m -> seg j m -> j + m <= next s' \/ stored s' j m;
  dr_only : forall j m, stored s' j m -> stored s j m;
  dr_written : forall k, next s <= k < next s' -> exists j m, seg j m /\ stored s j m /\ j <= k < j + m;
  dr_ended : input_ended s = true -> input_ended s' = true;
  dr_finished : next s < len T -> next s' = len T -> input_ended s' = true
}.

Lemma drains_refl s : aligned s -> drained s -> drains s s.
Proof.
  intros Ha Hd. pose proof Ha as [Hi _]. constructor; try done; intros; auto; try lia.
Qed.

(** The front of the storage is handed to the recursive call until nothing
    continues the output. *)
Lemma push_front_drains fuel data s :
  push_absorbs fuel -> aligned s -> data <> [] -> (2 * length (storage s) < S fuel)%nat ->
  exists s', push_front_of_storage (push_substring fuel) data s = Some s' /\ drains s s'.
Proof.
  intros IH Hal Hd Hf. pose proof Hal as (Hv & Hs & Hb). unfold push_front_of_storage.
  assert ((len data =? 0) = false) as -> by (destruct data; [done|]; apply Z.eqb_neq; simpl; lia).
  rewrite andb_true_r.
  destruct (storage s) as [|w rest] eqn:E.
  { exists s. split; [done|]. apply drains_refl; [done|]. unfold drained. rewrite E. constructor. }
  destruct (Z.leb_spec (_smallest_temporty_index s) (next s)) as [Hg|Hg].
  2: { exists s. split; [done|]. apply drains_refl; [done|].
       pose proof (inv_smallest _ _ _ Hv) as Hsm. unfold drained.
       eapply Forall_impl; [exact Hsm|]. simpl. intros; lia. }
  destruct (pop_front_inv T cap s w rest Hv E) as (Hv' & Hcw & Hww).
  rewrite Forall_cons in Hs. destruct Hs as [[Hw Heqw] Hs].
  set (s1 := mkStreamReassembler _ _ _ _ _ _) in *.
  destruct (IH (index w) (size w) s1) as (s2 & Hs2 & Hab); try done.
  { apply Hww. destruct (seg_range _ _ Hw) as (_ & ? & _). done. }
  { pose proof (inv_sorted _ _ _ Hv) as Hso. rewrite E in Hso. apply StronglySorted_inv in Hso as [_ Hle].
    eapply Forall_impl; [exact Hle|]. unfold index_le. auto. }
  { simpl in *. lia. }
  exists s2. rewrite Heqw at 1 2 3. simpl. split; [exact Hs2|].
  destruct Hab as [[Hg1 [Hg2 Hg3]] Ha Hdr Hk Ho Hwr He Hfi].
  assert (Hst : forall j m, (j = index w /\ m = size w) \/ stored s1 j m <-> stored s j m).
  { intros j m. unfold stored. rewrite E. simpl. rewrite elem_of_cons. split; intros [H|H]; auto.
    - left. destruct H as [-> ->]. by rewrite <- Heqw.
    - left. apply (f_equal index) in H as Hx. apply (f_equal size) in H as Hy. done. }
  constructor; try done.
  - intros j m. rewrite <- Hst. apply Hk.
  - intros j m. rewrite <- Hst. apply Ho.
  - intros k Hk'. destruct (Hwr k Hk') as (j & m & ? & ? & ?). exists j, m. rewrite <- Hst. auto.
Qed.

(** The statements after the case analysis, once [(i, n)] is written. *)
Lemma finish_absorbs fuel i n s s1 :
  push_absorbs fuel -> seg i n -> aligned s1 -> storage s1 = storage s ->
  i + n <= next s1 -> next s <= next s1 -> (forall k, next s <= k < next s1 -> i <= k < i + n) ->
  taken s1 = taken s -> input_ended s1 = input_ended s -> (next s1 = len T -> next s = len T \/ i + n = len T) ->
  (2 * length (storage s) < S fuel)%nat ->
  exists s', finish (push_substring fuel) (slice i n T) (i + n =? len T) false s1 = Some s' /\ absorbs i n s s'.
Proof.
  intros IH Hi Hal Est Hn Hle Hcov Ht He Hfin Hf. pose proof (seg_range i n Hi) as Hr.
  assert (Hne : slice i n T <> []).
  { intros E. pose proof (seg_len i n Hi) as Hl. rewrite E in Hl. simpl in Hl. lia. }
  destruct (push_front_drains fuel (slice i n T) s1) as (s2 & Hs2 & Hd); try done; [congruence|].
  unfold finish. rewrite Hs2, andb_true_r. eexists; split; [done|].
  destruct Hd as [[Hg1 [Hg2 Hg3]] [Ha1 [Ha2 Ha3]] Hdr Hk Ho Hw Hen Hfi].
  assert (Hst : forall j m, stored s1 j m <-> stored s j m) by (intros; unfold stored; by rewrite Est).
  pose proof (inv_next _ _ _ Hg1) as Hnx.
  set (s3 := if i + n =? len T then _ else _).
  assert (Hs3 : next s3 = next s2 /\ storage s3 = storage s2 /\ taken s3 = taken s2 /\ inv T cap s3 /\
    (input_ended s2 = true -> input_ended s3 = true) /\ (i + n = len T -> input_ended s3 = true)).
  { subst s3. destruct (Z.eqb_spec (i + n) (len T)); split_and!; try done.
    apply end_input_inv; [done|lia]. }
  destruct Hs3 as (E1 & E2 & E3 & E4 & E5 & E6).
  constructor; unfold grows, aligned, drained, stored in *; rewrite ?E1, ?E2, ?E3 in *.
  - split_and!; [done|congruence|lia].
  - done.
  - done.
  - intros j m [[-> ->]|Hjm] Hseg; [left; lia|]. apply Hk; [|done]. by rewrite Est.
  - intros j m Hjm. right. rewrite <- Est. by apply Ho.
  - intros k Hk'. destruct (decide (k < next s1)).
    + exists i, n. split; [done|]. split; [by left|]. apply Hcov. lia.
    + destruct (Hw k) as (j & m & ? & Hjm & ?); [lia|]. exists j, m. rewrite Est in Hjm. auto.
  - rewrite <- He. auto.
  - intros Hlt Heq. destruct (decide (next s1 = len T)) as [E|]; [|apply E5, Hfi; [|done]].
    + apply E6. destruct (Hfin E); [lia|done].
    + destruct Hal as [Hi1 _]. pose proof (inv_next _ _ _ Hi1). lia.
Qed.

(** With a full window, everything known is already written. *)
Lemma full_absorbs i n s :
  aligned s -> seg i n -> i + n <= taken s + cap -> taken s + cap - next s = 0 -> absorbs i n s s.
Proof.
  intros Hal Hi HW Hfull. pose proof Hal as (Hv & Hs & _).
  constructor; unfold grows; auto; try lia.
  - split_and!; [done..|lia].
  - pose proof (inv_window _ _ _ Hv) as Hw. unfold drained. rewrite Forall_forall in *. intros p Hp.
    destruct (seg_range _ _ (proj1 (Hs p Hp))) as (_ & Hz & _). specialize (Hw p Hp Hz). lia.
  - intros j m [[-> ->]|?] ?; [left; lia|by right].
Qed.

(** A segment inside the window passes the test on [indicator]. *)
Lemma indicator_above i n s :
  inv T cap s -> seg i n -> i + n <= taken s + cap ->
  i < (if next s <=? first_unassemble_byte_index s
       then u64 (StreamReassembler._capacity s + first_unassemble_byte_index s)
       else u64 (StreamReassembler._capacity s + next s)).
Proof.
  intros Hv Hi HW. pose proof (inv_bounds T cap s Hv) as Hbd. pose proof (inv_next _ _ _ Hv).
  pose proof (seg_range i n Hi) as Hr. rewrite (inv_cap _ _ _ Hv).
  assert (0 <= first_unassemble_byte_index s <= len T + 1).
  { unfold first_unassemble_byte_index. pose proof (inv_storage _ _ _ Hv) as Hs.
    destruct (storage s) as [|w l]; [lia|]. apply Forall_inv in Hs as (? & ? & ? & _). lia. }
  zcase; rewrite u64_small; lia.
Qed.

Lemma handler_absorbs fuel i n s :
  aligned s -> seg i n -> i + n <= taken s + cap -> next s < i ->
  Forall (fun p => next s < index p \/ tail p <= next s \/ i <= index p) (storage s) ->
  (length (storage s) <= fuel)%nat ->
  exists s', missing_middle_handler fuel (segment i n) s = Some s' /\ absorbs i n s s'.
Proof.
  intros Hal Hi HW Hn Hpre Hf. pose proof Hal as (Hv & Hs & Hb).
  assert (Hdr : drained s) by (eapply Forall_impl; [exact Hpre|simpl; intros; lia]).
  assert (Hterm : exists s', missing_middle_handler fuel (segment i n) s = Some s' /\
    next s' = next s /\ input_ended s' = input_ended s /\
    ((storage s' = storage s /\ stored s i n) \/ storage s' ≡ₚ segment i n :: storage s)).
  { unfold missing_middle_handler.
    destruct (scan_loop_segments fuel [] (storage s) (_unassembled_bytes s) i n) as [[Hin E]|E]; try done; rewrite E.
    - eexists; split_and!; try done. by left.
    - eexists; split_and!; try done. right. simpl. by rewrite insert_sorted_perm, sort_perm. }
  destruct Hterm as (s' & Hm & En & Ee & Hst). exists s'. split; [done|].
  destruct (handler_inv T cap Hcap Hbound _ _ _ _ Hv (segment_consistent i n Hi) (fun _ => HW) Hm) as (Hv' & Ht' & _).
  assert (Hmem : forall p, p ∈ storage s' <-> p = segment i n \/ p ∈ storage s).
  { intros p. destruct Hst as [[-> Hin]| ->]; [|by rewrite elem_of_cons]. unfold stored in Hin. split; [by right|by intros [->|?]]. }
  constructor; unfold grows, aligned, drained, stored in *; rewrite ?En, ?Ee; try done; try lia.
  - split_and!; try done. rewrite Forall_forall in *. intros p. rewrite Hmem. intros [->|?]; [done|auto].
  - rewrite Forall_forall in *. intros p. rewrite Hmem. intros [->|?]; [left; simpl; lia|auto].
  - intros j m [[-> ->]|Hjm] _; right; rewrite Hmem; auto.
  - intros j m. rewrite Hmem. intros [E|?]; [left|by right]. injection E. auto.
Qed.

Lemma push_substring_absorbs fuel : push_absorbs fuel.
Proof.
  induction fuel as [|fuel IH]; intros i n s Hal Hi HW Hpre Hf; [lia|].
  pose proof Hal as (Hv & Hs & Hb). pose proof (seg_range i n Hi) as Hr.
  pose proof (inv_bounds T cap s Hv) as Hbd. pose proof (inv_remaining T cap s Hv) as Hrc.
  pose proof (segment_consistent i n Hi) as Hc. pose proof (seg_len i n Hi) as Hl.
  cbn [push_substring]. rewrite Hrc, Hl.
  destruct (Z.eqb_spec (taken s + cap - next s) 0) as [Hfull|Hfull].
  { exists s. split; [done|]. by apply full_absorbs. }
  pose proof (indicator_above i n s Hv Hi HW) as Hind. apply Z.leb_gt in Hind. rewrite Hind.
  destruct (Z.eqb_spec i (next s)) as [Hx|Hx].
  { destruct (good_case_inv T cap Hcap Hbound s (slice i n T) i (i + n =? len T)) as (Hg1 & Hg2 & Hg3);
      rewrite ?Hl in *; try done.
    apply finish_absorbs; try done; rewrite ?Hg3; try lia.
    - split_and!; [done..|]. rewrite Hg3. right. eauto.
    - unfold input_ended, good_case; simpl. destruct Hv as [Ho]. by rewrite write_eq by done. }
  destruct (Z.ltb_spec (next s) i) as [Hy|Hy].
  { apply (handler_absorbs fuel i n s); try done. lia. }
  rewrite (u64_small (i + n)) by lia.
  destruct (Z.ltb_spec (next s) (i + n)); [destruct (seg_at_boundary i n (next s) Hb Hi); lia|].
  apply finish_absorbs; try done; lia.
Qed.

(** The runs: segments arrive in any order and any number of times, each within
    the window at its arrival, and the application reads in between; the list
    records what has arrived. *)
Inductive run : list (Z * Z) -> StreamReassembler -> Prop :=
  | run_init : run [] (StreamReassembler_of cap)
  | run_push i n R s s' :
      run R s -> seg i n -> i + n <= taken s + cap ->
      push (slice i n T) i (i + n =? len T) s = Some s' -> run ((i, n) :: R) s'
  | run_pop k R s : run R s -> 0 <= k -> run R (update_output (pop_output k) s).

(** Byte [k] of the stream has arrived. *)
Definition arrived (R : list (Z * Z)) (k : Z) : Prop := exists i n, (i, n) ∈ R /\ i <= k < i + n.

Record run_inv (R : list (Z * Z)) (s : StreamReassembler) : Prop := {
  ri_aligned : aligned s;
  ri_drained : drained s;
  ri_segs : forall i n, (i, n) ∈ R -> seg i n;
  ri_kept : forall i n, (i, n) ∈ R -> i + n <= next s \/ stored s i n;
  ri_only : forall i n, stored s i n -> (i, n) ∈ R;
  ri_written : forall k, 0 <= k < next s -> arrived R k;
  ri_ended : 0 < len T -> next s = len T -> input_ended s = true
}.

Lemma push_run R i n s :
  run_inv R s -> seg i n -> i + n <= taken s + cap ->
  exists s', push (slice i n T) i (i + n =? len T) s = Some s' /\ run_inv ((i, n) :: R) s'.
Proof.
  intros [Ha Hd Hse Hk Ho Hw He] Hi HW. unfold push.
  destruct (push_substring_absorbs (enough s) i n s) as (s' & Hs' & Hab); try done.
  { eapply Forall_impl; [exact Hd|]. simpl. intros; lia. }
  { unfold enough. lia. }
  exists s'. split; [done|]. destruct Hab as [[Hg1 [Hg2 Hg3]] Ha' Hd' Hk' Ho' Hw' He' Hf'].
  constructor; try done.
  - intros j m Hjm. apply elem_of_cons in Hjm as [Hjm|?]; [by simplify_eq|auto].
  - intros j m Hjm. apply elem_of_cons in Hjm as [Hjm|Hjm].
    + simplify_eq. apply Hk'; [by left|done].
    + destruct (Hk j m Hjm); [left; lia|]. apply Hk'; [by right|auto].
  - intros j m Hjm. apply elem_of_cons. destruct (Ho' j m Hjm) as [[-> ->]|?]; auto.
  - intros k Hk1. destruct (decide (k < next s)).
    + destruct (Hw k) as (j & m & ? & ?); [lia|]. exists j, m. split; [by right|done].
    + destruct (Hw' k) as (j & m & ? & Hjm & ?); [lia|]. exists j, m. split; [|done].
      apply elem_of_cons. destruct Hjm as [[-> ->]|?]; auto.
  - intros HT E. destruct (decide (next s = len T)); [auto|].
    pose proof (inv_next _ _ _ (proj1 Ha)). apply Hf'; [lia|done].
Qed.

Lemma run_run_inv R s : run R s -> run_inv R s.
Proof.
  induction 1 as [|i n R s s' _ IH Hi HW Hp|k R s _ IH Hk].
  - constructor; try done; simpl; try lia; [|constructor|intros ? ? H; by apply not_elem_of_nil in H..].
    split_and!; [by apply inv_init|constructor|by left].
  - destruct (push_run R i n s) as (s2 & Hs2 & ?); try done. congruence.
  - destruct IH as [(Hv & Hs & Hb) Hd Hse Hkp Ho Hw He]. constructor; try done.
    + split_and!; try done. by apply pop_inv.
Qed.
End Segmented.

(** A segmentation of [T]. *)
Record segmentation (T : list byte) (seg : Z -> Z -> Prop) : Prop := {
  sg_range : forall i n, seg i n -> 0 <= i /\ 0 < n /\ i + n <= len T;
  sg_disjoint : forall i n j m, seg i n -> seg j m -> (i = j /\ n = m) \/ i + n <= j \/ j + m <= i
}.

(** totality for segmented senders.  If the peer cuts its stream into
    segments and only ever sends whole segments (in any order, repeated at
    will), every [push_substring] inside the window returns. *)
Theorem segmented_push_returns T cap seg R s i n :
  0 <= cap -> len T + cap < 2 ^ 64 - 1 -> segmentation T seg ->
  run T cap seg R s -> seg i n -> i + n <= taken s + cap ->
  exists s', push (slice i n T) i (i + n =? len T) s = Some s'.
Proof.
  intros Hcap Hb [Hr Hd] Hrun Hi HW. apply run_run_inv in Hrun; try done.
  destruct (push_run T cap Hcap Hb seg Hr Hd R i n s) as (s' & ? & _); eauto.
Qed.

(** C8: completeness for segmented senders.  The output holds the longest prefix
    of the stream that has arrived: the first [k] bytes are written exactly when
    all of them have arrived, whatever the order and repetition of the segments,
    and the end of a non-empty stream is signalled exactly when everything has. *)
Theorem segmented_complete T cap seg R s :
  0 <= cap -> len T + cap < 2 ^ 64 - 1 -> segmentation T seg -> run T cap seg R s ->
  (forall k, 0 <= k -> (k <= bytes_written (stream_out s) <-> forall b, 0 <= b < k -> arrived R b)) /\
  (0 < len T -> (input_ended s = true <-> bytes_written (stream_out s) = len T)).
Proof.
  intros Hcap Hb [Hr Hd] Hrun. apply run_run_inv in Hrun; try done.
  destruct Hrun as [(Hv & Hs & Hbo) Hdr Hse Hk Ho Hw He].
  unfold stream_out. rewrite (inv_bytes_written T cap Hcap Hb s Hv).
  split; [|intros HT; split; [apply (inv_ended _ _ _ Hv)|auto]].
  intros k Hk0. split; [intros Hle b Hb'; apply Hw; lia|].
  intros Hall. destruct (decide (k <= _next_assembling_index s)) as [|Hlt]; [done|exfalso].
  pose proof (inv_bounds T cap s Hv).
  destruct (Hall (_next_assembling_index s)) as (i & n & Hin & Hcov); [lia|].
  destruct (Hk i n Hin) as [?|Hst]; [lia|].
  unfold drained in Hdr. rewrite Forall_forall in Hdr. specialize (Hdr _ Hst).
  unfold tail in Hdr; simpl in Hdr. lia.
Qed.

(** A two-segment stream used to exercise both theorems. *)
Definition seg_abcde (i n : Z) : Prop := (i = 0 /\ n = 2) \/ (i = 2 /\ n = 3).

Lemma seg_abcde_ok : segmentation (lit "abcde") seg_abcde.
Proof. constructor; unfold seg_abcde; simpl; intros; lia. Qed.

Lemma run_abcde_1 :
  exists s, run (lit "abcde") 8 seg_abcde [(2, 3)] s /\ push (lit "cde") 2 true (StreamReassembler_of 8) = Some s.
Proof.
  eexists. split; [|vm_compute; reflexivity].
  apply (run_push (lit "abcde") 8 seg_abcde 2 3 [] (StreamReassembler_of 8)).
  - constructor.
  - by right.
  - vm_compute. by intros.
  - by vm_compute.
Defined.

Lemma segmented_push_returns_witness :
  exists s, run (lit "abcde") 8 seg_abcde [(2, 3)] s /\ exists s', push (lit "ab") 0 false s = Some s'.
Proof.
  destruct run_abcde_1 as (s & Hs & E). exists s. split; [done|].
  apply (segmented_push_returns (lit "abcde") 8 seg_abcde [(2, 3)] s 0 2); try done.
  - apply seg_abcde_ok.
  - by left.
  - vm_compute in E. injection E as <-. vm_compute. by intros.
Defined.

Lemma segmented_complete_witness :
  exists s, run (lit "abcde") 8 seg_abcde [(0, 2); (2, 3)] s /\
    bytes_written (stream_out s) = 5 /\ input_ended s = true.
Proof.
  destruct run_abcde_1 as (s & Hs & E). vm_compute in E. injection E as E. subst s.
  eexists. split; [eapply (run_push _ _ _ 0 2); [exact Hs|by left|by vm_compute|vm_compute; reflexivity]|].
  assert (H : forall s, run (lit "abcde") 8 seg_abcde [(0, 2); (2, 3)] s -> bytes_written (stream_out s) = 5 ->
    input_ended s = true).
  { intros s Hrun Hbw.
    apply (segmented_complete (lit "abcde") 8 seg_abcde [(0, 2); (2, 3)] s); try done. apply seg_abcde_ok. }
  split; [reflexivity|]. apply H; [|reflexivity].
  eapply (run_push _ _ _ 0 2); [exact Hs|by left|by vm_compute|vm_compute; reflexivity].
Defined.
