(* ===== verification/ReassemblerLimits.v ===== *)
(** * Where the reassembler leaves its contract

    The header of [stream_reassembler.hh] promises to stay within the capacity,
    to discard what exceeds it, and to count a stored byte once.  These theorems
    characterise the inputs on which the code does otherwise; all of them lie
    outside the hypotheses of [reassembler_prefix] or [segmented_complete], or
    concern the bookkeeping only. *)
From S2P Require Import Prelude ByteStream StreamReassembler.

Abbreviation next := _next_assembling_index.
Abbreviation storage := temporarily_descrete_data_storage.
Abbreviation room s := (remaining_capacity (_output s)).

(** An in-sync state with nothing stored: the write counter is the position. *)
Record idle (s : StreamReassembler) : Prop := {
  idle_wf : ByteStream.wf (_output s);
  idle_sync : bytes_written (_output s) = next s;
  idle_empty : storage s = [];
  idle_cap : StreamReassembler._capacity s = ByteStream._capacity (_output s);
  idle_bound : 0 <= next s /\ next s + StreamReassembler._capacity s < 2 ^ 64
}.

Lemma idle_init cap : 0 <= cap < 2 ^ 64 -> idle (StreamReassembler_of cap).
Proof. intros. constructor; simpl; try done; [by apply wf_init|lia]. Qed.

Lemma idle_indicator s :
  idle s ->
  (if next s <=? first_unassemble_byte_index s
   then u64 (StreamReassembler._capacity s + first_unassemble_byte_index s)
   else u64 (StreamReassembler._capacity s + next s)) = StreamReassembler._capacity s + next s.
Proof.
  intros [Hwf _ Hst Hc Hb]. unfold first_unassemble_byte_index. rewrite Hst.
  destruct Hwf. zcase; rewrite u64_small by lia; [|lia]. lia.
Qed.

(** A write larger than the room advances the counter by the room. *)
Lemma write_truncates data s :
  idle s -> room s <= len data -> 0 <= room s ->
  bytes_written (write data (_output s)).2 = next s + room s /\
  _stream (write data (_output s)).2 = _stream (_output s) ++ ztake (room s) data.
Proof.
  intros [Hwf Hsy Hst Hc Hb] Hd H0. rewrite write_eq by done. unfold accepted.
  rewrite <- remaining_capacity_eq by done.
  simpl. rewrite len_ztake by done. unfold bytes_written in *; simpl.
  rewrite Z.min_l by done. split; [|done]. rewrite remaining_capacity_eq in * by done.
  destruct Hwf. rewrite wf_written in Hsy. rewrite <- Hsy. rewrite Hsy at 1.
  rewrite <- (u64_small (next s + _)) by lia. rewrite <- Hsy, u64_add_l. done.
Qed.

(** loss of stream data.  If a substring that overlaps the assembled part
    extends past the window, the excess is not stored but [overlap_handler]
    still advances [_next_assembling_index] over it: the index runs ahead of the
    bytes written, and a later retransmission of the missing bytes is taken for
    a repetition and dropped, changing nothing. *)
Theorem overlap_excess_lost data idx s :
  idle s -> 0 <= idx < next s -> idx + len data < 2 ^ 64 ->
  0 < room s < idx + len data - next s ->
  exists s0, push data idx false s = Some s0 /\
  bytes_written (_output s0) = next s + room s /\ bytes_written (_output s0) < next s0 /\
  (forall missing j, j < next s0 -> 0 <= j -> j + len missing <= next s0 -> push missing j false s0 = Some s0).
Proof.
  intros Hid Hidx Hd Hroom.
  exists (mkStreamReassembler (write (zdrop (next s - idx) data) (_output s)).2 (StreamReassembler._capacity s)
           (idx + len data) (_smallest_temporty_index s) (_unassembled_bytes s) []).
  destruct (write_truncates (zdrop (next s - idx) data) s) as [Hbw _]; try done; [|lia|].
  { rewrite len_zdrop; lia. }
  pose proof (idle_empty s Hid) as Hst. split_and!; try done; simpl; try lia.
  - unfold push, enough. rewrite Hst. simpl length. cbn [Nat.add Nat.mul push_substring].
    rewrite idle_indicator by done. destruct Hid as [Hwf Hsy _ Hc Hb].
    destruct (Z.eqb_spec (room s) 0); [lia|].
    destruct (Z.leb_spec (StreamReassembler._capacity s + next s) idx); [destruct Hwf; lia|].
    destruct (Z.eqb_spec idx (next s)); [lia|]. destruct (Z.ltb_spec (next s) idx); [lia|].
    rewrite (u64_small (idx + len data)) by lia.
    destruct (Z.ltb_spec (next s) (idx + len data)); [|lia].
    unfold overlap_handler; simpl. rewrite (u64_small (next s - idx)) by lia.
    assert (Hl : len (zdrop (next s - idx) data) = idx + len data - next s) by (rewrite len_zdrop; lia).
    rewrite Hl. replace (next s + (idx + len data - next s)) with (idx + len data) by lia.
    rewrite u64_small by lia. unfold finish, push_front_of_storage; simpl. by rewrite Hst.
  - intros missing j Hj H0 Hm. unfold push, enough; simpl length. cbn [Nat.add Nat.mul push_substring]; simpl.
    split_if; [done|]. split_if; [done|]. destruct (Z.eqb_spec j (idx + len data)); [lia|].
    destruct (Z.ltb_spec (idx + len data) j); [lia|]. rewrite (u64_small (j + len missing)) by lia.
    destruct (Z.ltb_spec (idx + len data) (j + len missing)); [lia|]. done.
Qed.

Lemma overlap_excess_lost_witness :
  exists s, push (lit "a") 0 false (StreamReassembler_of 2) = Some s /\
  exists s0, push (lit "abcd") 0 false s = Some s0 /\
  bytes_written (_output s0) = 2 /\ next s0 = 4 /\ push (lit "cd") 2 false s0 = Some s0.
Proof.
  eexists; split; [vm_compute; reflexivity|].
  destruct (overlap_excess_lost (lit "abcd") 0
    (mkStreamReassembler (write (lit "a") (ByteStream_of 2)).2 2 1 0 0 [])) as (s0 & E & Hb & Hlt & Hm).
  - by constructor.
  - simpl. lia.
  - simpl. lia.
  - vm_compute. done.
  - exists s0. vm_compute in E. injection E as <-. split; [reflexivity|].
    split; [reflexivity|]. split; [reflexivity|]. apply Hm; vm_compute; by intros.
Defined.

(** a truncated stream reported as complete.  An in-order substring that
    carries the end of the stream but does not fit is written only up to the
    capacity, and the end of the input is signalled all the same: the reader
    sees end-of-file before the bytes that were cut off. *)
Theorem eof_on_truncated_data data s :
  idle s -> 0 < room s < len data ->
  exists s', push data (next s) true s = Some s' /\
  input_ended s' = true /\ bytes_written (_output s') = next s + room s /\
  bytes_written (_output s') < next s + len data.
Proof.
  intros Hid Hroom. destruct (write_truncates data s) as [Hbw _]; try done; try lia.
  pose proof (idle_empty s Hid) as Hst. unfold push, enough. rewrite Hst. simpl length.
  cbn [Nat.add Nat.mul push_substring]. rewrite idle_indicator by done.
  destruct Hid as [Hwf Hsy _ Hc Hb]. destruct (Z.eqb_spec (room s) 0); [lia|].
  rewrite remaining_capacity_eq in Hroom by done.
  destruct (Z.leb_spec (StreamReassembler._capacity s + next s) (next s)); [destruct Hwf; lia|].
  rewrite Z.eqb_refl. unfold finish, push_front_of_storage, good_case; simpl. rewrite Hst.
  eexists; split; [done|]. unfold bytes_written in *; simpl. rewrite Hbw.
  rewrite remaining_capacity_eq by done. split_and!; try done. lia.
Qed.

Lemma eof_on_truncated_data_witness :
  exists s', push (lit "abc") 0 true (StreamReassembler_of 2) = Some s' /\ input_ended s' = true /\
  bytes_written (_output s') = 2.
Proof.
  destruct (eof_on_truncated_data (lit "abc") (StreamReassembler_of 2)) as (s' & E & He & Hb & _).
  - apply idle_init. lia.
  - vm_compute. done.
  - exists s'. split; [exact E|]. split; [exact He|]. exact Hb.
Defined.

(** a retransmission of a stored datagram that is not the first one is
    stored again.  When the first stored datagram starts and ends before the
    pushed one, the loop leaves at once, whatever else is stored: the datagram
    is inserted and its whole length added to [unassembled_bytes()], although a
    byte pushed twice should be counted once. *)
Theorem repeated_datagram_counted_twice data idx e s p rest :
  storage s = p :: rest -> no_wrap p ->
  mkDatagram data idx (len data) e ∈ rest ->
  index p < idx -> tail p < idx + len data -> next s < idx -> idx + len data < 2 ^ 64 ->
  room s <> 0 -> idx < u64 (StreamReassembler._capacity s + Z.max (index p) (next s)) ->
  exists s', push data idx e s = Some s' /\
  unassembled_bytes s' = u64 (unassembled_bytes s + len data) /\
  storage s' ≡ₚ mkDatagram data idx (len data) e :: storage s.
Proof.
  intros Hst Hp Hin Hlt Htl Hn Hd Hr Hind. unfold push.
  assert (exists n, enough s = S (S n)) as [n ->].
  { unfold enough. rewrite Hst. simpl. eexists. reflexivity. }
  cbn [push_substring]. destruct (Z.eqb_spec (room s) 0); [done|].
  assert (Hi : idx < (if next s <=? first_unassemble_byte_index s
     then u64 (StreamReassembler._capacity s + first_unassemble_byte_index s)
     else u64 (StreamReassembler._capacity s + next s))).
  { unfold first_unassemble_byte_index. rewrite Hst. zcase; [rewrite Z.max_l in Hind by lia|rewrite Z.max_r in Hind by lia]; done. }
  apply Z.leb_gt in Hi. rewrite Hi. destruct (Z.eqb_spec idx (next s)); [lia|].
  destruct (Z.ltb_spec (next s) idx); [|lia]. unfold missing_middle_handler. rewrite Hst.
  rewrite scan_loop_turn; [|done|].
  - simpl. destruct (Z.eqb_spec idx (index p)); [lia|]. destruct (Z.ltb_spec (index p) idx); [|lia].
    destruct (Z.ltb_spec (tail p) (tail (mkDatagram data idx (len data) e))); [|unfold tail in *; simpl in *; lia].
    eexists; split; [done|]. split; [done|]. simpl.
    change (foldr insert_sorted [] rest) with (sort rest).
    by rewrite !insert_sorted_perm, sort_perm.
  - destruct Hp as (? & ? & ?). unfold no_wrap, tail in *; simpl in *. lia.
Qed.

Lemma repeated_datagram_counted_twice_witness :
  exists s, (push (lit "bc") 1 false (StreamReassembler_of 9) ≫= push (lit "ef") 4 false) = Some s /\
  unassembled_bytes s = 4 /\
  exists s', push (lit "ef") 4 false s = Some s' /\ unassembled_bytes s' = 6.
Proof.
  eexists; split; [vm_compute; reflexivity|]. split; [reflexivity|].
  destruct (repeated_datagram_counted_twice (lit "ef") 4 false
    (mkStreamReassembler (ByteStream_of 9) 9 0 1 4 [mkDatagram (lit "bc") 1 2 false; mkDatagram (lit "ef") 4 2 false])
    (mkDatagram (lit "bc") 1 2 false) [mkDatagram (lit "ef") 4 2 false]) as (s' & E & Hu & _);
    try (vm_compute; by intros).
  - constructor.
  - exists s'. split; [exact E|exact Hu].
Defined.

(** the storage is not bounded by the capacity.  A substring that starts
    inside the window but beyond the assembled part is stored whole, however far
    past the capacity it reaches. *)
Theorem storage_exceeds_capacity data idx e s :
  idle s -> room s <> 0 -> next s < idx < next s + StreamReassembler._capacity s ->
  idx + len data < 2 ^ 64 -> unassembled_bytes s = 0 ->
  exists s', push data idx e s = Some s' /\ unassembled_bytes s' = len data /\
  storage s' = [mkDatagram data idx (len data) e].
Proof.
  intros Hid Hr Hidx Hd Hu. pose proof (idle_empty s Hid) as Hst.
  unfold push, enough. rewrite Hst. simpl length. cbn [Nat.add Nat.mul push_substring].
  rewrite idle_indicator by done. destruct (Z.eqb_spec (room s) 0); [done|].
  destruct (Z.leb_spec (StreamReassembler._capacity s + next s) idx); [lia|].
  destruct (Z.eqb_spec idx (next s)); [lia|]. destruct (Z.ltb_spec (next s) idx); [|lia].
  unfold missing_middle_handler. rewrite Hst. simpl. unfold unassembled_bytes in *.
  destruct Hid as [_ _ _ _ Hb]. eexists; split; [done|]. split; [|done]. simpl. rewrite Hu. apply u64_small. lia.
Qed.

Lemma storage_exceeds_capacity_witness :
  exists s', push (lit "bcdefgh") 1 false (StreamReassembler_of 2) = Some s' /\ unassembled_bytes s' = 7.
Proof.
  destruct (storage_exceeds_capacity (lit "bcdefgh") 1 false (StreamReassembler_of 2)) as (s' & E & Hu & _);
    try (vm_compute; by intros).
  exists s'. split; [exact E|exact Hu].
Defined.
