(* ===== verification/Buffer.v ===== *)
(** Strings that discard bytes from the front: [Buffer], [BufferList] and
    [BufferViewList] of [libsponge/util/buffer.hh] and [buffer.cc].

    The shared string of a [Buffer] is never written after its construction,
    so a copy of a [Buffer] is the pair of the string and the offset; resetting
    the pointer of one copy leaves the others alone. *)
From S2P Require Import Prelude.

(** ** Buffer *)

Record Buffer := mkBuffer { _storage : option (list byte); _starting_offset : Z }.

(** [Buffer()] and [Buffer(std::string &&)] *)
Definition Buffer_empty : Buffer := mkBuffer None 0.
Definition Buffer_of (s : list byte) : Buffer := mkBuffer (Some s) 0.

Definition str (b : Buffer) : list byte :=
  match _storage b with
  | None => []
  | Some s => slice (_starting_offset b) (u64 (len s - _starting_offset b)) s
  end.

(** [string_view::at] throws when the position is not in the string. *)
Definition at_ (n : Z) (b : Buffer) : result Z :=
  match str b !! Z.to_nat n with
  | Some c => Ok (b2z c)
  | None => Throw (out_of_range "basic_string_view::at")
  end.

Definition size (b : Buffer) : Z := len (str b).
Definition copy (b : Buffer) : list byte := str b.

Definition remove_prefix (n : Z) (b : Buffer) : result Buffer :=
  if len (str b) <? n then Throw (out_of_range "Buffer::remove_prefix")
  else
    let offset := u64 (_starting_offset b + n) in
    match _storage b with
    | Some s => if offset =? len s then Ok (mkBuffer None offset) else Ok (mkBuffer (Some s) offset)
    | None => Ok (mkBuffer None offset)
    end.

(** ** BufferList *)

Record BufferList := mkBufferList { _buffers : list Buffer }.

(** [BufferList()], [BufferList(Buffer)], [append] and
    [BufferList(std::string &&)] *)
Definition BufferList_empty : BufferList := mkBufferList [].
Definition BufferList_of_Buffer (b : Buffer) : BufferList := mkBufferList [b].
Definition append (other this : BufferList) : BufferList :=
  mkBufferList (fold_left (fun bufs buf => bufs ++ [buf]) (_buffers other) (_buffers this)).
Definition BufferList_of_string (s : list byte) : BufferList :=
  append (BufferList_of_Buffer (Buffer_of s)) BufferList_empty.

(** [BufferList::operator Buffer] *)
Definition to_Buffer (bl : BufferList) : result Buffer :=
  match _buffers bl with
  | [] => Ok Buffer_empty
  | [b] => Ok b
  | _ => Throw (runtime_error "BufferList: please use concatenate() to combine a multi-Buffer BufferList into one Buffer")
  end.

Definition concatenate (bl : BufferList) : list byte :=
  fold_left (fun ret buf => ret ++ str buf) (_buffers bl) [].

Definition list_size (bl : BufferList) : Z :=
  fold_left (fun ret buf => u64 (ret + size buf)) (_buffers bl) 0.

(** The loop of [BufferList::remove_prefix]: a turn removes the front buffer
    or is the last one. *)
Fixpoint list_remove_prefix_loop (n : Z) (bufs : list Buffer) : result (list Buffer) :=
  if 0 <? n then
    match bufs with
    | [] => Throw (out_of_range "BufferList::remove_prefix")
    | front :: rest =>
        if n <? len (str front) then
          let* front' := remove_prefix n front in Ok (front' :: rest)
        else list_remove_prefix_loop (u64 (n - len (str front))) rest
    end
  else Ok bufs.

Definition list_remove_prefix (n : Z) (bl : BufferList) : result BufferList :=
  let* bufs := list_remove_prefix_loop n (_buffers bl) in Ok (mkBufferList bufs).

(** ** BufferViewList *)

Record BufferViewList := mkBufferViewList { _views : list (list byte) }.

(** [BufferViewList(std::string_view)] and [BufferViewList(const BufferList &)] *)
Definition BufferViewList_of_string (s : list byte) : BufferViewList := mkBufferViewList [s].
Definition BufferViewList_of_BufferList (bl : BufferList) : BufferViewList :=
  mkBufferViewList (fold_left (fun views x => views ++ [str x]) (_buffers bl) []).

(** [string_view::remove_prefix] is [zdrop] on a long enough view. *)
Fixpoint view_remove_prefix_loop (n : Z) (views : list (list byte)) : result (list (list byte)) :=
  if 0 <? n then
    match views with
    | [] => Throw (out_of_range "BufferListView::remove_prefix")
    | front :: rest =>
        if n <? len front then Ok (zdrop n front :: rest)
        else view_remove_prefix_loop (u64 (n - len front)) rest
    end
  else Ok views.

Definition view_remove_prefix (n : Z) (v : BufferViewList) : result BufferViewList :=
  let* views := view_remove_prefix_loop n (_views v) in Ok (mkBufferViewList views).

Definition view_size (v : BufferViewList) : Z :=
  fold_left (fun ret buf => u64 (ret + len buf)) (_views v) 0.

(** The [iovec]s of a view: base and length, here the bytes they denote. *)
Definition as_iovecs (v : BufferViewList) : list (list byte) :=
  fold_left (fun ret x => ret ++ [x]) (_views v) [].

(** ** Well-formed buffers *)

(** The offset lies in the string, whose size is a [size_t]. *)
Record wf (b : Buffer) : Prop := {
  wf_offset : 0 <= _starting_offset b < 2 ^ 64;
  wf_storage : forall s, _storage b = Some s -> _starting_offset b <= len s < 2 ^ 64 }.

Lemma str_eq b : wf b -> str b = match _storage b with None => [] | Some s => zdrop (_starting_offset b) s end.
Proof.
  intros [Ho Hs]. unfold str. destruct (_storage b) as [s|]; [|done].
  specialize (Hs s eq_refl). rewrite u64_small by lia. unfold slice. apply ztake_all.
  rewrite len_zdrop; lia.
Qed.

Lemma size_range b : wf b -> 0 <= size b < 2 ^ 64.
Proof.
  intros H. unfold size. rewrite str_eq by done. destruct (_storage b) as [s|] eqn:E; [|done].
  destruct H as [Ho Hs]. specialize (Hs s E). rewrite len_zdrop; lia.
Qed.

Lemma wf_Buffer_of s : len s < 2 ^ 64 -> wf (Buffer_of s).
Proof. split; simpl; [lia|]. intros ? [= <-]. lia. Qed.

Lemma str_Buffer_of s : len s < 2 ^ 64 -> str (Buffer_of s) = s.
Proof. intros H. by rewrite str_eq by by apply wf_Buffer_of. Qed.

Lemma wf_Buffer_empty : wf Buffer_empty.
Proof. by split. Qed.

(** Removing a prefix that is there drops it; a longer one throws. *)
Lemma remove_prefix_ok n b :
  wf b -> 0 <= n <= size b -> exists b', remove_prefix n b = Ok b' /\ wf b' /\ str b' = zdrop n (str b).
Proof.
  intros Hwf Hn. pose proof Hwf as [Ho Hs]. unfold remove_prefix, size in *.
  destruct (Z.ltb_spec (len (str b)) n); [lia|].
  rewrite (str_eq b) in * by done. destruct b as [[s|] o]; simpl in *.
  - specialize (Hs s eq_refl). rewrite len_zdrop in * by lia. rewrite u64_small by lia.
    destruct (Z.eqb_spec (o + n) (len s)) as [E|E].
    + eexists. split_and!; [done| |].
      * split; simpl; [lia|done].
      * rewrite zdrop_all; [done|]. rewrite len_zdrop; lia.
    + assert (wf (mkBuffer (Some s) (o + n))) as Hw by (split; simpl; [lia|intros ? [= <-]; lia]).
      eexists. split_and!; [done|done|]. rewrite str_eq by done. simpl. rewrite zdrop_zdrop; [done|lia|lia].
  - assert (n = 0) as -> by (simpl in *; lia). rewrite Z.add_0_r, u64_small by lia.
    eexists. split_and!; [done| |done]. split; simpl; [lia|done].
Qed.

Lemma remove_prefix_throws n b :
  size b < n -> remove_prefix n b = Throw (out_of_range "Buffer::remove_prefix").
Proof. unfold remove_prefix, size. intros. destruct (Z.ltb_spec (len (str b)) n); [done|lia]. Qed.

(** ** The contents of a list of buffers *)

Definition bytes (bufs : list Buffer) : list byte := bufs ≫= str.

Lemma concatenate_eq bl : concatenate bl = bytes (_buffers bl).
Proof.
  unfold concatenate. rewrite <- (app_nil_l (bytes _)). generalize (@nil byte) as acc.
  induction (_buffers bl) as [|b bs IH]; intros acc; simpl.
  - by rewrite app_nil_r.
  - by rewrite IH, <- app_assoc.
Qed.

Lemma fold_snoc {A B} (f : A -> B) l acc :
  fold_left (fun r x => r ++ [f x]) l acc = acc ++ map f l.
Proof.
  revert acc. induction l as [|x l IH]; intros acc; simpl; [by rewrite app_nil_r|].
  by rewrite IH, <- app_assoc.
Qed.

Lemma append_eq other this : _buffers (append other this) = _buffers this ++ _buffers other.
Proof. unfold append. simpl. rewrite (fold_snoc (fun x => x)). by rewrite map_id. Qed.

Lemma concatenate_append other this : concatenate (append other this) = concatenate this ++ concatenate other.
Proof. rewrite !concatenate_eq, append_eq. apply bind_app. Qed.

Lemma concatenate_of_Buffer b : concatenate (BufferList_of_Buffer b) = str b.
Proof. done. Qed.

Lemma concatenate_of_string s : len s < 2 ^ 64 -> concatenate (BufferList_of_string s) = s.
Proof. intros H. exact (str_Buffer_of s H). Qed.

Lemma len_bytes_cons b bs : len (bytes (b :: bs)) = len (str b) + len (bytes bs).
Proof. unfold bytes. simpl. apply len_app. Qed.

Lemma list_size_eq bl : len (bytes (_buffers bl)) < 2 ^ 64 -> list_size bl = len (bytes (_buffers bl)).
Proof.
  unfold list_size. intros H.
  enough (forall acc, 0 <= acc -> acc + len (bytes (_buffers bl)) < 2 ^ 64 ->
    fold_left (fun ret buf => u64 (ret + size buf)) (_buffers bl) acc = acc + len (bytes (_buffers bl))) as E.
  { rewrite E; lia. }
  clear H. induction (_buffers bl) as [|b bs IH]; intros acc Ha H; [simpl; lia|].
  rewrite len_bytes_cons in *. cbn [fold_left]. unfold size at 2. rewrite u64_small by lia.
  rewrite IH by lia. lia.
Qed.

Lemma list_remove_prefix_loop_ok n bufs :
  Forall wf bufs -> 0 <= n <= len (bytes bufs) -> len (bytes bufs) < 2 ^ 64 ->
  exists bufs', list_remove_prefix_loop n bufs = Ok bufs' /\ Forall wf bufs' /\ bytes bufs' = zdrop n (bytes bufs).
Proof.
  intros Hwf. revert n. induction Hwf as [|b bs Hb Hbs IH]; intros n Hn Hmax.
  - simpl in *. assert (n = 0) as -> by lia. simpl. eauto.
  - rewrite len_bytes_cons in *. cbn [list_remove_prefix_loop].
    destruct (Z.ltb_spec 0 n) as [Hp|Hp].
    2: { assert (n = 0) as -> by lia. rewrite zdrop_0. eauto. }
    destruct (Z.ltb_spec n (len (str b))) as [Hlt|Hge].
    + destruct (remove_prefix_ok n b Hb) as (b' & -> & Hb' & Hs); [unfold size; lia|]. simpl.
      eexists. split_and!; [done|by constructor|]. unfold bytes. simpl. rewrite Hs, zdrop_app_le by lia. done.
    + rewrite u64_small by lia. destruct (IH (n - len (str b))) as (bufs' & -> & H1 & H2); [lia|lia|].
      eexists. split_and!; [done|done|]. rewrite H2. unfold bytes at 2. simpl. by rewrite zdrop_app_ge.
Qed.

Lemma list_remove_prefix_loop_throws n bufs :
  len (bytes bufs) < n < 2 ^ 64 ->
  list_remove_prefix_loop n bufs = Throw (out_of_range "BufferList::remove_prefix").
Proof.
  revert n. induction bufs as [|b bs IH]; intros n Hn.
  - simpl in *. destruct (Z.ltb_spec 0 n); [done|lia].
  - rewrite len_bytes_cons in *. cbn [list_remove_prefix_loop].
    destruct (Z.ltb_spec 0 n); [|lia]. destruct (Z.ltb_spec n (len (str b))); [lia|].
    rewrite u64_small by lia. apply IH. lia.
Qed.

(** [BufferList::remove_prefix] is the removal of a prefix of the
    concatenated bytes, whatever the division into buffers: it succeeds exactly
    when the list holds that many bytes, what is left is the rest of the
    string, and otherwise [out_of_range] is thrown. *)
Theorem list_remove_prefix_spec n bl :
  Forall wf (_buffers bl) -> 0 <= n < 2 ^ 64 -> len (concatenate bl) < 2 ^ 64 ->
  if n <=? list_size bl then
    exists bl', list_remove_prefix n bl = Ok bl' /\ Forall wf (_buffers bl') /\
      concatenate bl' = zdrop n (concatenate bl)
  else list_remove_prefix n bl = Throw (out_of_range "BufferList::remove_prefix").
Proof.
  intros Hwf Hn Hmax. rewrite concatenate_eq in *. rewrite list_size_eq by done.
  unfold list_remove_prefix. destruct (Z.leb_spec n (len (bytes (_buffers bl)))) as [Hle|Hgt].
  - destruct (list_remove_prefix_loop_ok n _ Hwf ltac:(lia) Hmax) as (bufs' & -> & H1 & H2).
    simpl. eexists. split_and!; [done|done|]. by rewrite concatenate_eq.
  - by rewrite list_remove_prefix_loop_throws by lia.
Qed.

Lemma list_remove_prefix_spec_witness :
  exists bl', list_remove_prefix 3 (mkBufferList [Buffer_of (lit "ab"); Buffer_of (lit "cde")]) = Ok bl' /\
    Forall wf (_buffers bl') /\ concatenate bl' = lit "de".
Proof.
  apply (list_remove_prefix_spec 3 (mkBufferList [Buffer_of (lit "ab"); Buffer_of (lit "cde")])).
  - simpl. repeat (apply Forall_cons; split; [by apply wf_Buffer_of|]). by apply Forall_nil.
  - lia.
  - vm_compute. done.
Defined.

(** The views of a buffer list lose prefixes as the list itself does. *)
Lemma view_remove_prefix_loop_ok n views :
  0 <= n <= len (concat views) -> len (concat views) < 2 ^ 64 ->
  exists views', view_remove_prefix_loop n views = Ok views' /\ concat views' = zdrop n (concat views).
Proof.
  revert n. induction views as [|v vs IH]; intros n Hn Hmax; cbn [view_remove_prefix_loop concat] in *.
  - simpl in *. assert (n = 0) as -> by lia. simpl. eauto.
  - rewrite len_app in *. destruct (Z.ltb_spec 0 n) as [Hp|Hp].
    2: { assert (n = 0) as -> by lia. rewrite zdrop_0. by exists (v :: vs). }
    destruct (Z.ltb_spec n (len v)) as [Hlt|Hge].
    + eexists. split; [done|]. simpl. by rewrite zdrop_app_le by lia.
    + rewrite u64_small by lia. destruct (IH (n - len v)) as (views' & -> & H); [lia|lia|].
      eexists. split; [done|]. by rewrite H, zdrop_app_ge.
Qed.

Lemma as_iovecs_eq v : as_iovecs v = _views v.
Proof. unfold as_iovecs. rewrite (fold_snoc (fun x => x)). by rewrite map_id. Qed.

Lemma views_of_BufferList bl : concat (_views (BufferViewList_of_BufferList bl)) = concatenate bl.
Proof.
  rewrite concatenate_eq. unfold BufferViewList_of_BufferList. simpl. rewrite fold_snoc. simpl.
  unfold bytes. by induction (_buffers bl) as [|b bs IH]; simpl; [|rewrite IH].
Qed.
