(* ===== verification/FileDescriptor.v ===== *)
(** File descriptors: [SystemCall] of [libsponge/util/util.cc] and
    [FileDescriptor] of [util/file_descriptor.hh] and [.cc].

    The kernel is outside of the model: what a system call returns (the value,
    [errno], and the bytes it put into a buffer) is an argument.  All copies of a
    [FileDescriptor] share one [FDWrapper], which is the state here. *)
From S2P Require Import Prelude Text Buffer.

(** The returned value is an [int]. *)
Definition SystemCall (attempt : list byte) (return_value errno errno_mask : Z) : result Z :=
  if (0 <=? s32 return_value) || (errno =? errno_mask) then Ok (s32 return_value)
  else Throw (tagged_error "system" attempt errno).

Record FDWrapper := mkFDWrapper {
  _fd : Z; _eof : bool; _closed : bool; _read_count : Z; _write_count : Z }.

(** [FDWrapper(fd)] and [FileDescriptor(fd)] *)
Definition FileDescriptor_of (fd : Z) : result FDWrapper :=
  if fd <? 0 then Throw (runtime_error "invalid fd number") else Ok (mkFDWrapper fd false false 0 0).

Definition register_read (w : FDWrapper) : FDWrapper :=
  mkFDWrapper (_fd w) (_eof w) (_closed w) (u32 (_read_count w + 1)) (_write_count w).
Definition register_write (w : FDWrapper) : FDWrapper :=
  mkFDWrapper (_fd w) (_eof w) (_closed w) (_read_count w) (u32 (_write_count w + 1)).
Definition set_eof (w : FDWrapper) : FDWrapper :=
  mkFDWrapper (_fd w) true (_closed w) (_read_count w) (_write_count w).

Definition fd_num (w : FDWrapper) : Z := _fd w.
Definition eof (w : FDWrapper) : bool := _eof w.
Definition closed (w : FDWrapper) : bool := _closed w.
Definition read_count (w : FDWrapper) : Z := _read_count w.
Definition write_count (w : FDWrapper) : Z := _write_count w.

Definition close (ret errno : Z) : method FDWrapper unit :=
  do _ := lift (SystemCall (lit "close") ret errno 0) in
  modify (fun w => mkFDWrapper (_fd w) true true (_read_count w) (_write_count w)).

(** [~FDWrapper], which catches the exception. *)
Definition FDWrapper_destroy (ret errno : Z) (w : FDWrapper) : FDWrapper :=
  if _closed w then w else (close ret errno w).2.

Definition BUFFER_SIZE : Z := 1024 * 1024.

(** The default limit of [read]. *)
Definition SIZE_MAX : Z := 2 ^ 64 - 1.

(** [read]: the kernel returned [ret] and put [data] at the front of the buffer,
    which is filled with zeros otherwise; the buffer is cut to the bytes read. *)
Definition read (limit ret errno : Z) (data : list byte) : method FDWrapper (list byte) :=
  let size_to_read := Z.min BUFFER_SIZE limit in
  do bytes_read := lift (SystemCall (lit "read") ret errno 0) in
  do _ := modify (fun w => if (0 <? limit) && (bytes_read =? 0) then set_eof w else w) in
  if size_to_read <? bytes_read then lift (Throw (runtime_error "read() read more than requested")) else
  do _ := modify register_read in
  returns (ztake bytes_read (data ++ replicate (Z.to_nat bytes_read) (z2b 0))).

(** [write]: [answers] are what the calls of [writev] return, with [errno];
    [None] when there is no answer yet. *)
Fixpoint write_loop (answers : list (Z * Z)) (buffer : BufferViewList) (write_all : bool) (total_bytes_written : Z)
    (w : FDWrapper) : option (result Z * FDWrapper) :=
  match answers with
  | [] => None
  | (ret, errno) :: answers =>
      match SystemCall (lit "writev") ret errno 0 with
      | Throw e => Some (Throw e, w)
      | Ok bytes_written =>
          if (bytes_written =? 0) && negb (view_size buffer =? 0)
          then Some (Throw (runtime_error "write returned 0 given non-empty input buffer"), w)
          else if s64 (view_size buffer) <? bytes_written
          then Some (Throw (runtime_error "write wrote more than length of input buffer"), w)
          else
            let w := register_write w in
            match view_remove_prefix (u64 bytes_written) buffer with
            | Throw e => Some (Throw e, w)
            | Ok buffer =>
                let total_bytes_written := u64 (total_bytes_written + bytes_written) in
                if write_all && negb (view_size buffer =? 0)
                then write_loop answers buffer write_all total_bytes_written w
                else Some (Ok total_bytes_written, w)
            end
      end
  end.

Definition write (answers : list (Z * Z)) (buffer : BufferViewList) (write_all : bool) (w : FDWrapper) :
    option (result Z * FDWrapper) :=
  write_loop answers buffer write_all 0 w.

Definition O_NONBLOCK : Z := 0x800.

(** The flags [set_blocking] gives to [F_SETFL]. *)
Definition blocking_flags (blocking_state : bool) (flags : Z) : Z :=
  if blocking_state then Z.lxor flags (Z.land flags O_NONBLOCK) else Z.lor flags O_NONBLOCK.

(** The answers are those of the two calls of [fcntl]; the result is what the
    second was given. *)
Definition set_blocking (blocking_state : bool) (get_ret get_errno set_ret set_errno : Z) : result Z :=
  let* flags := SystemCall (lit "fcntl") get_ret get_errno 0 in
  let flags := blocking_flags blocking_state flags in
  let* _ := SystemCall (lit "fcntl") set_ret set_errno 0 in
  Ok flags.

(** ** Lemmas *)

Lemma s32_small x : 0 <= x < 2 ^ 31 -> s32 x = x.
Proof. intros. unfold s32. rewrite u32_small by lia. destruct (Z.ltb_spec x (2 ^ 31)); lia. Qed.

Lemma s64_small x : 0 <= x < 2 ^ 63 -> s64 x = x.
Proof. intros. unfold s64. rewrite u64_small by lia. destruct (Z.ltb_spec x (2 ^ 63)); lia. Qed.

Lemma SystemCall_ok attempt ret errno mask : 0 <= ret < 2 ^ 31 -> SystemCall attempt ret errno mask = Ok ret.
Proof. intros H. unfold SystemCall. rewrite s32_small by done. destruct (Z.leb_spec 0 ret); [done|lia]. Qed.

Lemma fold_sizes views acc :
  0 <= acc -> acc + len (concat views) < 2 ^ 64 ->
  fold_left (fun ret (buf : list byte) => u64 (ret + len buf)) views acc = acc + len (concat views).
Proof.
  revert acc. induction views as [|v vs IH]; intros acc Ha Hm; cbn [fold_left concat] in *; [simpl in *; lia|].
  rewrite len_app in *. rewrite u64_small by lia. rewrite IH by lia. lia.
Qed.

Lemma view_size_eq v : len (concat (_views v)) < 2 ^ 64 -> view_size v = len (concat (_views v)).
Proof. intros. unfold view_size. rewrite fold_sizes by lia. lia. Qed.

Lemma view_size_of_string s : len s < 2 ^ 64 -> view_size (BufferViewList_of_string s) = len s.
Proof. intros Hs. rewrite view_size_eq; simpl; rewrite app_nil_r; lia. Qed.

(** [read] on an answer that is in range. *)
Lemma read_eq limit ret errno data w :
  0 <= limit -> 0 <= ret <= Z.min BUFFER_SIZE limit -> len data = ret ->
  read limit ret errno data w = (Ok data, register_read (if (0 <? limit) && (ret =? 0) then set_eof w else w)).
Proof.
  unfold BUFFER_SIZE. intros Hl Hr Hd. unfold read, andthen, lift, modify, returns. rewrite SystemCall_ok by lia.
  unfold BUFFER_SIZE. destruct (Z.ltb_spec (Z.min (1024 * 1024) limit) ret); [lia|].
  by rewrite <- Hd, ztake_app_exact.
Qed.

(** The lengths of the pieces in which the kernel accepts [n] bytes. *)
Fixpoint accepts (n : Z) (pieces : list Z) : Prop :=
  match pieces with
  | [] => n = 0
  | k :: pieces => 0 < k <= n /\ accepts (n - k) pieces
  end.

(** [k] writes more. *)
Definition written_times (k : nat) (w : FDWrapper) : FDWrapper :=
  mkFDWrapper (_fd w) (_eof w) (_closed w) (_read_count w) (u32 (_write_count w + Z.of_nat k)).

(** One accepted piece. *)
Lemma write_loop_piece k answers b all total w :
  let n := len (concat (_views b)) in
  0 < k <= n -> n < 2 ^ 31 ->
  exists b', len (concat (_views b')) = n - k /\
    write_loop ((k, 0) :: answers) b all total w =
      if all && negb (n - k =? 0) then write_loop answers b' all (u64 (total + k)) (register_write w)
      else Some (Ok (u64 (total + k)), register_write w).
Proof.
  intros n Hk Hn. cbn [write_loop]. rewrite SystemCall_ok by lia. rewrite view_size_eq by (fold n; lia). fold n.
  destruct (Z.eqb_spec k 0); [lia|]. cbn [andb]. rewrite s64_small by lia. destruct (Z.ltb_spec n k); [lia|].
  rewrite (u64_small k) by lia. unfold view_remove_prefix.
  destruct (view_remove_prefix_loop_ok k (_views b)) as (views' & -> & Hc); [fold n; lia|fold n; lia|]. cbn [bind].
  assert (len (concat views') = n - k) as Hl by (rewrite Hc, len_zdrop by lia; fold n; lia).
  exists (mkBufferViewList views'). split; [exact Hl|]. rewrite view_size_eq by (cbn [_views]; lia). by cbn [_views]; rewrite Hl.
Qed.

Lemma write_loop_all pieces buffer total w :
  let n := len (concat (_views buffer)) in
  0 < n < 2 ^ 31 -> 0 <= total -> total + n < 2 ^ 63 -> accepts n pieces ->
  write_loop (map (fun k => (k, 0)) pieces) buffer true total w = Some (Ok (total + n), written_times (length pieces) w).
Proof.
  revert buffer total w. induction pieces as [|k pieces IH]; intros buffer total w n Hn Ht Hs Ha; [simpl in Ha; lia|].
  destruct Ha as [Hk Ha]. cbn [map].
  destruct (write_loop_piece k (map (fun k => (k, 0)) pieces) buffer true total w Hk ltac:(fold n; lia)) as (b' & Hl & ->).
  fold n in Hl |- *. rewrite u64_small by lia. cbn [andb]. destruct (Z.eqb_spec (n - k) 0) as [E|E]; cbn [negb].
  - destruct pieces as [|k' pieces]; [|simpl in Ha; lia]. by replace n with k by lia.
  - rewrite IH by (rewrite ?Hl; done || lia). rewrite Hl. unfold written_times, register_write.
    cbn [_fd _eof _closed _read_count _write_count length]. rewrite u32_add_l.
    replace (total + k + (n - k)) with (total + n) by lia.
    by replace (_write_count w + 1 + Z.of_nat (length pieces)) with (_write_count w + Z.of_nat (S (length pieces))) by lia.
Qed.

(** With an answer missing the call has not returned. *)
Lemma write_loop_waits pieces k b total w :
  let n := len (concat (_views b)) in
  (k < length pieces)%nat -> accepts n pieces -> n < 2 ^ 31 ->
  write_loop (take k (map (fun k => (k, 0)) pieces)) b true total w = None.
Proof.
  revert k b total w. induction pieces as [|p pieces IH]; intros k b total w n Hk Ha Hn; [simpl in Hk; lia|].
  destruct k as [|k]; [done|]. destruct Ha as [Hp Ha]. cbn [map take].
  destruct (write_loop_piece p (take k (map (fun k => (k, 0)) pieces)) b true total w Hp ltac:(fold n; lia)) as (b' & Hl & ->).
  fold n in Hl |- *. destruct pieces as [|p' pieces]; [simpl in Hk; lia|]. pose proof Ha as [Hp' _].
  destruct (Z.eqb_spec (n - p) 0); [lia|]. cbn [andb negb]. apply IH; rewrite ?Hl; [simpl in *; lia|done|lia].
Qed.

(** Writing only counts writes. *)
Lemma write_loop_keeps answers buffer all total w r w' :
  write_loop answers buffer all total w = Some (r, w') ->
  read_count w' = read_count w /\ eof w' = eof w /\ closed w' = closed w.
Proof.
  revert buffer total w. induction answers as [|[ret errno] answers IH]; intros buffer total w; cbn [write_loop]; [done|].
  destruct (SystemCall _ _ _ _) as [n|e]; [|by intros [= _ <-]]. destruct (_ && _); [by intros [= _ <-]|].
  repeat case_match; try (by intros [= _ <-]). intros Hx. by apply IH in Hx.
Qed.

(** A complete write.  When the kernel accepts the bytes in pieces of any
    sizes, [write] with [write_all] returns exactly when all of them are
    accepted, with their number, after one [writev] per piece; without
    [write_all] it returns after the first piece with its size. *)
Theorem write_all_complete s pieces w :
  0 < len s < 2 ^ 31 -> accepts (len s) pieces ->
  let answers := map (fun k => (k, 0)) pieces in
  write answers (BufferViewList_of_string s) true w = Some (Ok (len s), written_times (length pieces) w) /\
  (forall k, (k < length pieces)%nat -> write (take k answers) (BufferViewList_of_string s) true w = None) /\
  (forall k rest, pieces = k :: rest -> write answers (BufferViewList_of_string s) false w = Some (Ok k, register_write w)).
Proof.
  intros Hn Ha answers.
  assert (concat (_views (BufferViewList_of_string s)) = s) as Hc by (simpl; apply app_nil_r).
  split_and!.
  - unfold write, answers. rewrite write_loop_all by (rewrite ?Hc; done || lia). by rewrite Hc.
  - intros k Hk. apply write_loop_waits; rewrite ?Hc; done || lia.
  - intros k rest ->. destruct Ha as [Hk _]. unfold write, answers. cbn [map].
    destruct (write_loop_piece k (map (fun k => (k, 0)) rest) (BufferViewList_of_string s) false 0 w) as (b' & _ & ->);
      [by rewrite Hc|rewrite Hc; lia|]. by rewrite u64_small by lia.
Qed.

Lemma write_all_complete_witness :
  write [(2, 0); (3, 0)] (BufferViewList_of_string (lit "hello")) true (mkFDWrapper 3 false false 0 0) =
    Some (Ok 5, mkFDWrapper 3 false false 0 2).
Proof.
  destruct (write_all_complete (lit "hello") [2; 3] (mkFDWrapper 3 false false 0 0)) as [H _]; [by vm_compute|by vm_compute|].
  exact H.
Defined.

(** What a read and a single write do when they return, whatever the kernel
    answers. *)
Lemma read_bound limit ret errno data w d w' :
  0 <= limit -> read limit ret errno data w = (Ok d, w') ->
  len d <= limit /\ _read_count w' = u32 (_read_count w + 1) /\ _write_count w' = _write_count w.
Proof.
  intros Hl. unfold read, andthen, lift, modify, returns. destruct (SystemCall _ _ _ _) as [n|]; [|done].
  destruct (Z.ltb_spec (Z.min BUFFER_SIZE limit) n); [done|]. intros [= <- <-]. split.
  - destruct (Z.le_gt_cases 0 n); [|unfold ztake; rewrite Z2Nat.nonpos by lia; simpl; lia]. rewrite len_ztake; lia.
  - by destruct ((0 <? limit) && (n =? 0)).
Qed.

Lemma write_once ret errno s w n w' :
  len s < 2 ^ 63 -> write [(ret, errno)] (BufferViewList_of_string s) false w = Some (Ok n, w') ->
  0 <= n <= len s /\ w' = register_write w.
Proof.
  intros Hs. pose proof (view_size_of_string s ltac:(lia)) as Hv.
  unfold write. cbn [write_loop]. destruct (SystemCall _ _ _ _) as [k|] eqn:E; [|done]. rewrite Hv, s64_small by lia.
  destruct (_ && _); [done|]. destruct (Z.ltb_spec (len s) k); [done|].
  destruct (view_remove_prefix (u64 k) (BufferViewList_of_string s)) as [b|] eqn:Eb; [|done]. cbn [andb]. intros [= <- <-].
  split; [|done].
  assert (0 <= k) as Hk; [|rewrite u64_small; lia].
  destruct (Z.le_gt_cases 0 k) as [|Hneg]; [done|]. exfalso.
  assert (- 2 ^ 31 <= k) as Hk2.
  { unfold SystemCall in E. destruct (_ || _); [|done]. injection E as <-. unfold s32. pose proof (u32_range ret).
    destruct (Z.ltb_spec (u32 ret) (2 ^ 31)); lia. }
  assert (u64 k = k + 2 ^ 64) as Hk3 by (unfold u64; rewrite <- (Z.mod_unique k (2 ^ 64) (-1) (k + 2 ^ 64)); lia).
  unfold view_remove_prefix in Eb. cbn [_views BufferViewList_of_string view_remove_prefix_loop] in Eb. rewrite Hk3 in Eb.
  destruct (Z.ltb_spec 0 (k + 2 ^ 64)); [|lia]. destruct (Z.ltb_spec (k + 2 ^ 64) (len s)); [lia|].
  rewrite u64_small in Eb by lia. by destruct (Z.ltb_spec 0 (k + 2 ^ 64 - len s)); [|lia].
Qed.

(** [set_blocking] changes no flag but [O_NONBLOCK]. *)
Lemma blocking_flags_spec b flags i :
  0 <= i -> Z.testbit (blocking_flags b flags) i = if i =? 11 then negb b else Z.testbit flags i.
Proof.
  intros Hi. unfold blocking_flags, O_NONBLOCK. change 0x800 with (2 ^ 11).
  assert (Z.testbit (2 ^ 11) i = (i =? 11)) as E.
  { destruct (Z.eqb_spec i 11) as [->|]; [done|]. apply Z.pow2_bits_false. lia. }
  destruct b; [rewrite Z.lxor_spec, Z.land_spec, E|rewrite Z.lor_spec, E];
    destruct (i =? 11), (Z.testbit flags i); done.
Qed.
