(* ===== verification/EventLoop.v ===== *)
(** The event loop: [EventLoop] of [libsponge/util/eventloop.hh] and [.cc].

    The rules' functions work on a state [S], which contains the descriptors the
    rules watch: [wrapper] finds the [FDWrapper] a rule's descriptor shares.  A
    function is [None] where it does not return, and then neither does the loop.
    The rules are the loop's own state.  What [poll] returns (the value, [errno] and
    the events that occurred) is given by a function of what it is asked. *)
From S2P Require Import Prelude Text Buffer FileDescriptor.

Definition POLLIN : Z := 0x1.
Definition POLLOUT : Z := 0x4.
Definition POLLERR : Z := 0x8.
Definition POLLHUP : Z := 0x10.
Definition POLLNVAL : Z := 0x20.
Definition EINTR : Z := 4.

Inductive Direction := In | Out.
Definition Direction_value (d : Direction) : Z := match d with In => POLLIN | Out => POLLOUT end.

(** [EventLoop::Result] *)
Inductive Result := Success | Timeout | Exit.

Section loop.
Context {S : Type} (wrapper : nat -> S -> FDWrapper).

Definition action : Type := S -> option (result unit * S).

Record Rule := mkRule {
  fd : nat; direction : Direction; callback : action; interest : S -> bool; cancel : action }.

Definition service_count (r : Rule) (s : S) : Z :=
  match direction r with In => read_count (wrapper (fd r) s) | Out => write_count (wrapper (fd r) s) end.

(** [add_rule]: the descriptor is duplicated, that is, shared. *)
Definition add_rule (fd : nat) (direction : Direction) (callback : action) (interest : S -> bool)
    (cancel : action) (_rules : list Rule) : list Rule :=
  _rules ++ [mkRule fd direction callback interest cancel].

Record pollfd := mkPollfd { poll_fd : Z; events : Z }.

(** The first loop of [wait_next_event]: [pre] are the rules kept so far. *)
Fixpoint setup (pre rest : list Rule) (pollfds : list pollfd) (something_to_poll : bool) (s : S) :
    option (result (list pollfd * bool) * list Rule * S) :=
  match rest with
  | [] => Some (Ok (pollfds, something_to_poll), pre, s)
  | this_rule :: rest' =>
      let w := wrapper (fd this_rule) s in
      if (match direction this_rule with In => eof w | Out => false end) || closed w then
        match cancel this_rule s with
        | None => None
        | Some (Throw e, s) => Some (Throw e, pre ++ rest, s)
        | Some (Ok _, s) => setup pre rest' pollfds something_to_poll s
        end
      else if interest this_rule s then
        setup (pre ++ [this_rule]) rest' (pollfds ++ [mkPollfd (fd_num w) (Direction_value (direction this_rule))]) true s
      else setup (pre ++ [this_rule]) rest' (pollfds ++ [mkPollfd (fd_num w) 0]) something_to_poll s
  end.

(** The second loop: [polled] are the events asked for and those that occurred,
    one pair for each rule that is left. *)
Fixpoint dispatch (pre rest : list Rule) (polled : list (Z * Z)) (s : S) :
    option (result Result * list Rule * S) :=
  match rest, polled with
  | this_rule :: rest', (events, revents) :: polled =>
      if negb (Z.land revents (Z.lor POLLERR POLLNVAL) =? 0)
      then Some (Throw (runtime_error "EventLoop: error on polled file descriptor"), pre ++ rest, s)
      else
        let poll_ready := negb (Z.land revents events =? 0) in
        let poll_hup := negb (Z.land revents POLLHUP =? 0) in
        if poll_hup && negb (events =? 0) && negb poll_ready then
          match cancel this_rule s with
          | None => None
          | Some (Throw e, s) => Some (Throw e, pre ++ rest, s)
          | Some (Ok _, s) => dispatch pre rest' polled s
          end
        else if poll_ready then
          let count_before := service_count this_rule s in
          match callback this_rule s with
          | None => None
          | Some (Throw e, s) => Some (Throw e, pre ++ rest, s)
          | Some (Ok _, s) =>
              if (count_before =? service_count this_rule s) && interest this_rule s
              then Some (Throw (runtime_error "EventLoop: busy wait detected: callback did not read/write fd and is still interested"),
                         pre ++ rest, s)
              else dispatch (pre ++ [this_rule]) rest' polled s
          end
        else dispatch (pre ++ [this_rule]) rest' polled s
  | _, _ => Some (Ok Success, pre ++ rest, s)
  end.

(** [answer] is what [poll] returns: its value, [errno], and [revents]. *)
Definition wait_next_event (answer : list pollfd -> Z -> Z * Z * list Z) (timeout_ms : Z) (_rules : list Rule) (s : S) :
    option (result Result * list Rule * S) :=
  match setup [] _rules [] false s with
  | None => None
  | Some (Throw e, rules, s) => Some (Throw e, rules, s)
  | Some (Ok (pollfds, something_to_poll), rules, s) =>
      if negb something_to_poll then Some (Ok Exit, rules, s)
      else
        let '(ret, errno, revents) := answer pollfds timeout_ms in
        match SystemCall (lit "poll") ret errno 0 with
        | Ok n => if n =? 0 then Some (Ok Timeout, rules, s) else dispatch [] rules (zip (map events pollfds) revents) s
        | Throw (tagged_error _ _ code) =>
            if code =? EINTR then Some (Ok Exit, rules, s)
            else dispatch [] rules (map (fun p => (events p, 0)) pollfds) s
        | Throw e => Some (Throw e, rules, s)
        end
  end.

(** ** What the loop leaves unchanged *)

(** A rule's functions keep [I]. *)
Definition keeps (I : S -> Prop) (r : Rule) : Prop :=
  forall s res s', I s -> callback r s = Some (res, s') \/ cancel r s = Some (res, s') -> I s'.

Lemma sublist_skip_middle (pre : list Rule) r rest rules :
  pre ++ r :: rest `sublist_of` rules -> pre ++ rest `sublist_of` rules.
Proof. intros H. transitivity (pre ++ r :: rest); [|done]. apply sublist_app; [done|]. by apply sublist_cons. Qed.

Lemma Forall_middle (P : Rule -> Prop) pre r rest : Forall P (pre ++ r :: rest) -> P r.
Proof. intros H. apply Forall_app in H as [_ H]. by apply Forall_cons in H as [? _]. Qed.

Lemma setup_keeps I pre rest pollfds b s r rules s' :
  Forall (keeps I) (pre ++ rest) -> I s -> setup pre rest pollfds b s = Some (r, rules, s') ->
  I s' /\ rules `sublist_of` pre ++ rest.
Proof.
  revert pre pollfds b s. induction rest as [|r0 rest IH]; intros pre pollfds b s Hk Hs; cbn [setup].
  { rewrite app_nil_r. by intros [= <- <- <-]. }
  pose proof (Forall_middle _ _ _ _ Hk) as Hr.
  assert (Forall (keeps I) (pre ++ rest)) as Hk'.
  { eapply Forall_sublist_of; [|exact Hk]. by eapply sublist_skip_middle. }
  destruct (_ || closed _).
  - destruct (cancel r0 s) as [[[[]|e] s1]|] eqn:Ec; [| |done].
    + intros [Hi Hsub]%IH; [|done|by eapply Hr; eauto]. split; [done|]. etransitivity; [done|]. by eapply sublist_skip_middle.
    + intros [= <- <- <-]. split; [by eapply Hr; eauto|done].
  - rewrite (app_assoc pre [r0] rest : pre ++ r0 :: rest = _) in Hk |- *.
    destruct (interest r0 s); intros [? ?]%IH; done.
Qed.

Lemma dispatch_keeps I pre rest polled s r rules s' :
  Forall (keeps I) (pre ++ rest) -> I s -> dispatch pre rest polled s = Some (r, rules, s') ->
  I s' /\ rules `sublist_of` pre ++ rest.
Proof.
  revert pre polled s. induction rest as [|r0 rest IH]; intros pre polled s Hk Hs; cbn [dispatch].
  { destruct polled; by intros [= <- <- <-]. }
  destruct polled as [|[ev rev] polled]; [by intros [= <- <- <-]|].
  pose proof (Forall_middle _ _ _ _ Hk) as Hr.
  assert (Forall (keeps I) (pre ++ rest)) as Hk'.
  { eapply Forall_sublist_of; [|exact Hk]. by eapply sublist_skip_middle. }
  destruct (negb _); [by intros [= <- <- <-]|]. destruct (_ && _ && _).
  - destruct (cancel r0 s) as [[[[]|e] s1]|] eqn:Ec; [| |done].
    + intros [Hi Hsub]%IH; [|done|by eapply Hr; eauto]. split; [done|]. etransitivity; [done|]. by eapply sublist_skip_middle.
    + intros [= <- <- <-]. split; [by eapply Hr; eauto|done].
  - destruct (negb _).
    + destruct (callback r0 s) as [[[[]|e] s1]|] eqn:Ec; [| |done].
      * destruct (_ && _); [intros [= <- <- <-]; split; [by eapply Hr; eauto|done]|].
        rewrite (app_assoc pre [r0] rest : pre ++ r0 :: rest = _) in Hk |- *.
        intros [? ?]%IH; [done|done|by eapply Hr; eauto].
      * intros [= <- <- <-]. split; [by eapply Hr; eauto|done].
    + rewrite (app_assoc pre [r0] rest : pre ++ r0 :: rest = _) in Hk |- *. by intros [? ?]%IH.
Qed.

(** ** What the loop throws *)

(** A callback that returns has read or written its descriptor, or its rule is
    no longer interested: the loop does not take it for a busy wait. *)
Definition progresses (I : S -> Prop) (r : Rule) : Prop :=
  forall s s', I s -> callback r s = Some (Ok tt, s') -> service_count r s <> service_count r s' \/ interest r s' = false.

Definition thrown_by (I : S -> Prop) (rules : list Rule) (e : exn) : Prop :=
  exists r s s', r ∈ rules /\ I s /\ (callback r s = Some (Throw e, s') \/ cancel r s = Some (Throw e, s')).

Definition poll_error : exn := runtime_error "EventLoop: error on polled file descriptor".

Lemma thrown_by_sublist I l k e : l `sublist_of` k -> thrown_by I l e -> thrown_by I k e.
Proof.
  intros Hs (r & s & s' & Hr & ?). exists r, s, s'. split; [|done].
  assert (Forall (fun x => x ∈ k) l) as Hl by (eapply Forall_sublist_of; [exact Hs|by apply Forall_forall]).
  rewrite Forall_forall in Hl. auto.
Qed.

Lemma setup_throws I pre rest pollfds b s e rules s' :
  Forall (keeps I) (pre ++ rest) -> I s -> setup pre rest pollfds b s = Some (Throw e, rules, s') -> thrown_by I (pre ++ rest) e.
Proof.
  revert pre pollfds b s. induction rest as [|r0 rest IH]; intros pre pollfds b s Hk Hs; cbn [setup]; [done|].
  pose proof (Forall_middle _ _ _ _ Hk) as Hr.
  assert (Forall (keeps I) (pre ++ rest)) as Hk'.
  { eapply Forall_sublist_of; [|exact Hk]. by eapply sublist_skip_middle. }
  destruct (_ || closed _).
  - destruct (cancel r0 s) as [[[[]|e0] s1]|] eqn:Ec; [| |done].
    + intros Ht%IH; [|done|by eapply Hr; eauto]. eapply thrown_by_sublist; [|exact Ht]. by eapply sublist_skip_middle.
    + intros [= <- <- <-]. exists r0, s, s1. split; [set_solver|]. by split; [|right].
  - rewrite (app_assoc pre [r0] rest : pre ++ r0 :: rest = _) in Hk |- *. destruct (interest r0 s); by intros ?%IH.
Qed.

Lemma dispatch_throws I pre rest polled s e rules s' :
  Forall (keeps I) (pre ++ rest) -> Forall (progresses I) (pre ++ rest) -> I s ->
  dispatch pre rest polled s = Some (Throw e, rules, s') -> e = poll_error \/ thrown_by I (pre ++ rest) e.
Proof.
  revert pre polled s. induction rest as [|r0 rest IH]; intros pre polled s Hk Hp Hs; cbn [dispatch]; [by destruct polled|].
  destruct polled as [|[ev rev] polled]; [done|].
  pose proof (Forall_middle _ _ _ _ Hk) as Hr. pose proof (Forall_middle _ _ _ _ Hp) as Hpr.
  assert (forall P : Rule -> Prop, Forall P (pre ++ r0 :: rest) -> Forall P (pre ++ rest)) as Hskip.
  { intros P HP. eapply Forall_sublist_of; [|exact HP]. by eapply sublist_skip_middle. }
  destruct (negb _); [intros [= <- _ _]; by left|]. destruct (_ && _ && _).
  - destruct (cancel r0 s) as [[[[]|e0] s1]|] eqn:Ec; [| |done].
    + intros [?|Ht]%IH; [by left| |by apply Hskip|by apply Hskip|by eapply Hr; eauto].
      right. eapply thrown_by_sublist; [|exact Ht]. by eapply sublist_skip_middle.
    + intros [= <- <- <-]. right. exists r0, s, s1. split; [set_solver|]. by split; [|right].
  - destruct (negb _).
    + destruct (callback r0 s) as [[[[]|e0] s1]|] eqn:Ec; [| |done].
      * destruct (Hpr s s1 Hs Ec) as [Hc| ->].
        { destruct (Z.eqb_spec (service_count r0 s) (service_count r0 s1)); [done|]. cbn [andb].
          rewrite (app_assoc pre [r0] rest : pre ++ r0 :: rest = _) in Hk, Hp |- *. apply IH; [done|done|by eapply Hr; eauto]. }
        rewrite andb_false_r. rewrite (app_assoc pre [r0] rest : pre ++ r0 :: rest = _) in Hk, Hp |- *.
        apply IH; [done|done|by eapply Hr; eauto].
      * intros [= <- <- <-]. right. exists r0, s, s1. split; [set_solver|]. by split; [|left].
    + rewrite (app_assoc pre [r0] rest : pre ++ r0 :: rest = _) in Hk, Hp |- *. by apply IH.
Qed.

Lemma wait_next_event_throws I answer timeout_ms rules s e rules' s' :
  Forall (keeps I) rules -> Forall (progresses I) rules -> I s ->
  wait_next_event answer timeout_ms rules s = Some (Throw e, rules', s') -> e = poll_error \/ thrown_by I rules e.
Proof.
  intros Hk Hp Hs. unfold wait_next_event. destruct (setup [] rules [] false s) as [[[res rules1] s1]|] eqn:E; [|done].
  destruct res as [[pollfds something]|e0]; [|intros [= <- <- <-]; right; by eapply (setup_throws I [])].
  apply (setup_keeps I) in E as [H1 Hsub]; [|done|done]. simpl in Hsub.
  assert (forall polled, dispatch [] rules1 polled s1 = Some (Throw e, rules', s') -> e = poll_error \/ thrown_by I rules e) as Hd.
  { intros polled [?|?]%(dispatch_throws I); [by left|right; by eapply thrown_by_sublist|..];
      (by eapply Forall_sublist_of) || done. }
  destruct something; [|done]. cbn [negb].
  destruct (answer pollfds timeout_ms) as [[ret errno] revents]. unfold SystemCall. destruct (_ || _).
  - destruct (_ =? 0); [done|]. apply Hd.
  - destruct (_ =? EINTR); [done|]. apply Hd.
Qed.

(** ** Rules whose descriptors are in order *)

Definition healthy (s : S) (r : Rule) : Prop :=
  closed (wrapper (fd r) s) = false /\ (direction r = In -> eof (wrapper (fd r) s) = false).

(** What [poll] is asked for a rule. *)
Definition asked (s : S) (r : Rule) : Z := if interest r s then Direction_value (direction r) else 0.
Definition asked_fd (s : S) (r : Rule) : pollfd := mkPollfd (fd_num (wrapper (fd r) s)) (asked s r).

Lemma setup_healthy pre rest pollfds b s :
  Forall (healthy s) rest ->
  setup pre rest pollfds b s =
    Some (Ok (pollfds ++ map (asked_fd s) rest, b || existsb (fun r => interest r s) rest), pre ++ rest, s).
Proof.
  revert pre pollfds b. induction rest as [|r rest IH]; intros pre pollfds b Hh; cbn [setup map existsb].
  { by rewrite !app_nil_r, orb_false_r. }
  apply Forall_cons in Hh as [[Hc He] Hh].
  assert ((match direction r with In => eof (wrapper (fd r) s) | Out => false end) || closed (wrapper (fd r) s) = false) as ->.
  { rewrite Hc, orb_false_r. destruct (direction r); [by apply He|done]. }
  unfold asked_fd, asked. destruct (interest r s); rewrite IH by done; cbn [orb]; rewrite <- !app_assoc; [by rewrite orb_true_r|done].
Qed.

Lemma dispatch_quiet pre rest polled s :
  Forall (fun p => p.2 = 0) polled -> dispatch pre rest polled s = Some (Ok Success, pre ++ rest, s).
Proof.
  revert pre polled. induction rest as [|r rest IH]; intros pre polled Hq; [by destruct polled|].
  destruct polled as [|[ev rev] polled]; [done|]. apply Forall_cons in Hq as [Hr Hq]. simpl in Hr. subst rev.
  cbn [dispatch]. rewrite !Z.land_0_l. cbn [Z.eqb negb andb]. rewrite IH by done. by rewrite <- app_assoc.
Qed.

(** ** When the loop says it is over *)

(** The cancellation of a later rule does not change whether a rule is
    interested. *)
Fixpoint steady (rules : list Rule) : Prop :=
  match rules with
  | [] => True
  | r :: rest => Forall (fun r' => forall s res s', cancel r' s = Some (res, s') -> interest r s' = interest r s) rest /\ steady rest
  end.

Lemma steady_app pre rest :
  steady (pre ++ rest) ->
  Forall (fun r => Forall (fun r' => forall s res s', cancel r' s = Some (res, s') -> interest r s' = interest r s) rest) pre.
Proof.
  induction pre as [|r pre IH]; [by constructor|]. cbn [app steady]. intros [Hr Hs]. apply Forall_app in Hr as [_ Hr].
  constructor; [done|]. by apply IH.
Qed.

Lemma steady_skip pre r rest : steady (pre ++ r :: rest) -> steady (pre ++ rest).
Proof.
  induction pre as [|x pre IH]; cbn [app steady]; [by intros [_ ?]|]. intros [Hx Hs]. split; [|by apply IH].
  apply Forall_app in Hx as [? Hx]. apply Forall_cons in Hx as [_ ?]. by apply Forall_app.
Qed.

Lemma setup_idle pre rest pollfds b s fds rules s' :
  steady (pre ++ rest) -> (b = false -> Forall (fun r => interest r s = false) pre) ->
  setup pre rest pollfds b s = Some (Ok (fds, false), rules, s') -> Forall (fun r => interest r s' = false) rules.
Proof.
  revert pre pollfds b s. induction rest as [|r rest IH]; intros pre pollfds b s Hst Hpre; cbn [setup].
  { intros [= <- -> <- <-]. auto. }
  destruct (_ || closed _).
  - destruct (cancel r s) as [[[[]|e] s1]|] eqn:Ec; [|done|done]. apply IH; [by eapply steady_skip|].
    intros Hb. specialize (Hpre Hb). apply steady_app in Hst. rewrite Forall_forall in Hst, Hpre |- *. intros x Hx.
    specialize (Hst x Hx). apply Forall_cons in Hst as [Hst _]. by rewrite (Hst _ _ _ Ec), Hpre.
  - rewrite (app_assoc pre [r] rest : pre ++ r :: rest = _) in Hst. destruct (interest r s) eqn:Ei; apply IH; try done.
    intros Hb. apply Forall_app. split; [auto|]. by repeat constructor.
Qed.

Lemma dispatch_success pre rest polled s res rules s' :
  dispatch pre rest polled s = Some (Ok res, rules, s') -> res = Success.
Proof.
  revert pre polled s. induction rest as [|r rest IH]; intros pre polled s; cbn [dispatch]; [by intros [= <- _ _]|].
  destruct polled as [|[ev rev] polled]; [by intros [= <- _ _]|]. destruct (negb _); [done|]. destruct (_ && _ && _).
  - destruct (cancel r s) as [[[[]|e] s1]|]; [apply IH|done|done].
  - destruct (negb _); [|apply IH]. destruct (callback r s) as [[[[]|e] s1]|]; [|done|done]. destruct (_ && _); [done|apply IH].
Qed.

(** [Exit] means that no rule that is left is interested, or that [poll] has been
    interrupted. *)
Lemma wait_next_event_exit answer timeout_ms rules s rules' s' :
  steady rules -> wait_next_event answer timeout_ms rules s = Some (Ok Exit, rules', s') ->
  Forall (fun r => interest r s' = false) rules' \/
  exists pollfds ret revents, answer pollfds timeout_ms = (ret, EINTR, revents) /\ s32 ret < 0.
Proof.
  intros Hst. unfold wait_next_event. destruct (setup [] rules [] false s) as [[[[[fds something]|e] rules1] s1]|] eqn:E; [|done|done].
  destruct something; cbn [negb].
  2: { intros [= <- <-]. left. by eapply (setup_idle [] rules [] false). }
  destruct (answer fds timeout_ms) as [[ret errno] revents] eqn:Ea. unfold SystemCall.
  destruct (Z.leb_spec 0 (s32 ret)); cbn [orb].
  - destruct (_ =? 0); [done|]. by intros ?%dispatch_success.
  - destruct (errno =? 0); [destruct (_ =? 0); [done|by intros ?%dispatch_success]|].
    destruct (Z.eqb_spec errno EINTR) as [->|]; [|by intros ?%dispatch_success]. intros _. right. by eexists _, _, _.
Qed.

Lemma wait_next_event_invariant I answer timeout_ms rules s r rules' s' :
  Forall (keeps I) rules -> I s -> wait_next_event answer timeout_ms rules s = Some (r, rules', s') ->
  I s' /\ rules' `sublist_of` rules.
Proof.
  intros Hk Hs. unfold wait_next_event. destruct (setup [] rules [] false s) as [[[res rules1] s1]|] eqn:E; [|done].
  apply (setup_keeps I) in E as [H1 Hsub]; [|done|done].
  assert (Forall (keeps I) rules1) as Hk1 by (by eapply Forall_sublist_of).
  assert (forall polled, dispatch [] rules1 polled s1 = Some (r, rules', s') -> I s' /\ rules' `sublist_of` rules) as Hd.
  { intros polled [? ?]%(dispatch_keeps I); [|done|done]. split; [done|]. by etransitivity. }
  destruct res as [[pollfds something]|e]; [|by intros [= <- <- <-]]. destruct something; [|by intros [= <- <- <-]]. cbn [negb].
  destruct (answer pollfds timeout_ms) as [[ret errno] revents]. destruct (SystemCall _ _ _ _) as [n|e].
  - destruct (n =? 0); [by intros [= <- <- <-]|]. apply Hd.
  - destruct e; try by intros [= <- <- <-]. destruct (_ =? EINTR); [by intros [= <- <- <-]|]. apply Hd.
Qed.

(** The functions of the rules run one after the other on the state and
    nothing else touches it: whatever [poll] answers, a property of the state
    that every rule's callback and cancellation keep is kept by
    [wait_next_event], also when it ends with an exception; and rules are only
    ever removed. *)
Theorem wait_next_event_keeps I answer timeout_ms rules s r rules' s' :
  Forall (keeps I) rules -> I s -> wait_next_event answer timeout_ms rules s = Some (r, rules', s') ->
  I s' /\ rules' `sublist_of` rules.
Proof. apply wait_next_event_invariant. Qed.

(** [wait_next_event] when no descriptor is closed or at its end.  With no
    rule interested it returns [Exit] without polling.  Otherwise [poll] is asked
    about every rule, with the events of the interested ones; nothing happening
    in time is [Timeout] and an interruption by a signal is [Exit], both without a
    change; and when events occurred the rules are served in their order. *)
Theorem wait_next_event_healthy answer timeout_ms rules s :
  Forall (healthy s) rules ->
  wait_next_event answer timeout_ms rules s =
    if negb (existsb (fun r => interest r s) rules) then Some (Ok Exit, rules, s)
    else
      let '(ret, errno, revents) := answer (map (asked_fd s) rules) timeout_ms in
      if s32 ret =? 0 then Some (Ok Timeout, rules, s)
      else if (0 <? s32 ret) || (errno =? 0) then dispatch [] rules (zip (map (asked s) rules) revents) s
      else if errno =? EINTR then Some (Ok Exit, rules, s)
      else Some (Ok Success, rules, s).
Proof.
  intros Hh. unfold wait_next_event. rewrite setup_healthy by done. cbn [orb app]. destruct (existsb _ rules); cbn [negb]; [|done].
  destruct (answer _ timeout_ms) as [[ret errno] revents]. unfold SystemCall.
  assert (map events (map (asked_fd s) rules) = map (asked s) rules) as -> by (by rewrite map_map).
  destruct (Z.leb_spec 0 (s32 ret)), (Z.ltb_spec 0 (s32 ret)); try lia; cbn [orb]; [done|by destruct (Z.eqb_spec (s32 ret) 0); [|lia]|].
  destruct (Z.eqb_spec (s32 ret) 0); [lia|]. destruct (Z.eqb_spec errno 0); cbn [orb].
  - by destruct (Z.eqb_spec (s32 ret) 0); [lia|].
  - destruct (errno =? EINTR); [done|]. rewrite dispatch_quiet; [done|]. apply Forall_forall. intros p Hp.
    apply list_elem_of_In, in_map_iff in Hp as (q & <- & _). done.
Qed.

(** A failing [poll] is not reported: with an error other than an interruption
    (here any other [errno]) the exception of [SystemCall] is caught and
    forgotten, and [wait_next_event] returns [Success] although no rule was
    served. *)
Theorem poll_failure_hidden answer timeout_ms rules s ret errno revents :
  Forall (healthy s) rules -> existsb (fun r => interest r s) rules = true ->
  answer (map (asked_fd s) rules) timeout_ms = (ret, errno, revents) -> s32 ret < 0 -> ~ (errno = 0) -> ~ (errno = EINTR) ->
  SystemCall (lit "poll") ret errno 0 = Throw (tagged_error "system" (lit "poll") errno) /\
  wait_next_event answer timeout_ms rules s = Some (Ok Success, rules, s).
Proof.
  intros Hh Hi Ha Hr He Hn. split.
  - unfold SystemCall. destruct (Z.leb_spec 0 (s32 ret)), (Z.eqb_spec errno 0); done || lia.
  - unfold wait_next_event. rewrite setup_healthy by done. cbn [orb app]. rewrite Hi. cbn [negb]. rewrite Ha. unfold SystemCall.
    destruct (Z.leb_spec 0 (s32 ret)), (Z.eqb_spec errno 0); try lia; cbn [orb]. destruct (Z.eqb_spec errno EINTR); [done|].
    rewrite dispatch_quiet; [done|]. apply Forall_forall. intros p Hp. apply list_elem_of_In, in_map_iff in Hp as (q & <- & _). done.
Qed.
End loop.
Arguments Rule S : clear implicits.
Arguments mkRule {S} _ _ _ _ _.

(** A loop over one descriptor, whose callback reads a byte. *)
Definition example_rule : Rule FDWrapper :=
  mkRule 0 In (fun w => Some (Ok tt, register_read w)) (fun _ => true) (fun w => Some (Ok tt, w)).
Definition example_fd : FDWrapper := mkFDWrapper 5 false false 0 0.

Lemma wait_next_event_keeps_witness :
  _closed (register_read example_fd) = false /\ [example_rule] `sublist_of` [example_rule].
Proof.
  apply (wait_next_event_keeps (fun _ w => w) (fun w => _closed w = false) (fun _ _ => (1, 0, [POLLIN])) 10 [example_rule] example_fd
    (Ok Success)); [|reflexivity|reflexivity].
  apply Forall_singleton. intros s res s' Hs [[= <- <-]|[= <- <-]]; done.
Defined.

Lemma wait_next_event_healthy_witness :
  wait_next_event (fun _ w => w) (fun _ _ => (1, 0, [POLLIN])) 10 [example_rule] example_fd =
    Some (Ok Success, [example_rule], register_read example_fd).
Proof.
  rewrite (wait_next_event_healthy (fun _ w => w) (fun _ _ => (1, 0, [POLLIN])) 10 [example_rule] example_fd); [reflexivity|].
  apply Forall_singleton. by split.
Defined.

Lemma poll_failure_hidden_witness :
  wait_next_event (fun _ w => w) (fun _ _ => (-1, 12, [])) 10 [example_rule] example_fd = Some (Ok Success, [example_rule], example_fd).
Proof.
  apply (poll_failure_hidden (fun _ w => w) (fun _ _ => (-1, 12, [])) 10 [example_rule] example_fd (-1) 12 []).
  - apply Forall_singleton. by split.
  - reflexivity.
  - reflexivity.
  - by vm_compute.
  - done.
  - done.
Defined.
