(* ===== verification/Parser.v ===== *)
(** Integers in network byte order: [NetParser] and [NetUnparser] of
    [libsponge/util/parser.hh] and [parser.cc].

    A parsing function takes the parser and returns the value read with the
    parser left; reading past the end is an error state of the parser, not an
    exception.  The [Buffer] operations underneath may throw, and the lemmas
    show that they do not. *)
From S2P Require Import Prelude Buffer.

Inductive ParseResult :=
  | NoError
  | BadChecksum
  | PacketTooShort
  | WrongIPVersion
  | HeaderTooShort
  | TruncatedPacket
  | Unsupported.

#[export] Instance ParseResult_eq_dec : EqDecision ParseResult.
Proof. solve_decision. Defined.

(** [static_cast<size_t>(r)] *)
Definition ParseResult_index (r : ParseResult) : nat :=
  match r with
  | NoError => 0 | BadChecksum => 1 | PacketTooShort => 2 | WrongIPVersion => 3
  | HeaderTooShort => 4 | TruncatedPacket => 5 | Unsupported => 6
  end%nat.

(** The string of a [ParseResult]; [None] is a read past the end of the
    table, which has no defined result. *)
Definition as_string (r : ParseResult) : option string :=
  ["NoError"; "BadChecksum"; "PacketTooShort"; "WrongIPVersion"; "HeaderTooShort"; "TruncatedPacket"]%string
    !! ParseResult_index r.

(** The unsigned types the templates are instantiated with. *)
Inductive int_type := uint8_t | uint16_t | uint32_t.

Definition sizeof (T : int_type) : nat :=
  match T with uint8_t => 1 | uint16_t => 2 | uint32_t => 4 end.
Definition cast (T : int_type) (x : Z) : Z :=
  match T with uint8_t => u8 x | uint16_t => u16 x | uint32_t => u32 x end.

(** ** NetParser *)

Record NetParser := mkNetParser { _buffer : Buffer; _error : ParseResult }.

Definition NetParser_of (b : Buffer) : NetParser := mkNetParser b NoError.
Definition buffer (p : NetParser) : Buffer := _buffer p.
Definition get_error (p : NetParser) : ParseResult := _error p.
Definition set_error (res : ParseResult) (p : NetParser) : NetParser := mkNetParser (_buffer p) res.
Definition error (p : NetParser) : bool := negb (bool_decide (get_error p = NoError)).

Definition _check_size (n : Z) (p : NetParser) : NetParser :=
  if size (_buffer p) <? n then set_error PacketTooShort p else p.

(** The loop of [_parse_int] with [k] bytes left to read from position [i]. *)
Fixpoint parse_int_loop (T : int_type) (b : Buffer) (k : nat) (i ret : Z) : result Z :=
  match k with
  | O => Ok ret
  | S k =>
      let ret := cast T (Z.shiftl ret 8) in
      let* c := at_ i b in
      parse_int_loop T b k (i + 1) (cast T (ret + c))
  end.

Definition _parse_int (T : int_type) (p : NetParser) : result (Z * NetParser) :=
  let n := Z.of_nat (sizeof T) in
  let p := _check_size n p in
  if error p then Ok (0, p)
  else
    let* ret := parse_int_loop T (_buffer p) (sizeof T) 0 0 in
    let* b := Buffer.remove_prefix n (_buffer p) in
    Ok (ret, mkNetParser b (_error p)).

Definition parse_u32 : NetParser -> result (Z * NetParser) := _parse_int uint32_t.
Definition parse_u16 : NetParser -> result (Z * NetParser) := _parse_int uint16_t.
Definition parse_u8 : NetParser -> result (Z * NetParser) := _parse_int uint8_t.

(** [NetParser::remove_prefix] *)
Definition parser_remove_prefix (n : Z) (p : NetParser) : result NetParser :=
  let p := _check_size n p in
  if error p then Ok p
  else
    let* b := Buffer.remove_prefix n (_buffer p) in
    Ok (mkNetParser b (_error p)).

(** ** NetUnparser *)

Definition _unparse_int (T : int_type) (s : list byte) (val : Z) : list byte :=
  fold_left
    (fun s i => s ++ [z2b (Z.land (Z.shiftr val ((Z.of_nat (sizeof T) - i - 1) * 8)) 0xff)])
    (seqZ 0 (Z.of_nat (sizeof T))) s.

Definition unparse_u32 : list byte -> Z -> list byte := _unparse_int uint32_t.
Definition unparse_u16 : list byte -> Z -> list byte := _unparse_int uint16_t.
Definition unparse_u8 : list byte -> Z -> list byte := _unparse_int uint8_t.

(** ** Reference definitions: a number and its big-endian digits *)

Fixpoint be (n : nat) (v : Z) : list byte :=
  match n with O => [] | S n => z2b (v / 256 ^ Z.of_nat n) :: be n v end.

Definition be_val_from (acc : Z) (l : list byte) : Z := fold_left (fun a c => a * 256 + b2z c) l acc.
Definition be_val (l : list byte) : Z := be_val_from 0 l.

Lemma length_be n v : length (be n v) = n.
Proof. induction n; simpl; congruence. Qed.

Lemma be_val_from_be n v acc : be_val_from acc (be n v) = acc * 256 ^ Z.of_nat n + v mod 256 ^ Z.of_nat n.
Proof.
  revert acc. induction n as [|n IH]; intros acc.
  - cbn. rewrite Z.mod_1_r. lia.
  - cbn [be be_val_from fold_left]. fold (be_val_from (acc * 256 + b2z (z2b (v / 256 ^ Z.of_nat n))) (be n v)).
    rewrite IH, b2z_z2b. unfold u8. replace (2 ^ 8) with 256 by done.
    rewrite Nat2Z.inj_succ, Z.pow_succ_r by lia.
    rewrite (Z.mul_comm 256), Z.rem_mul_r by lia. lia.
Qed.

Lemma be_val_be n v : 0 <= v < 256 ^ Z.of_nat n -> be_val (be n v) = v.
Proof. intros. unfold be_val. rewrite be_val_from_be, Z.mod_small by done. lia. Qed.

Lemma be_val_from_bound l acc :
  0 <= acc -> 0 <= be_val_from acc l < (acc + 1) * 256 ^ len l.
Proof.
  revert acc. induction l as [|c l IH]; intros acc Ha; cbn [be_val_from fold_left length].
  - simpl. lia.
  - fold (be_val_from (acc * 256 + b2z c) l). pose proof (b2z_range c).
    specialize (IH (acc * 256 + b2z c) ltac:(lia)). rewrite Nat2Z.inj_succ, Z.pow_succ_r by lia.
    split; [lia|]. eapply Z.lt_le_trans; [apply IH|].
    rewrite Z.mul_assoc. apply Z.mul_le_mono_nonneg_r; lia.
Qed.

Lemma be_val_bound l : 0 <= be_val l < 256 ^ len l.
Proof. pose proof (be_val_from_bound l 0). unfold be_val. lia. Qed.

(** Digits are determined by their number: the other direction. *)
Lemma be_val_from_app acc l c : be_val_from acc (l ++ [c]) = be_val_from acc l * 256 + b2z c.
Proof. unfold be_val_from. by rewrite fold_left_app. Qed.

Lemma be_snoc n v : be (S n) v = be n (v / 256) ++ [z2b v].
Proof.
  revert v. induction n as [|n IH]; intros v.
  - simpl. by rewrite Z.div_1_r.
  - change (be (S (S n)) v) with (z2b (v / 256 ^ Z.of_nat (S n)) :: be (S n) v). rewrite IH.
    change (be (S n) (v / 256)) with (z2b (v / 256 / 256 ^ Z.of_nat n) :: be n (v / 256)).
    rewrite Nat2Z.inj_succ, Z.pow_succ_r, Z.div_div by lia. done.
Qed.

Lemma z2b_add_256 k b : z2b (k * 256 + b2z b) = b.
Proof.
  rewrite <- (z2b_b2z b) at 2. unfold z2b. do 3 f_equal. unfold u8. replace (2 ^ 8) with 256 by done.
  by rewrite Z.add_comm, Z_mod_plus_full.
Qed.

Lemma be_be_val l : be (length l) (be_val l) = l.
Proof.
  induction l as [|c l IH] using rev_ind; [done|].
  rewrite length_app, Nat.add_1_r, be_snoc. unfold be_val in *. rewrite be_val_from_app, z2b_add_256.
  f_equal. rewrite Z.add_comm, Z_div_plus_full by lia. pose proof (b2z_range c).
  by rewrite (Z.div_small (b2z c)), Z.add_0_l by (simpl in *; lia).
Qed.

(** ** The code against the reference *)

Lemma cast_small T x : 0 <= x < 256 ^ Z.of_nat (sizeof T) -> cast T x = x.
Proof. destruct T; simpl; intros; [apply u8_small|apply u16_small|apply u32_small]; simpl in *; lia. Qed.

Lemma cast_cong T x y : cast T (cast T x + y) = cast T (x + y).
Proof. destruct T; apply Zplus_mod_idemp_l. Qed.

Lemma cast_cong_mul T x y : cast T (Z.shiftl (cast T x) 8 + y) = cast T (Z.shiftl x 8 + y).
Proof.
  rewrite !Z.shiftl_mul_pow2 by lia.
  assert (forall m, (x mod m * 2 ^ 8 + y) mod m = (x * 2 ^ 8 + y) mod m) as E.
  { intros m. rewrite <- Zplus_mod_idemp_l, Zmult_mod_idemp_l. by rewrite Zplus_mod_idemp_l. }
  destruct T; apply E.
Qed.

Lemma shiftl_8 x : Z.shiftl x 8 = x * 256.
Proof. by rewrite Z.shiftl_mul_pow2. Qed.

Lemma parse_int_loop_eq T b k i acc :
  0 <= i -> i + Z.of_nat k <= len (str b) ->
  parse_int_loop T b k i (cast T acc) = Ok (cast T (be_val_from acc (slice i (Z.of_nat k) (str b)))).
Proof.
  revert i acc. induction k as [|k IH]; intros i acc Hi Hk; [done|].
  cbn [parse_int_loop]. unfold at_.
  destruct (lookup_lt_is_Some_2 (str b) (Z.to_nat i)) as [c Hc]; [lia|]. rewrite Hc. cbn [bind].
  rewrite cast_cong, cast_cong_mul, IH by lia. do 2 f_equal.
  rewrite shiftl_8. unfold slice, ztake, zdrop. rewrite (drop_S _ c (Z.to_nat i)) by done.
  rewrite !Nat2Z.id. replace (Z.to_nat (i + 1)) with (S (Z.to_nat i)) by lia. done.
Qed.

(** A parser in good order, with the bytes [l] left. *)
Record reading (p : NetParser) (l : list byte) : Prop := {
  reading_wf : wf (_buffer p);
  reading_error : _error p = NoError;
  reading_str : str (_buffer p) = l }.

Lemma reading_of b : wf b -> reading (NetParser_of b) (str b).
Proof. by split. Qed.

Lemma check_size_ok n p l : reading p l -> n <= len l -> _check_size n p = p.
Proof. intros [_ _ Hs] Hn. unfold _check_size, size. rewrite Hs. destruct (Z.ltb_spec (len l) n); [lia|done]. Qed.

Lemma check_size_wf n p : wf (_buffer p) -> wf (_buffer (_check_size n p)).
Proof. unfold _check_size. by destruct (_ <? _). Qed.

Lemma error_reading p l : reading p l -> error p = false.
Proof. intros [_ He _]. unfold error, get_error. by rewrite He. Qed.

Lemma parse_int_reading T p l k :
  reading p (l ++ k) -> length l = sizeof T ->
  exists p', _parse_int T p = Ok (be_val l, p') /\ reading p' k.
Proof.
  intros Hr Hl. unfold _parse_int.
  assert (Z.of_nat (sizeof T) <= len (l ++ k)) by (rewrite len_app; lia).
  rewrite (check_size_ok _ p (l ++ k)), (error_reading _ _ Hr) by done. destruct Hr as [Hw He Hs].
  pose proof (parse_int_loop_eq T (_buffer p) (sizeof T) 0 0) as E.
  assert (cast T 0 = 0) as E0 by by destruct T. rewrite E0 in E.
  rewrite E by (rewrite ?Hs; lia).
  cbn [bind]. rewrite Hs. unfold slice. rewrite zdrop_0, <- Hl, ztake_app_exact. fold (be_val l).
  rewrite cast_small by (rewrite <- Hl; apply be_val_bound).
  destruct (remove_prefix_ok (len l) (_buffer p) Hw) as (b & -> & Hb & Hsb).
  { unfold size. rewrite Hs, len_app. lia. }
  eexists. split; [done|]. split; simpl; [done|done|]. by rewrite Hsb, Hs, zdrop_app_exact.
Qed.

(** Too short an input: an error, the value 0, nothing consumed. *)
Lemma parse_int_short T p :
  size (_buffer p) < Z.of_nat (sizeof T) ->
  _parse_int T p = Ok (0, set_error PacketTooShort p).
Proof. intros. unfold _parse_int, _check_size. by destruct (Z.ltb_spec (size (_buffer p)) (Z.of_nat (sizeof T))); [|lia]. Qed.

Lemma parse_int_error T p : error p = true -> exists p', _parse_int T p = Ok (0, p') /\ error p' = true /\ _buffer p' = _buffer p.
Proof.
  intros He. unfold _parse_int. assert (error (_check_size (Z.of_nat (sizeof T)) p) = true) as ->.
  { unfold _check_size. by destruct (_ <? _). }
  eexists. split; [done|]. unfold _check_size. by destruct (_ <? _).
Qed.

Lemma reading_dec p : wf (_buffer p) -> error p = true \/ reading p (str (_buffer p)).
Proof.
  intros Hw. unfold error, get_error. destruct (bool_decide_reflect (_error p = NoError)); [right|left]; [|done].
  by split.
Qed.

(** Parsing never throws: whatever the bytes left, it returns a value of the
    type and a parser in good order or in error. *)
Lemma parse_int_total T p :
  wf (_buffer p) -> exists v p', _parse_int T p = Ok (v, p') /\ wf (_buffer p') /\ 0 <= v < 256 ^ Z.of_nat (sizeof T).
Proof.
  intros Hw. assert (0 < 256 ^ Z.of_nat (sizeof T)) by (apply Z.pow_pos_nonneg; lia).
  destruct (reading_dec p Hw) as [He|Hr].
  - destruct (parse_int_error T p He) as (p' & -> & _ & Hb). exists 0, p'. rewrite Hb. split_and!; [done|done|lia..].
  - destruct (Z.lt_ge_cases (size (_buffer p)) (Z.of_nat (sizeof T))) as [Hlt|Hge].
    + rewrite parse_int_short by done. exists 0, (set_error PacketTooShort p). split_and!; [done|done|lia..].
    + unfold size in Hge. rewrite <- (take_drop (sizeof T) (str (_buffer p))) in Hr.
      assert (length (take (sizeof T) (str (_buffer p))) = sizeof T) as Hl by (rewrite length_take; lia).
      destruct (parse_int_reading T p _ _ Hr Hl) as (p' & -> & [Hw' _ _]).
      eexists _, p'. split; [done|]. split; [done|]. pose proof (be_val_bound (take (sizeof T) (str (_buffer p)))).
      by rewrite Hl in *.
Qed.

Lemma parser_remove_prefix_reading n p l k :
  reading p (l ++ k) -> len l = n -> exists p', parser_remove_prefix n p = Ok p' /\ reading p' k.
Proof.
  intros Hr Hl. unfold parser_remove_prefix.
  rewrite (check_size_ok _ p (l ++ k)), (error_reading _ _ Hr) by (rewrite ?len_app; first [done|lia]).
  destruct Hr as [Hw He Hs]. destruct (remove_prefix_ok n (_buffer p) Hw) as (b & -> & Hb & Hsb).
  { unfold size. rewrite Hs, len_app. lia. }
  eexists. split; [done|]. split; simpl; [done|done|]. by rewrite Hsb, Hs, <- Hl, zdrop_app_exact.
Qed.

Lemma parser_remove_prefix_total n p :
  0 <= n -> wf (_buffer p) -> exists p', parser_remove_prefix n p = Ok p' /\ wf (_buffer p').
Proof.
  intros Hn Hw. unfold parser_remove_prefix, _check_size.
  destruct (Z.ltb_spec (size (_buffer p)) n) as [Hlt|Hge].
  - eexists. split; [done|]. done.
  - destruct (error p); [by eexists|]. destruct (remove_prefix_ok n (_buffer p) Hw) as (b & -> & Hb & _); [lia|].
    by eexists.
Qed.

Lemma unparse_int_eq T s v : _unparse_int T s v = s ++ be (sizeof T) v.
Proof.
  assert (forall x k, 0 <= k -> z2b (Z.land (Z.shiftr x k) 0xff) = z2b (x / 2 ^ k)) as E.
  { intros x k Hk. unfold z2b. do 3 f_equal. change 0xff with (Z.ones 8).
    rewrite Z.land_ones, Z.shiftr_div_pow2 by lia. apply Zmod_mod. }
  unfold _unparse_int. rewrite fold_snoc. f_equal. destruct T; simpl; rewrite !E by lia; done.
Qed.

(** Reading the digits of a number of the type. *)
Lemma parse_int_be T p v k :
  0 <= v < 256 ^ Z.of_nat (sizeof T) -> reading p (be (sizeof T) v ++ k) ->
  exists p', _parse_int T p = Ok (v, p') /\ reading p' k.
Proof.
  intros Hv Hr. destruct (parse_int_reading T p _ _ Hr (length_be _ _)) as (p' & -> & H).
  exists p'. by rewrite be_val_be.
Qed.

(** Step over the next integer read from a parser whose bytes are digits, from
    any well-formed parser, or from one with [n] literal bytes in front. *)
Ltac read_int H :=
  match type of H with
  | reading ?p (be _ ?v ++ ?k) =>
      match goal with
      | |- context [_parse_int ?T p] =>
          let p' := fresh "p" in let E := fresh "E" in let H' := fresh "H" in
          destruct (parse_int_be T p v k) as (p' & E & H'); [simpl; lia|exact H|];
          rewrite E; cbn [bind]; clear E H; rename H' into H
      end
  end.

Ltac read_any H :=
  match type of H with
  | wf (_buffer ?p) =>
      match goal with
      | |- context [_parse_int ?T p] =>
          let v := fresh "v" in let p' := fresh "p" in
          let E := fresh "E" in let H' := fresh "H" in let Hv := fresh "Hv" in
          destruct (parse_int_total T p H) as (v & p' & E & H' & Hv);
          rewrite E; cbn [bind]; clear E H; rename H' into H; cbn in Hv
      end
  end.

Ltac read_raw H T n :=
  match type of H with
  | reading ?p ?l =>
      let p' := fresh "p" in let E := fresh "E" in let H' := fresh "H" in
      destruct (parse_int_reading T p (take n l) (drop n l) H eq_refl) as (p' & E & H');
      rewrite E; cbn [bind]; clear H E; rename H' into H; simpl in H
  end.

(** Network byte order round trip: an integer that fits its type, written
    by [NetUnparser] after any bytes and read back by [NetParser] from what
    follows them, is returned unchanged, no error is raised, and exactly the
    bytes written are consumed. *)
Theorem parse_unparse_roundtrip T v rest p :
  0 <= v < 256 ^ Z.of_nat (sizeof T) -> reading p (_unparse_int T [] v ++ rest) ->
  exists p', _parse_int T p = Ok (v, p') /\ reading p' rest.
Proof.
  intros Hv. rewrite unparse_int_eq, app_nil_l. by apply parse_int_be.
Qed.

Lemma parse_unparse_roundtrip_witness :
  exists p', parse_u16 (NetParser_of (Buffer_of (z2b 0x12 :: z2b 0x34 :: lit "xyz"))) = Ok (0x1234, p') /\ reading p' (lit "xyz").
Proof.
  apply (parse_unparse_roundtrip uint16_t 0x1234 (lit "xyz") (NetParser_of (Buffer_of (z2b 0x12 :: z2b 0x34 :: lit "xyz")))).
  - by vm_compute.
  - split; [by apply wf_Buffer_of|done|]. by vm_compute.
Defined.
