(* ===== verification/Checksum.v ===== *)
(** The Internet checksum: [InternetChecksum] of [libsponge/util/util.hh] and
    [util.cc].  The running sum is a 32-bit integer; the bytes of successive
    calls of [add] are alternately the high and the low half of a word. *)
From S2P Require Import Prelude Buffer Parser.

Record InternetChecksum := mkInternetChecksum { _sum : Z; _parity : bool }.

Definition InternetChecksum_of (initial_sum : Z) : InternetChecksum := mkInternetChecksum initial_sum false.

(** One turn of the loop of [add]. *)
Definition add_byte (c : InternetChecksum) (d : byte) : InternetChecksum :=
  let val := if negb (_parity c) then u16 (Z.shiftl (b2z d) 8) else b2z d in
  mkInternetChecksum (u32 (_sum c + val)) (negb (_parity c)).

Definition add (data : list byte) (c : InternetChecksum) : InternetChecksum := fold_left add_byte data c.

(** The loop of [value], with a bound on its turns; [folded] below shows that
    three turns always suffice for a 32-bit sum. *)
Fixpoint fold_carries (fuel : nat) (ret : Z) : Z :=
  match fuel with
  | O => ret
  | S fuel =>
      if 0xffff <? ret then fold_carries fuel (u32 (Z.shiftr ret 16 + Z.land ret 0xffff))
      else ret
  end.

Definition value (c : InternetChecksum) : Z := u16 (Z.lnot (fold_carries 3 (_sum c))).

Arguments fold_carries : simpl never.
Arguments value : simpl never.
Arguments add : simpl never.

(** ** The sum of the 16-bit words of a string *)

Fixpoint word_sum (high : bool) (l : list byte) : Z :=
  match l with
  | [] => 0
  | d :: l => (if high then b2z d * 256 else b2z d) + word_sum (negb high) l
  end.

Lemma word_sum_app high l k :
  word_sum high (l ++ k) = word_sum high l + word_sum (if Nat.even (length l) then high else negb high) k.
Proof.
  revert high. induction l as [|d l IH]; intros high; [done|].
  cbn [app word_sum length]. rewrite IH, Nat.even_succ, <- Nat.negb_even.
  destruct (Nat.even (length l)); simpl; rewrite ?negb_involutive; lia.
Qed.

Lemma word_sum_bound high l : 0 <= word_sum high l <= 65280 * len l.
Proof.
  revert high. induction l as [|d l IH]; intros high; [simpl; lia|].
  cbn [word_sum length]. pose proof (b2z_range d). specialize (IH (negb high)).
  destruct high; lia.
Qed.

Lemma word_sum_even_bound l : Nat.Even (length l) -> word_sum true l <= 65535 * (len l / 2).
Proof.
  intros [n Hn]. rewrite Hn. replace (Z.of_nat (2 * n)) with (Z.of_nat n * 2) by lia. rewrite Z.div_mul by lia.
  revert l Hn. induction n as [|n IH]; intros l Hn.
  - destruct l; [simpl; lia|done].
  - destruct l as [|a [|b l]]; try (simpl in Hn; lia). cbn [word_sum negb].
    pose proof (b2z_range a). pose proof (b2z_range b). specialize (IH l ltac:(simpl in Hn; lia)). lia.
Qed.

(** As long as the 32-bit sum does not overflow, [add] adds the words. *)
Lemma add_eq data c :
  0 <= _sum c -> _sum c + word_sum (negb (_parity c)) data < 2 ^ 32 ->
  add data c = mkInternetChecksum (_sum c + word_sum (negb (_parity c)) data)
    (if Nat.even (length data) then _parity c else negb (_parity c)).
Proof.
  revert c. induction data as [|d data IH]; intros [s par] H0 Hmax.
  - unfold add. simpl. by rewrite Z.add_0_r.
  - cbn [_sum _parity] in *. change (add (d :: data) (mkInternetChecksum s par)) with (add data (add_byte (mkInternetChecksum s par) d)).
    cbn [word_sum] in *. pose proof (b2z_range d) as Hd.
    pose proof (word_sum_bound (negb (negb par)) data).
    assert (add_byte (mkInternetChecksum s par) d =
      mkInternetChecksum (s + (if negb par then b2z d * 256 else b2z d)) (negb par)) as ->.
    { unfold add_byte. cbn [_sum _parity]. rewrite shiftl_8, u16_small by lia.
      rewrite u32_small by (destruct par; simpl in *; lia). done. }
    rewrite IH; cbn [_sum _parity].
    + f_equal; [lia|]. cbn [length]. rewrite Nat.even_succ, <- Nat.negb_even.
      destruct (Nat.even _), par; done.
    + destruct par; simpl; lia.
    + lia.
Qed.

(** ** One's complement folding *)

Lemma fold_step ret : 0 <= ret < 2 ^ 32 -> u32 (Z.shiftr ret 16 + Z.land ret 0xffff) = ret / 65536 + ret mod 65536.
Proof.
  intros. change 0xffff with (Z.ones 16). rewrite Z.land_ones, Z.shiftr_div_pow2 by lia.
  change (2 ^ 16) with 65536. apply u32_small.
  pose proof (Z.mod_pos_bound ret 65536). pose proof (Z.div_pos ret 65536).
  assert (ret / 65536 < 65536) by (apply Z.div_lt_upper_bound; lia). lia.
Qed.

Lemma fold_carries_S fuel ret :
  fold_carries (S fuel) ret =
  if 0xffff <? ret then fold_carries fuel (u32 (Z.shiftr ret 16 + Z.land ret 0xffff)) else ret.
Proof. done. Qed.

Lemma folded_small fuel ret : ret <= 0xffff -> fold_carries fuel ret = ret.
Proof. destruct fuel; [done|]. rewrite fold_carries_S. intros. by destruct (Z.ltb_spec 0xffff ret); [lia|]. Qed.

(** The loop of [value] ends within two turns, on a 16-bit value congruent to
    the sum modulo 65535 which is zero only for the sum zero. *)
Lemma folded fuel ret :
  0 <= ret < 2 ^ 32 -> (2 <= fuel)%nat ->
  0 <= fold_carries fuel ret <= 0xffff /\ (fold_carries fuel ret = 0 <-> ret = 0) /\
  exists k, ret = fold_carries fuel ret + k * 65535.
Proof.
  assert (forall fuel r, 0 <= r < 2 ^ 32 -> fold_carries (S fuel) r =
    if 0xffff <? r then fold_carries fuel (r / 65536 + r mod 65536) else r) as Hstep.
  { intros f r Hr. rewrite fold_carries_S. destruct (0xffff <? r); [|done]. by rewrite fold_step. }
  intros Hr Hf. destruct fuel as [|[|fuel]]; [lia|lia|].
  pose proof (Z.div_mod ret 65536 ltac:(lia)) as E1. pose proof (Z.mod_pos_bound ret 65536 ltac:(lia)).
  assert (0 <= ret / 65536 < 65536) by (split; [apply Z.div_pos; lia|apply Z.div_lt_upper_bound; lia]).
  rewrite Hstep by done. destruct (Z.ltb_spec 0xffff ret) as [Hr0|Hr0].
  2: { split_and!; [lia|lia|lia|]. exists 0. lia. }
  set (r1 := ret / 65536 + ret mod 65536) in *.
  pose proof (Z.div_mod r1 65536 ltac:(lia)) as E2. pose proof (Z.mod_pos_bound r1 65536 ltac:(lia)).
  rewrite Hstep by lia. destruct (Z.ltb_spec 0xffff r1) as [Hr1|Hr1].
  2: { split_and!; [lia|lia|lia|]. exists (ret / 65536). lia. }
  assert (r1 / 65536 = 1) as E3.
  { apply Z.le_antisymm; [apply Z.lt_succ_r, Z.div_lt_upper_bound; lia|apply Z.div_le_lower_bound; lia]. }
  rewrite E3 in *. rewrite folded_small by lia.
  split_and!; [lia|lia|lia|]. exists (ret / 65536 + 1). lia.
Qed.

Lemma value_eq c : 0 <= _sum c < 2 ^ 32 -> value c = 65535 - fold_carries 3 (_sum c).
Proof.
  intros H. destruct (folded 3 (_sum c) H ltac:(lia)) as [Hr _]. unfold value, Z.lnot, u16.
  rewrite <- (Z.mod_unique_pos (Z.pred (- fold_carries 3 (_sum c))) (2 ^ 16) (-1) (65535 - fold_carries 3 (_sum c))); lia.
Qed.

Lemma value_range c : 0 <= value c < 2 ^ 16.
Proof. apply u16_range. Qed.

(** The checksum is zero exactly on the non-zero multiples of 65535. *)
Lemma value_zero c : 0 <= _sum c < 2 ^ 32 -> value c = 0 <-> _sum c <> 0 /\ exists k, _sum c = k * 65535.
Proof.
  intros H. rewrite value_eq by done. destruct (folded 3 (_sum c) H ltac:(lia)) as (Hr & Hz & k & Hk).
  split.
  - intros Hv. split; [lia|]. exists (k + 1). lia.
  - intros [Hnz [j Hj]]. assert (fold_carries 3 (_sum c) <> 0) by tauto.
    enough (fold_carries 3 (_sum c) = 65535) by lia. nia.
Qed.

(** Adding the checksum of a sum to it gives a sum that checks. *)
Lemma value_completes s par par' :
  0 <= s -> s + 65535 < 2 ^ 32 ->
  value (mkInternetChecksum (s + value (mkInternetChecksum s par)) par') = 0.
Proof.
  intros H0 Hmax. pose proof (value_range (mkInternetChecksum s par)) as Hv.
  rewrite (value_eq (mkInternetChecksum s par)) in * by (simpl; lia). simpl in *.
  destruct (folded 3 s ltac:(lia) ltac:(lia)) as (Hr & Hz & k & Hk).
  apply value_zero; simpl; [lia|]. split; [lia|]. exists (k + 1). lia.
Qed.

Lemma word_sum_be2 v : 0 <= v < 2 ^ 16 -> word_sum true (be 2 v) = v.
Proof.
  intros Hv. cbn [be word_sum negb]. rewrite !b2z_z2b. unfold u8.
  change (256 ^ Z.of_nat 1) with 256. change (256 ^ Z.of_nat 0) with 1. rewrite Z.div_1_r.
  change (2 ^ 8) with 256. rewrite (Z.mod_small (v / 256)).
  - pose proof (Z.div_mod v 256). lia.
  - split; [apply Z.div_pos; lia|apply Z.div_lt_upper_bound; lia].
Qed.

Lemma word_sum_field pre v post :
  Nat.Even (length pre) -> 0 <= v < 2 ^ 16 ->
  word_sum true (pre ++ be 2 v ++ post) = word_sum true pre + v + word_sum true post.
Proof.
  intros He Hv. apply Nat.even_spec in He. rewrite !word_sum_app, He, word_sum_be2, length_be by done.
  simpl. lia.
Qed.

(** Fill in the checksum and it verifies: for a packet with a 16-bit
    checksum field at an even offset and any initial (pseudo-header) sum that
    leaves room in 32 bits, computing the checksum with the field zero and
    storing it in the field gives a packet whose own checksum is zero. *)
Lemma checksum_field init pre post :
  Nat.Even (length pre) -> 0 <= init ->
  init + 65280 * (len pre + len post) + 65535 < 2 ^ 32 ->
  let v := value (add (pre ++ be 2 0 ++ post) (InternetChecksum_of init)) in
  value (add (pre ++ be 2 v ++ post) (InternetChecksum_of init)) = 0.
Proof.
  intros He H0 Hmax v. pose proof (word_sum_bound true pre). pose proof (word_sum_bound true post).
  assert (0 <= v < 2 ^ 16) as Hv by apply value_range.
  assert (v = value (mkInternetChecksum (init + word_sum true pre + word_sum true post) (_parity (add (pre ++ be 2 0 ++ post) (InternetChecksum_of init))))) as Ev.
  { unfold v. rewrite add_eq; cbn [InternetChecksum_of _sum _parity negb]; rewrite ?word_sum_field by (first [done|lia]); [|lia..].
    do 2 f_equal. lia. }
  rewrite add_eq; cbn [InternetChecksum_of _sum _parity negb]; rewrite ?word_sum_field by done; [|lia..].
  replace (init + (word_sum true pre + v + word_sum true post)) with (init + word_sum true pre + word_sum true post + v) by lia.
  rewrite Ev. apply value_completes; lia.
Qed.

Lemma add_add l k c : add k (add l c) = add (l ++ k) c.
Proof. unfold add. by rewrite fold_left_app. Qed.

(** ** The one's complement sum *)

(** Addition with end-around carry, the words of a string (the last one padded
    with zero), and their sum. *)
Definition end_around (a b : Z) : Z := if 65535 <? a + b then a + b - 65535 else a + b.

Fixpoint words (l : list byte) : list Z :=
  match l with
  | [] => []
  | [a] => [b2z a * 256]
  | a :: b :: l => (b2z a * 256 + b2z b) :: words l
  end.

Definition ones_complement_sum (init : Z) (l : list byte) : Z := fold_left end_around (words l) init.

Lemma words_ind (P : list byte -> Prop) :
  P [] -> (forall a, P [a]) -> (forall a b l, P l -> P (a :: b :: l)) -> forall l, P l.
Proof.
  intros H0 H1 H2 l. enough (P l /\ forall a, P (a :: l)) as [? _] by done.
  induction l as [|b l [IH IH']]; split; [done|done|apply IH'|]. intros a. by apply H2.
Qed.

Lemma end_around_spec a b :
  0 <= a <= 65535 -> 0 <= b <= 65535 ->
  0 <= end_around a b <= 65535 /\ (end_around a b = 0 <-> a + b = 0) /\
  (a + b = end_around a b \/ a + b = end_around a b + 65535).
Proof. intros. unfold end_around. destruct (Z.ltb_spec 65535 (a + b)); lia. Qed.

Lemma ones_complement_sum_spec init l :
  0 <= init <= 65535 ->
  0 <= ones_complement_sum init l <= 65535 /\ (ones_complement_sum init l = 0 <-> init + word_sum true l = 0) /\
  exists k, init + word_sum true l = ones_complement_sum init l + k * 65535.
Proof.
  revert init. induction l as [|a|a b l IH] using words_ind; intros init Hi; unfold ones_complement_sum; cbn [words fold_left word_sum negb].
  - split_and!; [lia|lia|lia|]. exists 0. lia.
  - pose proof (b2z_range a). destruct (end_around_spec init (b2z a * 256)) as (? & ? & [?|?]); [lia|lia| |];
      (split_and!; [lia|lia|lia|]); [exists 0|exists 1]; lia.
  - pose proof (b2z_range a). pose proof (b2z_range b). pose proof (word_sum_bound true l).
    destruct (end_around_spec init (b2z a * 256 + b2z b)) as (Hr & ? & Hc); [lia|lia|].
    destruct (IH _ Hr) as (? & ? & k & ?). unfold ones_complement_sum in *.
    destruct Hc; (split_and!; [lia|lia|lia|]); [exists k|exists (k + 1)]; lia.
Qed.

(** C37: The checksum is the Internet checksum: for up to 65535 bytes, the 32-bit
    accumulation with late folding of [InternetChecksum] gives the complement of
    the one's complement sum of the 16-bit words, the definition by addition with
    end-around carry word by word; adding the bytes in two parts, also after an
    odd number of them, makes no difference. *)
Theorem checksum_ones_complement init l k :
  0 <= init <= 65535 -> len l + len k <= 65535 ->
  value (add k (add l (InternetChecksum_of init))) = 65535 - ones_complement_sum init (l ++ k).
Proof.
  intros Hi Hl. rewrite add_add. pose proof (word_sum_bound true (l ++ k)) as Hb. rewrite len_app in Hb.
  unfold InternetChecksum_of. rewrite add_eq by (simpl; lia). cbn [_sum _parity negb].
  rewrite value_eq by (simpl; lia). cbn [_sum]. f_equal.
  destruct (folded 3 (init + word_sum true (l ++ k)) ltac:(lia) ltac:(lia)) as (? & ? & j & ?).
  destruct (ones_complement_sum_spec init (l ++ k) Hi) as (? & ? & j' & ?). nia.
Qed.

Lemma checksum_ones_complement_witness :
  value (add (lit "lo") (add (lit "hel") (InternetChecksum_of 6))) = 65535 - ones_complement_sum 6 (lit "hello").
Proof. apply (checksum_ones_complement 6 (lit "hel") (lit "lo")); by vm_compute. Defined.

(** The checksum test rejects exactly the packets whose 16-bit words do not
    sum to a non-zero multiple of 65535, so any change of a packet that alters
    the sum modulo 65535 (every change of a single byte in particular) makes a
    packet that verified fail. *)
Theorem checksum_detects init l d e k :
  0 <= init -> init + 65280 * (len l + 1 + len k) < 2 ^ 32 ->
  value (add (l ++ d :: k) (InternetChecksum_of init)) = 0 -> d <> e ->
  value (add (l ++ e :: k) (InternetChecksum_of init)) <> 0.
Proof.
  intros H0 Hmax Hd Hne He.
  pose proof (word_sum_bound true (l ++ d :: k)) as B1. pose proof (word_sum_bound true (l ++ e :: k)) as B2.
  rewrite len_app in B1, B2. simpl in B1, B2.
  rewrite add_eq in Hd by (simpl; lia). rewrite add_eq in He by (simpl; lia). simpl in Hd, He.
  apply value_zero in Hd as [_ [x Hx]]; [|simpl; lia]. apply value_zero in He as [_ [y Hy]]; [|simpl; lia]. simpl in Hx, Hy.
  rewrite !word_sum_app in Hx, Hy. cbn [word_sum] in Hx, Hy.
  pose proof (b2z_range d). pose proof (b2z_range e).
  assert (b2z d <> b2z e) by (intros E; apply Hne; by rewrite <- (z2b_b2z d), E, z2b_b2z).
  destruct (Nat.even (length l)); simpl in Hx, Hy; lia.
Qed.

Lemma checksum_detects_witness :
  value (add (lit "ab" ++ z2b 1 :: be 2 0x9d9e) (InternetChecksum_of 0)) <> 0.
Proof.
  apply (checksum_detects 0 (lit "ab") (z2b 0) (z2b 1) (be 2 0x9d9e)).
  all: by vm_compute.
Defined.
