(* ===== verification/TCPSegment.v ===== *)
(** TCP segments on the wire: [TCPHeader] of [tcp_helpers/tcp_header.hh] and
    [tcp_header.cc], and [TCPSegment] of [tcp_segment.hh] and [tcp_segment.cc]. *)
From S2P Require Import Prelude WrappingIntegers Buffer Parser Checksum.

(** ** TCPHeader *)

Record TCPHeader := mkTCPHeader {
  sport : Z; dport : Z; seqno : WrappingInt32; ackno : WrappingInt32; doff : Z;
  urg : bool; ack : bool; psh : bool; rst : bool; syn : bool; fin : bool;
  win : Z; cksum : Z; uptr : Z }.

Definition TCPHeader_LENGTH : Z := 20.

Definition TCPHeader_default : TCPHeader :=
  mkTCPHeader 0 0 (WrappingInt32_of 0) (WrappingInt32_of 0) (TCPHeader_LENGTH / 4)
    false false false false false false 0 0 0.

(** [static_cast<bool>(fl_b & mask)] *)
Definition flag (fl_b mask : Z) : bool := negb (Z.land fl_b mask =? 0).

(** Every field is assigned before the first [return], so the header that
    [parse] is called on does not matter. *)
Definition TCPHeader_parse (p : NetParser) : result (ParseResult * TCPHeader * NetParser) :=
  let* (sport, p) := parse_u16 p in
  let* (dport, p) := parse_u16 p in
  let* (seqno, p) := parse_u32 p in
  let* (ackno, p) := parse_u32 p in
  let* (doff_b, p) := parse_u8 p in
  let doff := Z.shiftr doff_b 4 in
  let* (fl_b, p) := parse_u8 p in
  let* (win, p) := parse_u16 p in
  let* (cksum, p) := parse_u16 p in
  let* (uptr, p) := parse_u16 p in
  let h := mkTCPHeader sport dport (WrappingInt32_of seqno) (WrappingInt32_of ackno) doff
    (flag fl_b 0x20) (flag fl_b 0x10) (flag fl_b 0x08) (flag fl_b 0x04) (flag fl_b 0x02) (flag fl_b 0x01)
    win cksum uptr in
  if doff <? 5 then Ok (HeaderTooShort, h, p)
  else
    let* p := parser_remove_prefix (u64 (doff * 4 - TCPHeader_LENGTH)) p in
    if error p then Ok (get_error p, h, p) else Ok (NoError, h, p).

Definition flag_byte (h : TCPHeader) : Z :=
  Z.lor (Z.lor (Z.lor (Z.lor (Z.lor (if urg h then 0x20 else 0) (if ack h then 0x10 else 0))
    (if psh h then 0x08 else 0)) (if rst h then 0x04 else 0)) (if syn h then 0x02 else 0))
    (if fin h then 0x01 else 0).

(** [string::resize] pads with zero bytes or truncates: stdpp's [resize]. *)
Definition TCPHeader_serialize (h : TCPHeader) : result (list byte) :=
  if doff h <? 5 then Throw (runtime_error "TCP header too short")
  else
    let ret := [] in
    let ret := unparse_u16 ret (sport h) in
    let ret := unparse_u16 ret (dport h) in
    let ret := unparse_u32 ret (raw_value (seqno h)) in
    let ret := unparse_u32 ret (raw_value (ackno h)) in
    let ret := unparse_u8 ret (u8 (Z.shiftl (doff h) 4)) in
    let ret := unparse_u8 ret (u8 (flag_byte h)) in
    let ret := unparse_u16 ret (win h) in
    let ret := unparse_u16 ret (cksum h) in
    let ret := unparse_u16 ret (uptr h) in
    Ok (resize (Z.to_nat (4 * doff h)) Byte.x00 ret).

(** [TCPHeader::operator==] leaves out the ports and the checksum. *)
Definition TCPHeader_eq (h o : TCPHeader) : bool :=
  eq_wrapping (seqno h) (seqno o) && eq_wrapping (ackno h) (ackno o) && (doff h =? doff o) &&
  Bool.eqb (urg h) (urg o) && Bool.eqb (ack h) (ack o) && Bool.eqb (psh h) (psh o) &&
  Bool.eqb (rst h) (rst o) && Bool.eqb (syn h) (syn o) && Bool.eqb (fin h) (fin o) &&
  (win h =? win o) && (uptr h =? uptr o).

Definition set_cksum (v : Z) (h : TCPHeader) : TCPHeader :=
  mkTCPHeader (sport h) (dport h) (seqno h) (ackno h) (doff h)
    (urg h) (ack h) (psh h) (rst h) (syn h) (fin h) (win h) v (uptr h).

(** ** TCPSegment *)

Record TCPSegment := mkTCPSegment { header : TCPHeader; payload : Buffer }.

Definition TCPSegment_default : TCPSegment := mkTCPSegment TCPHeader_default Buffer_empty.

Definition TCPSegment_parse (b : Buffer) (datagram_layer_checksum : Z) (this : TCPSegment) :
    result (ParseResult * TCPSegment) :=
  let check := Checksum.add (str b) (InternetChecksum_of datagram_layer_checksum) in
  if negb (value check =? 0) then Ok (BadChecksum, this)
  else
    let p := NetParser_of b in
    let* (_, h, p) := TCPHeader_parse p in
    Ok (get_error p, mkTCPSegment h (buffer p)).

Definition length_in_sequence_space (seg : TCPSegment) : Z :=
  u64 (len (str (payload seg)) + (if syn (header seg) then 1 else 0) + (if fin (header seg) then 1 else 0)).

Definition TCPSegment_serialize (datagram_layer_checksum : Z) (seg : TCPSegment) : result BufferList :=
  let header_out := set_cksum 0 (header seg) in
  let check := InternetChecksum_of datagram_layer_checksum in
  let* s := TCPHeader_serialize header_out in
  let check := Checksum.add s check in
  let check := Checksum.add (str (payload seg)) check in
  let header_out := set_cksum (value check) header_out in
  let ret := BufferList_empty in
  let* s := TCPHeader_serialize header_out in
  let ret := append (BufferList_of_string s) ret in
  let ret := append (BufferList_of_Buffer (payload seg)) ret in
  Ok ret.

(** ** The header's wire format *)

(** The ranges of the fields' types, with [doff] a number the four bits on the
    wire can hold and long enough for the header. *)
Record wf_header (h : TCPHeader) : Prop := {
  wf_sport : 0 <= sport h < 2 ^ 16;
  wf_dport : 0 <= dport h < 2 ^ 16;
  wf_seqno : 0 <= raw_value (seqno h) < 2 ^ 32;
  wf_ackno : 0 <= raw_value (ackno h) < 2 ^ 32;
  wf_doff : 5 <= doff h < 16;
  wf_win : 0 <= win h < 2 ^ 16;
  wf_cksum : 0 <= cksum h < 2 ^ 16;
  wf_uptr : 0 <= uptr h < 2 ^ 16 }.

(** The values of the members' types; [doff] is four bits on the wire. *)
Record typed_header (h : TCPHeader) : Prop := {
  typed_sport : 0 <= sport h < 2 ^ 16;
  typed_dport : 0 <= dport h < 2 ^ 16;
  typed_seqno : 0 <= raw_value (seqno h) < 2 ^ 32;
  typed_ackno : 0 <= raw_value (ackno h) < 2 ^ 32;
  typed_doff : 0 <= doff h < 16;
  typed_win : 0 <= win h < 2 ^ 16;
  typed_cksum : 0 <= cksum h < 2 ^ 16;
  typed_uptr : 0 <= uptr h < 2 ^ 16 }.

(** The sixteen bytes before the checksum, and those after it. *)
Definition before_cksum (h : TCPHeader) : list byte :=
  be 2 (sport h) ++ be 2 (dport h) ++ be 4 (raw_value (seqno h)) ++ be 4 (raw_value (ackno h)) ++
  be 1 (doff h * 16) ++ be 1 (flag_byte h) ++ be 2 (win h).
Definition after_cksum (h : TCPHeader) : list byte :=
  be 2 (uptr h) ++ replicate (Z.to_nat (4 * doff h - 20)) Byte.x00.

Lemma flag_byte_range h : 0 <= flag_byte h < 64.
Proof. unfold flag_byte. by destruct (urg h), (ack h), (psh h), (rst h), (syn h), (fin h). Qed.

Lemma flag_byte_flags h :
  flag (flag_byte h) 0x20 = urg h /\ flag (flag_byte h) 0x10 = ack h /\ flag (flag_byte h) 0x08 = psh h /\
  flag (flag_byte h) 0x04 = rst h /\ flag (flag_byte h) 0x02 = syn h /\ flag (flag_byte h) 0x01 = fin h.
Proof. unfold flag_byte. by destruct (urg h), (ack h), (psh h), (rst h), (syn h), (fin h). Qed.

Lemma len_tcp_before_cksum h : length (before_cksum h) = 16%nat.
Proof. unfold before_cksum. by rewrite !length_app, !length_be. Qed.

Lemma length_after_cksum h : 5 <= doff h -> len (after_cksum h) = 4 * doff h - 18.
Proof. intros. unfold after_cksum. rewrite len_app, length_be, length_replicate. lia. Qed.

Lemma TCPHeader_serialize_eq h :
  wf_header h -> TCPHeader_serialize h = Ok (before_cksum h ++ be 2 (cksum h) ++ after_cksum h).
Proof.
  intros [_ _ _ _ Hd _ _ _]. unfold TCPHeader_serialize. destruct (Z.ltb_spec (doff h) 5); [lia|].
  unfold unparse_u8, unparse_u16, unparse_u32. rewrite !unparse_int_eq. cbn [sizeof].
  rewrite (u8_small (flag_byte h)) by (pose proof (flag_byte_range h); lia).
  rewrite Z.shiftl_mul_pow2, u8_small by lia. change (2 ^ 4) with 16.
  rewrite resize_pad by (rewrite !length_app, !length_be; simpl; lia).
  f_equal. unfold before_cksum, after_cksum. rewrite app_nil_l, <- !app_assoc. do 9 f_equal.
  f_equal. rewrite !length_app, !length_be. lia.
Qed.

Lemma mkWrapping_eta w : 0 <= raw_value w < 2 ^ 32 -> WrappingInt32_of (raw_value w) = w.
Proof. destruct w. unfold WrappingInt32_of. simpl. intros. by rewrite u32_small. Qed.

Lemma TCPHeader_parse_eq h p k :
  wf_header h -> reading p ((before_cksum h ++ be 2 (cksum h) ++ after_cksum h) ++ k) ->
  exists p', TCPHeader_parse p = Ok (NoError, h, p') /\ reading p' k.
Proof.
  intros [] Hr. pose proof (flag_byte_range h).
  unfold before_cksum, after_cksum in Hr. rewrite <- !app_assoc in Hr.
  unfold TCPHeader_parse, parse_u8, parse_u16, parse_u32. do 9 read_int Hr.
  rewrite Z.shiftr_div_pow2 by lia. change (2 ^ 4) with 16. rewrite Z.div_mul by lia.
  destruct (Z.ltb_spec (doff h) 5); [lia|]. unfold TCPHeader_LENGTH. rewrite u64_small by lia.
  edestruct (parser_remove_prefix_reading (doff h * 4 - 20)) as (p' & -> & Hr'); [exact Hr|rewrite length_replicate; lia|].
  cbn [bind]. rewrite (error_reading _ _ Hr'). exists p'. split; [|done]. do 3 f_equal.
  destruct (flag_byte_flags h) as (-> & -> & -> & -> & -> & ->).
  rewrite !mkWrapping_eta by done. by destruct h.
Qed.

(** TCP header round trip: a header with fields in range serializes, and
    parsing its bytes from the front of any input gives the same header back
    and leaves exactly what follows it. *)
Theorem TCPHeader_roundtrip h rest :
  wf_header h -> len rest < 2 ^ 63 ->
  exists s, TCPHeader_serialize h = Ok s /\ len s = 4 * doff h /\
  exists p, TCPHeader_parse (NetParser_of (Buffer_of (s ++ rest))) = Ok (NoError, h, p) /\ reading p rest.
Proof.
  intros Hw Hlen. eexists. split; [by apply TCPHeader_serialize_eq|].
  pose proof (wf_doff h Hw). split.
  { rewrite !len_app, len_tcp_before_cksum, length_be, length_after_cksum by lia. lia. }
  apply TCPHeader_parse_eq; [done|]. split; [|done|]; cbn [NetParser_of _buffer].
  - apply wf_Buffer_of. rewrite !len_app, len_tcp_before_cksum, length_be, length_after_cksum; lia.
  - apply str_Buffer_of. rewrite !len_app, len_tcp_before_cksum, length_be, length_after_cksum; lia.
Qed.

Definition example_header : TCPHeader :=
  mkTCPHeader 80 1234 (mkWrappingInt32 0xfffffff0) (mkWrappingInt32 17) 6 false true false false true false 4000 0 0.

Lemma example_header_wf : wf_header example_header.
Proof. split; vm_compute; split; by intros. Qed.

Lemma TCPHeader_roundtrip_witness :
  exists s, TCPHeader_serialize example_header = Ok s /\ len s = 24 /\
  exists p, TCPHeader_parse (NetParser_of (Buffer_of (s ++ lit "hello"))) = Ok (NoError, example_header, p) /\ reading p (lit "hello").
Proof. apply (TCPHeader_roundtrip example_header (lit "hello")); [apply example_header_wf|by vm_compute]. Defined.

(** Parsing a header never throws, and its result has values of its types. *)
Lemma TCPHeader_parse_total p :
  Buffer.wf (_buffer p) ->
  exists r h p', TCPHeader_parse p = Ok (r, h, p') /\ Buffer.wf (_buffer p') /\ typed_header h /\
    (r = NoError -> 5 <= doff h).
Proof.
  intros Hw. unfold TCPHeader_parse, parse_u8, parse_u16, parse_u32. do 9 read_any Hw.
  pose proof (u32_range v1). pose proof (u32_range v2).
  assert (0 <= Z.shiftr v3 4 < 16) as Hd.
  { rewrite Z.shiftr_div_pow2 by lia. split; [apply Z.div_pos; lia|apply Z.div_lt_upper_bound; lia]. }
  destruct (Z.ltb_spec (Z.shiftr v3 4) 5).
  - eexists _, _, _. split; [done|]. split; [done|]. split; [by split|done].
  - edestruct (parser_remove_prefix_total (u64 (Z.shiftr v3 4 * 4 - TCPHeader_LENGTH))) as (p' & -> & Hw');
      [apply u64_range|exact Hw|]. cbn [bind].
    destruct (error p'); eexists _, _, _; (split; [done|]); (split; [done|]); (split; [by split|done]).
Qed.

(** ** Segments *)

Lemma length_in_sequence_space_eq seg :
  len (str (payload seg)) < 2 ^ 63 ->
  length_in_sequence_space seg =
  len (str (payload seg)) + (if syn (header seg) then 1 else 0) + (if fin (header seg) then 1 else 0).
Proof. intros. apply u64_small. destruct (syn _), (fin _); lia. Qed.

Lemma set_tcp_cksum_wf h v : wf_header h -> 0 <= v < 2 ^ 16 -> wf_header (set_cksum v h).
Proof. intros [] ?. by split. Qed.

(** The bytes of a serialized segment. *)
Lemma TCPSegment_serialize_eq pseudo seg :
  wf_header (header seg) -> Buffer.wf (payload seg) ->
  let h := header seg in
  let pl := str (payload seg) in
  let v := value (Checksum.add (before_cksum h ++ be 2 0 ++ after_cksum h ++ pl) (InternetChecksum_of pseudo)) in
  exists bl, TCPSegment_serialize pseudo seg = Ok bl /\ Forall Buffer.wf (_buffers bl) /\
    concatenate bl = (before_cksum h ++ be 2 v ++ after_cksum h) ++ pl.
Proof.
  intros Hh Hp h pl v. unfold TCPSegment_serialize.
  rewrite (TCPHeader_serialize_eq (set_cksum 0 (header seg))) by (apply set_tcp_cksum_wf; [done|lia]). cbn [bind].
  rewrite add_add, <- !app_assoc. change (before_cksum (set_cksum 0 (header seg))) with (before_cksum h).
  change (after_cksum (set_cksum 0 (header seg))) with (after_cksum h). change (str (payload seg)) with pl.
  change (cksum (set_cksum 0 (header seg))) with 0. fold v.
  rewrite TCPHeader_serialize_eq by (apply set_tcp_cksum_wf; [by apply set_tcp_cksum_wf|apply value_range]). cbn [bind].
  assert (len (before_cksum h ++ be 2 v ++ after_cksum h) < 2 ^ 64) as Hlen.
  { pose proof (wf_doff _ Hh). rewrite !len_app, len_tcp_before_cksum, length_be, length_after_cksum by (unfold h; lia).
    unfold h. lia. }
  eexists. split; [done|]. split.
  - rewrite !append_eq. cbn [_buffers BufferList_empty BufferList_of_Buffer app].
    apply Forall_cons_2; [by apply wf_Buffer_of|]. by apply Forall_cons_2.
  - rewrite 2!concatenate_append, concatenate_of_string, concatenate_of_Buffer by done.
    by rewrite <- !app_assoc.
Qed.

(** A segment read back from any buffer that holds its bytes. *)
Lemma TCPSegment_parse_serialize pseudo seg seg0 :
  wf_header (header seg) -> Buffer.wf (payload seg) ->
  0 <= pseudo < 2 ^ 19 -> len (str (payload seg)) < 2 ^ 16 ->
  exists bl v, TCPSegment_serialize pseudo seg = Ok bl /\ 0 <= v < 2 ^ 16 /\
    len (concatenate bl) = 4 * doff (header seg) + len (str (payload seg)) /\
    forall b, Buffer.wf b -> str b = concatenate bl ->
    exists pl, TCPSegment_parse b pseudo seg0 = Ok (NoError, mkTCPSegment (set_cksum v (header seg)) pl) /\
      Buffer.wf pl /\ str pl = str (payload seg).
Proof.
  intros Hh Hp Hps Hlen. destruct (TCPSegment_serialize_eq pseudo seg Hh Hp) as (bl & E & _ & Hbl).
  cbv zeta in Hbl. set (v := value _) in Hbl. pose proof (wf_doff _ Hh) as Hd.
  set (h := header seg) in *. set (pay := str (payload seg)) in *. exists bl, v.
  assert (len ((before_cksum h ++ be 2 v ++ after_cksum h) ++ pay) = 4 * doff h + len pay) as Hl.
  { rewrite !len_app, len_tcp_before_cksum, length_be, length_after_cksum; lia. }
  split; [done|]. split; [apply value_range|]. rewrite Hbl. split; [done|]. intros b Hb Eb. unfold TCPSegment_parse. rewrite Eb.
  assert (value (Checksum.add ((before_cksum h ++ be 2 v ++ after_cksum h) ++ pay) (InternetChecksum_of pseudo)) = 0) as ->.
  { rewrite <- !app_assoc. apply checksum_field; [rewrite len_tcp_before_cksum; by exists 8%nat|lia|].
    rewrite len_app, len_tcp_before_cksum, length_after_cksum; lia. }
  destruct (TCPHeader_parse_eq (set_cksum v h) (NetParser_of b) pay) as (p & Ep & [Hw' He Hs']).
  { apply set_tcp_cksum_wf; [done|apply value_range]. }
  { by split. }
  rewrite Ep. cbn [bind negb Z.eqb]. exists (buffer p). unfold get_error. by rewrite He.
Qed.

(** C26: TCP segment round trip: the bytes of a serialized segment, parsed with
    the same pseudo-header sum, pass the checksum test and give the header
    (with the computed checksum) and the payload back. *)
Theorem TCPSegment_roundtrip pseudo seg seg0 :
  wf_header (header seg) -> Buffer.wf (payload seg) ->
  0 <= pseudo < 2 ^ 19 -> len (str (payload seg)) < 2 ^ 16 ->
  exists bl v pl, TCPSegment_serialize pseudo seg = Ok bl /\
    TCPSegment_parse (Buffer_of (concatenate bl)) pseudo seg0 = Ok (NoError, mkTCPSegment (set_cksum v (header seg)) pl) /\
    str pl = str (payload seg).
Proof.
  intros Hh Hp Hps Hlen. destruct (TCPSegment_parse_serialize pseudo seg seg0 Hh Hp Hps Hlen) as (bl & v & E & _ & Hl & Hb).
  pose proof (wf_doff _ Hh). destruct (Hb (Buffer_of (concatenate bl))) as (pl & Epl & _ & Hpl);
    [apply wf_Buffer_of; lia|apply str_Buffer_of; lia|]. by exists bl, v, pl.
Qed.

Definition example_segment : TCPSegment := mkTCPSegment example_header (Buffer_of (lit "hello")).

Lemma TCPSegment_roundtrip_witness :
  exists bl v pl, TCPSegment_serialize 0x1234 example_segment = Ok bl /\
    TCPSegment_parse (Buffer_of (concatenate bl)) 0x1234 TCPSegment_default = Ok (NoError, mkTCPSegment (set_cksum v example_header) pl) /\
    str pl = lit "hello".
Proof.
  apply (TCPSegment_roundtrip 0x1234 example_segment TCPSegment_default).
  - apply example_header_wf.
  - by apply wf_Buffer_of.
  - lia.
  - by vm_compute.
Defined.

(** C38: Parsing is robust and its result well typed: whatever the bytes received
    and the pseudo-header sum, [TCPSegment::parse] returns without an exception; a
    checksum failure leaves the segment as it was, and otherwise every member of
    the header is a value of its type and the payload is a well-formed buffer. *)
Theorem TCPSegment_parse_total b pseudo seg0 :
  Buffer.wf b ->
  exists r seg, TCPSegment_parse b pseudo seg0 = Ok (r, seg) /\
    if value (Checksum.add (str b) (InternetChecksum_of pseudo)) =? 0
    then Buffer.wf (payload seg) /\ typed_header (header seg)
    else r = BadChecksum /\ seg = seg0.
Proof.
  intros Hw. unfold TCPSegment_parse. destruct (_ =? 0); cbn [negb]; [|by exists BadChecksum, seg0].
  destruct (TCPHeader_parse_total (NetParser_of b) Hw) as (r & h & p & -> & Hp & ? & ?).
  cbn [bind]. by eexists _, _.
Qed.

Lemma TCPSegment_parse_total_witness :
  exists r seg, TCPSegment_parse (Buffer_of (lit "garbage")) 0 TCPSegment_default = Ok (r, seg) /\
    r = BadChecksum /\ seg = TCPSegment_default.
Proof. apply (TCPSegment_parse_total (Buffer_of (lit "garbage")) 0 TCPSegment_default). by apply wf_Buffer_of. Defined.

(** [TCPSegment::parse] drops the result of [TCPHeader::parse]: a segment
    that passes the checksum and is long enough for the fixed header is
    accepted with [NoError] even when its data offset is below the minimum of
    five words, the case [TCPHeader::parse] reports as [HeaderTooShort]; its
    payload is then everything after the first twenty bytes. *)
Theorem short_doff_accepted pre12 doff_b rest7 body pseudo seg0 :
  length pre12 = 12%nat -> length rest7 = 7%nat -> b2z doff_b < 80 -> len body < 2 ^ 63 ->
  let b := Buffer_of (pre12 ++ doff_b :: rest7 ++ body) in
  value (Checksum.add (str b) (InternetChecksum_of pseudo)) = 0 ->
  exists seg, TCPSegment_parse b pseudo seg0 = Ok (NoError, seg) /\
    doff (header seg) < 5 /\ str (payload seg) = body.
Proof.
  intros H12 H7 Hd Hb b Hv. unfold TCPSegment_parse. rewrite Hv. cbn [negb Z.eqb].
  do 12 (destruct pre12 as [|? pre12]; [done|]). destruct pre12; [|done].
  do 7 (destruct rest7 as [|? rest7]; [done|]). destruct rest7; [|done].
  assert (reading (NetParser_of b) (str b)) as Hr by (apply reading_of, wf_Buffer_of; simpl; lia).
  unfold b in Hr at 2. rewrite str_Buffer_of in Hr by (simpl; lia). simpl in Hr.
  unfold TCPHeader_parse, parse_u8, parse_u16, parse_u32.
  read_raw Hr uint16_t 2%nat. read_raw Hr uint16_t 2%nat. read_raw Hr uint32_t 4%nat. read_raw Hr uint32_t 4%nat.
  read_raw Hr uint8_t 1%nat. read_raw Hr uint8_t 1%nat.
  read_raw Hr uint16_t 2%nat. read_raw Hr uint16_t 2%nat. read_raw Hr uint16_t 2%nat.
  assert (Z.shiftr (be_val [doff_b]) 4 < 5) as Hd5.
  { unfold be_val, be_val_from. simpl fold_left. rewrite Z.shiftr_div_pow2 by lia. apply Z.div_lt_upper_bound; lia. }
  cbn [take].
  destruct (Z.ltb_spec (Z.shiftr (be_val [doff_b]) 4) 5); [|lia]. cbn [bind].
  destruct Hr as [_ He Hs]. eexists. split; [|split].
  - unfold get_error. by rewrite He.
  - done.
  - done.
Qed.

Lemma short_doff_accepted_witness :
  exists seg, TCPSegment_parse (Buffer_of (replicate 12 Byte.x00 ++ z2b 0x40 :: [z2b 0; z2b 0; z2b 0; z2b 0xbf; z2b 0xff; z2b 0; z2b 0] ++ [])) 0 TCPSegment_default = Ok (NoError, seg) /\
    doff (header seg) < 5 /\ str (payload seg) = [].
Proof.
  apply (short_doff_accepted (replicate 12 Byte.x00) (z2b 0x40) [z2b 0; z2b 0; z2b 0; z2b 0xbf; z2b 0xff; z2b 0; z2b 0] [] 0 TCPSegment_default).
  all: by vm_compute.
Defined.
