(* ===== verification/IPv4.v ===== *)
(** IPv4 datagrams on the wire: [IPv4Header] of [tcp_helpers/ipv4_header.hh]
    and [ipv4_header.cc], and [IPv4Datagram] of [ipv4_datagram.hh] and
    [ipv4_datagram.cc].  The field [len] of the code is [tot_len] here and [id]
    is [ident]. *)
From S2P Require Import Prelude Buffer Parser Checksum.

(** ** IPv4Header *)

Record IPv4Header := mkIPv4Header {
  ver : Z; hlen : Z; tos : Z; tot_len : Z; ident : Z; df : bool; mf : bool; offset : Z;
  ttl : Z; proto : Z; cksum : Z; src : Z; dst : Z }.

Definition LENGTH : Z := 20.
Definition DEFAULT_TTL : Z := 128.
Definition PROTO_TCP : Z := 6.

Definition IPv4Header_default : IPv4Header :=
  mkIPv4Header 4 (LENGTH / 4) 0 0 0 true false 0 DEFAULT_TTL PROTO_TCP 0 0 0.

Definition IPv4Header_parse (p : NetParser) (this : IPv4Header) :
    result (ParseResult * IPv4Header * NetParser) :=
  let original_serialized_version := buffer p in
  let data_size := size (buffer p) in
  if data_size <? LENGTH then Ok (PacketTooShort, this, p)
  else
    let* (first_byte, p) := parse_u8 p in
    let ver := Z.shiftr first_byte 4 in
    let hlen := Z.land first_byte 0x0f in
    let* (tos, p) := parse_u8 p in
    let* (tot_len, p) := parse_u16 p in
    let* (ident, p) := parse_u16 p in
    let* (fo_val, p) := parse_u16 p in
    let df := negb (Z.land fo_val 0x4000 =? 0) in
    let mf := negb (Z.land fo_val 0x2000 =? 0) in
    let offset := Z.land fo_val 0x1fff in
    let* (ttl, p) := parse_u8 p in
    let* (proto, p) := parse_u8 p in
    let* (cksum, p) := parse_u16 p in
    let* (src, p) := parse_u32 p in
    let* (dst, p) := parse_u32 p in
    let h := mkIPv4Header ver hlen tos tot_len ident df mf offset ttl proto cksum src dst in
    if data_size <? 4 * hlen then Ok (PacketTooShort, h, p)
    else if negb (ver =? 4) then Ok (WrongIPVersion, h, p)
    else if hlen <? 5 then Ok (HeaderTooShort, h, p)
    else if negb (data_size =? tot_len) then Ok (TruncatedPacket, h, p)
    else
      let* p := parser_remove_prefix (u64 (hlen * 4 - LENGTH)) p in
      if error p then Ok (get_error p, h, p)
      else
        let check := Checksum.add (ztake (4 * hlen) (str original_serialized_version)) (InternetChecksum_of 0) in
        if negb (value check =? 0) then Ok (BadChecksum, h, p) else Ok (NoError, h, p).

Definition fo_word (h : IPv4Header) : Z :=
  Z.lor (Z.lor (if df h then 0x4000 else 0) (if mf h then 0x2000 else 0)) (Z.land (offset h) 0x1fff).

Definition IPv4Header_serialize (h : IPv4Header) : result (list byte) :=
  if negb (ver h =? 4) then Throw (runtime_error "wrong IP version")
  else if 4 * hlen h <? LENGTH then Throw (runtime_error "IP header too short")
  else
    let ret := [] in
    let first_byte := u8 (Z.lor (Z.shiftl (ver h) 4) (Z.land (hlen h) 0xf)) in
    let ret := unparse_u8 ret first_byte in
    let ret := unparse_u8 ret (tos h) in
    let ret := unparse_u16 ret (tot_len h) in
    let ret := unparse_u16 ret (ident h) in
    let ret := unparse_u16 ret (u16 (fo_word h)) in
    let ret := unparse_u8 ret (ttl h) in
    let ret := unparse_u8 ret (proto h) in
    let ret := unparse_u16 ret (cksum h) in
    let ret := unparse_u32 ret (src h) in
    let ret := unparse_u32 ret (dst h) in
    Ok (resize (Z.to_nat (4 * hlen h)) Byte.x00 ret).

Definition payload_length (h : IPv4Header) : Z := u16 (tot_len h - 4 * hlen h).

Definition pseudo_cksum (h : IPv4Header) : Z :=
  let pcksum := u32 (Z.shiftr (src h) 16 + Z.land (src h) 0xffff) in
  let pcksum := u32 (pcksum + (Z.shiftr (dst h) 16 + Z.land (dst h) 0xffff)) in
  let pcksum := u32 (pcksum + proto h) in
  u32 (pcksum + payload_length h).

Definition set_cksum (v : Z) (h : IPv4Header) : IPv4Header :=
  mkIPv4Header (ver h) (hlen h) (tos h) (tot_len h) (ident h) (df h) (mf h) (offset h)
    (ttl h) (proto h) v (src h) (dst h).

(** ** IPv4Datagram *)

Record IPv4Datagram := mkIPv4Datagram { header : IPv4Header; payload : BufferList }.

Definition IPv4Datagram_default : IPv4Datagram := mkIPv4Datagram IPv4Header_default BufferList_empty.

Definition IPv4Datagram_parse (b : Buffer) (this : IPv4Datagram) : result (ParseResult * IPv4Datagram) :=
  let p := NetParser_of b in
  let* (_, h, p) := IPv4Header_parse p (header this) in
  let d := mkIPv4Datagram h (BufferList_of_Buffer (buffer p)) in
  if negb (list_size (payload d) =? payload_length h) then Ok (PacketTooShort, d)
  else Ok (get_error p, d).

Definition IPv4Datagram_serialize (d : IPv4Datagram) : result BufferList :=
  if negb (list_size (payload d) =? payload_length (header d))
  then Throw (runtime_error "IPv4Datagram::serialize: payload is wrong size")
  else
    let header_out := set_cksum 0 (header d) in
    let* header_zero_checksum := IPv4Header_serialize header_out in
    let check := Checksum.add header_zero_checksum (InternetChecksum_of 0) in
    let header_out := set_cksum (value check) header_out in
    let ret := BufferList_empty in
    let* s := IPv4Header_serialize header_out in
    let ret := append (BufferList_of_string s) ret in
    let ret := append (payload d) ret in
    Ok ret.

(** ** The header's wire format *)

Record wf_header (h : IPv4Header) : Prop := {
  wf_ver : ver h = 4;
  wf_hlen : 5 <= hlen h < 16;
  wf_tos : 0 <= tos h < 2 ^ 8;
  wf_tot_len : 4 * hlen h <= tot_len h < 2 ^ 16;
  wf_ident : 0 <= ident h < 2 ^ 16;
  wf_off : 0 <= offset h < 2 ^ 13;
  wf_ttl : 0 <= ttl h < 2 ^ 8;
  wf_proto : 0 <= proto h < 2 ^ 8;
  wf_cksum : 0 <= cksum h < 2 ^ 16;
  wf_src : 0 <= src h < 2 ^ 32;
  wf_dst : 0 <= dst h < 2 ^ 32 }.

(** The ten bytes before the checksum, and those after it. *)
Definition before_cksum (h : IPv4Header) : list byte :=
  be 1 (64 + hlen h) ++ be 1 (tos h) ++ be 2 (tot_len h) ++ be 2 (ident h) ++ be 2 (fo_word h) ++
  be 1 (ttl h) ++ be 1 (proto h).
Definition after_cksum (h : IPv4Header) : list byte :=
  be 4 (src h) ++ be 4 (dst h) ++ replicate (Z.to_nat (4 * hlen h - 20)) Byte.x00.
Definition wire (h : IPv4Header) : list byte := before_cksum h ++ be 2 (cksum h) ++ after_cksum h.

Lemma length_before_cksum h : length (before_cksum h) = 10%nat.
Proof. unfold before_cksum. by rewrite !length_app, !length_be. Qed.

Lemma len_wire h : 5 <= hlen h -> len (wire h) = 4 * hlen h.
Proof.
  intros. unfold wire, after_cksum. rewrite !len_app, length_before_cksum, !length_be, length_replicate. lia.
Qed.

Lemma set_cksum_wf h v : wf_header h -> 0 <= v < 2 ^ 16 -> wf_header (set_cksum v h).
Proof. intros [] ?. by split. Qed.

(** The three flag bits and the thirteen offset bits share a 16-bit word. *)
Lemma fo_word_eq h : 0 <= offset h < 2 ^ 13 ->
  fo_word h = (if df h then 0x4000 else 0) + (if mf h then 0x2000 else 0) + offset h.
Proof.
  intros Ho. unfold fo_word. change 0x1fff with (Z.ones 13). rewrite Z.land_ones, Z.mod_small by lia.
  assert (forall k x, 0 <= x < 2 ^ 13 -> Z.lor (k * 2 ^ 13) x = k * 2 ^ 13 + x) as E.
  { intros k x Hx. rewrite <- Z.shiftl_mul_pow2 by lia. symmetry. apply Z.add_nocarry_lor.
    apply Z.bits_inj_iff'. intros n Hn. rewrite Z.land_spec, Z.bits_0.
    destruct (Z.lt_ge_cases n 13) as [H|H]; [by rewrite Z.shiftl_spec_low|].
    rewrite <- (Z.mod_small x (2 ^ 13)), <- Z.land_ones, Z.land_spec, Z.ones_spec_high by lia.
    by rewrite !andb_false_r. }
  destruct (df h), (mf h); [apply (E 3)|apply (E 2)|apply (E 1)|apply (E 0)]; done.
Qed.

Lemma fo_word_range h : 0 <= offset h < 2 ^ 13 -> 0 <= fo_word h < 2 ^ 15.
Proof. intros. rewrite fo_word_eq by done. destruct (df h), (mf h); lia. Qed.

Lemma fo_word_fields h : 0 <= offset h < 2 ^ 13 ->
  negb (Z.land (fo_word h) 0x4000 =? 0) = df h /\ negb (Z.land (fo_word h) 0x2000 =? 0) = mf h /\
  Z.land (fo_word h) 0x1fff = offset h.
Proof.
  intros Ho.
  assert (Z.land (offset h) 0x4000 = 0 /\ Z.land (offset h) 0x2000 = 0 /\ Z.land (offset h) 0x1fff = offset h) as (E1 & E2 & E3).
  { change 0x1fff with (Z.ones 13). rewrite <- (Z.mod_small (offset h) (2 ^ 13)), <- Z.land_ones, <- !Z.land_assoc by lia.
    split_and!; [apply Z.land_0_r|apply Z.land_0_r|done]. }
  unfold fo_word. rewrite E3, !Z.land_lor_distr_l, E1, E2, E3.
  destruct (df h), (mf h); split_and!; try done; by apply Z.lor_0_l.
Qed.

Lemma IPv4Header_serialize_eq h : wf_header h -> IPv4Header_serialize h = Ok (wire h).
Proof.
  intros [Hv Hh _ _ _ Ho _ _ _ _ _]. unfold IPv4Header_serialize. rewrite Hv. cbn [Z.eqb Pos.eqb negb].
  unfold LENGTH. destruct (Z.ltb_spec (4 * hlen h) 20); [lia|].
  unfold unparse_u8, unparse_u16, unparse_u32. rewrite !unparse_int_eq. cbn [sizeof].
  pose proof (fo_word_range h Ho). rewrite (u16_small (fo_word h)) by lia.
  assert (u8 (Z.lor (Z.shiftl 4 4) (Z.land (hlen h) 0xf)) = 64 + hlen h) as ->.
  { assert (hlen h = 5 \/ hlen h = 6 \/ hlen h = 7 \/ hlen h = 8 \/ hlen h = 9 \/ hlen h = 10 \/ hlen h = 11 \/
      hlen h = 12 \/ hlen h = 13 \/ hlen h = 14 \/ hlen h = 15) as Hc by lia.
    by repeat destruct Hc as [->|Hc]; [..|rewrite Hc]. }
  rewrite resize_pad by (rewrite !length_app, !length_be; simpl; lia).
  f_equal. unfold wire, before_cksum, after_cksum. rewrite app_nil_l, <- !app_assoc. do 10 f_equal.
  f_equal. rewrite !length_app, !length_be. lia.
Qed.

Lemma IPv4Header_parse_eq h p k h0 :
  wf_header h -> value (Checksum.add (wire h) (InternetChecksum_of 0)) = 0 ->
  tot_len h = len (wire h) + len k -> reading p (wire h ++ k) ->
  exists p', IPv4Header_parse p h0 = Ok (NoError, h, p') /\ reading p' k.
Proof.
  intros Hw Hck Htot Hr. pose proof Hw as []. rewrite len_wire in Htot by lia.
  unfold IPv4Header_parse, size, buffer. rewrite (reading_str _ _ Hr).
  rewrite len_app, len_wire by lia.
  assert (ztake (4 * hlen h) (wire h ++ k) = wire h) as Htk.
  { rewrite <- len_wire by lia. apply ztake_app_exact. }
  unfold LENGTH. destruct (Z.ltb_spec (4 * hlen h + len k) 20); [lia|].
  unfold wire, before_cksum, after_cksum in Hr. rewrite <- !app_assoc in Hr.
  pose proof (fo_word_range h ltac:(done)). unfold parse_u8, parse_u16, parse_u32. do 10 read_int Hr.
  assert (Z.shiftr (64 + hlen h) 4 = 4) as Ev.
  { rewrite Z.shiftr_div_pow2 by lia. symmetry. apply (Z.div_unique_pos _ _ _ (hlen h)); lia. }
  assert (Z.land (64 + hlen h) 15 = hlen h) as Eh.
  { change 15 with (Z.ones 4). rewrite Z.land_ones by lia. symmetry. apply (Z.mod_unique_pos _ _ 4); lia. }
  rewrite Ev, Eh. destruct (Z.ltb_spec (4 * hlen h + len k) (4 * hlen h)); [lia|]. cbn [negb Z.eqb Pos.eqb].
  destruct (Z.ltb_spec (hlen h) 5); [lia|]. destruct (Z.eqb_spec (4 * hlen h + len k) (tot_len h)); [|lia]. cbn [negb].
  rewrite u64_small by lia.
  edestruct (parser_remove_prefix_reading (hlen h * 4 - 20)) as (p' & -> & Hr'); [exact Hr|rewrite length_replicate; lia|].
  cbn [bind]. rewrite (error_reading _ _ Hr').
  destruct (fo_word_fields h) as (-> & -> & ->); [done|].
  rewrite Htk, Hck. cbn [negb Z.eqb]. exists p'. split; [|done]. rewrite <- wf_ver0. by destruct h.
Qed.

(** ** Datagrams *)

Lemma payload_length_eq h : wf_header h -> payload_length h = tot_len h - 4 * hlen h.
Proof. intros []. apply u16_small. lia. Qed.

Lemma IPv4Datagram_serialize_eq d :
  wf_header (header d) -> len (concatenate (payload d)) = tot_len (header d) - 4 * hlen (header d) ->
  let v := value (Checksum.add (wire (set_cksum 0 (header d))) (InternetChecksum_of 0)) in
  exists bl, IPv4Datagram_serialize d = Ok bl /\
    concatenate bl = wire (set_cksum v (header d)) ++ concatenate (payload d) /\
    value (Checksum.add (wire (set_cksum v (header d))) (InternetChecksum_of 0)) = 0.
Proof.
  intros Hw Hlen v. unfold IPv4Datagram_serialize. pose proof Hw as [].
  rewrite list_size_eq, <- concatenate_eq by (rewrite <- concatenate_eq; lia).
  rewrite payload_length_eq, Hlen, Z.eqb_refl by done. cbn [negb].
  rewrite IPv4Header_serialize_eq by (apply set_cksum_wf; [done|lia]). cbn [bind]. fold v.
  assert (wf_header (set_cksum v (header d))) as Hwv by (apply set_cksum_wf; [done|apply value_range]).
  change (set_cksum v (set_cksum 0 (header d))) with (set_cksum v (header d)).
  rewrite IPv4Header_serialize_eq by done. cbn [bind].
  eexists. split; [done|]. split.
  - rewrite 2!concatenate_append, concatenate_of_string by (rewrite len_wire; simpl; lia). done.
  - unfold wire at 1. apply (checksum_field 0 (before_cksum (header d)) (after_cksum (header d))).
    + rewrite length_before_cksum. by exists 5%nat.
    + lia.
    + pose proof (len_wire (header d) ltac:(lia)) as Hl. unfold wire in Hl.
      rewrite !len_app, length_be, length_before_cksum in Hl. rewrite length_before_cksum. lia.
Qed.

Lemma IPv4Datagram_parse_serialize d d0 :
  wf_header (header d) -> len (concatenate (payload d)) = tot_len (header d) - 4 * hlen (header d) ->
  exists bl v, IPv4Datagram_serialize d = Ok bl /\ len (concatenate bl) = tot_len (header d) /\ 0 <= v < 2 ^ 16 /\
    forall b, Buffer.wf b -> str b = concatenate bl ->
    exists b', IPv4Datagram_parse b d0 = Ok (NoError, mkIPv4Datagram (set_cksum v (header d)) (BufferList_of_Buffer b')) /\
      Buffer.wf b' /\ str b' = concatenate (payload d).
Proof.
  intros Hw Hlen. destruct (IPv4Datagram_serialize_eq d Hw Hlen) as (bl & E & Hbl & Hck).
  set (v := value _) in Hbl, Hck. exists bl, v.
  assert (wf_header (set_cksum v (header d))) as Hwv by (apply set_cksum_wf; [done|apply value_range]).
  pose proof Hw as []. assert (len (wire (set_cksum v (header d))) = 4 * hlen (header d)) as Hlw by (rewrite len_wire; simpl; lia).
  split_and!; [done|rewrite Hbl, len_app; lia|apply value_range..|]. intros b Hb Eb. rewrite Hbl in Eb. unfold IPv4Datagram_parse.
  destruct (IPv4Header_parse_eq (set_cksum v (header d)) (NetParser_of b) (concatenate (payload d)) (header d0) Hwv Hck)
    as (p & -> & [Hpw He Hs]).
  { rewrite Hlw. simpl. lia. }
  { by split. }
  cbn [bind payload]. rewrite payload_length_eq by done.
  rewrite list_size_eq, <- concatenate_eq, concatenate_of_Buffer by (simpl; rewrite ?app_nil_r; unfold buffer; rewrite Hs; lia).
  unfold buffer at 1. rewrite Hs. simpl. rewrite Hlen, Z.eqb_refl. cbn [negb].
  unfold get_error. rewrite He. by eexists.
Qed.


Definition example_datagram : IPv4Datagram :=
  mkIPv4Datagram (mkIPv4Header 4 6 0 29 7 true false 0 64 6 0 0x0a000001 0xc0a80001) (BufferList_of_string (lit "hello")).

Lemma example_datagram_wf : wf_header (header example_datagram).
Proof. split; vm_compute; try done; split; by intros. Qed.


(** The pseudo-header's sum is a sum of six 16-bit values. *)
Lemma pseudo_cksum_range h :
  0 <= src h < 2 ^ 32 -> 0 <= dst h < 2 ^ 32 -> 0 <= proto h < 2 ^ 8 -> 0 <= pseudo_cksum h < 2 ^ 19.
Proof.
  intros Hs Hd Hp. unfold pseudo_cksum. change 0xffff with (Z.ones 16).
  rewrite !Z.land_ones, !Z.shiftr_div_pow2 by lia.
  assert (forall x, 0 <= x < 2 ^ 32 -> 0 <= x / 2 ^ 16 < 2 ^ 16) as Hq.
  { intros x Hx. split; [apply Z.div_pos; lia|apply Z.div_lt_upper_bound; lia]. }
  pose proof (Hq (src h) Hs). pose proof (Hq (dst h) Hd).
  pose proof (Z.mod_pos_bound (src h) (2 ^ 16)). pose proof (Z.mod_pos_bound (dst h) (2 ^ 16)).
  pose proof (u16_range (tot_len h - 4 * hlen h)). unfold payload_length.
  unwrap_uint. lia.
Qed.

(** Parsing a header never throws. *)
Lemma IPv4Header_parse_total p h0 :
  Buffer.wf (_buffer p) -> exists r h p', IPv4Header_parse p h0 = Ok (r, h, p') /\ Buffer.wf (_buffer p').
Proof.
  intros Hw. unfold IPv4Header_parse, parse_u8, parse_u16, parse_u32. destruct (_ <? LENGTH); [by eexists _, _, _|].
  set (sz := size (buffer p)). set (orig := str (buffer p)). clearbody sz orig.
  do 10 read_any Hw.
  destruct (sz <? _); [by eexists _, _, _|]. destruct (negb _); [by eexists _, _, _|].
  destruct (_ <? 5); [by eexists _, _, _|]. destruct (negb _); [by eexists _, _, _|].
  edestruct parser_remove_prefix_total as (p' & -> & Hw'); [|exact Hw|]; [apply u64_range|].
  cbn [bind]. destruct (error p'); [by eexists _, _, _|]. destruct (negb _); by eexists _, _, _.
Qed.

Lemma IPv4Datagram_parse_returns b d0 :
  Buffer.wf b ->
  exists r d, IPv4Datagram_parse b d0 = Ok (r, d) /\
    (r = NoError -> len (concatenate (payload d)) = payload_length (header d)).
Proof.
  intros Hw. unfold IPv4Datagram_parse.
  destruct (IPv4Header_parse_total (NetParser_of b) (header d0) Hw) as (r & h & p & -> & Hp). cbn [bind payload].
  pose proof (size_range _ Hp) as Hsz. unfold size in Hsz.
  rewrite list_size_eq, <- concatenate_eq by (simpl; rewrite app_nil_r; unfold buffer; lia).
  destruct (Z.eqb_spec (len (concatenate (BufferList_of_Buffer (buffer p)))) (payload_length h)); cbn [negb];
    eexists _, _; (split; [done|]); done.
Qed.

(** Parsing a datagram never throws, and what it accepts has a payload of
    the length its header announces. *)
Theorem IPv4Datagram_parse_total b d0 :
  Buffer.wf b ->
  exists r d, IPv4Datagram_parse b d0 = Ok (r, d) /\
    (r = NoError -> len (concatenate (payload d)) = payload_length (header d)).
Proof. apply IPv4Datagram_parse_returns. Qed.

Lemma IPv4Datagram_parse_total_witness :
  exists r d, IPv4Datagram_parse (Buffer_of (lit "short")) IPv4Datagram_default = Ok (r, d) /\
    (r = NoError -> len (concatenate (payload d)) = payload_length (header d)).
Proof. apply (IPv4Datagram_parse_total (Buffer_of (lit "short")) IPv4Datagram_default). by apply wf_Buffer_of. Defined.

(** What [IPv4Header::parse] reports for a five-word header whose total length
    is right. *)
Definition five_word_verdict (first_byte : byte) (l : list byte) : ParseResult :=
  if negb (b2z first_byte / 16 =? 4) then WrongIPVersion
  else if negb (value (Checksum.add (ztake 20 l) (InternetChecksum_of 0)) =? 0) then BadChecksum
  else NoError.

Lemma five_word_parse first_byte tos_byte rest16 body h0 :
  b2z first_byte mod 16 = 5 -> length rest16 = 16%nat -> len body < 2 ^ 16 - 20 ->
  let l := first_byte :: tos_byte :: be 2 (20 + len body) ++ rest16 ++ body in
  exists h p, IPv4Header_parse (NetParser_of (Buffer_of l)) h0 = Ok (five_word_verdict first_byte l, h, p) /\
    reading p body /\ ver h = b2z first_byte / 16 /\ payload_length h = len body.
Proof.
  intros Hf H16 Hb l.
  assert (len l = 20 + len body) as Hlen.
  { unfold l. cbn [length]. rewrite Nat2Z.inj_succ, Nat2Z.inj_succ, !len_app, length_be. lia. }
  assert (u16 (20 + len body - 4 * 5) = len body) as Hpl by (rewrite u16_small; lia).
  unfold IPv4Header_parse, size, buffer, five_word_verdict. cbn [NetParser_of _buffer].
  rewrite str_Buffer_of, Hlen by lia. unfold LENGTH. destruct (Z.ltb_spec (20 + len body) 20); [lia|].
  assert (reading (NetParser_of (Buffer_of l)) l) as Hr.
  { split; [apply wf_Buffer_of; lia|done|apply str_Buffer_of; lia]. }
  set (ck := fun n => value (Checksum.add (ztake n l) (InternetChecksum_of 0))).
  change (value (add (ztake 20 l) (InternetChecksum_of 0))) with (ck 20).
  assert (forall n, value (Checksum.add (ztake n l) (InternetChecksum_of 0)) = ck n) as Eck by done.
  do 16 (destruct rest16 as [|? rest16]; [done|]). destruct rest16; [|done].
  unfold parse_u8, parse_u16, parse_u32. unfold l in Hr at 2. rewrite !app_comm_cons, app_assoc in Hr.
  read_raw Hr uint8_t 1%nat. read_raw Hr uint8_t 1%nat. fold (be 2 (20 + len body)) in Hr.
  match type of Hr with reading ?p (_ :: _ :: ?k) => change (reading p (be 2 (20 + len body) ++ k)) in Hr end.
  read_int Hr.
  read_raw Hr uint16_t 2%nat. read_raw Hr uint16_t 2%nat. read_raw Hr uint8_t 1%nat. read_raw Hr uint8_t 1%nat.
  read_raw Hr uint16_t 2%nat. read_raw Hr uint32_t 4%nat. read_raw Hr uint32_t 4%nat.
  cbn [take app]. change (be_val [first_byte]) with (b2z first_byte).
  change 15 with (Z.ones 4). rewrite Z.land_ones, Z.shiftr_div_pow2 by lia. change (2 ^ 4) with 16. rewrite Hf.
  destruct (Z.ltb_spec (20 + len body) (4 * 5)); [lia|].
  destruct (b2z first_byte / 16 =? 4); cbn [negb]; [|by eexists _, _].
  cbn [Z.ltb Z.compare Pos.compare Pos.compare_cont]. rewrite Z.eqb_refl. cbn [negb].
  destruct (parser_remove_prefix_reading (u64 (5 * 4 - 20)) _ [] body Hr eq_refl) as (p' & -> & Hr').
  cbn [bind]. rewrite (error_reading _ _ Hr'). rewrite Eck. change (4 * 5) with 20.
  destruct (ck 20 =? 0); cbn [negb]; by eexists _, _.
Qed.

(** [IPv4Datagram::parse] drops the result of [IPv4Header::parse]: a packet
    with a five-word header and the right total length is accepted with
    [NoError] whatever its version and its header checksum are, although
    [IPv4Header::parse] reports [WrongIPVersion] or [BadChecksum] for it. *)
Theorem bad_ipv4_accepted first_byte tos_byte rest16 body d0 :
  b2z first_byte mod 16 = 5 -> length rest16 = 16%nat -> len body < 2 ^ 16 - 20 ->
  let l := first_byte :: tos_byte :: be 2 (20 + len body) ++ rest16 ++ body in
  exists d, IPv4Datagram_parse (Buffer_of l) d0 = Ok (NoError, d) /\
    ver (header d) = b2z first_byte / 16 /\ concatenate (payload d) = body /\
    exists h p, IPv4Header_parse (NetParser_of (Buffer_of l)) (header d0) = Ok (five_word_verdict first_byte l, h, p).
Proof.
  intros Hf H16 Hb l.
  destruct (five_word_parse first_byte tos_byte rest16 body (header d0) Hf H16 Hb)
    as (h & p & E & [Hpw He Hs] & Hv & Hpl). fold l in E.
  unfold IPv4Datagram_parse. rewrite E. cbn [bind payload].
  rewrite list_size_eq, <- concatenate_eq, concatenate_of_Buffer by (simpl; rewrite app_nil_r; unfold buffer; rewrite Hs; lia).
  unfold buffer at 1. rewrite Hs, Hpl, Z.eqb_refl. cbn [negb]. unfold get_error. rewrite He.
  eexists. split_and!; [done|done|done|]. by eexists _, _.
Qed.

Lemma bad_ipv4_accepted_witness :
  let l := z2b 0x65 :: z2b 0 :: be 2 22 ++ replicate 16 Byte.x00 ++ lit "hi" in
  exists d, IPv4Datagram_parse (Buffer_of l) IPv4Datagram_default = Ok (NoError, d) /\
    ver (header d) = 6 /\ concatenate (payload d) = lit "hi" /\
    exists h p, IPv4Header_parse (NetParser_of (Buffer_of l)) (header IPv4Datagram_default) = Ok (WrongIPVersion, h, p).
Proof. apply (bad_ipv4_accepted (z2b 0x65) (z2b 0) (replicate 16 Byte.x00) (lit "hi") IPv4Datagram_default); by vm_compute. Defined.
