(* ===== verification/Ethernet.v ===== *)
(** Ethernet frames and ARP messages on the wire: [EthernetHeader],
    [EthernetFrame] and [ARPMessage] of [tcp_helpers/ethernet_header.hh/.cc],
    [ethernet_frame.hh/.cc] and [arp_message.hh/.cc].  An [EthernetAddress], an
    array of six bytes, is a list of bytes whose length is an invariant. *)
From S2P Require Import Prelude Buffer Parser.

Definition EthernetAddress := list byte.

Definition ETHERNET_BROADCAST : EthernetAddress := replicate 6 (z2b 0xff).

(** [for (auto &byte : address) byte = p.u8();] on an array of [n] bytes *)
Fixpoint parse_bytes (n : nat) (p : NetParser) : result (list byte * NetParser) :=
  match n with
  | O => Ok ([], p)
  | S n =>
      let* (b, p) := parse_u8 p in
      let* (bs, p) := parse_bytes n p in
      Ok (z2b b :: bs, p)
  end.

(** [for (auto &byte : address) NetUnparser::u8(ret, byte);] *)
Definition unparse_bytes (ret : list byte) (address : EthernetAddress) : list byte :=
  fold_left (fun ret b => unparse_u8 ret (b2z b)) address ret.

(** ** EthernetHeader *)

Record EthernetHeader := mkEthernetHeader { dst : EthernetAddress; src : EthernetAddress; type : Z }.

Definition LENGTH : Z := 14.
Definition TYPE_IPv4 : Z := 0x800.
Definition TYPE_ARP : Z := 0x806.

(** [EthernetHeader _header{}] *)
Definition EthernetHeader_default : EthernetHeader :=
  mkEthernetHeader (replicate 6 (z2b 0)) (replicate 6 (z2b 0)) 0.

Definition EthernetHeader_parse (p : NetParser) (this : EthernetHeader) :
    result (ParseResult * EthernetHeader * NetParser) :=
  if size (buffer p) <? LENGTH then Ok (PacketTooShort, this, p)
  else
    let* (dst, p) := parse_bytes 6 p in
    let* (src, p) := parse_bytes 6 p in
    let* (type, p) := parse_u16 p in
    Ok (get_error p, mkEthernetHeader dst src type, p).

Definition EthernetHeader_serialize (h : EthernetHeader) : list byte :=
  let ret := [] in
  let ret := unparse_bytes ret (dst h) in
  let ret := unparse_bytes ret (src h) in
  unparse_u16 ret (type h).

(** ** EthernetFrame *)

Record EthernetFrame := mkEthernetFrame { header : EthernetHeader; payload : BufferList }.

Definition EthernetFrame_default : EthernetFrame := mkEthernetFrame EthernetHeader_default BufferList_empty.

Definition EthernetFrame_parse (b : Buffer) (this : EthernetFrame) : result (ParseResult * EthernetFrame) :=
  let p := NetParser_of b in
  let* (_, h, p) := EthernetHeader_parse p (header this) in
  Ok (get_error p, mkEthernetFrame h (BufferList_of_Buffer (buffer p))).

Definition EthernetFrame_serialize (f : EthernetFrame) : BufferList :=
  let ret := BufferList_empty in
  let ret := append (BufferList_of_string (EthernetHeader_serialize (header f))) ret in
  append (payload f) ret.

(** ** ARPMessage *)

Record ARPMessage := mkARPMessage {
  hardware_type : Z; protocol_type : Z; hardware_address_size : Z; protocol_address_size : Z; opcode : Z;
  sender_ethernet_address : EthernetAddress; sender_ip_address : Z;
  target_ethernet_address : EthernetAddress; target_ip_address : Z }.

Definition ARP_LENGTH : Z := 28.
Definition TYPE_ETHERNET : Z := 1.
Definition OPCODE_REQUEST : Z := 1.
Definition OPCODE_REPLY : Z := 2.

Definition ARPMessage_default : ARPMessage :=
  mkARPMessage TYPE_ETHERNET TYPE_IPv4 6 4 0 (replicate 6 (z2b 0)) 0 (replicate 6 (z2b 0)) 0.

Definition supported (m : ARPMessage) : bool :=
  (hardware_type m =? TYPE_ETHERNET) && (protocol_type m =? TYPE_IPv4) &&
  (hardware_address_size m =? 6) && (protocol_address_size m =? 4) &&
  ((opcode m =? OPCODE_REQUEST) || (opcode m =? OPCODE_REPLY)).

Definition ARPMessage_parse (b : Buffer) (this : ARPMessage) : result (ParseResult * ARPMessage) :=
  let p := NetParser_of b in
  if size (buffer p) <? ARP_LENGTH then Ok (PacketTooShort, this)
  else
    let* (hardware_type, p) := parse_u16 p in
    let* (protocol_type, p) := parse_u16 p in
    let* (hardware_address_size, p) := parse_u8 p in
    let* (protocol_address_size, p) := parse_u8 p in
    let* (opcode, p) := parse_u16 p in
    let m := mkARPMessage hardware_type protocol_type hardware_address_size protocol_address_size opcode
      (sender_ethernet_address this) (sender_ip_address this)
      (target_ethernet_address this) (target_ip_address this) in
    if negb (supported m) then Ok (Unsupported, m)
    else
      let* (sender_ethernet_address, p) := parse_bytes 6 p in
      let* (sender_ip_address, p) := parse_u32 p in
      let* (target_ethernet_address, p) := parse_bytes 6 p in
      let* (target_ip_address, p) := parse_u32 p in
      Ok (get_error p, mkARPMessage hardware_type protocol_type hardware_address_size protocol_address_size opcode
        sender_ethernet_address sender_ip_address target_ethernet_address target_ip_address).

Definition ARPMessage_serialize (m : ARPMessage) : result (list byte) :=
  if negb (supported m)
  then Throw (runtime_error "ARPMessage::serialize(): unsupported field combination (must be Ethernet/IP, and request or reply)")
  else
    let ret := [] in
    let ret := unparse_u16 ret (hardware_type m) in
    let ret := unparse_u16 ret (protocol_type m) in
    let ret := unparse_u8 ret (hardware_address_size m) in
    let ret := unparse_u8 ret (protocol_address_size m) in
    let ret := unparse_u16 ret (opcode m) in
    let ret := unparse_bytes ret (sender_ethernet_address m) in
    let ret := unparse_u32 ret (sender_ip_address m) in
    let ret := unparse_bytes ret (target_ethernet_address m) in
    Ok (unparse_u32 ret (target_ip_address m)).

(** ** Addresses on the wire *)

Lemma unparse_bytes_eq ret a : unparse_bytes ret a = ret ++ a.
Proof.
  revert ret. induction a as [|b a IH]; intros ret; [by rewrite app_nil_r|].
  change (unparse_bytes ret (b :: a)) with (unparse_bytes (unparse_u8 ret (b2z b)) a). rewrite IH.
  unfold unparse_u8. rewrite unparse_int_eq. simpl. by rewrite Z.div_1_r, z2b_b2z, <- app_assoc.
Qed.

Lemma parse_bytes_reading a p k :
  reading p (a ++ k) -> exists p', parse_bytes (length a) p = Ok (a, p') /\ reading p' k.
Proof.
  revert p. induction a as [|b a IH]; intros p Hr; [by exists p|].
  cbn [parse_bytes length]. unfold parse_u8.
  destruct (parse_int_reading uint8_t p [b] (a ++ k) Hr eq_refl) as (p1 & -> & H1). cbn [bind].
  destruct (IH p1 H1) as (p2 & -> & H2). cbn [bind]. exists p2.
  change (be_val [b]) with (b2z b). by rewrite z2b_b2z.
Qed.

Lemma parse_bytes_total n p :
  Buffer.wf (_buffer p) -> exists a p', parse_bytes n p = Ok (a, p') /\ length a = n /\ Buffer.wf (_buffer p').
Proof.
  revert p. induction n as [|n IH]; intros p Hw; [by exists [], p|]. cbn [parse_bytes]. unfold parse_u8.
  read_any Hw. destruct (IH _ Hw) as (a & p' & -> & <- & Hp). cbn [bind]. by eexists _, _.
Qed.

(** Step over an address read from a parser in good order. *)
Ltac read_address H :=
  match type of H with
  | reading ?p (?a ++ ?k) =>
      let p' := fresh "p" in let E := fresh "E" in let H' := fresh "H" in
      destruct (parse_bytes_reading a p k H) as (p' & E & H');
      match goal with Hl : length a = _ |- _ => rewrite Hl in E end;
      rewrite E; cbn [bind]; clear E H; rename H' into H
  end.

(** ** Frames *)

Record wf_header (h : EthernetHeader) : Prop := {
  wf_dst : length (dst h) = 6%nat;
  wf_src : length (src h) = 6%nat;
  wf_type : 0 <= type h < 2 ^ 16 }.

Lemma EthernetHeader_serialize_eq h : EthernetHeader_serialize h = dst h ++ src h ++ be 2 (type h).
Proof.
  unfold EthernetHeader_serialize, unparse_u16. rewrite unparse_int_eq, !unparse_bytes_eq. simpl.
  by rewrite <- app_assoc.
Qed.

Lemma EthernetHeader_parse_eq h p k h0 :
  wf_header h -> reading p ((dst h ++ src h ++ be 2 (type h)) ++ k) ->
  exists p', EthernetHeader_parse p h0 = Ok (NoError, h, p') /\ reading p' k.
Proof.
  intros [Hd Hs Ht] Hr. unfold EthernetHeader_parse, size, buffer. rewrite (reading_str _ _ Hr).
  rewrite !len_app, length_be, Hd, Hs. unfold LENGTH.
  destruct (Z.ltb_spec (Z.of_nat 6 + (Z.of_nat 6 + Z.of_nat 2) + len k) 14); [lia|].
  rewrite <- !app_assoc in Hr. do 2 read_address Hr. unfold parse_u16. read_int Hr.
  eexists. split; [|exact Hr]. unfold get_error. rewrite (reading_error _ _ Hr). by destruct h.
Qed.

(** A frame read back from its bytes has its payload in one buffer. *)
Lemma EthernetFrame_parse_serialize f f0 :
  wf_header (header f) -> len (concatenate (payload f)) < 2 ^ 63 ->
  exists b, EthernetFrame_parse (Buffer_of (concatenate (EthernetFrame_serialize f))) f0 =
      Ok (NoError, mkEthernetFrame (header f) (BufferList_of_Buffer b)) /\
    Buffer.wf b /\ str b = concatenate (payload f).
Proof.
  intros Hw Hlen. pose proof Hw as [Hd Hs Ht].
  assert (len (dst (header f) ++ src (header f) ++ be 2 (type (header f))) = 14) as Hl.
  { rewrite !len_app, length_be, Hd, Hs. done. }
  unfold EthernetFrame_serialize, EthernetFrame_parse.
  rewrite 2!concatenate_append, EthernetHeader_serialize_eq, concatenate_of_string by lia. cbn [concatenate BufferList_empty fold_left _buffers app].
  set (l := (dst (header f) ++ src (header f) ++ be 2 (type (header f))) ++ concatenate (payload f)).
  assert (len l < 2 ^ 64) by (unfold l; rewrite len_app; lia).
  destruct (EthernetHeader_parse_eq (header f) (NetParser_of (Buffer_of l)) (concatenate (payload f)) (header f0) Hw)
    as (p & -> & [Hp He Hpl]).
  { split; [by apply wf_Buffer_of|done|by apply str_Buffer_of]. }
  cbn [bind]. unfold get_error. rewrite He. by eexists.
Qed.

(** Ethernet frame round trip: the bytes of a serialized frame parse back to
    the same header and payload. *)
Theorem EthernetFrame_roundtrip f f0 :
  wf_header (header f) -> len (concatenate (payload f)) < 2 ^ 63 ->
  exists pl, EthernetFrame_parse (Buffer_of (concatenate (EthernetFrame_serialize f))) f0 =
      Ok (NoError, mkEthernetFrame (header f) pl) /\
    concatenate pl = concatenate (payload f).
Proof.
  intros Hw Hl. destruct (EthernetFrame_parse_serialize f f0 Hw Hl) as (b & E & _ & Hb).
  eexists. split; [exact E|]. by rewrite concatenate_of_Buffer.
Qed.

Definition example_frame : EthernetFrame :=
  mkEthernetFrame (mkEthernetHeader ETHERNET_BROADCAST (lit "abcdef") TYPE_ARP) (BufferList_of_string (lit "who has?")).

Lemma EthernetFrame_roundtrip_witness :
  exists pl, EthernetFrame_parse (Buffer_of (concatenate (EthernetFrame_serialize example_frame))) EthernetFrame_default =
      Ok (NoError, mkEthernetFrame (header example_frame) pl) /\ concatenate pl = lit "who has?".
Proof.
  apply (EthernetFrame_roundtrip example_frame EthernetFrame_default); [|by vm_compute].
  by split; vm_compute.
Defined.

(** [EthernetFrame::parse] drops the result of [EthernetHeader::parse]: a
    frame too short for an Ethernet header is accepted with [NoError], its
    header is the one the object had before and its payload the whole input. *)
Theorem runt_frame_accepted l f0 :
  len l < LENGTH ->
  exists pl p, EthernetFrame_parse (Buffer_of l) f0 = Ok (NoError, mkEthernetFrame (header f0) pl) /\
    concatenate pl = l /\
    EthernetHeader_parse (NetParser_of (Buffer_of l)) (header f0) = Ok (PacketTooShort, header f0, p).
Proof.
  unfold LENGTH. intros Hl. unfold EthernetFrame_parse.
  assert (EthernetHeader_parse (NetParser_of (Buffer_of l)) (header f0) =
    Ok (PacketTooShort, header f0, NetParser_of (Buffer_of l))) as E.
  { unfold EthernetHeader_parse, size, LENGTH. cbn [buffer NetParser_of _buffer].
    rewrite str_Buffer_of by lia. by destruct (Z.ltb_spec (len l) 14); [|lia]. }
  rewrite E. cbn [bind]. eexists _, _. split; [done|]. split; [|done].
  rewrite concatenate_of_Buffer. apply str_Buffer_of. lia.
Qed.

Lemma runt_frame_accepted_witness :
  exists pl p, EthernetFrame_parse (Buffer_of (lit "runt")) EthernetFrame_default = Ok (NoError, mkEthernetFrame EthernetHeader_default pl) /\
    concatenate pl = lit "runt" /\
    EthernetHeader_parse (NetParser_of (Buffer_of (lit "runt"))) EthernetHeader_default = Ok (PacketTooShort, EthernetHeader_default, p).
Proof. by apply (runt_frame_accepted (lit "runt") EthernetFrame_default). Defined.

(** ** ARP messages *)

Record wf_message (m : ARPMessage) : Prop := {
  wf_supported : supported m = true;
  wf_sender : length (sender_ethernet_address m) = 6%nat;
  wf_sender_ip : 0 <= sender_ip_address m < 2 ^ 32;
  wf_target : length (target_ethernet_address m) = 6%nat;
  wf_target_ip : 0 <= target_ip_address m < 2 ^ 32 }.

Lemma supported_inv m : supported m = true ->
  hardware_type m = 1 /\ protocol_type m = 0x800 /\ hardware_address_size m = 6 /\ protocol_address_size m = 4 /\
  (opcode m = 1 \/ opcode m = 2).
Proof.
  unfold supported, TYPE_ETHERNET, TYPE_IPv4, OPCODE_REQUEST, OPCODE_REPLY. intros H.
  rewrite !andb_true_iff, orb_true_iff, !Z.eqb_eq in H. tauto.
Qed.

Lemma ARPMessage_parse_serialize m m0 :
  wf_message m ->
  exists s, ARPMessage_serialize m = Ok s /\ len s = ARP_LENGTH /\
    forall b, Buffer.wf b -> str b = s -> ARPMessage_parse b m0 = Ok (NoError, m).
Proof.
  intros [Hsup Hs Hsi Ht Hti]. unfold ARPMessage_serialize. rewrite Hsup. cbn [negb].
  unfold unparse_u8, unparse_u16, unparse_u32. rewrite !unparse_bytes_eq, !unparse_int_eq. cbn [sizeof].
  rewrite app_nil_l, <- !app_assoc. eexists. split; [done|].
  set (l := be 2 _ ++ _). assert (len l = 28) as Hl.
  { unfold l. rewrite !len_app, !length_be, Hs, Ht. done. }
  split; [done|]. intros b Hb Es. unfold ARPMessage_parse, size, ARP_LENGTH. cbn [buffer NetParser_of _buffer].
  rewrite Es, Hl. cbn [Z.ltb Z.compare Pos.compare Pos.compare_cont].
  assert (reading (NetParser_of b) l) as Hr by (by split).
  unfold l in Hr. destruct (supported_inv m Hsup) as (? & ? & ? & ? & ?).
  unfold parse_u8, parse_u16, parse_u32. do 5 read_int Hr.
  match goal with |- context [supported ?x] => change (supported x) with (supported m) end. rewrite Hsup. cbn [negb].
  read_address Hr. read_int Hr. read_address Hr. rewrite <- (app_nil_r (be 4 _)) in Hr. read_int Hr.
  unfold get_error. rewrite (reading_error _ _ Hr). by destruct m.
Qed.

(** ARP round trip: a supported message with six-byte Ethernet addresses and
    32-bit IP addresses serializes to 28 bytes that parse back to it. *)
Theorem ARPMessage_roundtrip m m0 :
  wf_message m ->
  exists s, ARPMessage_serialize m = Ok s /\ len s = ARP_LENGTH /\
    ARPMessage_parse (Buffer_of s) m0 = Ok (NoError, m).
Proof.
  intros Hm. destruct (ARPMessage_parse_serialize m m0 Hm) as (s & E & Hl & Hp). exists s. split_and!; [done|done|].
  apply Hp; [apply wf_Buffer_of|apply str_Buffer_of]; unfold ARP_LENGTH in Hl; lia.
Qed.

Definition example_arp : ARPMessage :=
  mkARPMessage TYPE_ETHERNET TYPE_IPv4 6 4 OPCODE_REPLY (lit "abcdef") 0x0a000001 (lit "uvwxyz") 0x0a000002.

Lemma ARPMessage_roundtrip_witness :
  exists s, ARPMessage_serialize example_arp = Ok s /\ len s = ARP_LENGTH /\
    ARPMessage_parse (Buffer_of s) ARPMessage_default = Ok (NoError, example_arp).
Proof. apply (ARPMessage_roundtrip example_arp ARPMessage_default). by split; vm_compute. Defined.

(** Parsing a message never throws, and an accepted one is well formed. *)
Lemma ARPMessage_parse_total b m0 :
  Buffer.wf b -> exists r m, ARPMessage_parse b m0 = Ok (r, m) /\ (r = NoError -> wf_message m).
Proof.
  intros Hw. unfold ARPMessage_parse, parse_u8, parse_u16, parse_u32.
  destruct (_ <? ARP_LENGTH); [by eexists _, _|].
  assert (Buffer.wf (_buffer (NetParser_of b))) as Hp by done. do 5 read_any Hp.
  destruct (supported _) eqn:Hsup; cbn [negb]; [|by eexists _, _].
  destruct (parse_bytes_total 6 _ Hp) as (a1 & q1 & -> & Ha1 & Hp1). cbn [bind]. read_any Hp1.
  destruct (parse_bytes_total 6 _ Hp1) as (a2 & q2 & -> & Ha2 & Hp3). cbn [bind]. read_any Hp3.
  eexists _, _. split; [done|]. intros _. split; simpl; [|done|lia|done|lia]. done.
Qed.
