(* ===== verification/Address.v ===== *)
(** Socket addresses: [Address] of [libsponge/util/address.hh] and [address.cc].

    The storage is kept as the bytes of a [sockaddr_storage] with the layout of
    64-bit Linux on a little-endian machine: 128 bytes, the family in the first
    two (low byte first), the port in the next two and the IPv4 address in the
    four after those (both high byte first).  The resolver, [getaddrinfo] and
    [getnameinfo], is a parameter. *)
From S2P Require Import Prelude Text Parser.

Definition sizeof_sockaddr_storage : Z := 128.
Definition sizeof_sockaddr_in : Z := 16.
Definition AF_INET : Z := 2.
Definition AI_NUMERICHOST : Z := 0x4.
Definition AI_ALL : Z := 0x10.
Definition AI_NUMERICSERV : Z := 0x400.

Record Address := mkAddress { _size : Z; storage : list byte }.

Definition zeros (n : Z) : list byte := replicate (Z.to_nat n) (z2b 0).

(** The constructor from a [sockaddr *]: [addr] is the memory it points to. *)
Definition Address_of_sockaddr (addr : list byte) (size : Z) : result Address :=
  if sizeof_sockaddr_storage <? size then Throw (runtime_error "invalid sockaddr size")
  else
    let bytes := ztake size addr in
    Ok (mkAddress (u32 size) (bytes ++ zeros (sizeof_sockaddr_storage - len bytes))).

(** The members of a [sockaddr_in] read from the storage. *)
Definition ss_family (a : Address) : Z := be_val (rev (slice 0 2 (storage a))).
Definition s_addr (bytes : list byte) : list byte := slice 4 4 bytes.

Definition ipv4_numeric (a : Address) : result Z :=
  if negb (ss_family a =? AF_INET) || negb (_size a =? sizeof_sockaddr_in)
  then Throw (runtime_error "ipv4_numeric called on non-IPV4 address")
  else Ok (be_val (s_addr (ztake (_size a) (storage a)))).

Definition sockaddr_in (port ip_address : Z) : list byte :=
  rev (be 2 AF_INET) ++ be 2 port ++ be 4 ip_address ++ zeros 8.

Definition from_ipv4_numeric (ip_address : Z) : result Address :=
  Address_of_sockaddr (sockaddr_in 0 ip_address) sizeof_sockaddr_in.

(** [operator==] *)
Definition Address_eq (a b : Address) : bool :=
  if negb (_size a =? _size b) then false
  else bool_decide (ztake (_size a) (storage a) = ztake (_size a) (storage b)).

(** ** The resolver *)

Record addrinfo := mkAddrinfo { ai_flags : Z; ai_family : Z }.

Definition make_hints (flags family : Z) : addrinfo := mkAddrinfo flags family.

Section resolver.
(** [getaddrinfo]: the error code, and the address of the first entry with its
    length ([None] for a null list).  [getnameinfo] with
    [NI_NUMERICHOST | NI_NUMERICSERV]: the error code, the host and the port. *)
Context (getaddrinfo : list byte -> list byte -> addrinfo -> Z * option (list byte * Z))
  (getnameinfo : list byte -> Z -> Z * list byte * list byte).

Definition Address_resolve (node service : list byte) (hints : addrinfo) : result Address :=
  let '(gai_ret, resolved_address) := getaddrinfo node service hints in
  if negb (gai_ret =? 0)
  then Throw (tagged_error "gai_error_category" (lit "getaddrinfo(" ++ node ++ lit ", " ++ service ++ lit ")") gai_ret)
  else
    match resolved_address with
    | None => Throw (runtime_error "getaddrinfo returned successfully but with no results")
    | Some (ai_addr, ai_addrlen) => Address_of_sockaddr ai_addr ai_addrlen
    end.

Definition Address_of_host (hostname service : list byte) : result Address :=
  Address_resolve hostname service (make_hints AI_ALL AF_INET).

Definition Address_of_ip (ip : list byte) (port : Z) : result Address :=
  Address_resolve ip (to_string port) (make_hints (Z.lor AI_NUMERICHOST AI_NUMERICSERV) AF_INET).

Definition ip_port (a : Address) : result (list byte * Z) :=
  let '(gni_ret, ip, port) := getnameinfo (storage a) (_size a) in
  if negb (gni_ret =? 0) then Throw (tagged_error "gai_error_category" (lit "getnameinfo") gni_ret)
  else let* p := stoi port in Ok (ip, u16 p).

Definition ip (a : Address) : result (list byte) := let* (i, _) := ip_port a in Ok i.
Definition port (a : Address) : result Z := let* (_, p) := ip_port a in Ok p.

Definition Address_to_string (a : Address) : result (list byte) :=
  let* (i, p) := ip_port a in Ok (i ++ lit ":" ++ to_string p).

(** A port printed for the resolver comes back unchanged when the resolver
    gives the text of the port back. *)
Lemma ip_port_numeric a host p :
  0 <= p < 2 ^ 16 -> getnameinfo (storage a) (_size a) = (0, host, to_string p) -> ip_port a = Ok (host, p).
Proof.
  intros Hp E. unfold ip_port. rewrite E. cbn [Z.eqb negb]. rewrite stoi_to_string by lia. cbn [bind].
  by rewrite u16_small.
Qed.
End resolver.

(** ** IPv4 addresses *)

Definition wf_address (a : Address) : Prop := len (storage a) = sizeof_sockaddr_storage /\ 0 <= _size a <= sizeof_sockaddr_storage.

Lemma Address_of_sockaddr_wf addr size a :
  0 <= size <= len addr -> Address_of_sockaddr addr size = Ok a -> wf_address a.
Proof.
  unfold Address_of_sockaddr, sizeof_sockaddr_storage. intros Hs. destruct (Z.ltb_spec 128 size); [done|].
  intros [= <-]. unfold wf_address, sizeof_sockaddr_storage. simpl. rewrite u32_small by lia. split; [|lia].
  unfold zeros. rewrite len_app, length_replicate, len_ztake by lia. lia.
Qed.

(** The IPv4 address and port a program works with, and the address without a
    port that [from_ipv4_numeric] makes. *)
Definition endpoint (ip_address port : Z) : Address :=
  mkAddress sizeof_sockaddr_in (sockaddr_in port ip_address ++ zeros 112).
Definition ipv4 (ip_address : Z) : Address := endpoint ip_address 0.

Lemma len_sockaddr_in p i : len (sockaddr_in p i) = 16.
Proof. unfold sockaddr_in. by rewrite !len_app, length_rev, !length_be. Qed.

Lemma ztake_sockaddr_in p i k : ztake sizeof_sockaddr_in (sockaddr_in p i ++ k) = sockaddr_in p i.
Proof. rewrite <- (ztake_app_exact (sockaddr_in p i) k) at 2. by rewrite len_sockaddr_in. Qed.

Lemma from_ipv4_numeric_eq i : from_ipv4_numeric i = Ok (ipv4 i).
Proof.
  unfold from_ipv4_numeric, Address_of_sockaddr, sizeof_sockaddr_in, sizeof_sockaddr_storage.
  cbn [Z.ltb Z.compare Pos.compare Pos.compare_cont]. rewrite ztake_all by (rewrite len_sockaddr_in; lia).
  by rewrite len_sockaddr_in.
Qed.

Lemma ipv4_numeric_endpoint i p : 0 <= i < 2 ^ 32 -> ipv4_numeric (endpoint i p) = Ok i.
Proof.
  intros Hi. unfold ipv4_numeric, endpoint. cbn [_size storage]. rewrite ztake_sockaddr_in.
  change (ss_family _) with 2. cbn [AF_INET Z.eqb Pos.eqb sizeof_sockaddr_in negb orb].
  f_equal. change (s_addr (sockaddr_in p i)) with (be 4 i). by apply be_val_be.
Qed.

Lemma ipv4_numeric_ipv4 i : 0 <= i < 2 ^ 32 -> ipv4_numeric (ipv4 i) = Ok i.
Proof. apply ipv4_numeric_endpoint. Qed.

(** The numeric conversions are inverse to each other: an address made from a
    number gives the number back, and no other number makes an equal address. *)
Lemma ipv4_numeric_roundtrip i j :
  0 <= i < 2 ^ 32 -> 0 <= j < 2 ^ 32 ->
  exists a b, from_ipv4_numeric i = Ok a /\ from_ipv4_numeric j = Ok b /\ ipv4_numeric a = Ok i /\
    (Address_eq a b = true <-> i = j).
Proof.
  intros Hi Hj. exists (ipv4 i), (ipv4 j). rewrite !from_ipv4_numeric_eq, ipv4_numeric_ipv4 by done. split_and!; try done.
  unfold Address_eq. cbn [ipv4 endpoint _size storage]. rewrite Z.eqb_refl, !ztake_sockaddr_in. cbn [negb].
  rewrite bool_decide_eq_true. split; [|by intros ->]. unfold sockaddr_in. intros E.
  apply app_inv_head, app_inv_head, app_inv_tail in E. rewrite <- (be_val_be 4 i), <- (be_val_be 4 j) by done. by rewrite E.
Qed.

Lemma Address_eq_refl a : Address_eq a a = true.
Proof. unfold Address_eq. rewrite Z.eqb_refl. cbn [negb]. by apply bool_decide_true. Qed.

(** ** Dotted quads *)

(** [inet_ntoa({htobe32(ip)})] *)
Definition inet_ntoa (ip_address : Z) : list byte :=
  match map (fun b => to_string (b2z b)) (be 4 ip_address) with
  | [a; b; c; d] => a ++ lit "." ++ b ++ lit "." ++ c ++ lit "." ++ d
  | _ => []
  end.

(** What the programs rely on of the resolver: with numeric hints it turns a
    dotted quad and a decimal port into an IPv4 socket address and back. *)
Class NumericResolver (getaddrinfo : list byte -> list byte -> addrinfo -> Z * option (list byte * Z))
    (getnameinfo : list byte -> Z -> Z * list byte * list byte) : Prop := {
  numeric_getaddrinfo i p : 0 <= i < 2 ^ 32 -> 0 <= p < 2 ^ 16 ->
    getaddrinfo (inet_ntoa i) (to_string p) (make_hints (Z.lor AI_NUMERICHOST AI_NUMERICSERV) AF_INET) =
      (0, Some (sockaddr_in p i, sizeof_sockaddr_in));
  numeric_host i p : 0 <= i < 2 ^ 32 -> 0 <= p < 2 ^ 16 ->
    getaddrinfo (inet_ntoa i) (to_string p) (make_hints AI_ALL AF_INET) = (0, Some (sockaddr_in p i, sizeof_sockaddr_in));
  numeric_getnameinfo i p : 0 <= i < 2 ^ 32 -> 0 <= p < 2 ^ 16 ->
    getnameinfo (storage (endpoint i p)) sizeof_sockaddr_in = (0, inet_ntoa i, to_string p) }.

Section numeric.
Context `{NumericResolver getaddrinfo getnameinfo}.

Lemma Address_of_sockaddr_in i p : Address_of_sockaddr (sockaddr_in p i) sizeof_sockaddr_in = Ok (endpoint i p).
Proof.
  unfold Address_of_sockaddr, sizeof_sockaddr_in, sizeof_sockaddr_storage.
  cbn [Z.ltb Z.compare Pos.compare Pos.compare_cont]. rewrite ztake_all by (rewrite len_sockaddr_in; lia).
  by rewrite len_sockaddr_in.
Qed.

Lemma Address_of_ip_endpoint i p : 0 <= i < 2 ^ 32 -> 0 <= p < 2 ^ 16 ->
  Address_of_ip getaddrinfo (inet_ntoa i) p = Ok (endpoint i p).
Proof.
  intros Hi Hp. unfold Address_of_ip, Address_resolve. rewrite numeric_getaddrinfo by done. apply Address_of_sockaddr_in.
Qed.

Lemma Address_of_host_endpoint i p : 0 <= i < 2 ^ 32 -> 0 <= p < 2 ^ 16 ->
  Address_of_host getaddrinfo (inet_ntoa i) (to_string p) = Ok (endpoint i p).
Proof.
  intros Hi Hp. unfold Address_of_host, Address_resolve. rewrite numeric_host by done. apply Address_of_sockaddr_in.
Qed.

Lemma ip_port_endpoint i p : 0 <= i < 2 ^ 32 -> 0 <= p < 2 ^ 16 -> ip_port getnameinfo (endpoint i p) = Ok (inet_ntoa i, p).
Proof. intros Hi Hp. apply ip_port_numeric; [done|]. by apply numeric_getnameinfo. Qed.

Lemma port_endpoint i p : 0 <= i < 2 ^ 32 -> 0 <= p < 2 ^ 16 -> port getnameinfo (endpoint i p) = Ok p.
Proof. intros Hi Hp. unfold port. by rewrite ip_port_endpoint. Qed.
End numeric.
