(* ===== verification/Resolver.v ===== *)
(** A resolver for dotted quads: an instance of [NumericResolver], to which the
    statements about numeric addresses can be applied. *)
From S2P Require Import Prelude Text Parser Address.

(** The pieces of a text between the dots. *)
Fixpoint pieces (s : list byte) (current : list byte) : list (list byte) :=
  match s with
  | [] => [current]
  | b :: s => if b2z b =? 46 then current :: pieces s [] else pieces s (current ++ [b])
  end.

(** A dotted quad, or the whole address as one number. *)
Definition quad (s : list byte) : option Z :=
  match map stoi (pieces s []) with
  | [Ok a; Ok b; Ok c; Ok d] => Some (be_val (map z2b [a; b; c; d]))
  | [Ok a] => Some (u32 a)
  | _ => None
  end.

Definition EAI_NONAME : Z := -2.

Definition resolve_numeric (node service : list byte) (hints : addrinfo) : Z * option (list byte * Z) :=
  match quad node, stoi service with
  | Some i, Ok p => (0, Some (sockaddr_in p i, sizeof_sockaddr_in))
  | _, _ => (EAI_NONAME, None)
  end.

Definition name_numeric (st : list byte) (size : Z) : Z * list byte * list byte :=
  (0, inet_ntoa (be_val (slice 4 4 st)), to_string (be_val (slice 2 2 st))).

(** ** It is one *)

Lemma decimal_digits fuel n acc :
  0 <= n -> Forall (fun b => is_digit b = true) acc -> Forall (fun b => is_digit b = true) (decimal fuel n acc).
Proof.
  revert n acc. induction fuel as [|fuel IH]; intros n acc Hn Hacc; [done|]. cbn [decimal].
  destruct (Z.ltb_spec n 10).
  - apply Forall_cons_2; [by apply is_digit_digit|done].
  - apply IH; [apply Z.div_pos; lia|]. apply Forall_cons_2; [|done]. apply is_digit_digit. by apply Z.mod_pos_bound.
Qed.

Lemma to_string_digits n : 0 <= n -> Forall (fun b => is_digit b = true) (to_string n).
Proof.
  intros Hn. unfold to_string. destruct (Z.ltb_spec n 0); [lia|]. apply decimal_digits; [lia|by apply Forall_nil].
Qed.

Lemma pieces_digits l k cur :
  Forall (fun b => is_digit b = true) l -> pieces (l ++ k) cur = pieces k (cur ++ l).
Proof.
  intros Hl. revert cur. induction Hl as [|b l Hb _ IH]; intros cur; [by rewrite app_nil_r|]. cbn [app pieces].
  unfold is_digit in Hb. apply andb_true_iff in Hb as [Hb _]. apply Z.leb_le in Hb.
  destruct (Z.eqb_spec (b2z b) 46); [lia|]. rewrite IH. by rewrite <- app_assoc.
Qed.

Lemma pieces_dot s cur : pieces (lit "." ++ s) cur = cur :: pieces s [].
Proof. done. Qed.

Lemma quad_inet_ntoa i : 0 <= i < 2 ^ 32 -> quad (inet_ntoa i) = Some i.
Proof.
  intros Hi. unfold inet_ntoa. pose proof (length_be 4 i) as Hl. pose proof (be_val_be 4 i Hi) as Hv.
  destruct (be 4 i) as [|a [|b [|c [|d [|e l]]]]]; try done. cbn [map]. unfold quad.
  assert (forall x, Forall (fun b => is_digit b = true) (to_string (b2z x))) as Hd
    by (intros x; apply to_string_digits; pose proof (b2z_range x); lia).
  assert (forall x, stoi (to_string (b2z x)) = Ok (b2z x)) as Hs
    by (intros x; apply stoi_to_string; pose proof (b2z_range x); lia).
  do 3 (rewrite pieces_digits by apply Hd; rewrite pieces_dot).
  rewrite <- (app_nil_r (to_string (b2z d))), pieces_digits by apply Hd. cbn [pieces app map].
  rewrite !Hs. cbn [map]. rewrite !z2b_b2z. by rewrite Hv.
Qed.

#[export] Instance numeric_resolver : NumericResolver resolve_numeric name_numeric.
Proof.
  split; intros i p Hi Hp.
  - unfold resolve_numeric. rewrite quad_inet_ntoa by done. rewrite stoi_to_string by lia. done.
  - unfold resolve_numeric. rewrite quad_inet_ntoa by done. rewrite stoi_to_string by lia. done.
  - unfold name_numeric.
    change (slice 4 4 (storage (endpoint i p))) with (be 4 i). change (slice 2 2 (storage (endpoint i p))) with (be 2 p).
    by rewrite !be_val_be.
Qed.
