(* ===== verification/Texts.v ===== *)
(** Packets and bytes as text for the reader: [to_string] and [summary] of the
    headers ([tcp_helpers/tcp_header.cc], [ipv4_header.cc], [ethernet_header.cc],
    [arp_message.cc]), and [hexdump] of [util/util.cc].  A function gives the
    characters it puts into its stream. *)
From S2P Require Import Prelude Text WrappingIntegers Buffer Parser TCPSegment IPv4 Ethernet Address Resolver.

(** [<<] with [boolalpha] *)
Definition boolalpha (b : bool) : list byte := if b then lit "true" else lit "false".

Definition newline : byte := z2b 10.
Definition space : byte := z2b 32.

(** ** TCP headers *)

(** [operator<<] of [WrappingInt32], on a decimal and on a hexadecimal stream *)
Definition put_wrapping (put : Z -> list byte) (a : WrappingInt32) : list byte := put (raw_value a).

Definition TCPHeader_to_string (h : TCPHeader) : list byte :=
  lit "TCP source port: " ++ to_hex (sport h) ++ [newline] ++
  lit "TCP dest port: " ++ to_hex (dport h) ++ [newline] ++
  lit "TCP seqno: " ++ put_wrapping to_hex (seqno h) ++ [newline] ++
  lit "TCP ackno: " ++ put_wrapping to_hex (ackno h) ++ [newline] ++
  lit "TCP doff: " ++ to_hex (doff h) ++ [newline] ++
  lit "Flags: urg: " ++ boolalpha (urg h) ++ lit " ack: " ++ boolalpha (ack h) ++ lit " psh: " ++ boolalpha (psh h) ++
  lit " rst: " ++ boolalpha (rst h) ++ lit " syn: " ++ boolalpha (syn h) ++ lit " fin: " ++ boolalpha (fin h) ++ [newline] ++
  lit "TCP winsize: " ++ to_hex (win h) ++ [newline] ++
  lit "TCP cksum: " ++ to_hex (TCPSegment.cksum h) ++ [newline] ++
  lit "TCP uptr: " ++ to_hex (uptr h) ++ [newline].

Definition TCPHeader_summary (h : TCPHeader) : list byte :=
  lit "Header(flags=" ++ (if syn h then lit "S" else []) ++ (if ack h then lit "A" else []) ++
  (if rst h then lit "R" else []) ++ (if fin h then lit "F" else []) ++
  lit ",seqno=" ++ put_wrapping to_string (seqno h) ++ lit ",ack=" ++ put_wrapping to_string (ackno h) ++
  lit ",win=" ++ to_string (win h) ++ lit ")".

(** ** IPv4 headers *)

Definition IPv4Header_to_string (h : IPv4Header) : list byte :=
  lit "IP version: " ++ to_hex (ver h) ++ [newline] ++
  lit "IP hdr len: " ++ to_hex (hlen h) ++ [newline] ++
  lit "IP tos: " ++ to_hex (tos h) ++ [newline] ++
  lit "IP dgram len: " ++ to_hex (tot_len h) ++ [newline] ++
  lit "IP id: " ++ to_hex (ident h) ++ [newline] ++
  lit "Flags: df: " ++ boolalpha (df h) ++ lit " mf: " ++ boolalpha (mf h) ++ [newline] ++
  lit "Offset: " ++ to_hex (offset h) ++ [newline] ++
  lit "TTL: " ++ to_hex (ttl h) ++ [newline] ++
  lit "Protocol: " ++ to_hex (proto h) ++ [newline] ++
  lit "Checksum: " ++ to_hex (IPv4.cksum h) ++ [newline] ++
  lit "Src addr: " ++ to_hex (IPv4.src h) ++ [newline] ++
  lit "Dst addr: " ++ to_hex (IPv4.dst h) ++ [newline].

Definition IPv4Header_summary (h : IPv4Header) : list byte :=
  lit "IPv" ++ to_hex (ver h) ++ lit ", " ++ lit "len=" ++ to_hex (tot_len h) ++ lit ", " ++
  lit "protocol=" ++ to_hex (proto h) ++ lit ", " ++
  (if 10 <=? ttl h then [] else lit "ttl=" ++ to_string (ttl h) ++ lit ", ") ++
  lit "src=" ++ inet_ntoa (IPv4.src h) ++ lit ", " ++ lit "dst=" ++ inet_ntoa (IPv4.dst h).

(** ** Ethernet and ARP *)

Fixpoint EthernetAddress_to_string (address : EthernetAddress) : list byte :=
  match address with
  | [] => []
  | [b] => pad (z2b 48) 2 (to_hex (b2z b))
  | b :: address => pad (z2b 48) 2 (to_hex (b2z b)) ++ lit ":" ++ EthernetAddress_to_string address
  end.

Definition EthernetHeader_to_string (h : EthernetHeader) : list byte :=
  lit "dst=" ++ EthernetAddress_to_string (dst h) ++ lit ", src=" ++ EthernetAddress_to_string (src h) ++ lit ", type=" ++
  (if type h =? TYPE_IPv4 then lit "IPv4" else if type h =? TYPE_ARP then lit "ARP"
   else lit "[unknown type " ++ to_hex (type h) ++ lit "!]").

Definition ARPMessage_to_string (m : ARPMessage) : list byte :=
  let opcode_str := lit "(unknown type)" in
  let opcode_str := if opcode m =? OPCODE_REQUEST then lit "REQUEST" else opcode_str in
  let opcode_str := if opcode m =? OPCODE_REPLY then lit "REPLY" else opcode_str in
  lit "opcode=" ++ opcode_str ++ lit ", sender=" ++ EthernetAddress_to_string (sender_ethernet_address m) ++ lit "/" ++
  inet_ntoa (sender_ip_address m) ++ lit ", target=" ++ EthernetAddress_to_string (target_ethernet_address m) ++ lit "/" ++
  inet_ntoa (target_ip_address m).

(** ** hexdump *)

(** A [stringstream]: its characters, and where the next one is put.  One that is
    made from a string, or given one with [str], starts at its front. *)
Record stringstream := mkStringstream { ss_str : list byte; ss_pos : nat }.
Definition stringstream_of (s : list byte) : stringstream := mkStringstream s 0.
Definition ss_put (c : byte) (ss : stringstream) : stringstream :=
  mkStringstream (take (ss_pos ss) (ss_str ss) ++ [c] ++ drop (S (ss_pos ss)) (ss_str ss)) (S (ss_pos ss)).

(** [isprint] of the C locale *)
Definition isprint (b : byte) : bool := (32 <=? b2z b) && (b2z b <=? 126).

(** One turn of the loop: what is put to [cout], and the variables after it. *)
Definition hexdump_turn (indent_string : list byte) (b : byte) (printed : Z) (pchars : stringstream) :
    list byte * (Z * stringstream) :=
  let '(front, pchars) :=
    if Z.land printed 0xf =? 0 then
      let '(end_of_line, pchars) :=
        if negb (printed =? 0) then (lit "    " ++ ss_str pchars ++ [newline], stringstream_of (lit " ")) else ([], pchars) in
      (end_of_line ++ indent_string ++ pad (z2b 48) 8 (to_hex printed) ++ lit ":    ", pchars)
    else if Z.land printed 1 =? 0 then ([space], pchars)
    else ([], pchars) in
  (front ++ pad (z2b 48) 2 (to_hex (b2z b)), (printed + 1, ss_put (if isprint b then b else z2b 46) pchars)).

Fixpoint hexdump_loop (indent_string data : list byte) (printed : Z) (pchars : stringstream) : list byte * (Z * stringstream) :=
  match data with
  | [] => ([], (printed, pchars))
  | b :: data =>
      let '(out, (printed, pchars)) := hexdump_turn indent_string b printed pchars in
      let '(rest, final) := hexdump_loop indent_string data printed pchars in
      (out ++ rest, final)
  end.

(** The flags of [cout] are restored at the end. *)
Definition hexdump (data : list byte) (indent : Z) : list byte :=
  let indent_string := replicate (Z.to_nat indent) space in
  let '(out, (printed, pchars)) := hexdump_loop indent_string data 0 (stringstream_of (lit " ")) in
  let print_rem := (16 - Z.land printed 0xf) mod 16 in
  out ++ replicate (Z.to_nat (2 * print_rem + print_rem / 2 + 4)) space ++ ss_str pchars ++ [newline; newline].

(** ** Reading a dump *)

Fixpoint skip_line (s : list byte) : list byte :=
  match s with
  | [] => []
  | b :: s => if b2z b =? 10 then s else skip_line s
  end.

Definition read_byte (s : list byte) : option (byte * list byte) :=
  match s with
  | h :: l :: s =>
      match of_hex_digit h, of_hex_digit l with
      | Some h, Some l => Some (z2b (16 * h + l), s)
      | _, _ => None
      end
  | _ => None
  end.

(** What is left in front of byte number [p]: at the start of a line also the rest of
    the line before it, the indentation and the position. *)
Definition skip_to_byte (indent : nat) (p : Z) (s : list byte) : list byte :=
  if Z.land p 0xf =? 0 then drop (indent + 13) (if p =? 0 then s else skip_line s)
  else if Z.land p 1 =? 0 then drop 1 s
  else s.

(** The bytes from number [p] on. *)
Fixpoint undump (fuel : nat) (indent : nat) (p : Z) (s : list byte) : list byte :=
  match fuel with
  | O => []
  | S fuel =>
      match read_byte (skip_to_byte indent p s) with
      | Some (b, s) => b :: undump fuel indent (p + 1) s
      | None => []
      end
  end.

Lemma read_byte_eq b s : read_byte (pad (z2b 48) 2 (to_hex (b2z b)) ++ s) = Some (b, s).
Proof.
  rewrite pad_hex_byte. pose proof (b2z_range b). cbn [app read_byte].
  rewrite !of_hex_digit_eq by (try apply Z.mod_pos_bound; try split; try apply Z.div_pos; try apply Z.div_lt_upper_bound; lia).
  by rewrite <- Z.div_mod, z2b_b2z by lia.
Qed.

Lemma skip_line_eq l s : Forall (fun b => b2z b <> 10) l -> skip_line (l ++ newline :: s) = s.
Proof. induction 1 as [|b l Hb _ IH]; [done|]. cbn [app skip_line]. by destruct (Z.eqb_spec (b2z b) 10). Qed.

(** The characters of the current line: none before the first byte, and no line
    break later. *)
Definition line_chars (p : Z) (pchars : stringstream) : Prop :=
  (p = 0 /\ pchars = stringstream_of (lit " ")) \/
  (0 < p /\ ss_pos pchars = length (ss_str pchars) /\ Forall (fun b => b2z b <> 10) (ss_str pchars)).

(** The end of the text, after [p] bytes. *)
Definition dump_end (p : Z) (pchars : stringstream) : list byte :=
  let print_rem := (16 - Z.land p 0xf) mod 16 in
  replicate (Z.to_nat (2 * print_rem + print_rem / 2 + 4)) space ++ ss_str pchars ++ [newline; newline].

Lemma land_15 p : Z.land p 0xf = p mod 16.
Proof. change 0xf with (Z.ones 4). by rewrite Z.land_ones. Qed.

Lemma dump_end_no_byte indent p pchars : 0 <= p -> line_chars p pchars -> read_byte (skip_to_byte indent p (dump_end p pchars)) = None.
Proof.
  intros Hp Hc. unfold skip_to_byte, dump_end. rewrite land_15. pose proof (Z.mod_pos_bound p 16 ltac:(lia)) as Hm.
  destruct (Z.eqb_spec (p mod 16) 0) as [E|E].
  - rewrite E. change (Z.to_nat _) with 4%nat. rewrite drop_ge; [done|]. destruct Hc as [[-> ->]|(Hp0 & _ & Hf)]; [simpl; lia|].
    destruct (Z.eqb_spec p 0); [lia|]. change [newline; newline] with ([] ++ newline :: [newline]).
    rewrite app_nil_l, app_assoc, skip_line_eq; [simpl; lia|]. apply Forall_app. split; [|done]. by repeat constructor.
  - rewrite Z.mod_small by lia. set (n := Z.to_nat _).
    assert (exists m, n = S (S (S m))) as [m ->].
    { exists (n - 3)%nat. subst n. pose proof (Z.div_pos (16 - p mod 16) 2). lia. }
    by destruct (Z.land p 1 =? 0).
Qed.

Lemma drop_position indent p k : 0 <= p < 2 ^ 32 ->
  drop (indent + 13) (replicate indent space ++ pad (z2b 48) 8 (to_hex p) ++ lit ":    " ++ k) = k.
Proof.
  intros Hp. pose proof (length_pad_hex (z2b 48) p 8 ltac:(lia) ltac:(lia)) as H8. change (Z.of_nat 8) with 8 in H8.
  rewrite drop_app_ge by (rewrite length_replicate; lia). rewrite length_replicate, drop_app_ge by lia.
  replace (indent + 13 - indent - _)%nat with 5%nat by lia. done.
Qed.

(** One turn: the byte is the next one to be read, and the line goes on. *)
Lemma hexdump_turn_reads indent b p pchars rest :
  0 <= p < 2 ^ 32 -> line_chars p pchars ->
  let '(out, (printed, pchars')) := hexdump_turn (replicate indent space) b p pchars in
  read_byte (skip_to_byte indent p (out ++ rest)) = Some (b, rest) /\ printed = p + 1 /\ line_chars (p + 1) pchars'.
Proof.
  intros Hp Hc. unfold hexdump_turn, skip_to_byte.
  set (c := if isprint b then b else z2b 46).
  assert (b2z c <> 10) as Hnl.
  { subst c. unfold isprint. destruct (Z.leb_spec 32 (b2z b)); [|by vm_compute]. destruct (b2z b <=? 126); [simpl; lia|by vm_compute]. }
  assert (forall pc, pc = stringstream_of (lit " ") \/ (ss_pos pc = length (ss_str pc) /\ Forall (fun b => b2z b <> 10) (ss_str pc)) ->
    line_chars (p + 1) (ss_put c pc)) as Hput.
  { intros pc Hpc. right. split; [lia|]. destruct Hpc as [->|[E Hf]]; [by repeat constructor|]. unfold ss_put. cbn [ss_str ss_pos]. rewrite E.
    rewrite firstn_all, drop_ge by lia. rewrite app_nil_r, length_app. split; [simpl; lia|]. apply Forall_app. by repeat constructor. }
  assert (pchars = stringstream_of (lit " ") \/ (ss_pos pchars = length (ss_str pchars) /\ Forall (fun b => b2z b <> 10) (ss_str pchars))) as Hc'.
  { destruct Hc as [[_ ->]|(_ & H)]; [by left|by right]. }
  destruct (Z.eqb_spec (Z.land p 0xf) 0) as [E|E].
  - destruct (Z.eqb_spec p 0) as [->|Hp0]; cbn [negb]; rewrite <- !app_assoc.
    + cbn [app]. rewrite drop_position by done. split; [apply read_byte_eq|]. split; [done|by apply Hput].
    + rewrite (app_assoc (lit "    ")). cbn [app]. rewrite skip_line_eq, drop_position; [|done|].
      2: { apply Forall_app. split; [by repeat constructor|]. destruct Hc as [[-> _]|(_ & _ & H)]; done. }
      split; [apply read_byte_eq|]. split; [done|]. apply Hput. by left.
  - destruct (Z.land p 1 =? 0); cbn [app drop]; (split; [apply read_byte_eq|]); (split; [done|]); by apply Hput.
Qed.

Lemma undump_loop indent data p pchars fuel :
  0 <= p -> p + len data < 2 ^ 32 -> line_chars p pchars -> (length data < fuel)%nat ->
  let '(out, (printed, pchars')) := hexdump_loop (replicate indent space) data p pchars in
  undump fuel indent p (out ++ dump_end printed pchars') = data.
Proof.
  revert p pchars fuel. induction data as [|b data IH]; intros p pchars [|fuel] Hp Hl Hc Hf; try lia; cbn [hexdump_loop].
  - cbn [app undump]. by rewrite dump_end_no_byte.
  - cbn [length] in Hl, Hf. pose proof (hexdump_turn_reads indent b p pchars) as Ht.
    destruct (hexdump_turn _ _ _ _) as [out [printed pc]]. specialize (fun r => Ht r ltac:(lia) Hc).
    destruct (Ht []) as (_ & -> & Hc1). specialize (IH (p + 1) pc fuel ltac:(lia) ltac:(lia) Hc1 ltac:(lia)).
    destruct (hexdump_loop _ _ _ _) as [rest [printed pc']]. cbn [undump]. rewrite <- app_assoc.
    destruct (Ht (rest ++ dump_end printed pc')) as [-> _]. by rewrite IH.
Qed.

(** A hex dump shows the bytes: whatever the bytes (fewer than [2^31], as they are
    counted in an [int]) and the indentation, they can be read back from
    the text, which names the position of every sixteenth byte. *)
Theorem hexdump_roundtrip data indent :
  len data < 2 ^ 31 -> undump (S (length data)) (Z.to_nat indent) 0 (hexdump data indent) = data.
Proof.
  intros Hl. pose proof (undump_loop (Z.to_nat indent) data 0 (stringstream_of (lit " ")) (S (length data)) ltac:(lia) ltac:(lia)) as H.
  unfold hexdump. destruct (hexdump_loop _ _ _ _) as [out [printed pc]]. apply H; [by left|lia].
Qed.

Definition demo_dump : list byte := lit "The quick brown fox" ++ [z2b 0; z2b 255].

Lemma hexdump_roundtrip_witness :
  undump 22 4 0 (hexdump demo_dump 4) = demo_dump /\
  hexdump demo_dump 4 =
    lit "    00000000:    5468 6520 7175 6963 6b20 6272 6f77 6e20    The quick brown " ++ [newline] ++
    lit "    00000010:    666f 7800 ff                               fox.." ++ [newline; newline].
Proof. split; [exact (hexdump_roundtrip demo_dump 4 eq_refl)|vm_compute; reflexivity]. Defined.

(** ** What the summaries tell apart *)

Lemma read_to_string n c s : 0 <= n -> is_digit c = false -> (read_digits (to_string n ++ c :: s) 0 0).1 = n.
Proof.
  intros Hn Hc. unfold to_string. rewrite Z.abs_eq by lia. destruct (Z.ltb_spec n 0); [lia|]. cbn [app].
  destruct (read_decimal (S (Z.to_nat (Z.log2 n))) n [] (c :: s) 0 0) as (x & y & -> & _).
  - rewrite Nat2Z.inj_succ, Z2Nat.id by apply Z.log2_nonneg. destruct (Z.eq_dec n 0) as [->|]; [done|]. pose proof (Z.log2_spec n ltac:(lia)). lia.
  - cbn [app read_digits]. rewrite Hc. cbn [fst]. lia.
Qed.

(** A number ends where the digits do. *)
Lemma to_string_cut n n' c c' s s' :
  0 <= n -> 0 <= n' -> is_digit c = false -> is_digit c' = false ->
  to_string n ++ c :: s = to_string n' ++ c' :: s' -> n = n' /\ c :: s = c' :: s'.
Proof.
  intros Hn Hn' Hc Hc' E. assert (n = n') as ->.
  { rewrite <- (read_to_string n c s), <- (read_to_string n' c' s') by done. by rewrite E. }
  split; [done|]. by eapply app_inv_head.
Qed.

(** The summary of a TCP header tells apart headers that differ in the flags SYN,
    ACK, RST and FIN, the numbers or the window. *)
Lemma TCPHeader_summary_inj h h' :
  TCPSegment.typed_header h -> TCPSegment.typed_header h' -> TCPHeader_summary h = TCPHeader_summary h' ->
  syn h = syn h' /\ ack h = ack h' /\ rst h = rst h' /\ fin h = fin h' /\
  raw_value (seqno h) = raw_value (seqno h') /\ raw_value (ackno h) = raw_value (ackno h') /\ win h = win h'.
Proof.
  intros [] []. unfold TCPHeader_summary, put_wrapping. intros E%app_inv_head.
  set (rest h := to_string (raw_value (seqno h)) ++ lit ",ack=" ++ to_string (raw_value (ackno h)) ++
    lit ",win=" ++ to_string (win h) ++ lit ")").
  assert (syn h = syn h' /\ ack h = ack h' /\ rst h = rst h' /\ fin h = fin h' /\ rest h = rest h') as (-> & -> & -> & -> & Er).
  { revert E. fold (rest h) (rest h'). generalize (rest h), (rest h').
    destruct (syn h), (ack h), (rst h), (fin h), (syn h'), (ack h'), (rst h'), (fin h');
      intros l l' E; vm_compute in E; try discriminate E; split_and!; congruence. }
  unfold rest in Er. apply to_string_cut in Er as [Es Er]; [|lia..|done|done]. injection Er as Er.
  apply to_string_cut in Er as [Ea Er]; [|lia..|done|done]. injection Er as Er.
  apply to_string_cut in Er as [Ew _]; [|lia..|done|done]. by split_and!.
Qed.

(** Two Ethernet addresses of the same length are told apart. *)
Lemma EthernetAddress_to_string_inj a a' :
  length a = length a' -> EthernetAddress_to_string a = EthernetAddress_to_string a' -> a = a'.
Proof.
  revert a'. induction a as [|b a IH]; intros [|b' a'] Hl E; try done. injection Hl as Hl.
  assert (forall b l, EthernetAddress_to_string (b :: l) =
    pad (z2b 48) 2 (to_hex (b2z b)) ++ match l with [] => [] | _ => lit ":" ++ EthernetAddress_to_string l end) as Hc.
  { intros c []; cbn [EthernetAddress_to_string]; [by rewrite app_nil_r|done]. }
  rewrite !Hc in E. pose proof (f_equal read_byte E) as Eb. rewrite !read_byte_eq in Eb. injection Eb as -> Er. f_equal.
  destruct a as [|c a], a' as [|c' a']; try done. injection Er as Er. by apply IH.
Qed.
