(* ===== verification/Socket.v ===== *)
(** Sockets: [Socket], [UDPSocket], [TCPSocket] and [LocalStreamSocket] of
    [libsponge/util/socket.hh] and [socket.cc], and the [TunTapFD] of [util/tun.hh]
    and [tun.cc].  As for the descriptors, the kernel's answers are arguments,
    and what is handed to the kernel is in the result where it matters. *)
From S2P Require Import Prelude Text Buffer FileDescriptor Address.

Definition AF_UNIX : Z := 1.
Definition SOCK_STREAM : Z := 1.
Definition SOCK_DGRAM : Z := 2.
Definition SHUT_RD : Z := 0.
Definition SHUT_WR : Z := 1.
Definition SHUT_RDWR : Z := 2.

(** A system call: what it returned and [errno]. *)
Record call := mkCall { ret : Z; errno : Z }.
Definition checked (attempt : list byte) (c : call) : result Z := SystemCall attempt (ret c) (errno c) 0.

(** ** Socket *)

(** [Socket(domain, type)] *)
Definition Socket_new (socket : call) : result FDWrapper :=
  let* fd := checked (lit "socket") socket in FileDescriptor_of fd.

(** What [getsockopt] answers: the call, the value and its length. *)
Record sockopt := mkSockopt { opt_call : call; actual_value : Z; opt_len : Z }.

(** [Socket(fd, domain, type)]: the descriptor's domain and type are verified. *)
Definition Socket_of (fd : FDWrapper) (domain type : Z) (so_domain so_type : sockopt) : result FDWrapper :=
  let* _ := checked (lit "getsockopt") (opt_call so_domain) in
  if negb (opt_len so_domain =? 4) || negb (actual_value so_domain =? domain) then Throw (runtime_error "socket domain mismatch")
  else
    let* _ := checked (lit "getsockopt") (opt_call so_type) in
    if negb (opt_len so_type =? 4) || negb (actual_value so_type =? type) then Throw (runtime_error "socket type mismatch")
    else Ok fd.

Definition UDPSocket_of (fd : FDWrapper) : sockopt -> sockopt -> result FDWrapper := Socket_of fd AF_INET SOCK_DGRAM.
Definition TCPSocket_of (fd : FDWrapper) : sockopt -> sockopt -> result FDWrapper := Socket_of fd AF_INET SOCK_STREAM.
Definition LocalStreamSocket_of (fd : FDWrapper) : sockopt -> sockopt -> result FDWrapper := Socket_of fd AF_UNIX SOCK_STREAM.

(** [getsockname] and [getpeername] put an address and its size. *)
Definition get_address (name_of_function : list byte) (c : call) (address : list byte) (size : Z) : result Address :=
  let* _ := checked name_of_function c in Address_of_sockaddr address size.
Definition local_address : call -> list byte -> Z -> result Address := get_address (lit "getsockname").
Definition peer_address : call -> list byte -> Z -> result Address := get_address (lit "getpeername").

Definition socket_bind (c : call) : result unit := let* _ := checked (lit "bind") c in Ok tt.
Definition socket_connect (c : call) : result unit := let* _ := checked (lit "connect") c in Ok tt.
Definition setsockopt (c : call) : result unit := let* _ := checked (lit "setsockopt") c in Ok tt.
Definition set_reuseaddr (c : call) : result unit := setsockopt c.

Definition shutdown (how : Z) (c : call) : method FDWrapper unit :=
  do _ := lift (checked (lit "shutdown") c) in
  if how =? SHUT_RD then modify register_read
  else if how =? SHUT_WR then modify register_write
  else if how =? SHUT_RDWR then modify (fun w => register_write (register_read w))
  else lift (Throw (runtime_error "Socket::shutdown() called with invalid `how`")).

(** ** UDPSocket *)

Record received_datagram := mkReceived { source_address : Address; recv_payload : list byte }.

(** [recv]: the kernel returned the datagram's length (with [MSG_TRUNC] also when
    it did not fit), [data] in the buffer, and the sender's address. *)
Definition recv (mtu : Z) (c : call) (data from : list byte) (fromlen : Z) : method FDWrapper received_datagram :=
  let payload := ztake mtu (data ++ zeros mtu) in
  do recv_len := lift (checked (lit "recvfrom") c) in
  if s64 mtu <? recv_len then lift (Throw (runtime_error "recvfrom (oversized datagram)")) else
  do _ := modify register_read in
  do a := lift (Address_of_sockaddr from fromlen) in
  returns (mkReceived a (ztake recv_len payload)).

Definition sendmsg_helper (c : call) (payload : BufferViewList) : result unit :=
  let* bytes_sent := checked (lit "sendmsg") c in
  if negb (u64 bytes_sent =? view_size payload) then Throw (runtime_error "datagram payload too big for sendmsg()") else Ok tt.

(** [sendto] and [send]; the destination is the kernel's business. *)
Definition sendto (c : call) (payload : BufferViewList) : method FDWrapper unit :=
  do _ := lift (sendmsg_helper c payload) in modify register_write.
Definition send (c : call) (payload : BufferViewList) : method FDWrapper unit :=
  do _ := lift (sendmsg_helper c payload) in modify register_write.

(** ** TCPSocket *)

Definition socket_listen (c : call) : result unit := let* _ := checked (lit "listen") c in Ok tt.

Definition accept (c : call) (so_domain so_type : sockopt) : method FDWrapper FDWrapper :=
  do _ := modify register_read in
  do fd := lift (checked (lit "accept") c) in
  do w := lift (FileDescriptor_of fd) in
  lift (TCPSocket_of w so_domain so_type).

(** ** TunTapFD *)

Definition IFNAMSIZ : Z := 16.
Definition IFF_TUN : Z := 0x1.
Definition IFF_TAP : Z := 0x2.
Definition IFF_NO_PI : Z := 0x1000.

(** The request given to [ioctl]: flags and the name, which [strncpy] cuts at a
    null byte, pads with zeros, and the code terminates. *)
Fixpoint until_null (s : list byte) : list byte :=
  match s with
  | b :: s => if b2z b =? 0 then [] else b :: until_null s
  | [] => []
  end.

Definition ifr_flags (is_tun : bool) : Z := Z.lor (if is_tun then IFF_TUN else IFF_TAP) IFF_NO_PI.
Definition ifr_name (devname : list byte) : list byte :=
  let s := ztake (IFNAMSIZ - 1) (until_null devname) in
  s ++ zeros (IFNAMSIZ - len s).

Definition TunTapFD_of (devname : list byte) (is_tun : bool) (open ioctl : call) : result (FDWrapper * (Z * list byte)) :=
  let* fd := checked (lit "open") open in
  let* w := FileDescriptor_of fd in
  let* _ := checked (lit "ioctl") ioctl in
  Ok (w, (ifr_flags is_tun, ifr_name devname)).

(** ** Properties *)

Lemma checked_ok attempt c : 0 <= ret c < 2 ^ 31 -> checked attempt c = Ok (ret c).
Proof. apply SystemCall_ok. Qed.

Lemma until_null_no_null s : Forall (fun b => b2z b <> 0) (until_null s).
Proof.
  induction s as [|b s IH]; [by apply Forall_nil|]. cbn [until_null].
  destruct (Z.eqb_spec (b2z b) 0); [by apply Forall_nil|]. by apply Forall_cons.
Qed.

(** The device's name is always a terminated string of at most 15 characters. *)
Lemma ifr_name_terminated devname :
  len (ifr_name devname) = IFNAMSIZ /\
  exists s, ifr_name devname = s ++ zeros (IFNAMSIZ - len s) /\ len s <= 15 /\ Forall (fun b => b2z b <> 0) s /\
    (len devname <= 15 -> Forall (fun b => b2z b <> 0) devname -> s = devname).
Proof.
  unfold ifr_name, IFNAMSIZ. pose proof (len_ztake (16 - 1) (until_null devname) ltac:(lia)) as Hl. split.
  - unfold zeros. rewrite len_app, length_replicate. lia.
  - eexists. split; [done|]. split_and!; [lia| |].
    + apply Forall_take. apply until_null_no_null.
    + intros Hd Hn. rewrite ztake_all; [|etransitivity; [|exact Hd]].
      * clear Hl Hd. induction Hn as [|b l Hb _ IH]; [done|]. cbn [until_null]. destruct (Z.eqb_spec (b2z b) 0); [done|]. by rewrite IH.
      * clear. induction devname as [|b l IH]; [done|]. cbn [until_null]. destruct (_ =? 0); simpl; lia.
Qed.

(** A received datagram: its payload is what arrived, its source the sender. *)
Lemma udp_recv_eq mtu c data from fromlen a w :
  0 <= ret c <= mtu -> mtu < 2 ^ 31 -> len data = ret c -> Address_of_sockaddr from fromlen = Ok a ->
  recv mtu c data from fromlen w = (Ok (mkReceived a data), register_read w).
Proof.
  intros Hr Hm Hd Ha. unfold recv, andthen, lift, modify, returns. rewrite checked_ok by lia. rewrite s64_small by lia.
  destruct (Z.ltb_spec mtu (ret c)); [lia|]. rewrite Ha. do 3 f_equal.
  rewrite ztake_ztake by lia. by rewrite <- Hd, ztake_app_exact.
Qed.

(** A datagram too long for the buffer is refused, though the kernel has taken it
    off the socket. *)
Lemma recv_oversized mtu c data from fromlen w :
  0 <= mtu < 2 ^ 31 -> mtu < ret c < 2 ^ 31 ->
  recv mtu c data from fromlen w = (Throw (runtime_error "recvfrom (oversized datagram)"), w).
Proof.
  intros Hm Hr. unfold recv, andthen, lift. rewrite checked_ok by lia. rewrite s64_small by lia.
  by destruct (Z.ltb_spec mtu (ret c)); [|lia].
Qed.
