(* ===== verification/FdAdapter.v ===== *)
(** Carrying TCP segments over datagrams: [FdAdapterConfig] of
    [tcp_helpers/tcp_config.hh], [FdAdapterBase] and [TCPOverUDPSocketAdapter] of
    [fd_adapter.hh] and [.cc], [TCPOverIPv4Adapter] of [tcp_over_ip.hh] and [.cc],
    and [LossyFdAdapter] of [lossy_fd_adapter.hh].

    What a socket or device gives to [recv] or [read] is an argument of the
    model; what is sent is part of its result.  A segment passed by reference is
    returned with its new value. *)
From S2P Require Import Prelude Text WrappingIntegers Buffer Parser Checksum TCPSegment IPv4 Address Resolver Socket.

Record FdAdapterConfig := mkFdAdapterConfig {
  source : Address; destination : Address; loss_rate_dn : Z; loss_rate_up : Z }.

Record FdAdapterBase := mkFdAdapterBase { _cfg : FdAdapterConfig; _listen : bool }.

Definition set_listening (l : bool) (a : FdAdapterBase) : FdAdapterBase := mkFdAdapterBase (_cfg a) l.
Definition listening (a : FdAdapterBase) : bool := _listen a.
Definition config (a : FdAdapterBase) : FdAdapterConfig := _cfg a.

(** [config_mut()] and [config_mutable()] hand out a reference. *)
Definition set_config (c : FdAdapterConfig) (a : FdAdapterBase) : FdAdapterBase := mkFdAdapterBase c (_listen a).
Definition set_source (s : Address) (c : FdAdapterConfig) : FdAdapterConfig :=
  mkFdAdapterConfig s (destination c) (loss_rate_dn c) (loss_rate_up c).
Definition set_destination (d : Address) (c : FdAdapterConfig) : FdAdapterConfig :=
  mkFdAdapterConfig (source c) d (loss_rate_dn c) (loss_rate_up c).

(** [FdAdapterBase::tick] *)
Definition base_tick (ms : Z) (a : FdAdapterBase) : FdAdapterBase := a.

Definition set_ports (s d : Z) (seg : TCPSegment) : TCPSegment :=
  let h := TCPSegment.header seg in
  mkTCPSegment (mkTCPHeader s d (seqno h) (ackno h) (doff h) (urg h) (ack h) (psh h) (rst h) (syn h) (fin h)
    (win h) (TCPSegment.cksum h) (uptr h)) (TCPSegment.payload seg).

Section adapters.
Context (getaddrinfo : list byte -> list byte -> addrinfo -> Z * option (list byte * Z))
  (getnameinfo : list byte -> Z -> Z * list byte * list byte).

(** [FdAdapterConfig _cfg{}] *)
Definition FdAdapterConfig_default : result FdAdapterConfig :=
  let* source := Address_of_ip getaddrinfo (lit "0") 0 in
  let* destination := Address_of_ip getaddrinfo (lit "0") 0 in
  Ok (mkFdAdapterConfig source destination 0 0).

(** ** TCP over IPv4 *)

(** The part of [unwrap_tcp_in_ip] for a listening adapter: the new endpoints
    are taken from the datagram.  [false] is the early return. *)
Definition start_connection (ip_dgram : IPv4Datagram) (tcp_seg : TCPSegment) : method FdAdapterBase bool :=
  let th := TCPSegment.header tcp_seg in
  if syn th && negb (rst th) then
    do a := gets id in
    do p := lift (port getnameinfo (source (config a))) in
    do s := lift (Address_of_ip getaddrinfo (inet_ntoa (IPv4.dst (IPv4.header ip_dgram))) p) in
    do _ := modify (fun a => set_config (set_source s (config a)) a) in
    do d := lift (Address_of_ip getaddrinfo (inet_ntoa (IPv4.src (IPv4.header ip_dgram))) (sport th)) in
    do _ := modify (fun a => set_config (set_destination d (config a)) a) in
    do _ := modify (set_listening false) in
    returns true
  else returns false.

Definition unwrap_tcp_in_ip (ip_dgram : IPv4Datagram) : method FdAdapterBase (option TCPSegment) :=
  let h := IPv4.header ip_dgram in
  do a := gets id in
  do for_us := (if negb (listening a)
    then do s := lift (ipv4_numeric (source (config a))) in returns (IPv4.dst h =? s) else returns true) in
  if negb for_us then returns None else
  do from_peer := (if negb (listening a)
    then do d := lift (ipv4_numeric (destination (config a))) in returns (IPv4.src h =? d) else returns true) in
  if negb from_peer then returns None else
  if negb (proto h =? PROTO_TCP) then returns None else
  do (r, tcp_seg) := lift (let* b := to_Buffer (IPv4.payload ip_dgram) in
    TCPSegment_parse b (pseudo_cksum h) TCPSegment_default) in
  if negb (bool_decide (r = NoError)) then returns None else
  do p := lift (port getnameinfo (source (config a))) in
  if negb (dport (TCPSegment.header tcp_seg) =? p) then returns None else
  do go_on := (if listening a then start_connection ip_dgram tcp_seg else returns true) in
  if negb go_on then returns None else
  do a := gets id in
  do p := lift (port getnameinfo (destination (config a))) in
  if negb (sport (TCPSegment.header tcp_seg) =? p) then returns None else
  returns (Some tcp_seg).

(** The header of the datagram [wrap_tcp_in_ip] makes. *)
Definition tcp_ip_header (s d doff_ payload_size : Z) : IPv4Header :=
  let h := IPv4Header_default in
  mkIPv4Header (ver h) (hlen h) (tos h) (u16 (hlen h * 4 + doff_ * 4 + payload_size)) (ident h) (df h) (mf h) (offset h)
    (IPv4.ttl h) (proto h) (IPv4.cksum h) s d.

Definition wrap_tcp_in_ip (seg : TCPSegment) (a : FdAdapterBase) : result (TCPSegment * IPv4Datagram) :=
  let* sport := port getnameinfo (source (config a)) in
  let* dport := port getnameinfo (destination (config a)) in
  let seg := set_ports sport dport seg in
  let* src := ipv4_numeric (source (config a)) in
  let* dst := ipv4_numeric (destination (config a)) in
  let h := tcp_ip_header src dst (doff (TCPSegment.header seg)) (size (TCPSegment.payload seg)) in
  let* payload := TCPSegment_serialize (pseudo_cksum h) seg in
  Ok (seg, mkIPv4Datagram h payload).

(** ** TCP over UDP *)

Definition udp_read (datagram : received_datagram) : method FdAdapterBase (option TCPSegment) :=
  do a := gets id in
  if negb (listening a) && negb (Address_eq (source_address datagram) (destination (config a))) then returns None else
  do (r, seg) := lift (TCPSegment_parse (Buffer_of (recv_payload datagram)) 0 TCPSegment_default) in
  if negb (bool_decide (r = NoError)) then returns None else
  if listening a then
    if syn (TCPSegment.header seg) && negb (rst (TCPSegment.header seg)) then
      do _ := modify (fun a => set_config (set_destination (source_address datagram) (config a)) a) in
      do _ := modify (set_listening false) in
      returns (Some seg)
    else returns None
  else returns (Some seg).

(** The segment, and the address and payload given to [sendto]. *)
Definition udp_write (seg : TCPSegment) (a : FdAdapterBase) : result (TCPSegment * (Address * BufferList)) :=
  let* sport := port getnameinfo (source (config a)) in
  let* dport := port getnameinfo (destination (config a)) in
  let seg := set_ports sport dport seg in
  let* out := TCPSegment_serialize 0 seg in
  Ok (seg, (destination (config a), out)).
End adapters.

(** ** Losing segments *)

(** What [LossyFdAdapter] needs of the adapter it wraps: [Input] is what arrives
    at the descriptor of the adapter and [Output] what leaves it. *)
Class FdAdapter (A Input Output : Type) := {
  adapter_config : A -> FdAdapterConfig;
  adapter_set_listening : bool -> A -> A;
  adapter_tick : Z -> A -> A;
  adapter_read : Input -> method A (option TCPSegment);
  adapter_write : TCPSegment -> A -> result (TCPSegment * Output) }.

Section lossy.
Context `{FdAdapter A Input Output}.

(** The random generator: [draw] gives the next value. *)
Context {G : Type} (draw : G -> Z * G).

Record LossyFdAdapter := mkLossyFdAdapter { _rand : G; _adapter : A }.

Definition _should_drop (uplink : bool) (l : LossyFdAdapter) : bool * LossyFdAdapter :=
  let cfg := adapter_config (_adapter l) in
  let loss := if uplink then loss_rate_up cfg else loss_rate_dn cfg in
  if loss =? 0 then (false, l)
  else let '(x, g) := draw (_rand l) in (u16 x <? loss, mkLossyFdAdapter g (_adapter l)).

Definition lossy_read (input : Input) (l : LossyFdAdapter) : result (option TCPSegment) * LossyFdAdapter :=
  match adapter_read input (_adapter l) with
  | (Throw e, a) => (Throw e, mkLossyFdAdapter (_rand l) a)
  | (Ok ret, a) =>
      let '(drop, l) := _should_drop false (mkLossyFdAdapter (_rand l) a) in
      (Ok (if drop then None else ret), l)
  end.

(** [None] for a segment that is dropped. *)
Definition lossy_write (seg : TCPSegment) (l : LossyFdAdapter) : result (TCPSegment * option Output) * LossyFdAdapter :=
  let '(drop, l) := _should_drop true l in
  if drop then (Ok (seg, None), l)
  else (let* (seg, out) := adapter_write seg (_adapter l) in Ok (seg, Some out), l).

Definition lossy_set_listening (b : bool) (l : LossyFdAdapter) : LossyFdAdapter :=
  mkLossyFdAdapter (_rand l) (adapter_set_listening b (_adapter l)).
Definition lossy_config (l : LossyFdAdapter) : FdAdapterConfig := adapter_config (_adapter l).
Definition lossy_tick (ms : Z) (l : LossyFdAdapter) : LossyFdAdapter :=
  mkLossyFdAdapter (_rand l) (adapter_tick ms (_adapter l)).
End lossy.
Arguments LossyFdAdapter A G : clear implicits.

#[export] Instance udp_adapter (getnameinfo : list byte -> Z -> Z * list byte * list byte) :
    FdAdapter FdAdapterBase received_datagram (Address * BufferList) := {
  adapter_config := config;
  adapter_set_listening := set_listening;
  adapter_tick := base_tick;
  adapter_read := udp_read;
  adapter_write := udp_write getnameinfo }.

(** ** Segments over IPv4 *)

(** An adapter for a connection between two IPv4 endpoints. *)
Definition connected (ia pa ib pb dn up : Z) : FdAdapterBase :=
  mkFdAdapterBase (mkFdAdapterConfig (endpoint ia pa) (endpoint ib pb) dn up) false.

(** One that listens on a port; [any] is the address it is bound to. *)
Definition listener (any pa : Z) (other : Address) (dn up : Z) : FdAdapterBase :=
  mkFdAdapterBase (mkFdAdapterConfig (endpoint any pa) other dn up) true.

(** A segment that fits into a datagram. *)
Definition fits (seg : TCPSegment) : Prop :=
  TCPSegment.wf_header (TCPSegment.header seg) /\ Buffer.wf (TCPSegment.payload seg) /\
  20 + 4 * doff (TCPSegment.header seg) + len (str (TCPSegment.payload seg)) < 2 ^ 16.

Definition u32_val (i : Z) : Prop := 0 <= i < 2 ^ 32.
Definition u16_val (p : Z) : Prop := 0 <= p < 2 ^ 16.

Lemma tcp_ip_header_wf s d doff_ n :
  u32_val s -> u32_val d -> 5 <= doff_ < 16 -> 0 <= n -> 20 + 4 * doff_ + n < 2 ^ 16 ->
  IPv4.wf_header (tcp_ip_header s d doff_ n) /\ tot_len (tcp_ip_header s d doff_ n) = 20 + 4 * doff_ + n.
Proof.
  intros Hs Hd Ho Hn Hl. assert (tot_len (tcp_ip_header s d doff_ n) = 20 + 4 * doff_ + n) as Ht.
  { unfold tcp_ip_header. simpl. change (LENGTH / 4) with 5. rewrite u16_small by lia. lia. }
  split; [|done]. split; try done; rewrite ?Ht; simpl; change (LENGTH / 4) with 5; lia.
Qed.

Lemma set_ports_wf s d seg : u16_val s -> u16_val d -> TCPSegment.wf_header (TCPSegment.header seg) ->
  TCPSegment.wf_header (TCPSegment.header (set_ports s d seg)).
Proof. intros Hs Hd []. by split. Qed.

Section over_ip.
Context `{NumericResolver getaddrinfo getnameinfo}.
Context (ia pa ib pb dn up dn' up' : Z) (Hia : u32_val ia) (Hib : u32_val ib) (Hpa : u16_val pa) (Hpb : u16_val pb).
Context (seg : TCPSegment) (Hfits : fits seg).

Local Abbreviation sent := (set_ports pa pb seg).
Local Abbreviation ip_header := (tcp_ip_header ia ib (doff (TCPSegment.header seg)) (size (TCPSegment.payload seg))).

Lemma ip_header_wf : IPv4.wf_header ip_header /\
  tot_len ip_header = 20 + 4 * doff (TCPSegment.header seg) + len (str (TCPSegment.payload seg)).
Proof. destruct Hfits as ([] & _ & ?). unfold size. apply tcp_ip_header_wf; done || lia. Qed.

Lemma ip_header_pseudo : 0 <= pseudo_cksum ip_header < 2 ^ 19.
Proof. apply pseudo_cksum_range; done. Qed.

(** What the sending adapter makes of a segment, and what any buffer with its
    bytes is read as. *)
Lemma wrap_tcp_in_ip_eq :
  exists bl v, wrap_tcp_in_ip getnameinfo seg (connected ia pa ib pb dn up) = Ok (sent, mkIPv4Datagram ip_header bl) /\
    len (concatenate bl) = tot_len ip_header - 20 /\
    forall b, Buffer.wf b -> str b = concatenate bl ->
    exists pl, TCPSegment_parse b (pseudo_cksum ip_header) TCPSegment_default =
        Ok (NoError, mkTCPSegment (TCPSegment.set_cksum v (TCPSegment.header sent)) pl) /\
      Buffer.wf pl /\ str pl = str (TCPSegment.payload seg).
Proof.
  destruct ip_header_wf as [_ Ht]. pose proof Hfits as (Hw & Hb & Hl). pose proof (TCPSegment.wf_doff _ Hw).
  destruct (TCPSegment_parse_serialize (pseudo_cksum ip_header) sent TCPSegment_default) as (bl & v & E & _ & Hlen & Hp).
  { by apply set_ports_wf. }
  { done. }
  { apply ip_header_pseudo. }
  { simpl. lia. }
  exists bl, v. split_and!; [|simpl in Hlen; lia|done].
  unfold wrap_tcp_in_ip, connected. cbn [config _cfg source destination].
  rewrite !port_endpoint by done. cbn [bind]. rewrite !ipv4_numeric_endpoint by done. cbn [bind].
  change (doff (TCPSegment.header sent)) with (doff (TCPSegment.header seg)).
  change (TCPSegment.payload sent) with (TCPSegment.payload seg). by rewrite E.
Qed.

(** The receiving adapter of the same connection. *)
Lemma unwrap_connected bl v w b :
  (exists pl, TCPSegment_parse b (pseudo_cksum ip_header) TCPSegment_default =
    Ok (NoError, mkTCPSegment (TCPSegment.set_cksum v (TCPSegment.header sent)) pl) /\ Buffer.wf pl /\ str pl = bl) ->
  exists pl, unwrap_tcp_in_ip getaddrinfo getnameinfo
      (mkIPv4Datagram (IPv4.set_cksum w ip_header) (BufferList_of_Buffer b)) (connected ib pb ia pa dn' up') =
    (Ok (Some (mkTCPSegment (TCPSegment.set_cksum v (TCPSegment.header sent)) pl)), connected ib pb ia pa dn' up') /\
    Buffer.wf pl /\ str pl = bl.
Proof.
  intros (pl & E & Hw & Hs). exists pl. split; [|done].
  unfold unwrap_tcp_in_ip, andthen, gets, lift, returns, connected.
  cbn [id listening _listen config _cfg source destination negb IPv4.header IPv4.payload].
  rewrite !ipv4_numeric_endpoint by done. cbn [IPv4.dst IPv4.src IPv4.set_cksum tcp_ip_header]. rewrite !Z.eqb_refl. cbn [negb].
  cbn [proto IPv4Header_default PROTO_TCP Z.eqb Pos.eqb negb to_Buffer BufferList_of_Buffer _buffers bind].
  change (pseudo_cksum _) with (pseudo_cksum ip_header). rewrite E, !port_endpoint by done.
  cbn [negb TCPSegment.header TCPSegment.set_cksum set_ports dport sport].
  rewrite bool_decide_true by done. cbn [negb]. rewrite !Z.eqb_refl.
  cbn [negb config _cfg destination]. by rewrite port_endpoint, Z.eqb_refl by done.
Qed.

(** A listening adapter takes its endpoints from the first SYN. *)
Lemma unwrap_listener bl v w b any other :
  u32_val any -> syn (TCPSegment.header seg) = true -> rst (TCPSegment.header seg) = false ->
  (exists pl, TCPSegment_parse b (pseudo_cksum ip_header) TCPSegment_default =
    Ok (NoError, mkTCPSegment (TCPSegment.set_cksum v (TCPSegment.header sent)) pl) /\ Buffer.wf pl /\ str pl = bl) ->
  exists pl, unwrap_tcp_in_ip getaddrinfo getnameinfo
      (mkIPv4Datagram (IPv4.set_cksum w ip_header) (BufferList_of_Buffer b)) (listener any pb other dn' up') =
    (Ok (Some (mkTCPSegment (TCPSegment.set_cksum v (TCPSegment.header sent)) pl)), connected ib pb ia pa dn' up') /\
    Buffer.wf pl /\ str pl = bl.
Proof.
  intros Hany Hsyn Hrst (pl & E & Hw & Hs). exists pl. split; [|done].
  unfold unwrap_tcp_in_ip, start_connection, andthen, gets, lift, returns, modify, listener.
  cbn [id listening _listen config _cfg source destination negb IPv4.header IPv4.payload].
  cbn [IPv4.dst IPv4.src IPv4.set_cksum tcp_ip_header].
  cbn [proto IPv4Header_default PROTO_TCP Z.eqb Pos.eqb negb to_Buffer BufferList_of_Buffer _buffers bind].
  change (pseudo_cksum _) with (pseudo_cksum ip_header). rewrite E, !port_endpoint by done.
  cbn [negb TCPSegment.header TCPSegment.set_cksum set_ports dport sport syn rst].
  rewrite bool_decide_true, !Z.eqb_refl, Hsyn, Hrst by done. cbn [negb andb].
  cbn [config _cfg source]. rewrite port_endpoint by done. cbv beta iota.
  rewrite (Address_of_ip_endpoint ib pb) by done. cbv beta iota. rewrite (Address_of_ip_endpoint ia pa) by done.
  cbn [set_config set_source set_destination set_listening config _cfg source destination _listen negb loss_rate_dn loss_rate_up].
  rewrite port_endpoint by done. cbv beta iota. by rewrite Z.eqb_refl.
Qed.
End over_ip.

(** C28: A segment survives the trip over IPv4.  The sending adapter sets the
    ports and wraps the segment in a datagram; the datagram's bytes are parsed;
    and the adapter of the other side gives the segment back, with the ports and
    the checksum filled in and everything else as it was.  When the other side
    is still listening (bound to any address) and the segment is a SYN, it takes
    the endpoints of the connection from the datagram. *)
Theorem segment_over_ip `{NumericResolver getaddrinfo getnameinfo} ia pa ib pb dn up dn' up' any other seg :
  u32_val ia -> u32_val ib -> u16_val pa -> u16_val pb -> fits seg -> u32_val any ->
  exists d bytes d' v pl,
    let sent := set_ports pa pb seg in
    let arrived := mkTCPSegment (TCPSegment.set_cksum v (TCPSegment.header sent)) pl in
    wrap_tcp_in_ip getnameinfo seg (connected ia pa ib pb dn up) = Ok (sent, d) /\
    IPv4Datagram_serialize d = Ok bytes /\
    IPv4Datagram_parse (Buffer_of (concatenate bytes)) IPv4Datagram_default = Ok (NoError, d') /\
    unwrap_tcp_in_ip getaddrinfo getnameinfo d' (connected ib pb ia pa dn' up') =
      (Ok (Some arrived), connected ib pb ia pa dn' up') /\
    str pl = str (TCPSegment.payload seg) /\
    (syn (TCPSegment.header seg) = true -> rst (TCPSegment.header seg) = false ->
      exists pl', unwrap_tcp_in_ip getaddrinfo getnameinfo d' (listener any pb other dn' up') =
        (Ok (Some (mkTCPSegment (TCPSegment.header arrived) pl')), connected ib pb ia pa dn' up') /\
        str pl' = str (TCPSegment.payload seg)).
Proof.
  intros Hia Hib Hpa Hpb Hf Hany.
  destruct (wrap_tcp_in_ip_eq ia pa ib pb dn up Hia Hib Hpa Hpb seg Hf) as (bl & v & Ew & Hl & Hp).
  destruct (ip_header_wf ia ib Hia Hib seg Hf) as [Hw Ht]. pose proof Hw as []. pose proof Hf as ([] & _ & _).
  set (d := mkIPv4Datagram _ bl) in Ew.
  assert (len (concatenate (IPv4.payload d)) = tot_len (IPv4.header d) - 4 * hlen (IPv4.header d)) as Hld
    by (change (concatenate (IPv4.payload d)) with (concatenate bl); by rewrite Hl).
  destruct (IPv4Datagram_parse_serialize d IPv4Datagram_default Hw Hld) as (bytes & w & Es & Hlen & _ & Hpd).
  pose proof (IPv4.wf_tot_len (IPv4.header d) Hw).
  destruct (Hpd (Buffer_of (concatenate bytes))) as (b & Ed & Hb & Sb);
    [apply wf_Buffer_of; lia|apply str_Buffer_of; lia|].
  destruct (unwrap_connected ia pa ib pb dn' up' Hia Hib Hpa Hpb seg (str (TCPSegment.payload seg)) v w b (Hp b Hb Sb))
    as (pl & Eu & Hpl & Spl).
  exists d, bytes, (mkIPv4Datagram (IPv4.set_cksum w (IPv4.header d)) (BufferList_of_Buffer b)), v, pl.
  split; [exact Ew|]. split; [exact Es|]. split; [exact Ed|]. split; [exact Eu|]. split; [exact Spl|].
  intros Hs Hr. destruct (unwrap_listener ia pa ib pb dn' up' Hia Hib Hpa Hpb seg (str (TCPSegment.payload seg)) v w b any other
    Hany Hs Hr (Hp b Hb Sb)) as (pl' & Eu' & _ & Spl'). by exists pl'.
Qed.

Lemma example_fits : fits example_segment.
Proof. split; [apply example_header_wf|]. split; [by apply wf_Buffer_of|by vm_compute]. Qed.

Lemma segment_over_ip_witness :
  exists d d' v pl,
    wrap_tcp_in_ip name_numeric example_segment (connected 0x0a000001 1234 0x0a000002 80 0 0) =
      Ok (set_ports 1234 80 example_segment, d) /\
    unwrap_tcp_in_ip resolve_numeric name_numeric d' (connected 0x0a000002 80 0x0a000001 1234 0 0) =
      (Ok (Some (mkTCPSegment (TCPSegment.set_cksum v (TCPSegment.header (set_ports 1234 80 example_segment))) pl)),
       connected 0x0a000002 80 0x0a000001 1234 0 0) /\ str pl = lit "hello".
Proof.
  destruct (segment_over_ip (getaddrinfo := resolve_numeric) (getnameinfo := name_numeric)
    0x0a000001 1234 0x0a000002 80 0 0 0 0 0 (ipv4 0) example_segment) as (d & bytes & d' & v & pl & H1 & _ & _ & H2 & H3 & _).
  - by vm_compute.
  - by vm_compute.
  - by vm_compute.
  - by vm_compute.
  - apply example_fits.
  - by vm_compute.
  - exists d, d', v, pl. split; [exact H1|]. split; [exact H2|]. rewrite H3. by vm_compute.
Defined.

(** C34: Only segments of the connection come through.  What [unwrap_tcp_in_ip]
    returns was parsed from the datagram's payload with a correct checksum; an
    adapter that is not listening returns it only when both addresses and both
    ports are those of its connection, and does not change; a listening one
    only for a SYN without RST to its port, and it stops listening. *)
Theorem unwrap_filters getaddrinfo getnameinfo d a seg a' :
  unwrap_tcp_in_ip getaddrinfo getnameinfo d a = (Ok (Some seg), a') ->
  proto (IPv4.header d) = PROTO_TCP /\
  (exists b, to_Buffer (IPv4.payload d) = Ok b /\
    TCPSegment_parse b (pseudo_cksum (IPv4.header d)) TCPSegment_default = Ok (NoError, seg)) /\
  port getnameinfo (source (config a)) = Ok (dport (TCPSegment.header seg)) /\
  port getnameinfo (destination (config a')) = Ok (sport (TCPSegment.header seg)) /\
  listening a' = false /\
  (if listening a
   then syn (TCPSegment.header seg) = true /\ rst (TCPSegment.header seg) = false
   else a' = a /\ ipv4_numeric (source (config a)) = Ok (IPv4.dst (IPv4.header d)) /\
     ipv4_numeric (destination (config a)) = Ok (IPv4.src (IPv4.header d))).
Proof.
  unfold unwrap_tcp_in_ip, start_connection, andthen, gets, lift, returns, modify. cbn [id].
  destruct (listening a) eqn:Hlis; cbn [negb].
  - destruct (Z.eqb_spec (proto (IPv4.header d)) PROTO_TCP) as [Hp|]; cbn [negb]; [|done].
    destruct (to_Buffer (IPv4.payload d)) as [b|] eqn:Eb; cbn [bind]; [|done].
    destruct (TCPSegment_parse _ _ _) as [[r s]|] eqn:Es; [|done]. case_bool_decide; cbn [negb]; [|done]. subst r.
    destruct (port getnameinfo (source (config a))) as [p|] eqn:Ep; [|done].
    destruct (Z.eqb_spec (dport (TCPSegment.header s)) p) as [Hd|]; cbn [negb]; [|done].
    destruct (syn (TCPSegment.header s)) eqn:Hs; cbn [andb]; [|done].
    destruct (rst (TCPSegment.header s)) eqn:Hr; cbn [negb]; [done|].
    rewrite Ep. destruct (Address_of_ip getaddrinfo _ p) as [s1|]; [|done]. destruct (Address_of_ip getaddrinfo _ (sport _)) as [d1|]; [|done].
    cbn [negb]. destruct (port getnameinfo (destination (config (set_listening _ _)))) as [q|] eqn:Eq; [|done].
    destruct (Z.eqb_spec (sport (TCPSegment.header s)) q) as [Hq|]; cbn [negb]; [|done].
    intros [= <- <-]. rewrite Hd. split_and!; try done; [by exists b|]. by rewrite Hq.
  - destruct (ipv4_numeric (source (config a))) as [x|]; [|done].
    destruct (Z.eqb_spec (IPv4.dst (IPv4.header d)) x) as [Hx|]; cbn [negb]; [|done].
    destruct (ipv4_numeric (destination (config a))) as [y|]; [|done].
    destruct (Z.eqb_spec (IPv4.src (IPv4.header d)) y) as [Hy|]; cbn [negb]; [|done].
    destruct (Z.eqb_spec (proto (IPv4.header d)) PROTO_TCP) as [Hp|]; cbn [negb]; [|done].
    destruct (to_Buffer (IPv4.payload d)) as [b|] eqn:Eb; cbn [bind]; [|done].
    destruct (TCPSegment_parse _ _ _) as [[r s]|] eqn:Es; [|done]. case_bool_decide; cbn [negb]; [|done]. subst r.
    destruct (port getnameinfo (source (config a))) as [p|] eqn:Ep; [|done].
    destruct (Z.eqb_spec (dport (TCPSegment.header s)) p) as [Hd|]; cbn [negb]; [|done].
    destruct (port getnameinfo (destination (config a))) as [q|] eqn:Eq; [|done].
    destruct (Z.eqb_spec (sport (TCPSegment.header s)) q) as [Hq|]; cbn [negb]; [|done].
    intros [= <- <-]. rewrite Hd, Hq, Hx, Hy. split_and!; try done. by exists b.
Qed.

Definition example_ip_dgram : IPv4Datagram :=
  match wrap_tcp_in_ip name_numeric example_segment (connected 0x0a000001 1234 0x0a000002 80 0 0) with
  | Ok (_, d) => mkIPv4Datagram (IPv4.header d) (BufferList_of_Buffer (Buffer_of (concatenate (IPv4.payload d))))
  | Throw _ => IPv4Datagram_default
  end.

Lemma unwrap_filters_witness :
  port name_numeric (endpoint 0x0a000002 80) = Ok 80 /\ ipv4_numeric (endpoint 0x0a000001 1234) = Ok (IPv4.src (IPv4.header example_ip_dgram)).
Proof.
  destruct (unwrap_tcp_in_ip resolve_numeric name_numeric example_ip_dgram (connected 0x0a000002 80 0x0a000001 1234 0 0)) as [r a'] eqn:E.
  assert (match r with Ok (Some s) => dport (TCPSegment.header s) = 80 | _ => False end) as Hr.
  { change r with (r, a').1. rewrite <- E. by vm_compute. }
  destruct r as [[s|]|]; [|contradiction|contradiction].
  destruct (unwrap_filters _ _ _ _ _ _ E) as (_ & _ & H1 & _ & _ & _ & _ & H2). rewrite Hr in H1. split; [exact H1|exact H2].
Defined.

(** ** Losing segments *)

Section lossy_spec.
Context `{FdAdapter A Input Output} {G : Type} (draw : G -> Z * G).

(** Whether the next draw drops a segment at a given loss rate, and the generator
    after it. *)
Definition drops (loss : Z) (g : G) : bool := negb (loss =? 0) && (u16 (draw g).1 <? loss).
Definition drawn (loss : Z) (g : G) : G := if loss =? 0 then g else (draw g).2.

Lemma should_drop_eq (uplink : bool) (g : G) (a : A) :
  let loss := if uplink then loss_rate_up (adapter_config a) else loss_rate_dn (adapter_config a) in
  _should_drop draw uplink (mkLossyFdAdapter g a) = (drops loss g, mkLossyFdAdapter (drawn loss g) a).
Proof.
  unfold _should_drop, drops, drawn. cbn [_adapter _rand].
  destruct (if uplink then _ else _) as [|p|p]; cbn [Z.eqb]; [done| |]; by destruct (draw g).
Qed.

(** The lossy adapter only loses.  A read does to the wrapped adapter what its
    own read does, and gives its segment or, when the draw is below the downlink
    loss rate, nothing; a write gives the segment to the wrapped adapter or, when
    the draw is below the uplink rate, to no one.  With a rate of zero nothing is
    drawn and nothing is lost in that direction. *)
Theorem lossy_only_loses (input : Input) (seg : TCPSegment) (g : G) (a : A) :
  lossy_read draw input (mkLossyFdAdapter g a) =
    (let '(r, a') := adapter_read input a in
     match r with
     | Ok ret =>
         let loss := loss_rate_dn (adapter_config a') in
         (Ok (if drops loss g then None else ret), mkLossyFdAdapter (drawn loss g) a')
     | Throw e => (Throw e, mkLossyFdAdapter g a')
     end) /\
  lossy_write draw seg (mkLossyFdAdapter g a) =
    (let loss := loss_rate_up (adapter_config a) in
     (if drops loss g then Ok (seg, None) else let* (s, out) := adapter_write seg a in Ok (s, Some out),
      mkLossyFdAdapter (drawn loss g) a)) /\
  drops 0 g = false /\ drawn 0 g = g.
Proof.
  split_and!; [| |done|done].
  - unfold lossy_read. cbn [_adapter _rand]. destruct (adapter_read input a) as [[ret|e] a']; [|done].
    by rewrite (should_drop_eq false).
  - unfold lossy_write. rewrite (should_drop_eq true). by destruct (drops _ g).
Qed.
End lossy_spec.

(** A segment over UDP: the port numbers are set, and the peer whose destination
    the datagram comes from reads the segment back. *)
Lemma segment_over_udp `{NumericResolver getaddrinfo getnameinfo} ia pa ib pb dn up dn' up' seg :
  u32_val ia -> u32_val ib -> u16_val pa -> u16_val pb -> fits seg ->
  exists bl v pl,
    udp_write getnameinfo seg (connected ia pa ib pb dn up) = Ok (set_ports pa pb seg, (endpoint ib pb, bl)) /\
    udp_read (mkReceived (endpoint ia pa) (concatenate bl)) (connected ib pb ia pa dn' up') =
      (Ok (Some (mkTCPSegment (TCPSegment.set_cksum v (TCPSegment.header (set_ports pa pb seg))) pl)), connected ib pb ia pa dn' up') /\
    str pl = str (TCPSegment.payload seg).
Proof.
  intros Hia Hib Hpa Hpb (Hw & Hb & Hl). pose proof (TCPSegment.wf_doff _ Hw).
  destruct (TCPSegment_parse_serialize 0 (set_ports pa pb seg) TCPSegment_default) as (bl & v & E & _ & Hlen & Hp);
    [by apply set_ports_wf|done|lia|simpl; lia|]. simpl in Hlen.
  destruct (Hp (Buffer_of (concatenate bl))) as (pl & Ep & _ & Spl); [apply wf_Buffer_of; lia|apply str_Buffer_of; lia|].
  exists bl, v, pl. split_and!; [| |done].
  - unfold udp_write, connected. cbn [config _cfg source destination]. rewrite !port_endpoint by done. cbn [bind]. by rewrite E.
  - unfold udp_read, andthen, gets, lift, returns, connected.
    cbn [id listening _listen config _cfg destination source_address recv_payload]. rewrite Address_eq_refl. cbn [negb andb].
    rewrite Ep. by rewrite bool_decide_true.
Qed.
