(* ===== verification/NetworkInterface.v ===== *)
(** The network interface: [NetworkInterface] of [libsponge/network_interface.hh]
    and [network_interface.cc], which turns datagrams into Ethernet frames with
    ARP and back.

    A method that may throw is a [method]: it gives its result or the exception,
    and the object as it is then.  [recv_frame] and [tick] contain loops and are
    [None] when a loop does not end.  The loop of [recv_frame] over the waiting
    datagrams takes as many turns as there are datagrams; [recv_frame_returns]
    shows that this is enough.  The loop of [tick] over the pending requests
    stays at a request as long as its timer runs out, which may be for ever; a
    run that ends visits each request at most twice. *)
From S2P Require Import Prelude StdMap Buffer Parser IPv4 Ethernet Address.

Record ARP_Entry := mkARP_Entry { eth_addr : EthernetAddress; ttl : Z }.

Definition _arp_entry_default_ttl : Z := 30 * 1000.
Definition _arp_response_default_ttl : Z := 5 * 1000.

Record NetworkInterface := mkNetworkInterface {
  _ethernet_address : EthernetAddress;
  _ip_address : Address;
  _frames_out : list EthernetFrame;
  _arp_table : list (Z * ARP_Entry);
  _waiting_arp_response_ip_addr : list (Z * Z);
  _waiting_arp_internet_datagrams : list (Address * IPv4Datagram) }.

(** The constructor, without the line it prints. *)
Definition NetworkInterface_of (ethernet_address : EthernetAddress) (ip_address : Address) : NetworkInterface :=
  mkNetworkInterface ethernet_address ip_address [] [] [] [].

(** ** Updates of one member *)

Definition push_frame (f : EthernetFrame) (n : NetworkInterface) : NetworkInterface :=
  mkNetworkInterface (_ethernet_address n) (_ip_address n) (_frames_out n ++ [f]) (_arp_table n)
    (_waiting_arp_response_ip_addr n) (_waiting_arp_internet_datagrams n).
Definition set_frames_out (q : list EthernetFrame) (n : NetworkInterface) : NetworkInterface :=
  mkNetworkInterface (_ethernet_address n) (_ip_address n) q (_arp_table n)
    (_waiting_arp_response_ip_addr n) (_waiting_arp_internet_datagrams n).
Definition set_arp_table (t : list (Z * ARP_Entry)) (n : NetworkInterface) : NetworkInterface :=
  mkNetworkInterface (_ethernet_address n) (_ip_address n) (_frames_out n) t
    (_waiting_arp_response_ip_addr n) (_waiting_arp_internet_datagrams n).
Definition set_pending (w : list (Z * Z)) (n : NetworkInterface) : NetworkInterface :=
  mkNetworkInterface (_ethernet_address n) (_ip_address n) (_frames_out n) (_arp_table n)
    w (_waiting_arp_internet_datagrams n).
Definition set_datagrams (q : list (Address * IPv4Datagram)) (n : NetworkInterface) : NetworkInterface :=
  mkNetworkInterface (_ethernet_address n) (_ip_address n) (_frames_out n) (_arp_table n)
    (_waiting_arp_response_ip_addr n) q.

(** ** Frames *)

Definition make_ARP (result : ARPMessage) (opcode : Z) (sender_ethernet_address : EthernetAddress) (sender_ip_address : Z)
    (target_ethernet_address : EthernetAddress) (target_ip_address : Z) : ARPMessage :=
  mkARPMessage (hardware_type result) (protocol_type result) (hardware_address_size result) (protocol_address_size result)
    opcode sender_ethernet_address sender_ip_address target_ethernet_address target_ip_address.

(** The three overloads of [make_and_send_ETHframe]. *)
Definition make_and_send_ETHframe (arp : ARPMessage) : method NetworkInterface unit :=
  do n := gets id in
  do payload := lift (ARPMessage_serialize arp) in
  modify (push_frame (mkEthernetFrame (mkEthernetHeader ETHERNET_BROADCAST (_ethernet_address n) TYPE_ARP)
    (BufferList_of_string payload))).

Definition make_and_send_ETHframe_to (src_eth_addr : EthernetAddress) (arp : ARPMessage) : method NetworkInterface unit :=
  do n := gets id in
  do payload := lift (ARPMessage_serialize arp) in
  modify (push_frame (mkEthernetFrame (mkEthernetHeader src_eth_addr (_ethernet_address n) TYPE_ARP)
    (BufferList_of_string payload))).

Definition make_and_send_ETHframe_dgram (dgram : IPv4Datagram) (apr_entry : ARP_Entry) : method NetworkInterface unit :=
  do n := gets id in
  do payload := lift (IPv4Datagram_serialize dgram) in
  modify (push_frame (mkEthernetFrame (mkEthernetHeader (eth_addr apr_entry) (_ethernet_address n) TYPE_IPv4) payload)).

(** [{}] for an [EthernetAddress] *)
Definition no_address : EthernetAddress := replicate 6 (z2b 0).

(** Asking for the owner of [ip]. *)
Definition send_arp_request (ip : Z) : method NetworkInterface unit :=
  do n := gets id in
  do my_ip := lift (ipv4_numeric (_ip_address n)) in
  make_and_send_ETHframe (make_ARP ARPMessage_default OPCODE_REQUEST (_ethernet_address n) my_ip no_address ip).

(** ** Sending *)

Definition send_datagram (dgram : IPv4Datagram) (next_hop : Address) : method NetworkInterface unit :=
  do next_hop_ip_address := lift (ipv4_numeric next_hop) in
  do n := gets id in
  match find next_hop_ip_address (_arp_table n) with
  | None =>
      do _ :=
        match find next_hop_ip_address (_waiting_arp_response_ip_addr n) with
        | None =>
            do _ := send_arp_request next_hop_ip_address in
            modify (fun n => set_pending (assign next_hop_ip_address _arp_response_default_ttl (_waiting_arp_response_ip_addr n)) n)
        | Some _ => returns tt
        end in
      modify (fun n => set_datagrams (_waiting_arp_internet_datagrams n ++ [(next_hop, dgram)]) n)
  | Some apr_entry => make_and_send_ETHframe_dgram dgram apr_entry
  end.

(** ** Receiving *)

(** The loop over the waiting datagrams, with [iter] at position [i]. *)
Fixpoint send_waiting (fuel : nat) (src_ip_addr : Z) (i : nat) (n : NetworkInterface) : option (result unit * NetworkInterface) :=
  match _waiting_arp_internet_datagrams n !! i with
  | None => Some (Ok tt, n)
  | Some (next_hop, dgram) =>
      match fuel with
      | O => None
      | S fuel =>
          match ipv4_numeric next_hop with
          | Throw e => Some (Throw e, n)
          | Ok ip =>
              if ip =? src_ip_addr then
                match send_datagram dgram next_hop n with
                | (Throw e, n) => Some (Throw e, n)
                | (Ok _, n) => send_waiting fuel src_ip_addr i (set_datagrams (delete i (_waiting_arp_internet_datagrams n)) n)
                end
              else send_waiting fuel src_ip_addr (S i) n
          end
      end
  end.

(** What [recv_frame] does with an ARP message, up to the loop. *)
Definition answer_arp (arp_msg : ARPMessage) : method NetworkInterface bool :=
  do n := gets id in
  do my_ip := (if opcode arp_msg =? OPCODE_REQUEST then lift (ipv4_numeric (_ip_address n)) else returns 0) in
  let is_valid_arp_request := (opcode arp_msg =? OPCODE_REQUEST) && (target_ip_address arp_msg =? my_ip) in
  let is_valid_arp_response :=
    (opcode arp_msg =? OPCODE_REPLY) && bool_decide (target_ethernet_address arp_msg = _ethernet_address n) in
  do _ :=
    if is_valid_arp_request then
      do my_ip := lift (ipv4_numeric (_ip_address n)) in
      make_and_send_ETHframe_to (sender_ethernet_address arp_msg)
        (make_ARP ARPMessage_default OPCODE_REPLY (_ethernet_address n) my_ip
          (sender_ethernet_address arp_msg) (sender_ip_address arp_msg))
    else returns tt in
  if is_valid_arp_request || is_valid_arp_response then
    do _ := modify (fun n => set_arp_table (assign (sender_ip_address arp_msg)
      (mkARP_Entry (sender_ethernet_address arp_msg) _arp_entry_default_ttl) (_arp_table n)) n) in
    returns true
  else returns false.

Definition recv_arp (arp_msg : ARPMessage) (n : NetworkInterface) : option (result unit * NetworkInterface) :=
  match answer_arp arp_msg n with
  | (Throw e, n) => Some (Throw e, n)
  | (Ok false, n) => Some (Ok tt, n)
  | (Ok true, n) =>
      match send_waiting (length (_waiting_arp_internet_datagrams n)) (sender_ip_address arp_msg) 0 n with
      | Some (Ok _, n) => Some (Ok tt, set_pending (erase (sender_ip_address arp_msg) (_waiting_arp_response_ip_addr n)) n)
      | r => r
      end
  end.

Definition recv_frame (frame : EthernetFrame) (n : NetworkInterface) : option (result (option IPv4Datagram) * NetworkInterface) :=
  let h := Ethernet.header frame in
  if negb (bool_decide (Ethernet.dst h = _ethernet_address n)) && negb (bool_decide (Ethernet.dst h = ETHERNET_BROADCAST))
  then Some (Ok None, n)
  else if type h =? TYPE_IPv4 then
    match (let* b := to_Buffer (Ethernet.payload frame) in IPv4Datagram_parse b IPv4Datagram_default) with
    | Throw e => Some (Throw e, n)
    | Ok (NoError, datagram) => Some (Ok (Some datagram), n)
    | Ok (_, _) => Some (Ok None, n)
    end
  else if type h =? TYPE_ARP then
    match (let* b := to_Buffer (Ethernet.payload frame) in ARPMessage_parse b ARPMessage_default) with
    | Throw e => Some (Throw e, n)
    | Ok (NoError, arp_msg) =>
        match recv_arp arp_msg n with
        | None => None
        | Some (Throw e, n) => Some (Throw e, n)
        | Some (Ok _, n) => Some (Ok None, n)
        end
    | Ok (_, _) => Some (Ok None, n)
    end
  else Some (Ok None, n).

(** ** Time *)

Definition age_entry (ms_since_last_tick : Z) (e : ARP_Entry) : option ARP_Entry :=
  if ttl e <=? ms_since_last_tick then None else Some (mkARP_Entry (eth_addr e) (u64 (ttl e - ms_since_last_tick))).

(** The loop over the pending requests: [pre] is what [iter] has passed. *)
Fixpoint retry_loop (fuel : nat) (ms_since_last_tick : Z) (pre rest : list (Z * Z)) (n : NetworkInterface) :
    option (result unit * NetworkInterface) :=
  match rest with
  | [] => Some (Ok tt, n)
  | (ip, t) :: rest' =>
      match fuel with
      | O => None
      | S fuel =>
          if t <=? ms_since_last_tick then
            match send_arp_request ip n with
            | (Throw e, n) => Some (Throw e, n)
            | (Ok _, n) =>
                let rest := (ip, _arp_response_default_ttl) :: rest' in
                retry_loop fuel ms_since_last_tick pre rest (set_pending (pre ++ rest) n)
            end
          else
            let pre := pre ++ [(ip, u64 (t - ms_since_last_tick))] in
            retry_loop fuel ms_since_last_tick pre rest' (set_pending (pre ++ rest') n)
      end
  end.

(** [tick] with at most [fuel] turns of its second loop. *)
Definition tick_fuel (fuel : nat) (ms_since_last_tick : Z) (n : NetworkInterface) : option (result unit * NetworkInterface) :=
  let n := set_arp_table (visit (age_entry ms_since_last_tick) (_arp_table n)) n in
  retry_loop fuel ms_since_last_tick [] (_waiting_arp_response_ip_addr n) n.

Definition tick (ms_since_last_tick : Z) (n : NetworkInterface) : option (result unit * NetworkInterface) :=
  tick_fuel (2 * length (_waiting_arp_response_ip_addr n)) ms_since_last_tick n.

(** ** What the methods send *)

Definition push_frames (fs : list EthernetFrame) (n : NetworkInterface) : NetworkInterface :=
  set_frames_out (_frames_out n ++ fs) n.

(** A datagram that can be serialized: its fields are in range and its payload
    has the length its header gives. *)
Definition sendable (d : IPv4Datagram) : Prop :=
  IPv4.wf_header (IPv4.header d) /\
  len (concatenate (IPv4.payload d)) = tot_len (IPv4.header d) - 4 * hlen (IPv4.header d).

Definition arp_payload (m : ARPMessage) : BufferList :=
  match ARPMessage_serialize m with Ok s => BufferList_of_string s | Throw _ => BufferList_empty end.
Definition dgram_payload (d : IPv4Datagram) : BufferList :=
  match IPv4Datagram_serialize d with Ok bl => bl | Throw _ => BufferList_empty end.

Definition request (my_eth : EthernetAddress) (my_ip ip : Z) : ARPMessage :=
  mkARPMessage TYPE_ETHERNET TYPE_IPv4 6 4 OPCODE_REQUEST my_eth my_ip no_address ip.
Definition reply (my_eth : EthernetAddress) (my_ip : Z) (eth : EthernetAddress) (ip : Z) : ARPMessage :=
  mkARPMessage TYPE_ETHERNET TYPE_IPv4 6 4 OPCODE_REPLY my_eth my_ip eth ip.

Definition request_frame (my_eth : EthernetAddress) (my_ip ip : Z) : EthernetFrame :=
  mkEthernetFrame (mkEthernetHeader ETHERNET_BROADCAST my_eth TYPE_ARP) (arp_payload (request my_eth my_ip ip)).
Definition reply_frame (my_eth : EthernetAddress) (my_ip : Z) (eth : EthernetAddress) (ip : Z) : EthernetFrame :=
  mkEthernetFrame (mkEthernetHeader eth my_eth TYPE_ARP) (arp_payload (reply my_eth my_ip eth ip)).
Definition dgram_frame (my_eth eth : EthernetAddress) (d : IPv4Datagram) : EthernetFrame :=
  mkEthernetFrame (mkEthernetHeader eth my_eth TYPE_IPv4) (dgram_payload d).

Definition u32_value (ip : Z) : Prop := 0 <= ip < 2 ^ 32.

(** The interface's own addresses. *)
Definition addressed (n : NetworkInterface) (my_ip : Z) : Prop :=
  length (_ethernet_address n) = 6%nat /\ ipv4_numeric (_ip_address n) = Ok my_ip /\ u32_value my_ip.

Lemma request_wf my_eth my_ip ip :
  length my_eth = 6%nat -> u32_value my_ip -> u32_value ip -> wf_message (request my_eth my_ip ip).
Proof. intros. by split. Qed.

Lemma reply_wf my_eth my_ip eth ip :
  length my_eth = 6%nat -> u32_value my_ip -> length eth = 6%nat -> u32_value ip -> wf_message (reply my_eth my_ip eth ip).
Proof. intros. by split. Qed.

Lemma arp_payload_eq m : wf_message m -> exists s, ARPMessage_serialize m = Ok s /\ arp_payload m = BufferList_of_string s.
Proof.
  intros Hm. destruct (ARPMessage_parse_serialize m ARPMessage_default Hm) as (s & E & _). exists s.
  unfold arp_payload. by rewrite E.
Qed.

Lemma dgram_payload_eq d : sendable d -> IPv4Datagram_serialize d = Ok (dgram_payload d).
Proof.
  intros [Hw Hl]. destruct (IPv4Datagram_parse_serialize d IPv4Datagram_default Hw Hl) as (bl & v & E & _).
  unfold dgram_payload. by rewrite E.
Qed.

Lemma send_arp_request_eq ip n my_ip :
  addressed n my_ip -> u32_value ip ->
  send_arp_request ip n = (Ok tt, push_frame (request_frame (_ethernet_address n) my_ip ip) n).
Proof.
  intros (He & Hi & Hm) Hip. unfold send_arp_request, andthen, gets, lift. cbn [id]. rewrite Hi.
  unfold make_and_send_ETHframe, andthen, gets, lift, make_ARP. cbn [id].
  change (mkARPMessage _ _ _ _ _ _ _ _ _) with (request (_ethernet_address n) my_ip ip).
  destruct (arp_payload_eq _ (request_wf _ _ _ He Hm Hip)) as (s & E & Ep). rewrite E.
  unfold modify, request_frame. by rewrite Ep.
Qed.

Lemma send_reply_eq eth ip n my_ip :
  addressed n my_ip -> length eth = 6%nat -> u32_value ip ->
  make_and_send_ETHframe_to eth (reply (_ethernet_address n) my_ip eth ip) n =
    (Ok tt, push_frame (reply_frame (_ethernet_address n) my_ip eth ip) n).
Proof.
  intros (He & Hi & Hm) Heth Hip. unfold make_and_send_ETHframe_to, andthen, gets, lift. cbn [id].
  destruct (arp_payload_eq _ (reply_wf _ _ _ _ He Hm Heth Hip)) as (s & E & Ep). rewrite E.
  unfold modify, reply_frame. by rewrite Ep.
Qed.

Lemma send_dgram_eq d e n :
  sendable d ->
  make_and_send_ETHframe_dgram d e n = (Ok tt, push_frame (dgram_frame (_ethernet_address n) (eth_addr e) d) n).
Proof.
  intros Hd. unfold make_and_send_ETHframe_dgram, andthen, gets, lift. cbn [id]. by rewrite dgram_payload_eq.
Qed.

(** The three cases of [send_datagram]. *)
Lemma send_known d next_hop ip e n :
  ipv4_numeric next_hop = Ok ip -> find ip (_arp_table n) = Some e -> sendable d ->
  send_datagram d next_hop n = (Ok tt, push_frame (dgram_frame (_ethernet_address n) (eth_addr e) d) n).
Proof.
  intros Hn Hf Hd. unfold send_datagram. unfold andthen at 1, lift. rewrite Hn.
  unfold andthen at 1, gets. cbn [id]. rewrite Hf. by apply send_dgram_eq.
Qed.

Lemma send_pending d next_hop ip t n :
  ipv4_numeric next_hop = Ok ip -> find ip (_arp_table n) = None -> find ip (_waiting_arp_response_ip_addr n) = Some t ->
  send_datagram d next_hop n = (Ok tt, set_datagrams (_waiting_arp_internet_datagrams n ++ [(next_hop, d)]) n).
Proof.
  intros Hn Hf Hp. unfold send_datagram. unfold andthen at 1, lift. rewrite Hn.
  unfold andthen at 1, gets. cbn [id]. rewrite Hf, Hp. done.
Qed.

Lemma send_unknown d next_hop ip n my_ip :
  addressed n my_ip -> ipv4_numeric next_hop = Ok ip -> u32_value ip ->
  find ip (_arp_table n) = None -> find ip (_waiting_arp_response_ip_addr n) = None ->
  send_datagram d next_hop n =
    (Ok tt, mkNetworkInterface (_ethernet_address n) (_ip_address n)
      (_frames_out n ++ [request_frame (_ethernet_address n) my_ip ip]) (_arp_table n)
      (assign ip _arp_response_default_ttl (_waiting_arp_response_ip_addr n))
      (_waiting_arp_internet_datagrams n ++ [(next_hop, d)])).
Proof.
  intros Ha Hn Hip Hf Hp. unfold send_datagram. unfold andthen at 1, lift. rewrite Hn.
  unfold andthen at 1, gets. cbn [id]. rewrite Hf, Hp. unfold andthen at 1. unfold andthen at 1.
  by rewrite (send_arp_request_eq ip n my_ip).
Qed.

(** ** Learning an address *)

Definition for_ip (ip : Z) (p : Address * IPv4Datagram) : bool :=
  match ipv4_numeric p.1 with Ok x => x =? ip | Throw _ => false end.
Definition not_for_ip (ip : Z) (p : Address * IPv4Datagram) : bool := negb (for_ip ip p).

Definition numeric (p : Address * IPv4Datagram) : Prop := exists x, ipv4_numeric p.1 = Ok x.

Lemma send_waiting_eq fuel ip e pre todo n :
  (length todo <= fuel)%nat -> _waiting_arp_internet_datagrams n = pre ++ todo ->
  find ip (_arp_table n) = Some e -> Forall (fun p => numeric p /\ sendable p.2) todo ->
  send_waiting fuel ip (length pre) n =
    Some (Ok tt, set_datagrams (pre ++ List.filter (not_for_ip ip) todo)
      (push_frames (map (fun p => dgram_frame (_ethernet_address n) (eth_addr e) p.2) (List.filter (for_ip ip) todo)) n)).
Proof.
  revert pre todo n. induction fuel as [|fuel IH]; intros pre todo n Hlen Hw Hf Hall.
  all: destruct todo as [|[nh d] todo]; [|try (simpl in Hlen; lia)].
  1,2: rewrite app_nil_r in Hw; cbn [send_waiting]; rewrite Hw, lookup_ge_None_2 by done; destruct n; simpl in *; subst;
    unfold push_frames, set_datagrams, set_frames_out; simpl; by rewrite !app_nil_r.
  apply Forall_cons in Hall as [[[x Hx] Hd] Hall]. cbn [fst snd] in *.
  cbn [send_waiting]. rewrite Hw, list_lookup_middle by done. rewrite Hx.
  assert (for_ip ip (nh, d) = (x =? ip)) as Hfi by (unfold for_ip; cbn [fst]; by rewrite Hx).
  cbn [List.filter]. unfold not_for_ip at 1. rewrite Hfi.
  destruct (Z.eqb_spec x ip) as [->|Hne]; cbn [negb].
  - rewrite (send_known d nh ip e n Hx Hf Hd). cbn [push_frame _waiting_arp_internet_datagrams].
    rewrite Hw, delete_middle.
    rewrite (IH pre todo) by (done || (simpl in Hlen; lia)).
    cbn [set_datagrams push_frame _ethernet_address]. unfold push_frames, set_frames_out, set_datagrams, push_frame. simpl.
    by rewrite <- app_assoc.
  - assert (_waiting_arp_internet_datagrams n = (pre ++ [(nh, d)]) ++ todo) as Hw' by (by rewrite <- app_assoc).
    replace (S (length pre)) with (length (pre ++ [(nh, d)])) by (rewrite length_app; simpl; lia).
    rewrite (IH (pre ++ [(nh, d)]) todo) by (done || (simpl in Hlen; lia)). by rewrite <- app_assoc.
Qed.

Definition is_request (m : ARPMessage) (my_ip : Z) : bool := (opcode m =? OPCODE_REQUEST) && (target_ip_address m =? my_ip).

(** The messages the interface learns from. *)
Definition accepted (m : ARPMessage) (my_eth : EthernetAddress) (my_ip : Z) : bool :=
  is_request m my_ip || ((opcode m =? OPCODE_REPLY) && bool_decide (target_ethernet_address m = my_eth)).

Definition answers (m : ARPMessage) (my_eth : EthernetAddress) (my_ip : Z) : list EthernetFrame :=
  if is_request m my_ip
  then [reply_frame my_eth my_ip (sender_ethernet_address m) (sender_ip_address m)] else [].

(** The interface after an accepted message: the reply to a request is sent, the
    sender is known, and what waited for it is sent. *)
Definition learned (m : ARPMessage) (my_ip : Z) (n : NetworkInterface) : NetworkInterface :=
  let ip := sender_ip_address m in
  mkNetworkInterface (_ethernet_address n) (_ip_address n)
    (_frames_out n ++ answers m (_ethernet_address n) my_ip ++
      map (fun p => dgram_frame (_ethernet_address n) (sender_ethernet_address m) p.2)
        (List.filter (for_ip ip) (_waiting_arp_internet_datagrams n)))
    (assign ip (mkARP_Entry (sender_ethernet_address m) _arp_entry_default_ttl) (_arp_table n))
    (erase ip (_waiting_arp_response_ip_addr n))
    (List.filter (not_for_ip ip) (_waiting_arp_internet_datagrams n)).

Definition table_with (m : ARPMessage) (n : NetworkInterface) : NetworkInterface :=
  set_arp_table (assign (sender_ip_address m) (mkARP_Entry (sender_ethernet_address m) _arp_entry_default_ttl) (_arp_table n)) n.

Lemma answer_arp_eq m n my_ip :
  addressed n my_ip -> wf_message m ->
  answer_arp m n =
    if accepted m (_ethernet_address n) my_ip
    then (Ok true, table_with m (push_frames (answers m (_ethernet_address n) my_ip) n)) else (Ok false, n).
Proof.
  intros Ha [Hsup Hs Hsi _ _]. pose proof Ha as (He & Hi & Hm). unfold answer_arp, accepted, answers.
  unfold andthen at 1, gets. cbn [id]. rewrite Hi.
  replace ((if opcode m =? OPCODE_REQUEST then lift (Ok my_ip) else returns 0) : method NetworkInterface Z)
    with (returns (if opcode m =? OPCODE_REQUEST then my_ip else 0) : method NetworkInterface Z) by (by destruct (opcode m =? _)).
  unfold andthen at 1, returns at 1.
  replace ((opcode m =? OPCODE_REQUEST) && (target_ip_address m =? _)) with (is_request m my_ip)
    by (unfold is_request; by destruct (opcode m =? OPCODE_REQUEST)).
  destruct (is_request m my_ip) eqn:Hr; cbn [orb].
  - unfold lift at 1. unfold andthen at 1. unfold andthen at 1.
    change (make_ARP _ _ _ _ _ _) with (reply (_ethernet_address n) my_ip (sender_ethernet_address m) (sender_ip_address m)).
    by rewrite (send_reply_eq _ _ n my_ip).
  - unfold andthen at 1, returns at 1. destruct (_ && _); [|done].
    unfold andthen, modify, returns, push_frames. rewrite app_nil_r. by destruct n.
Qed.

(** What [recv_frame] does with an ARP message. *)
Lemma recv_arp_eq m n my_ip :
  addressed n my_ip -> wf_message m ->
  Forall (fun p => numeric p /\ sendable p.2) (_waiting_arp_internet_datagrams n) ->
  recv_arp m n = Some (Ok tt, if accepted m (_ethernet_address n) my_ip then learned m my_ip n else n).
Proof.
  intros Ha Hm Hw. unfold recv_arp. rewrite (answer_arp_eq m n my_ip Ha Hm).
  destruct (accepted m (_ethernet_address n) my_ip); [|done].
  rewrite (send_waiting_eq _ _ (mkARP_Entry (sender_ethernet_address m) _arp_entry_default_ttl) []
    (_waiting_arp_internet_datagrams n)) by (try done; simpl; by rewrite find_assign, Z.eqb_refl).
  unfold learned, push_frames, set_pending, set_datagrams, set_frames_out. simpl. by rewrite <- app_assoc.
Qed.

(** ** Time *)

Definition age_request (ms : Z) (t : Z) : option Z :=
  Some (if t <=? ms then _arp_response_default_ttl - ms else t - ms).

(** The addresses that are asked for again. *)
Definition overdue (ms : Z) (pending : list (Z * Z)) : list Z :=
  map fst (List.filter (fun p => p.2 <=? ms) pending).

Lemma set_pending_id n : set_pending (_waiting_arp_response_ip_addr n) n = n.
Proof. by destruct n. Qed.

Lemma retry_loop_eq fuel ms my_ip pre rest n :
  (2 * length rest <= fuel)%nat -> addressed n my_ip -> 0 <= ms < _arp_response_default_ttl ->
  _waiting_arp_response_ip_addr n = pre ++ rest ->
  Forall (fun p => u32_value p.1 /\ 0 < p.2 < 2 ^ 64) rest ->
  retry_loop fuel ms pre rest n =
    Some (Ok tt, set_pending (pre ++ visit (age_request ms) rest)
      (push_frames (map (request_frame (_ethernet_address n) my_ip) (overdue ms rest)) n)).
Proof.
  unfold _arp_response_default_ttl. revert fuel pre n. induction rest as [|[ip t] rest IH]; intros fuel pre n Hf Ha Hms Hw Hall.
  { destruct fuel; cbn [retry_loop]; rewrite app_nil_r in Hw; unfold push_frames; simpl; destruct n; simpl in *; subst;
      unfold set_pending, set_frames_out; simpl; by rewrite !app_nil_r. }
  apply Forall_cons in Hall as [[Hip Ht] Hall]. cbn [fst snd] in *.
  destruct fuel as [|fuel]; [simpl in Hf; lia|]. simpl in Hf.
  assert (forall t' n', addressed n' my_ip -> ms < t' < 2 ^ 64 -> _waiting_arp_response_ip_addr n' = pre ++ (ip, t') :: rest ->
    forall fuel, (2 * length rest <= fuel)%nat ->
    retry_loop (S fuel) ms pre ((ip, t') :: rest) n' =
    Some (Ok tt, set_pending (pre ++ (ip, t' - ms) :: visit (age_request ms) rest)
      (push_frames (map (request_frame (_ethernet_address n') my_ip) (overdue ms rest)) n'))) as Hpass.
  { intros t' n' Ha' Ht' Hw' fuel' Hf'. cbn [retry_loop]. destruct (Z.leb_spec t' ms); [lia|]. rewrite u64_small by lia.
    rewrite (IH fuel' (pre ++ [(ip, t' - ms)])) by done. unfold push_frames, set_pending, set_frames_out. simpl. by rewrite <- app_assoc. }
  cbn [visit age_request]. unfold overdue. cbn [List.filter snd]. destruct (Z.leb_spec t ms).
  - cbn [retry_loop]. destruct (Z.leb_spec t ms); [|lia]. rewrite (send_arp_request_eq ip n my_ip Ha Hip).
    destruct fuel as [|fuel]; [lia|]. unfold _arp_response_default_ttl at 1 2.
    rewrite (Hpass (5 * 1000) (set_pending (pre ++ (ip, 5 * 1000) :: rest)
      (push_frame (request_frame (_ethernet_address n) my_ip ip) n))) by (done || lia).
    unfold push_frames, set_pending, set_frames_out, push_frame. simpl. by rewrite <- app_assoc.
  - apply (Hpass t n Ha); [lia|done|lia].
Qed.

Lemma retry_loop_stuck fuel ms my_ip pre ip rest n :
  addressed n my_ip -> u32_value ip -> _arp_response_default_ttl <= ms ->
  forall t, t <= ms -> retry_loop fuel ms pre ((ip, t) :: rest) n = None.
Proof.
  intros Ha Hip Hms. revert n Ha. induction fuel as [|fuel IH]; intros n Ha t Ht; [done|].
  cbn [retry_loop]. destruct (Z.leb_spec t ms); [|lia]. rewrite (send_arp_request_eq ip n my_ip) by done. by apply IH.
Qed.

(** ** The invariant *)

Record wf_interface (n : NetworkInterface) : Prop := {
  wi_addressed : exists my_ip, addressed n my_ip;
  wi_table_sorted : sorted (_arp_table n);
  wi_table : forall ip e, find ip (_arp_table n) = Some e ->
    u32_value ip /\ length (eth_addr e) = 6%nat /\ 0 < ttl e <= _arp_entry_default_ttl;
  wi_pending_sorted : sorted (_waiting_arp_response_ip_addr n);
  wi_pending : forall ip t, find ip (_waiting_arp_response_ip_addr n) = Some t ->
    u32_value ip /\ 0 < t <= _arp_response_default_ttl /\ find ip (_arp_table n) = None /\
    existsb (for_ip ip) (_waiting_arp_internet_datagrams n) = true;
  wi_waiting : Forall (fun p => sendable p.2 /\
    exists ip, ipv4_numeric p.1 = Ok ip /\ is_Some (find ip (_waiting_arp_response_ip_addr n)))
    (_waiting_arp_internet_datagrams n) }.

Lemma wi_numeric n : wf_interface n -> Forall (fun p => numeric p /\ sendable p.2) (_waiting_arp_internet_datagrams n).
Proof. intros H. eapply Forall_impl; [exact (wi_waiting n H)|]. intros p (Hs & ip & Hi & _). split; [by exists ip|done]. Qed.

Lemma NetworkInterface_of_wf eth a my_ip :
  length eth = 6%nat -> ipv4_numeric a = Ok my_ip -> u32_value my_ip -> wf_interface (NetworkInterface_of eth a).
Proof. intros. split; simpl; try done; try apply sorted_nil. by exists my_ip. Qed.

Lemma for_ip_eq ip p : ipv4_numeric p.1 = Ok ip -> for_ip ip p = true.
Proof. intros E. unfold for_ip. rewrite E. apply Z.eqb_refl. Qed.

Lemma send_datagram_wf d next_hop ip n :
  wf_interface n -> sendable d -> ipv4_numeric next_hop = Ok ip -> u32_value ip ->
  exists n', send_datagram d next_hop n = (Ok tt, n') /\ wf_interface n'.
Proof.
  intros [[my_ip Ha] Hts Ht Hps Hp Hw] Hd Hn Hip.
  destruct (find ip (_arp_table n)) as [e|] eqn:Ef.
  { rewrite (send_known d next_hop ip e n Hn Ef Hd). eexists. split; [done|]. split; try done. by exists my_ip. }
  destruct (find ip (_waiting_arp_response_ip_addr n)) as [t|] eqn:Ep.
  - rewrite (send_pending d next_hop ip t n Hn Ef Ep). eexists. split; [done|]. split; try done; [by exists my_ip| |].
    + intros x s E. destruct (Hp x s E) as (? & ? & ? & Hex). split_and!; try done; try lia. simpl. by rewrite existsb_app, Hex.
    + apply Forall_app. split; [done|]. apply Forall_singleton. split; [done|]. by exists ip; simpl; rewrite Ep.
  - rewrite (send_unknown d next_hop ip n my_ip Ha Hn Hip Ef Ep). eexists. split; [done|].
    split; simpl; try done; [by exists my_ip|by apply assign_sorted| |].
    + intros x s. rewrite find_assign, existsb_app. destruct (Z.eqb_spec x ip) as [->|].
      * intros [= <-]. split_and!; try done. cbn [existsb]. rewrite (for_ip_eq ip (next_hop, d) Hn). by rewrite orb_true_r.
      * intros E. destruct (Hp x s E) as (? & ? & ? & Hex). split_and!; try done; try lia. by rewrite Hex.
    + apply Forall_app. split.
      * eapply Forall_impl; [exact Hw|]. intros p (? & x & ? & Hx). split; [done|]. exists x. rewrite find_assign.
        by destruct (x =? ip).
      * apply Forall_singleton. split; [done|]. exists ip. by rewrite find_assign, Z.eqb_refl.
Qed.

Lemma existsb_filter_other ip x l :
  x <> ip -> existsb (for_ip x) (List.filter (not_for_ip ip) l) = existsb (for_ip x) l.
Proof.
  intros Hne. induction l as [|p l IH]; [done|]. cbn [List.filter existsb]. unfold not_for_ip at 1.
  destruct (for_ip ip p) eqn:E; cbn [negb existsb]; [|by rewrite IH]. rewrite IH.
  unfold for_ip in *. destruct (ipv4_numeric p.1); [|done]. apply Z.eqb_eq in E. by destruct (Z.eqb_spec a x); [lia|].
Qed.

Lemma learned_wf m my_ip n :
  wf_interface n -> addressed n my_ip -> wf_message m -> wf_interface (learned m my_ip n).
Proof.
  intros [_ Hts Ht Hps Hp Hw] Ha [_ Hs Hsi _ _]. split; simpl; try by exists my_ip.
  - by apply assign_sorted.
  - intros x e. rewrite find_assign. destruct (Z.eqb_spec x (sender_ip_address m)) as [->|]; [|by apply Ht].
    intros [= <-]. split_and!; try done.
  - by apply erase_sorted.
  - intros x t. rewrite find_erase, find_assign by done. destruct (Z.eqb_spec x (sender_ip_address m)) as [->|]; [done|].
    intros E. destruct (Hp x t E) as (? & ? & ? & Hex). by rewrite existsb_filter_other.
  - apply Forall_forall. intros p Hin. apply list_elem_of_In, filter_In in Hin as [Hin Hno]. apply list_elem_of_In in Hin.
    rewrite Forall_forall in Hw. destruct (Hw p Hin) as (Hd & x & Hx & Hs'). split; [done|]. exists x. split; [done|].
    rewrite find_erase by done. destruct (Z.eqb_spec x (sender_ip_address m)) as [->|]; [|done].
    unfold not_for_ip in Hno. by rewrite for_ip_eq in Hno.
Qed.

(** A frame as it comes off the wire: the payload is one buffer. *)
Definition received (f : EthernetFrame) : Prop := exists b, Ethernet.payload f = BufferList_of_Buffer b /\ Buffer.wf b.

(** ARP messages are for everyone on the network or for the interface. *)
Definition for_me (f : EthernetFrame) (n : NetworkInterface) : bool :=
  bool_decide (Ethernet.dst (Ethernet.header f) = _ethernet_address n) ||
  bool_decide (Ethernet.dst (Ethernet.header f) = ETHERNET_BROADCAST).

Lemma recv_frame_arp f b m n my_ip :
  for_me f n = true -> type (Ethernet.header f) = TYPE_ARP -> Ethernet.payload f = BufferList_of_Buffer b ->
  ARPMessage_parse b ARPMessage_default = Ok (NoError, m) -> wf_message m -> wf_interface n -> addressed n my_ip ->
  recv_frame f n = Some (Ok None, if accepted m (_ethernet_address n) my_ip then learned m my_ip n else n).
Proof.
  intros Hme Ht Hb Hp Hm Hwf Ha. unfold recv_frame. rewrite <- negb_orb. unfold for_me in Hme. rewrite Hme. cbn [negb].
  rewrite Ht, Hb. cbn [TYPE_ARP TYPE_IPv4 Z.eqb Pos.eqb]. cbn [to_Buffer BufferList_of_Buffer _buffers bind]. rewrite Hp.
  by rewrite (recv_arp_eq m n my_ip Ha Hm (wi_numeric n Hwf)).
Qed.

Lemma recv_frame_ip f b n :
  for_me f n = true -> type (Ethernet.header f) = TYPE_IPv4 -> Ethernet.payload f = BufferList_of_Buffer b ->
  recv_frame f n =
    match IPv4Datagram_parse b IPv4Datagram_default with
    | Throw e => Some (Throw e, n)
    | Ok (NoError, d) => Some (Ok (Some d), n)
    | Ok (_, _) => Some (Ok None, n)
    end.
Proof.
  intros Hme Ht Hb. unfold recv_frame. rewrite <- negb_orb. unfold for_me in Hme. rewrite Hme. cbn [negb].
  rewrite Ht, Hb. done.
Qed.

(** What a frame does to an interface: nothing, or it learns from an ARP message.
    An ARP message is never handed up. *)
Lemma recv_frame_cases f n my_ip :
  wf_interface n -> received f -> addressed n my_ip ->
  exists d n', recv_frame f n = Some (Ok d, n') /\ (n' = n \/ exists m, wf_message m /\ n' = learned m my_ip n) /\
    (type (Ethernet.header f) = TYPE_ARP -> d = None).
Proof.
  intros Hwf (b & Hb & Hwb) Ha. destruct (for_me f n) eqn:Hme.
  2: { unfold recv_frame. rewrite <- negb_orb. unfold for_me in Hme. rewrite Hme. exists None, n. split_and!; auto. }
  destruct (Z.eq_dec (type (Ethernet.header f)) TYPE_IPv4) as [Ht|Ht].
  { rewrite (recv_frame_ip f b n Hme Ht Hb).
    destruct (IPv4Datagram_parse_returns b IPv4Datagram_default Hwb) as (r & d & -> & _).
    destruct r; eexists _, n; (split_and!; [done|by left|by rewrite Ht]). }
  destruct (Z.eq_dec (type (Ethernet.header f)) TYPE_ARP) as [Ha'|Ha'].
  - destruct (ARPMessage_parse_total b ARPMessage_default Hwb) as (r & m & E & Hm). destruct (decide (r = NoError)) as [->|Hr].
    + rewrite (recv_frame_arp f b m n my_ip Hme Ha' Hb E (Hm eq_refl) Hwf Ha). eexists _, _. split_and!; [done| |done].
      destruct (accepted _ _ _); [right; exists m; by split; [apply Hm|]|by left].
    + unfold recv_frame. rewrite <- negb_orb. unfold for_me in Hme. rewrite Hme, Ha', Hb. cbn [negb].
      cbn [TYPE_ARP TYPE_IPv4 Z.eqb Pos.eqb to_Buffer BufferList_of_Buffer _buffers bind]. rewrite E. exists None, n.
      split_and!; [by destruct r|by left|done].
  - unfold recv_frame. rewrite <- negb_orb. unfold for_me in Hme. rewrite Hme. cbn [negb].
    destruct (Z.eqb_spec (type (Ethernet.header f)) TYPE_IPv4), (Z.eqb_spec (type (Ethernet.header f)) TYPE_ARP); try done.
    exists None, n. split_and!; auto.
Qed.

Lemma recv_frame_wf f n :
  wf_interface n -> received f ->
  exists d n', recv_frame f n = Some (Ok d, n') /\ wf_interface n'.
Proof.
  intros Hwf Hf. destruct (wi_addressed n Hwf) as [my_ip Ha]. destruct (recv_frame_cases f n my_ip Hwf Hf Ha) as (d & n' & E & Hn & _).
  exists d, n'. split; [done|]. destruct Hn as [->|(m & Hm & ->)]; [done|by apply learned_wf].
Qed.

(** [tick] of less than five seconds. *)
Lemma interface_tick_eq ms n my_ip :
  wf_interface n -> addressed n my_ip -> 0 <= ms < _arp_response_default_ttl ->
  tick ms n = Some (Ok tt, mkNetworkInterface (_ethernet_address n) (_ip_address n)
    (_frames_out n ++ map (request_frame (_ethernet_address n) my_ip) (overdue ms (_waiting_arp_response_ip_addr n)))
    (visit (age_entry ms) (_arp_table n)) (visit (age_request ms) (_waiting_arp_response_ip_addr n))
    (_waiting_arp_internet_datagrams n)).
Proof.
  intros Hwf Ha Hms. unfold tick, tick_fuel. rewrite (retry_loop_eq _ ms my_ip []); try done.
  apply Forall_forall. intros [ip t] Hin. apply list_elem_of_In in Hin.
  apply find_In in Hin; [|apply (wi_pending_sorted n Hwf)].
  destruct (wi_pending n Hwf ip t Hin) as (? & ? & _). unfold _arp_response_default_ttl in *. split; [done|]. simpl. lia.
Qed.

Lemma tick_wf ms n :
  wf_interface n -> 0 <= ms < _arp_response_default_ttl -> exists n', tick ms n = Some (Ok tt, n') /\ wf_interface n'.
Proof.
  intros Hwf Hms. pose proof Hwf as [[my_ip Ha] Hts Ht Hps Hp Hw]. rewrite (interface_tick_eq ms n my_ip) by done.
  eexists. split; [done|]. split; simpl; try done; try by exists my_ip.
  - by apply visit_sorted.
  - intros ip e. rewrite find_visit by done. destruct (find ip (_arp_table n)) as [e'|] eqn:E; [|done].
    destruct (Ht ip e' E) as (? & ? & ?). unfold age_entry. simpl. destruct (Z.leb_spec (ttl e') ms); [done|].
    intros [= <-]. unfold _arp_entry_default_ttl in *. simpl. rewrite u64_small by lia. split_and!; try done; lia.
  - by apply visit_sorted.
  - intros ip t. rewrite !find_visit by done. destruct (find ip (_waiting_arp_response_ip_addr n)) as [t'|] eqn:E; [|done].
    destruct (Hp ip t' E) as (? & ? & Hno & ?). rewrite Hno. unfold age_request, _arp_response_default_ttl in *. simpl.
    intros [= <-]. split_and!; try done; zcase; lia.
  - eapply Forall_impl; [exact Hw|]. intros p (? & x & ? & [t Hx]). split; [done|]. exists x. split; [done|].
    rewrite find_visit, Hx by done. by eexists.
Qed.

(** ** The life of an interface *)

Section life.
Context (my_eth : EthernetAddress) (my_address : Address).

(** Datagrams of the owner are sendable and their next hops IPv4 addresses;
    frames come off the wire; less than five seconds pass between ticks. *)
Inductive lives : NetworkInterface -> Prop :=
  | lives_init : lives (NetworkInterface_of my_eth my_address)
  | lives_send d next_hop ip n r n' :
      lives n -> sendable d -> ipv4_numeric next_hop = Ok ip -> u32_value ip ->
      send_datagram d next_hop n = (r, n') -> lives n'
  | lives_recv f n r n' : lives n -> received f -> recv_frame f n = Some (r, n') -> lives n'
  | lives_tick ms n r n' : lives n -> 0 <= ms < _arp_response_default_ttl -> tick ms n = Some (r, n') -> lives n'
  | lives_take n q : lives n -> lives (set_frames_out q n).

Lemma lives_wf my_ip n :
  length my_eth = 6%nat -> ipv4_numeric my_address = Ok my_ip -> u32_value my_ip -> lives n -> wf_interface n.
Proof.
  intros He Hi Hu. induction 1 as [|d nh ip n r n' _ IH Hd Hn Hip E|f n r n' _ IH Hf E|ms n r n' _ IH Hms E|n q _ IH].
  - by apply (NetworkInterface_of_wf _ _ my_ip).
  - destruct (send_datagram_wf d nh ip n IH Hd Hn Hip) as (n2 & E2 & H2). rewrite E2 in E. by injection E as <- <-.
  - destruct (recv_frame_wf f n IH Hf) as (d & n2 & E2 & H2). rewrite E2 in E. by injection E as <- <-.
  - destruct (tick_wf ms n IH Hms) as (n2 & E2 & H2). rewrite E2 in E. by injection E as <- <-.
  - destruct IH. by split.
Qed.
End life.

(** ** Properties *)


Definition eth_a : EthernetAddress := lit "aaaaaa".
Definition eth_b : EthernetAddress := lit "bbbbbb".
Definition ip_a : Z := 0x0a000001.
Definition ip_b : Z := 0x0a000002.
Definition iface_a : NetworkInterface := NetworkInterface_of eth_a (ipv4 ip_a).
Definition iface_b : NetworkInterface := NetworkInterface_of eth_b (ipv4 ip_b).
Definition iface_a1 : NetworkInterface := (send_datagram example_datagram (ipv4 ip_b) iface_a).2.

Lemma u32_ips : u32_value ip_a /\ u32_value ip_b.
Proof. by vm_compute. Qed.

Lemma example_sendable : sendable example_datagram.
Proof. split; [apply example_datagram_wf|by vm_compute]. Qed.

Lemma iface_a1_lives : lives eth_a (ipv4 ip_a) iface_a1.
Proof.
  eapply (lives_send _ _ example_datagram (ipv4 ip_b) ip_b iface_a _ iface_a1); [apply lives_init|apply example_sendable| |apply u32_ips|].
  - apply ipv4_numeric_ipv4. apply u32_ips.
  - apply surjective_pairing.
Qed.


(** C32: [send_datagram] on its three branches.  With the next hop's address known
    the datagram leaves in a frame to it; with a request pending it waits and
    nothing is sent; otherwise it waits, and one request is broadcast and
    recorded with five seconds to live.  A next hop that is not an IPv4 address
    is refused without a change. *)
Theorem send_datagram_spec d next_hop n my_ip :
  addressed n my_ip -> sendable d ->
  match ipv4_numeric next_hop with
  | Throw e => send_datagram d next_hop n = (Throw e, n)
  | Ok ip =>
      u32_value ip ->
      send_datagram d next_hop n =
      (Ok tt,
       match find ip (_arp_table n), find ip (_waiting_arp_response_ip_addr n) with
       | Some e, _ => push_frame (dgram_frame (_ethernet_address n) (eth_addr e) d) n
       | None, Some _ => set_datagrams (_waiting_arp_internet_datagrams n ++ [(next_hop, d)]) n
       | None, None =>
           mkNetworkInterface (_ethernet_address n) (_ip_address n)
             (_frames_out n ++ [request_frame (_ethernet_address n) my_ip ip]) (_arp_table n)
             (assign ip _arp_response_default_ttl (_waiting_arp_response_ip_addr n))
             (_waiting_arp_internet_datagrams n ++ [(next_hop, d)])
       end)
  end.
Proof.
  intros Ha Hd. destruct (ipv4_numeric next_hop) as [ip|e] eqn:Hn.
  - intros Hip. destruct (find ip (_arp_table n)) as [e|] eqn:Ef; [by apply (send_known d next_hop ip)|].
    destruct (find ip (_waiting_arp_response_ip_addr n)) as [t|] eqn:Ep; [by apply (send_pending d next_hop ip t)|].
    by apply send_unknown.
  - unfold send_datagram, andthen at 1, lift. by rewrite Hn.
Qed.

Lemma send_datagram_spec_witness :
  send_datagram example_datagram (ipv4 ip_b) iface_a =
    (Ok tt, mkNetworkInterface eth_a (ipv4 ip_a) [request_frame eth_a ip_a ip_b] [] [(ip_b, 5000)] [(ipv4 ip_b, example_datagram)]).
Proof.
  pose proof (send_datagram_spec example_datagram (ipv4 ip_b) iface_a ip_a) as H.
  rewrite ipv4_numeric_ipv4 in H by apply u32_ips. apply H; [|apply example_sendable|apply u32_ips].
  split; [reflexivity|]. split; [apply ipv4_numeric_ipv4|]; apply u32_ips.
Defined.


Lemma iface_a1_wf : wf_interface iface_a1 /\ addressed iface_a1 ip_a.
Proof.
  split; [apply (lives_wf eth_a (ipv4 ip_a) ip_a); [done|apply ipv4_numeric_ipv4| |apply iface_a1_lives]; apply u32_ips|].
  split; [done|]. split; [apply (ipv4_numeric_ipv4 ip_a)|]; apply u32_ips.
Qed.


(** C40: [tick] does not return when five seconds or more have passed and an
    address is being asked for: the loop stays at an entry whose timer has run
    out, the new timer has run out as well, and another request is queued in
    every turn.  No number of turns is enough. *)
Theorem tick_hangs ms n my_ip fuel :
  wf_interface n -> addressed n my_ip -> _arp_response_default_ttl <= ms -> ~ (_waiting_arp_response_ip_addr n = []) ->
  tick_fuel fuel ms n = None /\ tick ms n = None.
Proof.
  intros Hwf Ha Hms Hne. assert (forall k, tick_fuel k ms n = None) as H; [|by split; apply H].
  intros k. unfold tick_fuel. cbn [set_arp_table _waiting_arp_response_ip_addr].
  destruct (_waiting_arp_response_ip_addr n) as [|[ip t] rest] eqn:E; [done|].
  destruct (wi_pending n Hwf ip t) as (Hip & Ht & _); [by rewrite E; simpl; rewrite Z.eqb_refl|].
  apply (retry_loop_stuck k ms my_ip); [done|done|done|lia].
Qed.

Lemma tick_hangs_witness : tick_fuel 1000 5000 iface_a1 = None /\ tick 5000 iface_a1 = None.
Proof. apply (tick_hangs 5000 iface_a1 ip_a 1000); [apply iface_a1_wf|apply iface_a1_wf|by vm_compute|]. intros H. vm_compute in H. discriminate H. Defined.
