(* ===== verification/ARPExchange.v ===== *)
(** Two network interfaces on one wire: how ARP finds the way for a datagram.
    A frame crosses the wire as the bytes of its serialization. *)
From S2P Require Import Prelude StdMap Buffer Parser IPv4 Ethernet Address NetworkInterface.

(** [f'] is what the other side parses of frame [f]. *)
Definition on_wire (f f' : EthernetFrame) : Prop :=
  EthernetFrame_parse (Buffer_of (concatenate (EthernetFrame_serialize f))) EthernetFrame_default = Ok (NoError, f').

Lemma arp_on_wire h m :
  Ethernet.wf_header h -> wf_message m ->
  exists b, on_wire (mkEthernetFrame h (arp_payload m)) (mkEthernetFrame h (BufferList_of_Buffer b)) /\
    ARPMessage_parse b ARPMessage_default = Ok (NoError, m).
Proof.
  intros Hh Hm. destruct (ARPMessage_parse_serialize m ARPMessage_default Hm) as (s & E & Hl & Hp).
  unfold ARP_LENGTH in Hl.
  assert (concatenate (arp_payload m) = s) as Es by (unfold arp_payload; rewrite E; apply concatenate_of_string; lia).
  destruct (EthernetFrame_parse_serialize (mkEthernetFrame h (arp_payload m)) EthernetFrame_default Hh) as (b & Eb & Hb & Sb).
  { simpl. rewrite Es. lia. }
  exists b. split; [exact Eb|]. apply Hp; [done|]. by rewrite Sb.
Qed.

Lemma dgram_on_wire h d :
  Ethernet.wf_header h -> sendable d ->
  exists b v pl, on_wire (mkEthernetFrame h (dgram_payload d)) (mkEthernetFrame h (BufferList_of_Buffer b)) /\
    IPv4Datagram_parse b IPv4Datagram_default = Ok (NoError, mkIPv4Datagram (set_cksum v (IPv4.header d)) (BufferList_of_Buffer pl)) /\
    Buffer.wf pl /\ str pl = concatenate (IPv4.payload d).
Proof.
  intros Hh [Hw Hl]. destruct (IPv4Datagram_parse_serialize d IPv4Datagram_default Hw Hl) as (bl & v & E & Hlen & _ & Hp).
  pose proof Hw as [].
  assert (dgram_payload d = bl) as Es by (unfold dgram_payload; by rewrite E).
  destruct (EthernetFrame_parse_serialize (mkEthernetFrame h (dgram_payload d)) EthernetFrame_default Hh) as (b & Eb & Hb & Sb).
  { simpl. rewrite Es. lia. }
  destruct (Hp b Hb) as (pl & Epl & Hpl & Spl); [by rewrite Sb, <- Es|].
  by exists b, v, pl.
Qed.

Lemma header_wf my_eth eth t : length my_eth = 6%nat -> length eth = 6%nat -> 0 <= t < 2 ^ 16 ->
  Ethernet.wf_header (mkEthernetHeader eth my_eth t).
Proof. intros. by split. Qed.

(** Nothing waits for an address that has not been asked for. *)
Lemma none_waiting n ip :
  wf_interface n -> find ip (_waiting_arp_response_ip_addr n) = None ->
  List.filter (for_ip ip) (_waiting_arp_internet_datagrams n) = [].
Proof.
  intros Hwf Hno. pose proof (wi_waiting n Hwf) as Hw. induction Hw as [|p l (_ & x & Hx & [t Ht]) _ IH]; [done|].
  cbn [List.filter]. unfold for_ip at 1. rewrite Hx. destruct (Z.eqb_spec x ip) as [->|]; [congruence|done].
Qed.

Lemma broadcast_for_me f n : Ethernet.dst (Ethernet.header f) = ETHERNET_BROADCAST -> for_me f n = true.
Proof. intros E. unfold for_me. by rewrite E, (bool_decide_true (_ = ETHERNET_BROADCAST)), orb_true_r. Qed.

Lemma addressed_for_me f n : Ethernet.dst (Ethernet.header f) = _ethernet_address n -> for_me f n = true.
Proof. intros E. unfold for_me. by rewrite bool_decide_true. Qed.

(** C15: A datagram reaches its next hop.  Interface [a] is given a datagram for
    [b]'s IP address, which it neither knows nor is asking for.  It broadcasts a
    request; [b], receiving that frame, replies to [a] alone and knows [a] from
    then on; [a], receiving the reply, knows [b] and sends the datagram to [b]'s
    Ethernet address; and [b], receiving that frame, hands up the datagram with
    its header (the checksum filled in) and its payload.  Every frame crosses
    the wire as bytes. *)
Theorem arp_exchange_delivers a b ia ib d next_hop :
  wf_interface a -> addressed a ia -> wf_interface b -> addressed b ib -> sendable d ->
  ipv4_numeric next_hop = Ok ib -> find ib (_arp_table a) = None -> find ib (_waiting_arp_response_ip_addr a) = None ->
  exists a1 req req' b1 rep rest rep' a2 frm frm' v pl,
    send_datagram d next_hop a = (Ok tt, a1) /\ _frames_out a1 = _frames_out a ++ [req] /\ on_wire req req' /\
    recv_frame req' b = Some (Ok None, b1) /\ _frames_out b1 = _frames_out b ++ rep :: rest /\ on_wire rep rep' /\
    find ia (_arp_table b1) = Some (mkARP_Entry (_ethernet_address a) _arp_entry_default_ttl) /\
    recv_frame rep' a1 = Some (Ok None, a2) /\ _frames_out a2 = _frames_out a1 ++ [frm] /\ on_wire frm frm' /\
    find ib (_arp_table a2) = Some (mkARP_Entry (_ethernet_address b) _arp_entry_default_ttl) /\
    _waiting_arp_internet_datagrams a2 = List.filter (not_for_ip ib) (_waiting_arp_internet_datagrams a) /\
    recv_frame frm' b1 = Some (Ok (Some (mkIPv4Datagram (set_cksum v (IPv4.header d)) (BufferList_of_Buffer pl))), b1) /\
    str pl = concatenate (IPv4.payload d).
Proof.
  intros Wa Aa Wb Ab Hd Hn Hk Hp. pose proof Aa as (La & _ & Ua). pose proof Ab as (Lb & _ & Ub).
  set (a1 := mkNetworkInterface (_ethernet_address a) (_ip_address a) (_frames_out a ++ [request_frame (_ethernet_address a) ia ib])
    (_arp_table a) (assign ib _arp_response_default_ttl (_waiting_arp_response_ip_addr a))
    (_waiting_arp_internet_datagrams a ++ [(next_hop, d)])).
  assert (send_datagram d next_hop a = (Ok tt, a1)) as E1 by (by apply send_unknown).
  assert (wf_interface a1) as Wa1.
  { destruct (send_datagram_wf d next_hop ib a Wa Hd Hn Ub) as (n' & E & H). rewrite E1 in E. by injection E as ->. }
  set (mreq := request (_ethernet_address a) ia ib). set (mrep := reply (_ethernet_address b) ib (_ethernet_address a) ia).
  destruct (arp_on_wire (mkEthernetHeader ETHERNET_BROADCAST (_ethernet_address a) TYPE_ARP) mreq) as (breq & Wreq & Preq);
    [by apply header_wf|by apply request_wf|].
  destruct (arp_on_wire (mkEthernetHeader (_ethernet_address a) (_ethernet_address b) TYPE_ARP) mrep) as (brep & Wrep & Prep);
    [by apply header_wf|by apply reply_wf|].
  destruct (dgram_on_wire (mkEthernetHeader (_ethernet_address b) (_ethernet_address a) TYPE_IPv4) d) as (bd & v & pl & Wd & Pd & _ & Spl);
    [by apply header_wf|done|].
  assert (recv_frame (mkEthernetFrame (mkEthernetHeader ETHERNET_BROADCAST (_ethernet_address a) TYPE_ARP) (BufferList_of_Buffer breq)) b =
    Some (Ok None, learned mreq ib b)) as E2.
  { rewrite (recv_frame_arp _ breq mreq b ib) by first [done|by apply broadcast_for_me|by apply request_wf].
    unfold accepted, is_request. simpl. by rewrite Z.eqb_refl. }
  assert (recv_frame (mkEthernetFrame (mkEthernetHeader (_ethernet_address a) (_ethernet_address b) TYPE_ARP) (BufferList_of_Buffer brep)) a1 =
    Some (Ok None, learned mrep ia a1)) as E3.
  { rewrite (recv_frame_arp _ brep mrep a1 ia) by first [done|by apply addressed_for_me|by apply reply_wf].
    unfold accepted, is_request. simpl. by rewrite bool_decide_true. }
  assert (for_ip ib (next_hop, d) = true) as Hfor by (by apply for_ip_eq).
  eexists a1, _, _, _, _, _, _, _, _, _, v, pl. split; [exact E1|]. split; [reflexivity|]. split; [exact Wreq|].
  split; [exact E2|]. split.
  { unfold learned, answers, is_request. simpl. rewrite Z.eqb_refl. reflexivity. }
  split; [exact Wrep|]. split; [simpl; by rewrite find_assign, Z.eqb_refl|]. split; [exact E3|]. split.
  { simpl. rewrite List.filter_app, none_waiting by done. simpl. rewrite Hfor. reflexivity. }
  split; [exact Wd|]. split; [simpl; by rewrite find_assign, Z.eqb_refl|]. split.
  { simpl. rewrite List.filter_app. simpl. unfold not_for_ip at 2. rewrite Hfor. by rewrite app_nil_r. }
  split; [|exact Spl]. rewrite (recv_frame_ip _ bd) by first [done|by apply addressed_for_me]. by rewrite Pd.
Qed.

Lemma arp_exchange_delivers_witness :
  exists a1 req req' b1 d', send_datagram example_datagram (ipv4 ip_b) iface_a = (Ok tt, a1) /\
    _frames_out a1 = [req] /\ on_wire req req' /\ recv_frame req' iface_b = Some (Ok None, b1) /\
    concatenate (IPv4.payload d') = lit "hello" /\ exists f, recv_frame f b1 = Some (Ok (Some d'), b1).
Proof.
  pose proof u32_ips as [Ua Ub].
  assert (addressed iface_a ip_a) as Aa by (split; [reflexivity|split; [apply (ipv4_numeric_ipv4 ip_a)|]; exact Ua]).
  assert (addressed iface_b ip_b) as Ab by (split; [reflexivity|split; [apply (ipv4_numeric_ipv4 ip_b)|]; exact Ub]).
  destruct (arp_exchange_delivers iface_a iface_b ip_a ip_b example_datagram (ipv4 ip_b))
    as (a1 & req & req' & b1 & rep & rest & rep' & a2 & frm & frm' & v & pl & H1 & H2 & H3 & H4 & _ & _ & _ & _ & _ & _ & _ & _ & H5 & H6).
  - apply (NetworkInterface_of_wf eth_a (ipv4 ip_a) ip_a); [reflexivity|apply (ipv4_numeric_ipv4 ip_a); exact Ua|exact Ua].
  - exact Aa.
  - apply (NetworkInterface_of_wf eth_b (ipv4 ip_b) ip_b); [reflexivity|apply (ipv4_numeric_ipv4 ip_b); exact Ub|exact Ub].
  - exact Ab.
  - apply example_sendable.
  - apply ipv4_numeric_ipv4. exact Ub.
  - reflexivity.
  - reflexivity.
  - eexists a1, req, req', b1, _. split; [exact H1|]. split; [exact H2|]. split; [exact H3|]. split; [exact H4|]. split; [|exists frm'; exact H5].
    cbn [IPv4.payload]. rewrite concatenate_of_Buffer, H6. by vm_compute.
Defined.
