(* ===== verification/Router.v ===== *)
(** The router: [AsyncNetworkInterface] and [Router] of [libsponge/router.hh] and
    [router.cc].  The routing itself is a stub in the source: [add_route] only
    prints and [route_one_datagram] does nothing. *)
From S2P Require Import Prelude Buffer IPv4 Ethernet Address NetworkInterface.

Record AsyncNetworkInterface := mkAsyncNetworkInterface {
  base : NetworkInterface;
  _datagrams_out : list IPv4Datagram }.

(** [AsyncNetworkInterface(NetworkInterface &&)] *)
Definition AsyncNetworkInterface_of (interface : NetworkInterface) : AsyncNetworkInterface :=
  mkAsyncNetworkInterface interface [].

(** [None] when the interface's method does not return. *)
Definition async_recv_frame (frame : EthernetFrame) (i : AsyncNetworkInterface) : option (result unit * AsyncNetworkInterface) :=
  match recv_frame frame (base i) with
  | None => None
  | Some (Throw e, n) => Some (Throw e, mkAsyncNetworkInterface n (_datagrams_out i))
  | Some (Ok (Some d), n) => Some (Ok tt, mkAsyncNetworkInterface n (_datagrams_out i ++ [d]))
  | Some (Ok None, n) => Some (Ok tt, mkAsyncNetworkInterface n (_datagrams_out i))
  end.

Record Router := mkRouter { _interfaces : list AsyncNetworkInterface }.

Definition Router_empty : Router := mkRouter [].

Definition add_interface (interface : AsyncNetworkInterface) (r : Router) : Z * Router :=
  let r := mkRouter (_interfaces r ++ [interface]) in
  (u64 (len (_interfaces r) - 1), r).

(** [_interfaces.at(N)] *)
Definition interface (N : Z) (r : Router) : result AsyncNetworkInterface :=
  match _interfaces r !! Z.to_nat N with
  | Some i => Ok i
  | None => Throw (out_of_range "vector::_M_range_check")
  end.

(** The owner works on an interface by reference. *)
Definition update_interface (N : Z) (i : AsyncNetworkInterface) (r : Router) : Router :=
  mkRouter (<[Z.to_nat N := i]> (_interfaces r)).

(** [add_route] prints the route, for which it needs the addresses as text, and
    does nothing else. *)
Definition add_route (getnameinfo : list byte -> Z -> Z * list byte * list byte)
    (route_prefix prefix_length : Z) (next_hop : option Address) (interface_num : Z) (r : Router) : result Router :=
  let* a := from_ipv4_numeric route_prefix in
  let* _ := ip getnameinfo a in
  let* _ := match next_hop with Some h => ip getnameinfo h | None => Ok (lit "(direct)") end in
  Ok r.

Definition route_one_datagram (dgram : IPv4Datagram) (r : Router) : Router := r.

(** The inner loop of [route]: the datagrams of one interface's queue. *)
Fixpoint drain (queue : list IPv4Datagram) (r : Router) : Router :=
  match queue with
  | [] => r
  | front :: queue => drain queue (route_one_datagram front r)
  end.

(** The outer loop, from interface [k] on, with [count] interfaces left. *)
Fixpoint route_from (count k : nat) (r : Router) : Router :=
  match count with
  | O => r
  | S count =>
      match _interfaces r !! k with
      | None => r
      | Some i =>
          let r := drain (_datagrams_out i) r in
          let r := match _interfaces r !! k with
                   | Some i => mkRouter (<[k := mkAsyncNetworkInterface (base i) []]> (_interfaces r))
                   | None => r
                   end in
          route_from count (S k) r
      end
  end.

Definition route (r : Router) : Router := route_from (length (_interfaces r)) 0 r.

(** ** Lemmas *)

Lemma drain_eq queue r : drain queue r = r.
Proof. induction queue; [done|]. by simpl. Qed.

Definition emptied (i : AsyncNetworkInterface) : AsyncNetworkInterface := mkAsyncNetworkInterface (base i) [].

Lemma route_from_eq pre post :
  route_from (length post) (length pre) (mkRouter (pre ++ post)) = mkRouter (pre ++ map emptied post).
Proof.
  revert pre. induction post as [|i post IH]; intros pre; [done|]. cbn [route_from length map _interfaces].
  rewrite list_lookup_middle by done. rewrite drain_eq. cbn [_interfaces]. rewrite list_lookup_middle by done.
  rewrite insert_app_r_alt, Nat.sub_diag by done. cbn [insert list_insert]. fold (emptied i).
  replace (S (length pre)) with (length (pre ++ [emptied i])) by (rewrite length_app; simpl; lia).
  rewrite (app_assoc pre [emptied i] post : pre ++ emptied i :: post = _), IH. by rewrite <- app_assoc.
Qed.

Lemma route_eq r : route r = mkRouter (map emptied (_interfaces r)).
Proof. destruct r as [l]. apply (route_from_eq [] l). Qed.

(** An interface that was added is found at the index [add_interface] returned,
    and those before it stay where they are. *)
Lemma add_interface_found i r :
  len (_interfaces r) < 2 ^ 63 ->
  let '(N, r') := add_interface i r in
  interface N r' = Ok i /\ (forall k, 0 <= k < len (_interfaces r) -> interface k r' = interface k r) /\
  interface (N + 1) r' = Throw (out_of_range "vector::_M_range_check").
Proof.
  intros Hl. unfold add_interface, interface. cbn [_interfaces]. rewrite len_app. simpl. rewrite u64_small by lia.
  split_and!.
  - replace (Z.to_nat _) with (length (_interfaces r)) by lia. by rewrite list_lookup_middle.
  - intros k Hk. rewrite lookup_app_l by lia. done.
  - rewrite lookup_ge_None_2; [done|]. rewrite length_app. simpl. lia.
Qed.

(** The router does not route: whatever routes were added, [route] discards
    every datagram its interfaces have received.  All queues of received
    datagrams are empty afterwards, and no interface has sent a frame, queued a
    datagram or asked for an address. *)
Theorem route_drops getnameinfo r prefix plen next_hop num r' :
  add_route getnameinfo prefix plen next_hop num r = Ok r' ->
  map _datagrams_out (_interfaces (route r')) = map (fun _ => []) (_interfaces r) /\
  map base (_interfaces (route r')) = map base (_interfaces r).
Proof.
  unfold add_route. rewrite from_ipv4_numeric_eq. cbn [bind].
  destruct (ip getnameinfo (ipv4 prefix)); [|done]. cbn [bind].
  destruct (match next_hop with Some h => _ | None => _ end); [|done]. intros [= <-].
  rewrite route_eq. cbn [_interfaces]. rewrite !map_map. by split.
Qed.

Definition router1 : Router :=
  mkRouter [mkAsyncNetworkInterface iface_a [example_datagram]; mkAsyncNetworkInterface iface_b []].

Lemma route_drops_witness :
  map _datagrams_out (_interfaces (route router1)) = [[]; []] /\ map base (_interfaces (route router1)) = [iface_a; iface_b].
Proof. apply (route_drops (fun _ _ => (0, lit "10.0.0.0", lit "0")) router1 0x0a000000 8 None 1 router1). reflexivity. Defined.
