(* ===== verification/TunTap.v ===== *)
(** TCP over a TUN and over a TAP device: [TCPOverIPv4OverTunFdAdapter] and
    [TCPOverIPv4OverEthernetAdapter] of [tcp_helpers/tuntap_adapter.hh] and [.cc].

    The bytes read from the device are an argument; what is written to it is in
    the result for the TUN device, and in [_tap] for the TAP device. *)
From S2P Require Import Prelude StdMap WrappingIntegers Buffer Parser TCPSegment IPv4 Ethernet Address Resolver FdAdapter.
From S2P Require Import NetworkInterface ARPExchange.

Section adapters.
Context (getaddrinfo : list byte -> list byte -> addrinfo -> Z * option (list byte * Z))
  (getnameinfo : list byte -> Z -> Z * list byte * list byte).

(** ** The TUN device *)

Definition tun_read (bytes : list byte) : method FdAdapterBase (option TCPSegment) :=
  do (r, ip_dgram) := lift (IPv4Datagram_parse (Buffer_of bytes) IPv4Datagram_default) in
  if negb (bool_decide (r = NoError)) then returns None
  else unwrap_tcp_in_ip getaddrinfo getnameinfo ip_dgram.

Definition tun_write (seg : TCPSegment) (a : FdAdapterBase) : result (TCPSegment * BufferList) :=
  let* (seg, d) := wrap_tcp_in_ip getnameinfo seg a in
  let* out := IPv4Datagram_serialize d in
  Ok (seg, out).

#[export] Instance tun_adapter : FdAdapter FdAdapterBase (list byte) BufferList := {
  adapter_config := config;
  adapter_set_listening := set_listening;
  adapter_tick := base_tick;
  adapter_read := tun_read;
  adapter_write := tun_write }.

(** ** The TAP device *)

(** [_tap] is what has been written to the device. *)
Record EthernetAdapter := mkEthernetAdapter {
  eth_base : FdAdapterBase; _tap : list BufferList; _interface : NetworkInterface; _next_hop : Address }.

Definition EthernetAdapter_of (b : FdAdapterBase) (eth_address : EthernetAddress) (ip_address next_hop : Address) : EthernetAdapter :=
  let dummy_frame := EthernetFrame_default in
  mkEthernetAdapter b [EthernetFrame_serialize dummy_frame] (NetworkInterface_of eth_address ip_address) next_hop.

Fixpoint send_pending_loop (frames : list EthernetFrame) (tap : list BufferList) : list BufferList :=
  match frames with
  | [] => tap
  | front :: frames => send_pending_loop frames (tap ++ [EthernetFrame_serialize front])
  end.

Definition send_pending (a : EthernetAdapter) : EthernetAdapter :=
  mkEthernetAdapter (eth_base a) (send_pending_loop (_frames_out (_interface a)) (_tap a))
    (set_frames_out [] (_interface a)) (_next_hop a).

Definition set_interface (n : NetworkInterface) (a : EthernetAdapter) : EthernetAdapter :=
  mkEthernetAdapter (eth_base a) (_tap a) n (_next_hop a).
Definition set_base (b : FdAdapterBase) (a : EthernetAdapter) : EthernetAdapter :=
  mkEthernetAdapter b (_tap a) (_interface a) (_next_hop a).

(** [None] when the interface does not return. *)
Definition eth_read (bytes : list byte) (a : EthernetAdapter) : option (result (option TCPSegment) * EthernetAdapter) :=
  match EthernetFrame_parse (Buffer_of bytes) EthernetFrame_default with
  | Throw e => Some (Throw e, a)
  | Ok (NoError, frame) =>
      match recv_frame frame (_interface a) with
      | None => None
      | Some (Throw e, n) => Some (Throw e, set_interface n a)
      | Some (Ok ip_dgram, n) =>
          let a := send_pending (set_interface n a) in
          match ip_dgram with
          | Some d => let '(r, b) := unwrap_tcp_in_ip getaddrinfo getnameinfo d (eth_base a) in Some (r, set_base b a)
          | None => Some (Ok None, a)
          end
      end
  | Ok (_, _) => Some (Ok None, a)
  end.

Definition eth_tick (ms_since_last_tick : Z) (a : EthernetAdapter) : option (result unit * EthernetAdapter) :=
  match NetworkInterface.tick ms_since_last_tick (_interface a) with
  | None => None
  | Some (Throw e, n) => Some (Throw e, set_interface n a)
  | Some (Ok _, n) => Some (Ok tt, send_pending (set_interface n a))
  end.

Definition eth_write (seg : TCPSegment) (a : EthernetAdapter) : result TCPSegment * EthernetAdapter :=
  match wrap_tcp_in_ip getnameinfo seg (eth_base a) with
  | Throw e => (Throw e, a)
  | Ok (seg, d) =>
      match send_datagram d (_next_hop a) (_interface a) with
      | (Throw e, n) => (Throw e, set_interface n a)
      | (Ok _, n) => (Ok seg, send_pending (set_interface n a))
      end
  end.
End adapters.

(** ** Lemmas *)

Lemma send_pending_loop_eq frames tap : send_pending_loop frames tap = tap ++ map EthernetFrame_serialize frames.
Proof.
  revert tap. induction frames as [|f frames IH]; intros tap; simpl; [by rewrite app_nil_r|]. by rewrite IH, <- app_assoc.
Qed.

Lemma send_pending_wf a : wf_interface (_interface a) -> wf_interface (_interface (send_pending a)).
Proof. intros []. by split. Qed.

Lemma eth_read_frame `{NumericResolver getaddrinfo getnameinfo} f f' a :
  on_wire f f' ->
  eth_read getaddrinfo getnameinfo (concatenate (EthernetFrame_serialize f)) a =
    match recv_frame f' (_interface a) with
    | None => None
    | Some (Throw e, n) => Some (Throw e, set_interface n a)
    | Some (Ok None, n) => Some (Ok None, send_pending (set_interface n a))
    | Some (Ok (Some d), n) =>
        let '(r, b) := unwrap_tcp_in_ip getaddrinfo getnameinfo d (eth_base a) in
        Some (r, set_base b (send_pending (set_interface n a)))
    end.
Proof. intros E. unfold eth_read. rewrite E. by destruct (recv_frame f' (_interface a)) as [[[[d|]|e] n]|]. Qed.

(** An interface that has handed over its frames and waits for nothing. *)
Definition idle (n : NetworkInterface) : Prop :=
  _frames_out n = [] /\ _waiting_arp_response_ip_addr n = [] /\ _waiting_arp_internet_datagrams n = [].

Section exchange.
Context `{NumericResolver getaddrinfo getnameinfo}.
Context (na nb : NetworkInterface) (ma mb : Z) (hop : Address).
Context (Hwa : wf_interface na) (Haa : addressed na ma) (Hwb : wf_interface nb) (Hab : addressed nb mb).
Context (Hhop : ipv4_numeric hop = Ok mb).

Local Abbreviation ea := (_ethernet_address na).
Local Abbreviation eb := (_ethernet_address nb).

(** Writing when the next hop is not known. *)
Lemma eth_write_unknown b d seg seg' :
  idle na -> find mb (_arp_table na) = None -> sendable d -> wrap_tcp_in_ip getnameinfo seg b = Ok (seg', d) ->
  let n1 := mkNetworkInterface ea (_ip_address na) [] (_arp_table na) (assign mb _arp_response_default_ttl []) [(hop, d)] in
  wf_interface n1 /\
  eth_write getnameinfo seg (mkEthernetAdapter b [] na hop) =
    (Ok seg', mkEthernetAdapter b [EthernetFrame_serialize (request_frame ea ma mb)] n1 hop).
Proof.
  intros (If & Ip & Iw) Hk Hd Ew n1. pose proof Hab as (_ & _ & Ub).
  assert (find mb (_waiting_arp_response_ip_addr na) = None) as Hp by (by rewrite Ip).
  pose proof (send_unknown d hop mb na ma Haa Hhop Ub Hk Hp) as Es. rewrite If, Ip, Iw in Es. simpl in Es.
  split.
  - destruct (send_datagram_wf d hop mb na Hwa Hd Hhop Ub) as (n' & E & Hw'). rewrite Es in E. injection E as <-. by destruct Hw'.
  - unfold eth_write. cbn [eth_base _next_hop _interface]. rewrite Ew. by rewrite Es.
Qed.

(** Reading a request for one's own address. *)
Lemma eth_read_request b :
  idle nb ->
  let n1 := set_frames_out [] (learned (request ea ma mb) mb nb) in
  eth_read getaddrinfo getnameinfo (concatenate (EthernetFrame_serialize (request_frame ea ma mb))) (mkEthernetAdapter b [] nb hop) =
    Some (Ok None, mkEthernetAdapter b [EthernetFrame_serialize (reply_frame eb mb ea ma)] n1 hop).
Proof.
  intros (If & Ip & Iw) n1. pose proof Haa as (La & _ & Ua). pose proof Hab as (Lb & _ & Ub).
  destruct (arp_on_wire (mkEthernetHeader ETHERNET_BROADCAST ea TYPE_ARP) (request ea ma mb)) as (rb & Wr & Pr);
    [by apply header_wf|by apply request_wf|].
  rewrite (eth_read_frame _ _ _ Wr). cbn [_interface].
  rewrite (recv_frame_arp _ rb (request ea ma mb) nb mb) by first [done|by apply broadcast_for_me|by apply request_wf].
  unfold accepted, is_request. simpl. rewrite Z.eqb_refl. simpl. unfold send_pending, set_interface. simpl.
  rewrite send_pending_loop_eq. unfold answers, is_request. simpl. rewrite Z.eqb_refl, If, Iw. done.
Qed.

(** Reading the reply that was waited for. *)
Lemma eth_read_reply b d tap n1 :
  wf_interface n1 -> _ethernet_address n1 = ea -> _ip_address n1 = _ip_address na -> _frames_out n1 = [] ->
  _waiting_arp_internet_datagrams n1 = [(hop, d)] ->
  exists n2, eth_read getaddrinfo getnameinfo (concatenate (EthernetFrame_serialize (reply_frame eb mb ea ma))) (mkEthernetAdapter b tap n1 hop) =
    Some (Ok None, mkEthernetAdapter b (tap ++ [EthernetFrame_serialize (dgram_frame ea eb d)]) n2 hop).
Proof.
  intros Hw1 Ee Ei If Iw. pose proof Haa as (La & Ia & Ua). pose proof Hab as (Lb & _ & Ub).
  assert (addressed n1 ma) as Ha1 by (unfold addressed; by rewrite Ee, Ei).
  destruct (arp_on_wire (mkEthernetHeader ea eb TYPE_ARP) (reply eb mb ea ma)) as (rb & Wr & Pr);
    [by apply header_wf|by apply reply_wf|].
  eexists. rewrite (eth_read_frame _ _ _ Wr). cbn [_interface].
  rewrite (recv_frame_arp _ rb (reply eb mb ea ma) n1 ma) by first [done|by apply addressed_for_me|by apply reply_wf].
  unfold accepted, is_request. simpl. rewrite bool_decide_true by done. unfold send_pending, set_interface. simpl.
  rewrite send_pending_loop_eq. unfold answers, is_request. simpl. rewrite If, Iw. cbn [List.filter].
  rewrite (for_ip_eq mb (hop, d) Hhop). simpl. rewrite Ee. done.
Qed.

(** Reading a frame with a datagram. *)
Lemma eth_read_dgram d b tap n1 hop' :
  _ethernet_address n1 = eb -> sendable d ->
  exists w pl, Buffer.wf pl /\ str pl = concatenate (IPv4.payload d) /\
  eth_read getaddrinfo getnameinfo (concatenate (EthernetFrame_serialize (dgram_frame ea eb d))) (mkEthernetAdapter b tap n1 hop') =
    let '(r, b') := unwrap_tcp_in_ip getaddrinfo getnameinfo
      (mkIPv4Datagram (IPv4.set_cksum w (IPv4.header d)) (BufferList_of_Buffer pl)) b in
    Some (r, set_base b' (send_pending (mkEthernetAdapter b tap n1 hop'))).
Proof.
  intros Ee Hd. pose proof Haa as (La & _ & _). pose proof Hab as (Lb & _ & _).
  destruct (dgram_on_wire (mkEthernetHeader eb ea TYPE_IPv4) d) as (fb & w & pl & Wf & Pf & Hpl & Spl); [by apply header_wf|done|].
  exists w, pl. split_and!; [done|done|]. rewrite (eth_read_frame _ _ _ Wf). cbn [_interface].
  rewrite (recv_frame_ip _ fb) by first [done|by apply addressed_for_me]. by rewrite Pf.
Qed.
End exchange.

(** C17: The first segment of a connection over Ethernet.  [A] is set up for a
    connection, [B] listens on the destination port, and the two interfaces do
    not know each other; [A]'s next hop is [B]'s interface.  [A] writes a SYN: a
    request goes to the device.  [B] reads it: no segment comes of it and a reply
    goes out.  [A] reads the reply: no segment, and a frame with the SYN goes
    out.  [B] reads that frame: the SYN comes up, with ports and checksum filled
    in, and [B]'s adapter has the endpoints of the connection.  Only bytes pass
    between the two. *)
Theorem syn_over_ethernet `{NumericResolver getaddrinfo getnameinfo}
    ia pa ib pb dn up dn' up' any other seg na nb ma mb hop hop' :
  u32_val ia -> u32_val ib -> u16_val pa -> u16_val pb -> fits seg -> u32_val any ->
  syn (TCPSegment.header seg) = true -> rst (TCPSegment.header seg) = false ->
  wf_interface na -> idle na -> addressed na ma -> wf_interface nb -> idle nb -> addressed nb mb ->
  ipv4_numeric hop = Ok mb -> find mb (_arp_table na) = None ->
  let A := mkEthernetAdapter (connected ia pa ib pb dn up) [] na hop in
  let B := mkEthernetAdapter (listener any pb other dn' up') [] nb hop' in
  exists A1 req B1 rep A2 frm B2 v pl,
    eth_write getnameinfo seg A = (Ok (set_ports pa pb seg), A1) /\ _tap A1 = [req] /\
    eth_read getaddrinfo getnameinfo (concatenate req) B = Some (Ok None, B1) /\ _tap B1 = [rep] /\
    eth_read getaddrinfo getnameinfo (concatenate rep) A1 = Some (Ok None, A2) /\ _tap A2 = [req; frm] /\
    eth_read getaddrinfo getnameinfo (concatenate frm) B1 =
      Some (Ok (Some (mkTCPSegment (TCPSegment.set_cksum v (TCPSegment.header (set_ports pa pb seg))) pl)), B2) /\
    str pl = str (TCPSegment.payload seg) /\ eth_base B2 = connected ib pb ia pa dn' up'.
Proof.
  intros Hia Hib Hpa Hpb Hf Hany Hsyn Hrst Wa Ia Aa Wb Ib Ab Hhop Hk A B.
  destruct (wrap_tcp_in_ip_eq ia pa ib pb dn up Hia Hib Hpa Hpb seg Hf) as (bl & v & Ew & Hl & Hp).
  destruct (ip_header_wf ia ib Hia Hib seg Hf) as [Hw Ht].
  set (d := mkIPv4Datagram _ bl) in Ew.
  assert (sendable d) as Hd.
  { split; [exact Hw|]. change (concatenate (IPv4.payload d)) with (concatenate bl). by rewrite Hl. }
  destruct (eth_write_unknown na nb ma mb hop Wa Aa Ab Hhop _ d _ _ Ia Hk Hd Ew) as [W1 E1].
  destruct (eth_read_reply na nb ma mb hop Aa Ab Hhop (connected ia pa ib pb dn up) d
    [EthernetFrame_serialize (request_frame (_ethernet_address na) ma mb)] _ W1) as (n2 & E3); [done..|].
  destruct (eth_read_dgram na nb ma mb Aa Ab d (listener any pb other dn' up')
    [EthernetFrame_serialize (reply_frame (_ethernet_address nb) mb (_ethernet_address na) ma)]
    (set_frames_out [] (learned (request (_ethernet_address na) ma mb) mb nb)) hop') as (w & b & Hb & Sb & E4); [done..|].
  destruct (unwrap_listener ia pa ib pb dn' up' Hia Hib Hpa Hpb seg (str (TCPSegment.payload seg)) v w b any other
    Hany Hsyn Hrst (Hp b Hb Sb)) as (pl & Eu & _ & Spl).
  eexists _, _, _, _, _, _, _, v, pl. split; [exact E1|]. split; [reflexivity|].
  split; [apply (eth_read_request na nb ma mb hop' Aa Wb Ab); exact Ib|]. split; [reflexivity|].
  split; [exact E3|]. split; [reflexivity|]. unfold d in E4. cbn [IPv4.header] in E4. rewrite Eu in E4. split; [exact E4|]. by split.
Qed.

Definition first_syn : TCPSegment :=
  mkTCPSegment (mkTCPHeader 0 0 (mkWrappingInt32 77) (mkWrappingInt32 0) 5 false false false false true false 64000 0 0) Buffer_empty.

Lemma first_syn_fits : fits first_syn.
Proof. split; [by split; vm_compute|]. split; [apply wf_Buffer_empty|by vm_compute]. Qed.

Lemma syn_over_ethernet_witness :
  let A := mkEthernetAdapter (connected ip_a 1234 ip_b 80 0 0) [] iface_a (ipv4 ip_b) in
  let B := mkEthernetAdapter (listener 0 80 (ipv4 0) 0 0) [] iface_b (ipv4 ip_a) in
  exists A1 frm B1 B2 seg, eth_write name_numeric first_syn A = (Ok (set_ports 1234 80 first_syn), A1) /\
    eth_read resolve_numeric name_numeric (concatenate frm) B1 = Some (Ok (Some seg), B2) /\
    eth_base B2 = connected ip_b 80 ip_a 1234 0 0.
Proof.
  pose proof u32_ips as [Ua Ub].
  assert (wf_interface iface_a) as Wa by
    (apply (NetworkInterface_of_wf eth_a (ipv4 ip_a) ip_a); [reflexivity|apply (ipv4_numeric_ipv4 ip_a); exact Ua|exact Ua]).
  assert (wf_interface iface_b) as Wb by
    (apply (NetworkInterface_of_wf eth_b (ipv4 ip_b) ip_b); [reflexivity|apply (ipv4_numeric_ipv4 ip_b); exact Ub|exact Ub]).
  assert (addressed iface_a ip_a) as Aa by (split; [reflexivity|split; [apply (ipv4_numeric_ipv4 ip_a)|]; exact Ua]).
  assert (addressed iface_b ip_b) as Ab by (split; [reflexivity|split; [apply (ipv4_numeric_ipv4 ip_b)|]; exact Ub]).
  destruct (syn_over_ethernet (getaddrinfo := resolve_numeric) (getnameinfo := name_numeric)
    ip_a 1234 ip_b 80 0 0 0 0 0 (ipv4 0) first_syn iface_a iface_b ip_a ip_b (ipv4 ip_b) (ipv4 ip_a))
    as (A1 & req & B1 & rep & A2 & frm & B2 & v & pl & H1 & _ & _ & _ & _ & _ & H2 & _ & H3);
    [exact Ua|exact Ub|by vm_compute|by vm_compute|apply first_syn_fits|by vm_compute|reflexivity|reflexivity|exact Wa|by split|exact Aa|
     exact Wb|by split|exact Ab|apply ipv4_numeric_ipv4; exact Ub|reflexivity|].
  eexists A1, frm, B1, B2, _. split; [exact H1|]. split; [exact H2|exact H3].
Defined.
