(* ===== verification/TCPReceiver.v ===== *)
(** The receiving side of a connection: [TCPReceiver] of
    [libsponge/tcp_receiver.hh] and [tcp_receiver.cc].  Segments go to the
    stream reassembler; the acknowledgment number is kept in [abs_seqno].

    [segment_received] returns [None] when the call of [push_substring] does
    not come back. *)
From S2P Require Import Prelude WrappingIntegers Buffer TCPSegment ByteStream StreamReassembler ReassemblerProgress.

Record TCPReceiver := mkTCPReceiver {
  _reassembler : StreamReassembler;
  _capacity : Z;
  abs_seqno : Z;
  ISN : WrappingInt32;
  first_segment : bool }.

Definition TCPReceiver_of (capacity : Z) : TCPReceiver :=
  mkTCPReceiver (StreamReassembler_of capacity) capacity 0 (WrappingInt32_of 0) true.

Definition segment_received (seg : TCPSegment) (r : TCPReceiver) : option TCPReceiver :=
  let data := copy (payload seg) in
  let h := header seg in
  let seg_seqno := seqno h in
  if first_segment r && negb (syn h) then Some r
  else
    let r := if first_segment r && syn h
             then mkTCPReceiver (_reassembler r) (_capacity r) (abs_seqno r) seg_seqno false else r in
    let temp_abs_seqno := unwrap seg_seqno (ISN r) (abs_seqno r) in
    if (abs_seqno r =? 1) && (temp_abs_seqno <? abs_seqno r) then Some r
    else
      let index := if 0 <? temp_abs_seqno then u64 (temp_abs_seqno - 1) else temp_abs_seqno in
      match push data index (fin h) (_reassembler r) with
      | None => None
      | Some reassembler =>
          let with_abs a := mkTCPReceiver reassembler (_capacity r) a (ISN r) (first_segment r) in
          if negb (temp_abs_seqno =? abs_seqno r) then Some (with_abs (abs_seqno r))
          else
            let abs :=
              if negb (len data =? 0) then u64 (ByteStream.bytes_written (stream_out reassembler) + 1)
              else if temp_abs_seqno =? 0 then u64 (abs_seqno r + 1)
              else abs_seqno r in
            Some (with_abs
              (if fin h || ByteStream.input_ended (stream_out reassembler) then u64 (abs + 1) else abs))
      end.

Definition ackno (r : TCPReceiver) : option WrappingInt32 :=
  if first_segment r then None else Some (wrap (abs_seqno r) (ISN r)).

Definition window_size (r : TCPReceiver) : Z :=
  u64 (_capacity r - buffer_size (stream_out (_reassembler r))).

Definition unassembled_bytes (r : TCPReceiver) : Z := StreamReassembler.unassembled_bytes (_reassembler r).

(** [stream_out()] and the reader's use of it. *)
Definition receiver_stream_out (r : TCPReceiver) : ByteStream := stream_out (_reassembler r).
Definition update_stream_out (f : ByteStream -> ByteStream) (r : TCPReceiver) : TCPReceiver :=
  mkTCPReceiver (update_output f (_reassembler r)) (_capacity r) (abs_seqno r) (ISN r) (first_segment r).

(** The write position: the stream index of the next byte to assemble. *)
Abbreviation next r := (_next_assembling_index (_reassembler r)).

(** ** Runs with a peer that sends its stream *)

Section Receiving.
Context (T : list byte) (isn : WrappingInt32) (cap : Z).
Context (Hisn : WrappingIntegers.wf isn) (Hcap : 0 <= cap) (Hbound : len T + cap < 2 ^ 62).

(** A segment of the peer: the first carries SYN and has sequence number [isn];
    the payload is a stretch of [T] from [i] on; FIN is only set on the last
    byte of [T]; payload and FIN lie within the advertised window; and the
    position is within [2^31] of the receiver's, so that its 32-bit number
    determines it. *)
Record sent (seg : TCPSegment) (i : Z) (r : TCPReceiver) : Prop := {
  sent_payload : str (payload seg) = slice i (len (str (payload seg))) T;
  sent_range : 0 <= i /\ i + len (str (payload seg)) <= len T;
  sent_syn : syn (header seg) = true -> i = 0;
  sent_seqno : seqno (header seg) = wrap (if syn (header seg) then 0 else i + 1) isn;
  sent_fin : fin (header seg) = true -> i + len (str (payload seg)) = len T;
  sent_window : i + len (str (payload seg)) + (if fin (header seg) then 1 else 0) <=
    taken (_reassembler r) + cap;
  sent_near : Z.abs ((if syn (header seg) then 0 else i + 1) - abs_seqno r) < 2 ^ 31 }.

Inductive reached : TCPReceiver -> Prop :=
  | reached_init : reached (TCPReceiver_of cap)
  | reached_recv seg i r r' : reached r -> sent seg i r -> segment_received seg r = Some r' -> reached r'
  | reached_read n r : reached r -> 0 <= n -> reached (update_stream_out (pop_output n) r)
  | reached_error r : reached r -> reached (update_stream_out ByteStream.set_error r).

(** The invariant: before the SYN nothing has arrived; after it the receiver
    has the peer's initial sequence number, and as long as the stream has not
    ended it acknowledges no byte that it has not written. *)
Record rinv (r : TCPReceiver) : Prop := {
  rinv_inv : inv T cap (_reassembler r);
  rinv_cap : _capacity r = cap;
  rinv_first : first_segment r = true -> abs_seqno r = 0 /\ input_ended (_reassembler r) = false;
  rinv_isn : first_segment r = false -> ISN r = isn /\ 1 <= abs_seqno r;
  rinv_abs : 0 <= abs_seqno r < 2 ^ 64;
  rinv_safe : input_ended (_reassembler r) = false -> abs_seqno r <= next r + 1 }.

Let Hbound64 : len T + cap < 2 ^ 64 - 1.
Proof. lia. Qed.

Lemma rinv_init : rinv (TCPReceiver_of cap).
Proof. split; simpl; try done; [by apply inv_init; lia|lia..]. Qed.

Lemma rinv_read n r : rinv r -> 0 <= n -> rinv (update_stream_out (pop_output n) r).
Proof.
  intros [Hi Hc Hf Hs Ha Hsafe] Hn. split; simpl; try done.
  by apply pop_inv.
Qed.

Lemma rinv_error r : rinv r -> rinv (update_stream_out ByteStream.set_error r).
Proof.
  intros [Hi Hc Hf Hs Ha Hsafe]. split; simpl; try done. destruct Hi. split; simpl; try done. by apply wf_set_error.
Qed.

Lemma rinv_next_range r : rinv r -> 0 <= next r <= len T.
Proof. intros [Hi _ _ _ _ _]. pose proof (inv_bounds T cap _ Hi). pose proof (inv_next T cap _ Hi). lia. Qed.

(** A final substring that starts at or before the write position ends the
    stream, if there is room. *)
Lemma push_eof_ends fuel data idx s s' :
  inv T cap s -> consistent T (mkDatagram data idx (len data) true) ->
  idx <= _next_assembling_index s -> idx + len data + 1 <= taken s + cap ->
  push_substring fuel data idx true s = Some s' -> input_ended s' = true.
Proof.
  intros Hi Hc Hidx HW. destruct fuel as [|fuel]; [done|]. cbn [push_substring].
  pose proof (inv_bounds T cap s Hi) as Hb. pose proof Hc as (_ & _ & H3 & _ & H5). simpl in H3, H5. specialize (H5 eq_refl).
  pose proof (inv_next T cap s Hi). rewrite (inv_remaining T cap s Hi).
  destruct (Z.eqb_spec (taken s + cap - _next_assembling_index s) 0); [lia|].
  assert (forall ex s1 s2, ex = false -> finish (push_substring fuel) data true ex s1 = Some s2 -> input_ended s2 = true) as Hfin.
  { intros ex s1 s2 ->. unfold finish. destruct (push_front_of_storage _ _ _); [|done]. by intros [= <-]. }
  rewrite (indicator_open T cap Hcap Hbound64) by (done || lia).
  destruct (Z.eqb_spec idx (_next_assembling_index s)); [by apply Hfin|].
  destruct (Z.ltb_spec (_next_assembling_index s) idx); [lia|].
  destruct (Z.ltb_spec (_next_assembling_index s) (u64 (idx + len data))) as [Hlt|]; [|by apply Hfin].
  rewrite u64_small in Hlt by (destruct Hc as (? & _); simpl in *; lia).
  pose proof (overlap_handler_inv T cap Hcap Hbound64 s data idx true Hi Hc ltac:(lia)) as Ho.
  destruct (overlap_handler _ s) as [ex s1]. destruct Ho as (-> & _); [lia|]. by apply Hfin.
Qed.

(** The position of a segment in sequence space, SYN at 0. *)
Definition position (seg : TCPSegment) (i : Z) : Z := if syn (header seg) then 0 else i + 1.

(** It is found from the 32-bit number. *)
Lemma sent_unwrap seg i r :
  sent seg i r -> 0 <= abs_seqno r -> unwrap (seqno (header seg)) isn (abs_seqno r) = position seg i.
Proof.
  intros [_ Hr _ Hs _ _ Hn] Ha. rewrite Hs. fold (position seg i) in *.
  assert (0 <= position seg i <= len T + 1) by (unfold position; destruct (syn _); lia).
  apply unwrap_wrap_near; lia.
Qed.

Lemma wrap_0 : wrap 0 isn = isn.
Proof. apply wf_ext. rewrite raw_wrap, Z.add_0_r. by apply u32_small. Qed.

(** What [segment_received] does with a segment of the peer that is not ignored. *)
Definition acked (pos : Z) (seg : TCPSegment) (s : StreamReassembler) (abs : Z) : Z :=
  if pos =? abs then
    (if negb (len (str (payload seg)) =? 0) then _next_assembling_index s + 1
     else if pos =? 0 then abs + 1 else abs)
    + (if fin (header seg) || input_ended s then 1 else 0)
  else abs.

Lemma sent_consistent seg i r :
  sent seg i r -> consistent T (mkDatagram (str (payload seg)) i (len (str (payload seg))) (fin (header seg))).
Proof. intros [Hp Hr _ _ Hf _ _]. unfold consistent; simpl. split_and!; try done; lia. Qed.

Lemma sent_grows seg i r s' :
  rinv r -> sent seg i r -> push (str (payload seg)) i (fin (header seg)) (_reassembler r) = Some s' ->
  grows T cap (_reassembler r) s'.
Proof.
  intros [Hi _ _ _ _ _] Hs. apply push_substring_grows; [done|done|done|by apply (sent_consistent seg i r)|].
  destruct Hs as [_ _ _ _ _ Hw _]. destruct (fin _); lia.
Qed.

Lemma sent_fin_ends seg i r s' :
  rinv r -> sent seg i r -> fin (header seg) = true -> i <= next r ->
  push (str (payload seg)) i (fin (header seg)) (_reassembler r) = Some s' -> input_ended s' = true.
Proof.
  intros [Hi _ _ _ _ _] Hs Hf Hle. pose proof (sent_consistent seg i r Hs) as Hc.
  destruct Hs as [_ _ _ _ _ Hw _]. rewrite Hf in *. by apply push_eof_ends.
Qed.

(** A segment of the peer that is taken for position [pos]. *)
Lemma recv_at pos seg i r :
  _capacity r = cap -> (first_segment r = true -> abs_seqno r = 0) -> (first_segment r = false -> ISN r = isn) ->
  0 <= abs_seqno r < 2 ^ 63 -> seqno (header seg) = wrap (position seg i) isn ->
  unwrap (seqno (header seg)) isn (abs_seqno r) = pos -> (abs_seqno r = 1 -> (pos < 1 <-> syn (header seg) = true)) ->
  let idx := if 0 <? pos then pos - 1 else pos in
  (forall s', push (str (payload seg)) idx (fin (header seg)) (_reassembler r) = Some s' -> inv T cap s') ->
  segment_received seg r =
  if (first_segment r && negb (syn (header seg))) || ((abs_seqno r =? 1) && syn (header seg)) then Some r
  else
    match push (str (payload seg)) idx (fin (header seg)) (_reassembler r) with
    | None => None
    | Some s => Some (mkTCPReceiver s cap (acked pos seg s (abs_seqno r)) isn false)
    end.
Proof.
  intros Hc Hf Hn Habs Hseq Hpos Hone idx Hinv. unfold segment_received, copy.
  destruct (first_segment r && negb (syn (header seg))) eqn:E1; [done|]. cbn [orb].
  set (r1 := if first_segment r && syn (header seg) then _ else r).
  assert (r1 = mkTCPReceiver (_reassembler r) cap (abs_seqno r) isn false) as ->.
  { subst r1. destruct r as [re c a n f]; simpl in *. subst c. destruct f; simpl in *; [|by rewrite (Hn eq_refl)].
    unfold position in Hseq. destruct (syn (header seg)); [|done]. f_equal. rewrite Hseq. apply wrap_0. }
  cbn [ISN abs_seqno _reassembler _capacity first_segment]. rewrite Hpos.
  pose proof (unwrap_range (seqno (header seg)) isn (abs_seqno r)) as Hrange. rewrite Hpos in Hrange.
  assert ((abs_seqno r =? 1) && (pos <? abs_seqno r) = (abs_seqno r =? 1) && syn (header seg)) as ->.
  { destruct (Z.eqb_spec (abs_seqno r) 1) as [E|]; [|done]. specialize (Hone E). rewrite E.
    destruct (Z.ltb_spec pos 1), (syn (header seg)); cbn [andb]; try done; [by destruct Hone as [-> _]|].
    destruct Hone as [_ Hone]. specialize (Hone eq_refl). lia. }
  destruct (_ && syn (header seg)) eqn:E2.
  { apply andb_true_iff in E2 as [E2 _]. apply Z.eqb_eq in E2. destruct r as [re c a n f]; simpl in *. subst.
    destruct f; [by specialize (Hf eq_refl)|]. by rewrite (Hn eq_refl). }
  assert ((if 0 <? pos then u64 (pos - 1) else pos) = idx) as ->.
  { unfold idx. destruct (Z.ltb_spec 0 pos); [|done]. apply u64_small. lia. }
  unfold acked. destruct (push _ _ _ _) as [s|] eqn:Ep; [|done]. pose proof (Hinv _ eq_refl) as Hi'.
  unfold stream_out. rewrite (inv_bytes_written T cap Hcap Hbound64 s Hi').
  pose proof (inv_bounds T cap s Hi'). pose proof (inv_next T cap s Hi').
  fold (input_ended s). repeat zcase; cbn [negb]; try done;
    destruct (fin (header seg) || input_ended s); unwrap_uint; rewrite ?Z.add_0_r; done.
Qed.

(** The stream index of a position, and whether it is that of a SYN. *)
Lemma position_index seg i :
  0 <= i -> (syn (header seg) = true -> i = 0) ->
  (if 0 <? position seg i then position seg i - 1 else position seg i) = i /\
  (position seg i < 1 <-> syn (header seg) = true).
Proof.
  clear Hbound64 Hbound Hcap Hisn.
  intros Hi Hs. unfold position. destruct (syn (header seg)); [by rewrite Hs|].
  destruct (Z.ltb_spec 0 (i + 1)); split; [lia|split; [lia|done]|lia..].
Qed.

Lemma recv_eq seg i r :
  rinv r -> sent seg i r -> abs_seqno r < 2 ^ 63 ->
  segment_received seg r =
  if (first_segment r && negb (syn (header seg))) || ((abs_seqno r =? 1) && syn (header seg)) then Some r
  else
    match push (str (payload seg)) i (fin (header seg)) (_reassembler r) with
    | None => None
    | Some s => Some (mkTCPReceiver s cap (acked (position seg i) seg s (abs_seqno r)) isn false)
    end.
Proof.
  intros Hr Hs Ha. pose proof Hr as [Hi Hc Hf Hn Habs Hsafe].
  destruct (position_index seg i) as [Ei Esyn]; [apply (sent_range _ _ _ Hs)|apply (sent_syn _ _ _ Hs)|].
  rewrite (recv_at (position seg i) seg i r); try done.
  - by rewrite Ei.
  - by intros; apply Hf.
  - by intros; apply Hn.
  - lia.
  - apply (sent_seqno _ _ _ Hs).
  - apply sent_unwrap; [done|lia].
  - rewrite Ei. intros s' Hp. by destruct (sent_grows _ _ _ _ Hr Hs Hp).
Qed.

Lemma rinv_recv seg i r r' : rinv r -> sent seg i r -> segment_received seg r = Some r' -> rinv r'.
Proof.
  intros Hr Hs. pose proof Hr as [Hi Hc Hf Hn Habs Hsafe].
  assert (0 <= position seg i <= len T + 1) as Hpos.
  { unfold position. pose proof (sent_range _ _ _ Hs). destruct (syn _); lia. }
  pose proof (sent_near _ _ _ Hs) as Hnear. fold (position seg i) in Hnear.
  rewrite (recv_eq seg i r) by (done || lia).
  destruct (_ || _) eqn:E; [by intros [= <-]|].
  apply orb_false_iff in E as [E1 E2].
  destruct (push _ _ _ _) as [s|] eqn:Ep; [|done]. intros [= <-].
  destruct (sent_grows _ _ _ _ Hr Hs Ep) as (Hi' & Ht & Hnx).
  pose proof (inv_next T cap s Hi'). pose proof (inv_bounds T cap s Hi').
  assert (1 <= acked (position seg i) seg s (abs_seqno r) <= Z.max (abs_seqno r) (next r + 1) + len T + 2) as Hrange.
  { pose proof (rinv_next_range r Hr). pose proof (sent_range _ _ _ Hs).
    assert (abs_seqno r = 0 -> position seg i = 0) as Hz.
    { intros Hz. destruct (first_segment r); [|destruct (Hn eq_refl); lia].
      unfold position. by destruct (syn (header seg)). }
    clear E1 E2. unfold acked. set (pos := position seg i) in *.
    destruct (fin _ || _); repeat zcase; simpl; lia. }
  split; cbn [_reassembler _capacity abs_seqno ISN first_segment]; try done.
  - split; [done|lia].
  - pose proof (rinv_next_range r Hr). lia.
  - intros He. unfold acked. rewrite He, orb_false_r.
    assert (input_ended (_reassembler r) = false) as Her.
    { destruct (input_ended (_reassembler r)) eqn:Her; [|done]. by rewrite (push_keeps_ended _ _ _ _ _ _ Ep Her) in He. }
    specialize (Hsafe Her).
    destruct (Z.eqb_spec (position seg i) (abs_seqno r)) as [Epos|]; [|lia].
    destruct (fin (header seg)) eqn:Efin.
    + exfalso. rewrite (sent_fin_ends seg i r s) in He; try done; [|by rewrite Efin].
      unfold position in Epos. pose proof (sent_syn _ _ _ Hs). pose proof (rinv_next_range r Hr).
      destruct (syn (header seg)); [rewrite H1 by done; lia|lia].
    + repeat zcase; simpl; try lia.
Qed.

Lemma reached_rinv r : reached r -> rinv r.
Proof.
  induction 1 as [|seg i r r' _ IH Hs Hr|n r _ IH Hn|r _ IH]; [apply rinv_init|by eapply rinv_recv|by apply rinv_read|by apply rinv_error].
Qed.

(** An in-order segment with nothing stored: the reassembler takes it whole. *)
Lemma push_in_order data e s :
  inv T cap s -> temporarily_descrete_data_storage s = [] ->
  let i := _next_assembling_index s in
  consistent T (mkDatagram data i (len data) e) -> i + len data <= taken s + cap -> i < taken s + cap ->
  exists s', push data i e s = Some s' /\ grows T cap s s' /\ temporarily_descrete_data_storage s' = [] /\
    _next_assembling_index s' = i + len data /\ input_ended s' = input_ended s || e.
Proof.
  intros Hi Hst i Hc HW Hlt.
  assert (exists s', push data i e s = Some s' /\ temporarily_descrete_data_storage s' = [] /\
    _next_assembling_index s' = i + len data /\ input_ended s' = input_ended s || e) as (s' & Hp & H1 & H2 & H3).
  { destruct (good_case_inv T cap Hcap Hbound64 s data i e Hi Hc (fun _ => HW) eq_refl) as (_ & _ & Hn).
    unfold push, enough. rewrite Hst. cbn [length]. cbn [push_substring].
    rewrite (inv_remaining T cap s Hi). pose proof (inv_bounds T cap s Hi).
    destruct (Z.eqb_spec (taken s + cap - _next_assembling_index s) 0); [unfold i in *; lia|].
    rewrite (indicator_open T cap Hcap Hbound64) by (done || unfold i in *; lia).
    unfold i in *. rewrite Z.eqb_refl. unfold finish, push_front_of_storage.
    unfold good_case at 1. cbn [temporarily_descrete_data_storage]. rewrite Hst.
    eexists. split; [done|]. cbn [negb]. rewrite andb_true_r.
    assert (input_ended (good_case data s) = input_ended s) as Hends.
    { unfold good_case, input_ended. simpl. apply write_keeps_ended. }
    destruct e; simpl; rewrite ?orb_true_r, ?orb_false_r; done. }
  exists s'. split_and!; try done. apply (push_substring_grows T cap Hcap Hbound64 _ _ _ _ _ _ Hi Hc (fun _ => HW) Hp).
Qed.
End Receiving.

(** ** What the receiver promises *)

(** C5: Safety of the receiver.  For a peer that sends pieces of its stream [T]
    inside the advertised window, at every moment: there is an acknowledgment
    number exactly when the SYN has been received, and then it is counted from
    the peer's initial sequence number; the bytes delivered and buffered are a
    prefix of [T]; the window is the capacity not taken by buffered bytes; and
    until the stream has ended the receiver never acknowledges a byte that it
    has not written to the stream. *)
Theorem receiver_safe T isn cap r :
  WrappingIntegers.wf isn -> 0 <= cap -> len T + cap < 2 ^ 62 -> reached T isn cap r ->
  let out := receiver_stream_out r in
  ackno r = (if first_segment r then None else Some (wrap (abs_seqno r) isn)) /\
  (first_segment r = false -> 1 <= abs_seqno r) /\
  ztake (bytes_read out) T ++ _stream out = ztake (bytes_written out) T /\
  window_size r = cap - (bytes_written out - bytes_read out) /\
  (ByteStream.input_ended out = false -> abs_seqno r <= bytes_written out + 1) /\
  (ByteStream.input_ended out = true -> bytes_written out = len T).
Proof.
  intros Hisn Hcap Hb Hr out. apply reached_rinv in Hr; [|done..]. pose proof Hr as [Hi Hc Hf Hn Ha Hsafe].
  assert (len T + cap < 2 ^ 64 - 1) as Hb' by lia.
  pose proof (inv_bytes_written T cap Hcap Hb' _ Hi) as Hbw. pose proof (inv_bounds T cap _ Hi) as Hbd.
  pose proof Hi as [Ho Hoc _ Hnx Hw Hco _ _ _ _ _ He]. unfold out, receiver_stream_out, stream_out. rewrite Hbw.
  split_and!.
  - unfold ackno. destruct (first_segment r); [done|]. by destruct (Hn eq_refl) as [-> _].
  - intros E. by destruct (Hn E).
  - rewrite Hco. change (bytes_read (_output (_reassembler r))) with (taken (_reassembler r)).
    rewrite ztake_slice by lia. f_equal. lia.
  - unfold window_size, stream_out, buffer_size. rewrite Hc, (wf_size _ Ho).
    change (bytes_read (_output (_reassembler r))) with (taken (_reassembler r)). rewrite u64_small by lia. lia.
  - done.
  - done.
Qed.

Definition isn0 : WrappingInt32 := mkWrappingInt32 0xfffffffe.
Definition syn_segment : TCPSegment :=
  mkTCPSegment (mkTCPHeader 0 0 isn0 (WrappingInt32_of 0) 5 false false false false true false 0 0 0) Buffer_empty.
Definition data_segment (i : Z) (data : list byte) (f : bool) : TCPSegment :=
  mkTCPSegment (mkTCPHeader 0 0 (wrap (i + 1) isn0) (WrappingInt32_of 0) 5 false true false false false f 0 0 0) (Buffer_of data).

Definition after (segs : list TCPSegment) (cap : Z) : TCPReceiver :=
  fold_left (fun r seg => default r (segment_received seg r)) segs (TCPReceiver_of cap).

Lemma after_syn_reached : reached (lit "abcde") isn0 8 (after [syn_segment] 8).
Proof.
  eapply (reached_recv _ _ _ syn_segment 0 (TCPReceiver_of 8)); [apply reached_init| |by vm_compute].
  split; vm_compute; try done; split; by intros.
Qed.

Lemma receiver_safe_witness :
  let r := after [syn_segment; data_segment 0 (lit "abc") false] 8 in
  reached (lit "abcde") isn0 8 r /\
  abs_seqno r <= bytes_written (receiver_stream_out r) + 1 /\ ackno r = Some (wrap (abs_seqno r) isn0).
Proof.
  intros r. assert (reached (lit "abcde") isn0 8 r) as Hr.
  { eapply (reached_recv _ _ _ (data_segment 0 (lit "abc") false) 0); [apply after_syn_reached| |by vm_compute].
    split; vm_compute; try done; split; by intros. }
  split; [done|].
  destruct (receiver_safe (lit "abcde") isn0 8 r) as (H1 & _ & _ & _ & H5 & _); [by vm_compute|lia|by vm_compute|done|].
  split; [by apply H5; vm_compute|]. rewrite H1. by vm_compute.
Defined.

(** C25: In-order segments are acknowledged at once.  A receiver that holds no
    out-of-order data and has acknowledged everything it has written accepts the
    next segment of the peer's stream (with at least one byte or FIN, within
    the window): the call returns, all its bytes are written, the stream is
    ended exactly if FIN was set, and the acknowledgment number covers the
    payload and the FIN. *)
Theorem in_order_segment T isn cap seg i r :
  WrappingIntegers.wf isn -> 0 <= cap -> len T + cap < 2 ^ 62 -> reached T isn cap r ->
  first_segment r = false -> unassembled_bytes r = 0 -> temporarily_descrete_data_storage (_reassembler r) = [] ->
  ByteStream.input_ended (receiver_stream_out r) = false ->
  i = bytes_written (receiver_stream_out r) -> abs_seqno r = i + 1 ->
  sent T isn cap seg i r -> syn (header seg) = false -> 0 < length_in_sequence_space seg ->
  exists r', segment_received seg r = Some r' /\
    bytes_written (receiver_stream_out r') = i + len (str (payload seg)) /\
    ByteStream.input_ended (receiver_stream_out r') = fin (header seg) /\
    ackno r' = Some (wrap (i + 1 + length_in_sequence_space seg) isn) /\
    temporarily_descrete_data_storage (_reassembler r') = [].
Proof.
  intros Hisn Hcap Hb Hr Hfs _ Hst He Hi Habs Hs Hsyn Hlen. apply reached_rinv in Hr; [|done..].
  pose proof Hr as [Hinv _ _ Hn _ _]. assert (len T + cap < 2 ^ 64 - 1) as Hb' by lia.
  unfold receiver_stream_out, stream_out in Hi. rewrite (inv_bytes_written T cap Hcap Hb' _ Hinv) in Hi.
  pose proof (sent_range _ _ _ _ _ _ Hs) as Hrng. pose proof (sent_window _ _ _ _ _ _ Hs) as Hw.
  rewrite length_in_sequence_space_eq, Hsyn in * by lia.
  destruct (push_in_order T cap Hcap Hb (str (payload seg)) (fin (header seg)) (_reassembler r) Hinv Hst)
    as (s' & Hp & Hg & Hst' & Hnx & Hend).
  { rewrite <- Hi. by apply (sent_consistent T isn cap seg i r). }
  { destruct (fin (header seg)); lia. }
  { destruct (fin (header seg)); lia. }
  rewrite (recv_eq T isn cap Hisn Hcap Hb seg i r Hr Hs) by lia. rewrite Hfs, Hsyn, andb_false_r. cbn [andb orb].
  rewrite Hi, Hp. eexists. split; [done|]. unfold receiver_stream_out, stream_out. cbn [_reassembler].
  destruct Hg as (Hi' & _). rewrite (inv_bytes_written T cap Hcap Hb' s' Hi'). split; [done|].
  assert (ByteStream.input_ended (_output s') = fin (header seg)) as Hend'.
  { change (input_ended s' = fin (header seg)). rewrite Hend. unfold input_ended.
    unfold receiver_stream_out, stream_out in He. by rewrite He. }
  split; [done|]. split; [|done]. unfold ackno. cbn [first_segment abs_seqno ISN]. do 2 f_equal.
  unfold acked, position. rewrite Hsyn, <- Hi, Habs, Z.eqb_refl, Hnx. unfold input_ended. rewrite Hend'.
  destruct (fin (header seg)); simpl; repeat zcase; simpl; lia.
Qed.

Lemma in_order_segment_witness :
  exists r', segment_received (data_segment 0 (lit "abcde") true) (after [syn_segment] 8) = Some r' /\
    bytes_written (receiver_stream_out r') = 5 /\ ByteStream.input_ended (receiver_stream_out r') = true /\
    ackno r' = Some (wrap 7 isn0) /\ temporarily_descrete_data_storage (_reassembler r') = [].
Proof.
  apply (in_order_segment (lit "abcde") isn0 8 (data_segment 0 (lit "abcde") true) 0 (after [syn_segment] 8)); try by vm_compute.
  apply after_syn_reached.
Defined.

(** ** Where the acknowledgment number is wrong *)

(** After the end of the stream, every further empty segment at the
    acknowledged position (each pure ACK of a peer that has sent its FIN has
    that sequence number) moves the acknowledgment number one further, past
    everything the peer has sent. *)
Theorem ack_after_fin_advances T isn cap seg r r' :
  WrappingIntegers.wf isn -> 0 <= cap -> len T + cap < 2 ^ 62 -> reached T isn cap r ->
  first_segment r = false -> ByteStream.input_ended (receiver_stream_out r) = true ->
  2 <= abs_seqno r < 2 ^ 62 ->
  str (payload seg) = [] -> syn (header seg) = false -> fin (header seg) = false ->
  Some (seqno (header seg)) = ackno r -> segment_received seg r = Some r' ->
  ackno r' = Some (wrap (abs_seqno r + 1) isn).
Proof.
  intros Hisn Hcap Hb Hr Hf He Ha Hpl Hsyn Hfin Hseq. apply reached_rinv in Hr; [|done..].
  destruct Hr as [_ _ _ Hn _ _]. destruct (Hn Hf) as [Hi _].
  unfold segment_received, copy. rewrite Hf. cbn [andb]. unfold ackno in Hseq. rewrite Hf, Hi in Hseq.
  injection Hseq as ->. rewrite Hi, unwrap_wrap_near by lia.
  destruct (Z.eqb_spec (abs_seqno r) 1); [lia|]. cbn [andb].
  rewrite Hpl, Hfin. destruct (push _ _ _ _) as [s|] eqn:Ep; [|done]. rewrite Z.eqb_refl. change (len [] =? 0) with true. cbn [negb orb].
  apply push_keeps_ended in Ep; [|exact He]. change (ByteStream.input_ended (stream_out s)) with (input_ended s).
  rewrite Ep.
  destruct (Z.eqb_spec (abs_seqno r) 0); [lia|]. intros [= <-]. unfold ackno.
  cbn [first_segment abs_seqno ISN]. rewrite Hf, u64_small by lia. done.
Qed.

Lemma ack_after_fin_advances_witness :
  let r := after [syn_segment; data_segment 0 (lit "abcde") true] 8 in
  ackno r = Some (wrap 7 isn0) /\
  ackno (default r (segment_received (data_segment 6 [] false) r)) = Some (wrap 8 isn0).
Proof.
  intros r. split; [by vm_compute|].
  apply (ack_after_fin_advances (lit "abcde") isn0 8 (data_segment 6 [] false) r); try by vm_compute.
  eapply (reached_recv _ _ _ (data_segment 0 (lit "abcde") true) 0); [apply after_syn_reached|by vm_compute..].
Defined.

(** A FIN that arrives when the buffer is full is acknowledged and lost: the
    reassembler ignores it, [abs_seqno] counts it all the same, and the stream
    is not ended; the peer, whose FIN is acknowledged, has no reason to send it
    again. *)
Theorem fin_lost_when_full T isn cap seg i r :
  WrappingIntegers.wf isn -> 0 <= cap -> len T + cap < 2 ^ 62 -> reached T isn cap r ->
  first_segment r = false -> window_size r = 0 -> ByteStream.input_ended (receiver_stream_out r) = false ->
  i = len T -> bytes_written (receiver_stream_out r) = i -> abs_seqno r = i + 1 ->
  str (payload seg) = [] -> syn (header seg) = false -> fin (header seg) = true ->
  0 < i -> seqno (header seg) = wrap (i + 1) isn ->
  exists r', segment_received seg r = Some r' /\ ackno r' = Some (wrap (i + 2) isn) /\
    receiver_stream_out r' = receiver_stream_out r /\ ByteStream.input_ended (receiver_stream_out r') = false.
Proof.
  intros Hisn Hcap Hb Hr Hf Hwin He Hi Hbw Ha Hpl Hsyn Hfin Hpos Hseq. apply reached_rinv in Hr; [|done..].
  pose proof Hr as [Hinv Hc _ Hn _ _]. destruct (Hn Hf) as [Hisn' _]. pose proof Hinv as [Ho Hoc _ _ _ _ _ _ _ _ _ _].
  unfold segment_received, copy. rewrite Hf, Hsyn, Hpl, Hfin, Hseq. cbn [andb]. rewrite Hisn', Ha.
  rewrite unwrap_wrap_near by lia. destruct (Z.eqb_spec (i + 1) 1); [lia|]. cbn [andb].
  assert (forall d j e, push d j e (_reassembler r) = Some (_reassembler r)) as Hpush.
  { intros d j e. unfold push, enough. cbn [push_substring].
    assert (remaining_capacity (_output (_reassembler r)) = 0) as ->; [|done].
    unfold remaining_capacity. rewrite Hoc, <- Hc. exact Hwin. }
  rewrite Hpush, Z.eqb_refl. change (len [] =? 0) with true. cbn [negb orb]. destruct (Z.eqb_spec (i + 1) 0); [lia|].
  eexists. split; [done|]. unfold ackno. cbn [first_segment abs_seqno ISN]. rewrite Hf, u64_small by lia.
  split_and!; [|done|done].
  do 2 f_equal. lia.
Qed.

Lemma fin_lost_when_full_witness :
  let r := after [syn_segment; data_segment 0 (lit "abcde") false] 5 in
  exists r', segment_received (data_segment 5 [] true) r = Some r' /\ ackno r' = Some (wrap 7 isn0) /\
    receiver_stream_out r' = receiver_stream_out r /\ ByteStream.input_ended (receiver_stream_out r') = false.
Proof.
  apply (fin_lost_when_full (lit "abcde") isn0 5 (data_segment 5 [] true) 5); try by vm_compute.
  eapply (reached_recv _ _ _ (data_segment 0 (lit "abcde") false) 0 (after [syn_segment] 5)); [|by vm_compute..].
  eapply (reached_recv _ _ _ syn_segment 0 (TCPReceiver_of 5)); [apply reached_init|by vm_compute..].
Defined.

(** The acknowledgment number lags behind the stream: a segment that starts
    before the acknowledged position and extends past it has its new bytes
    written, but [ackno] is not moved, although the header promises the
    sequence number of the first byte not received. *)
Theorem overlap_ack_lags T isn cap seg i r :
  WrappingIntegers.wf isn -> 0 <= cap -> len T + cap < 2 ^ 62 -> reached T isn cap r ->
  first_segment r = false -> temporarily_descrete_data_storage (_reassembler r) = [] ->
  abs_seqno r = bytes_written (receiver_stream_out r) + 1 ->
  sent T isn cap seg i r -> syn (header seg) = false ->
  i < bytes_written (receiver_stream_out r) < i + len (str (payload seg)) ->
  exists r', segment_received seg r = Some r' /\
    bytes_written (receiver_stream_out r') = i + len (str (payload seg)) /\ ackno r' = ackno r.
Proof.
  intros Hisn Hcap Hb Hr Hfs Hst Habs Hs Hsyn Hov. apply reached_rinv in Hr; [|done..].
  pose proof Hr as [Hinv _ _ Hn _ _]. assert (len T + cap < 2 ^ 64 - 1) as Hb' by lia. destruct (Hn Hfs) as [Hi _].
  unfold receiver_stream_out, stream_out in *. rewrite (inv_bytes_written T cap Hcap Hb' _ Hinv) in *.
  pose proof (sent_range _ _ _ _ _ _ Hs) as Hrng. pose proof (sent_window _ _ _ _ _ _ Hs) as Hw.
  assert (i + len (str (payload seg)) <= taken (_reassembler r) + cap) as HW by (destruct (fin (header seg)); lia).
  pose proof (overlap_handler_inv T cap Hcap Hb' (_reassembler r) (str (payload seg)) i (fin (header seg)) Hinv
    (sent_consistent T isn cap seg i r Hs) (fun _ => HW) Hov) as Ho.
  rewrite (recv_eq T isn cap Hisn Hcap Hb seg i r Hr Hs) by lia. rewrite Hfs, Hsyn, andb_false_r. cbn [andb orb].
  unfold push, enough. cbn [push_substring]. rewrite (inv_remaining T cap _ Hinv). pose proof (inv_bounds T cap _ Hinv).
  destruct (Z.eqb_spec (taken (_reassembler r) + cap - next r) 0); [lia|].
  unfold first_unassemble_byte_index. rewrite Hst. pose proof (inv_next T cap _ Hinv). rewrite (inv_cap T cap _ Hinv).
  match goal with |- context [if ?b then Some (_reassembler r) else _] => assert (b = false) as -> end.
  { apply Z.leb_gt. zcase; rewrite u64_small; lia. }
  destruct (Z.eqb_spec i (next r)); [lia|]. destruct (Z.ltb_spec (next r) i); [lia|].
  rewrite (u64_small (i + len (str (payload seg)))) by lia.
  destruct (Z.ltb_spec (next r) (i + len (str (payload seg)))); [|lia].
  assert (temporarily_descrete_data_storage (overlap_handler (mkDatagram (str (payload seg)) i (len (str (payload seg))) (fin (header seg))) (_reassembler r)).2 = []) as Hst' by exact Hst.
  destruct (overlap_handler _ _) as [ex s1]. destruct Ho as (-> & Hi1 & _ & Hn1).
  unfold finish, push_front_of_storage. simpl in Hst'. rewrite Hst'. eexists. split; [done|]. cbn [_reassembler].
  pose proof (inv_bytes_written T cap Hcap Hb' _ Hi1) as Hbw1. rewrite Hn1 in Hbw1. split.
  - destruct (fin (header seg)); done.
  - unfold ackno. rewrite Hfs. cbn [first_segment abs_seqno ISN]. rewrite Hi. do 2 f_equal.
    unfold acked, position. rewrite Hsyn. destruct (Z.eqb_spec (i + 1) (abs_seqno r)); [lia|done].
Qed.

Lemma overlap_ack_lags_witness :
  let r := after [syn_segment; data_segment 0 (lit "abc") false] 8 in
  exists r', segment_received (data_segment 1 (lit "bcde") false) r = Some r' /\
    bytes_written (receiver_stream_out r') = 5 /\ ackno r' = ackno r.
Proof.
  intros r.
  apply (overlap_ack_lags (lit "abcde") isn0 8 (data_segment 1 (lit "bcde") false) 1 r); try by vm_compute.
  eapply (reached_recv _ _ _ (data_segment 0 (lit "abc") false) 0); [apply after_syn_reached|by vm_compute..].
Defined.
