(* ===== verification/TCPSender.v ===== *)
(** The sending side of a connection: [TCPSender] of [libsponge/tcp_sender.hh]
    and [tcp_sender.cc], with the constants of [tcp_helpers/tcp_config.hh].

    A queue is a list with its front first.  The loop of [fill_window] reads at
    least one byte per turn, so the number of buffered bytes bounds its turns:
    with no byte left its condition is false. *)
From S2P Require Import Prelude WrappingIntegers Buffer ByteStream TCPSegment.

(** ** Configuration *)

Definition DEFAULT_CAPACITY : Z := 64000.
Definition MAX_PAYLOAD_SIZE : Z := 1000.
Definition TIMEOUT_DFLT : Z := 1000.
Definition MAX_RETX_ATTEMPTS : Z := 8.

Record TCPConfig := mkTCPConfig {
  rt_timeout : Z; recv_capacity : Z; send_capacity : Z; fixed_isn : option WrappingInt32 }.

Definition TCPConfig_default : TCPConfig := mkTCPConfig TIMEOUT_DFLT DEFAULT_CAPACITY DEFAULT_CAPACITY None.

(** ** State *)

Record TCPSender := mkTCPSender {
  _isn : WrappingInt32;
  _segments_out : list TCPSegment;
  _outstanding_segments : list TCPSegment;
  _initial_retransmission_timeout : Z;
  _applying_retransmission_timeout : Z;
  _last_tick_time : Z;
  _timing_begins : bool;
  consecutive_retransmissions_ : Z;
  _stream : ByteStream;
  _next_seqno : Z;
  _confirmed_seqno : Z;
  fin_sent : bool;
  bytes_in_flight_ : Z;
  _receiver_window_size : Z }.

(** The constructor; [random_isn] is the value of [random_device()()], used when
    no initial sequence number is fixed. *)
Definition TCPSender_of (capacity retx_timeout : Z) (fixed : option WrappingInt32) (random_isn : Z) : TCPSender :=
  mkTCPSender (default (WrappingInt32_of random_isn) fixed) [] [] retx_timeout retx_timeout 0 false 0
    (ByteStream_of capacity) 0 0 false 0 0.

(** ** Accessors *)

Definition bytes_in_flight (s : TCPSender) : Z := bytes_in_flight_ s.
Definition consecutive_retransmissions (s : TCPSender) : Z := consecutive_retransmissions_ s.
Definition stream_in (s : TCPSender) : ByteStream := _stream s.
Definition next_seqno_absolute (s : TCPSender) : Z := _next_seqno s.
Definition next_seqno (s : TCPSender) : WrappingInt32 := wrap (_next_seqno s) (_isn s).
Definition is_empty (s : TCPSender) : bool := match _segments_out s with [] => true | _ => false end.

(** The writer works on [stream_in()] by reference. *)
Definition update_stream (st : ByteStream) (s : TCPSender) : TCPSender :=
  mkTCPSender (_isn s) (_segments_out s) (_outstanding_segments s) (_initial_retransmission_timeout s)
    (_applying_retransmission_timeout s) (_last_tick_time s) (_timing_begins s) (consecutive_retransmissions_ s)
    st (_next_seqno s) (_confirmed_seqno s) (fin_sent s) (bytes_in_flight_ s) (_receiver_window_size s).

(** The owner takes segments off [segments_out()]. *)
Definition set_segments_out (q : list TCPSegment) (s : TCPSender) : TCPSender :=
  mkTCPSender (_isn s) q (_outstanding_segments s) (_initial_retransmission_timeout s)
    (_applying_retransmission_timeout s) (_last_tick_time s) (_timing_begins s) (consecutive_retransmissions_ s)
    (_stream s) (_next_seqno s) (_confirmed_seqno s) (fin_sent s) (bytes_in_flight_ s) (_receiver_window_size s).

(** [front()] and [pop()] of an empty queue have no defined result: [None]. *)
Definition read_a_segment (s : TCPSender) : option (TCPSegment * TCPSender) :=
  match _segments_out s with
  | [] => None
  | temp :: rest => Some (temp, set_segments_out rest s)
  end.

(** ** Sending *)

Definition set_seqno (n : WrappingInt32) (seg : TCPSegment) : TCPSegment :=
  let h := header seg in
  mkTCPSegment (mkTCPHeader (sport h) (dport h) n (ackno h) (doff h) (urg h) (ack h) (psh h) (rst h) (syn h) (fin h)
    (win h) (cksum h) (uptr h)) (payload seg).

Definition set_syn (seg : TCPSegment) : TCPSegment :=
  let h := header seg in
  mkTCPSegment (mkTCPHeader (sport h) (dport h) (seqno h) (ackno h) (doff h) (urg h) (ack h) (psh h) (rst h) true (fin h)
    (win h) (cksum h) (uptr h)) (payload seg).

Definition set_fin (seg : TCPSegment) : TCPSegment :=
  let h := header seg in
  mkTCPSegment (mkTCPHeader (sport h) (dport h) (seqno h) (ackno h) (doff h) (urg h) (ack h) (psh h) (rst h) (syn h) true
    (win h) (cksum h) (uptr h)) (payload seg).

Definition set_fin_sent (s : TCPSender) : TCPSender :=
  mkTCPSender (_isn s) (_segments_out s) (_outstanding_segments s) (_initial_retransmission_timeout s)
    (_applying_retransmission_timeout s) (_last_tick_time s) (_timing_begins s) (consecutive_retransmissions_ s)
    (_stream s) (_next_seqno s) (_confirmed_seqno s) true (bytes_in_flight_ s) (_receiver_window_size s).

(** The segment is passed by reference: its new value is returned too. *)
Definition send_tcp_segment (seg : TCPSegment) (s : TCPSender) : TCPSegment * TCPSender :=
  let seg := set_seqno (wrap (_next_seqno s) (_isn s)) seg in
  (seg,
   mkTCPSender (_isn s) (_segments_out s ++ [seg]) (_outstanding_segments s ++ [seg])
     (_initial_retransmission_timeout s) (_applying_retransmission_timeout s)
     (if negb (_timing_begins s) then 0 else _last_tick_time s) true (consecutive_retransmissions_ s)
     (_stream s) (u64 (_next_seqno s + length_in_sequence_space seg)) (_confirmed_seqno s) (fin_sent s)
     (u64 (bytes_in_flight_ s + length_in_sequence_space seg)) (_receiver_window_size s)).

(** The loop of [fill_window]. *)
Fixpoint fill_loop (fuel : nat) (seg : TCPSegment) (available_window : Z) (s : TCPSender) : TCPSender :=
  match fuel with
  | O => s
  | S fuel =>
      if negb (buffer_empty (_stream s)) && negb (available_window =? 0) then
        let payload_size := Z.min (buffer_size (_stream s)) (Z.min available_window MAX_PAYLOAD_SIZE) in
        let '(data, st) := read payload_size (_stream s) in
        let seg := mkTCPSegment (header seg) (Buffer_of data) in
        let s := update_stream st s in
        let last := eof (_stream s) && (length_in_sequence_space seg <? available_window) in
        let seg := if last then set_fin seg else seg in
        let s := if last then set_fin_sent s else s in
        let '(seg, s) := send_tcp_segment seg s in
        fill_loop fuel seg (u64 (available_window - length_in_sequence_space seg)) s
      else s
  end.

Definition fill_window (s : TCPSender) : TCPSender :=
  if fin_sent s then s
  else
    let seg := TCPSegment_default in
    if _next_seqno s =? 0 then (send_tcp_segment (set_syn seg) s).2
    else
      let receiver_logical_window_size := if _receiver_window_size s =? 0 then 1 else _receiver_window_size s in
      if u64 (_confirmed_seqno s + receiver_logical_window_size) <=? _next_seqno s then s
      else if eof (_stream s) then set_fin_sent (send_tcp_segment (set_fin seg) s).2
      else
        let available_window := u64 (receiver_logical_window_size - u64 (_next_seqno s - _confirmed_seqno s)) in
        fill_loop (length (ByteStream._stream (_stream s))) seg available_window s.

Definition tick (ms_since_last_tick : Z) (s : TCPSender) : TCPSender :=
  if negb (_timing_begins s) then s
  else
    let last_tick_time := u64 (_last_tick_time s + ms_since_last_tick) in
    match _outstanding_segments s with
    | tcp_segment :: _ =>
        if _applying_retransmission_timeout s <=? last_tick_time then
          let backoff := (0 <? _receiver_window_size s) || syn (header tcp_segment) in
          mkTCPSender (_isn s) (_segments_out s ++ [tcp_segment]) (_outstanding_segments s)
            (_initial_retransmission_timeout s)
            (if backoff then u32 (_applying_retransmission_timeout s * 2) else _applying_retransmission_timeout s)
            0 (_timing_begins s)
            (if backoff then u16 (consecutive_retransmissions_ s + 1) else consecutive_retransmissions_ s)
            (_stream s) (_next_seqno s) (_confirmed_seqno s) (fin_sent s) (bytes_in_flight_ s) (_receiver_window_size s)
        else
          mkTCPSender (_isn s) (_segments_out s) (_outstanding_segments s) (_initial_retransmission_timeout s)
            (_applying_retransmission_timeout s) last_tick_time (_timing_begins s) (consecutive_retransmissions_ s)
            (_stream s) (_next_seqno s) (_confirmed_seqno s) (fin_sent s) (bytes_in_flight_ s) (_receiver_window_size s)
    | [] =>
        mkTCPSender (_isn s) (_segments_out s) [] (_initial_retransmission_timeout s)
          (_applying_retransmission_timeout s) last_tick_time (_timing_begins s) (consecutive_retransmissions_ s)
          (_stream s) (_next_seqno s) (_confirmed_seqno s) (fin_sent s) (bytes_in_flight_ s) (_receiver_window_size s)
    end.

(** ** Acknowledgments *)

Definition front_seg_outstanding_ackno (s : TCPSender) : Z :=
  match _outstanding_segments s with
  | [] => 0
  | front :: _ => u64 (unwrap (seqno (header front)) (_isn s) (_next_seqno s) + length_in_sequence_space front)
  end.

Definition front_seg_outstanding_size (s : TCPSender) : Z :=
  match _outstanding_segments s with
  | [] => 0
  | front :: _ => length_in_sequence_space front
  end.

(** The assignments under [if (!ack)], then those that end a turn. *)
Definition restart_timer (s : TCPSender) : TCPSender :=
  mkTCPSender (_isn s) (_segments_out s) (_outstanding_segments s) (_initial_retransmission_timeout s)
    (_initial_retransmission_timeout s) 0 (_timing_begins s) 0
    (_stream s) (_next_seqno s) (_confirmed_seqno s) (fin_sent s) (bytes_in_flight_ s) (_receiver_window_size s).

Definition pop_outstanding (s : TCPSender) : TCPSender :=
  mkTCPSender (_isn s) (_segments_out s) (tail (_outstanding_segments s)) (_initial_retransmission_timeout s)
    (_applying_retransmission_timeout s) (_last_tick_time s) (_timing_begins s) (consecutive_retransmissions_ s)
    (_stream s) (_next_seqno s) (_confirmed_seqno s) (fin_sent s)
    (u64 (bytes_in_flight_ s - front_seg_outstanding_size s)) (_receiver_window_size s).

(** The loop of [ack_received], with a turn for each outstanding segment: the
    flag is [true] when it ended by [return], and [ack] is the local variable. *)
Fixpoint ack_loop (fuel : nat) (abs_ackno : Z) (ack : bool) (s : TCPSender) : bool * bool * TCPSender :=
  match fuel with
  | O => (false, ack, s)
  | S fuel =>
      match _outstanding_segments s with
      | [] => (false, ack, s)
      | _ =>
          if abs_ackno <? front_seg_outstanding_ackno s then (true, ack, s)
          else
            let s := if negb ack then restart_timer s else s in
            ack_loop fuel abs_ackno true (pop_outstanding s)
      end
  end.

Definition set_timing (b : bool) (s : TCPSender) : TCPSender :=
  mkTCPSender (_isn s) (_segments_out s) (_outstanding_segments s) (_initial_retransmission_timeout s)
    (_applying_retransmission_timeout s) (_last_tick_time s) b (consecutive_retransmissions_ s)
    (_stream s) (_next_seqno s) (_confirmed_seqno s) (fin_sent s) (bytes_in_flight_ s) (_receiver_window_size s).

Definition set_confirmed (abs_ackno window_size : Z) (s : TCPSender) : TCPSender :=
  mkTCPSender (_isn s) (_segments_out s) (_outstanding_segments s) (_initial_retransmission_timeout s)
    (_applying_retransmission_timeout s) (_last_tick_time s) (_timing_begins s) (consecutive_retransmissions_ s)
    (_stream s) (_next_seqno s) abs_ackno (fin_sent s) (bytes_in_flight_ s) window_size.

Definition ack_received (ackno : WrappingInt32) (window_size : Z) (s : TCPSender) : TCPSender :=
  let abs_ackno := unwrap ackno (_isn s) (_next_seqno s) in
  if (abs_ackno <? _confirmed_seqno s) || (_next_seqno s <? abs_ackno) then s
  else
    let s := set_confirmed abs_ackno window_size s in
    let '(returned, ack, s) := ack_loop (length (_outstanding_segments s)) abs_ackno false s in
    if returned then s
    else
      let s := if ack then fill_window s else s in
      set_timing (match _outstanding_segments s with [] => false | _ => true end) s.

Definition send_empty_segment (s : TCPSender) : TCPSender :=
  set_segments_out (_segments_out s ++ [set_seqno (wrap (_next_seqno s) (_isn s)) TCPSegment_default]) s.

(** ** The stream being sent

    [T] is the stream the application writes, piece by piece, and ends.  What
    the sender emits is related to positions in [T]. *)

Section Sending.
Context (T : list byte) (isn : WrappingInt32).
Context (Hbound : len T < 2 ^ 61).

(** A segment at absolute position [a]: SYN alone at 0, and after it stretches
    of [T] of at most [MAX_PAYLOAD_SIZE] bytes, with FIN at the end of [T]. *)
Record emitted (a : Z) (seg : TCPSegment) : Prop := {
  em_wf : Buffer.wf (payload seg);
  em_seqno : seqno (header seg) = wrap a isn;
  em_syn : syn (header seg) = true -> a = 0 /\ str (payload seg) = [] /\ fin (header seg) = false;
  em_data : syn (header seg) = false ->
    1 <= a /\ str (payload seg) = slice (a - 1) (len (str (payload seg))) T /\
    a - 1 + len (str (payload seg)) <= len T;
  em_fin : fin (header seg) = true -> a - 1 + len (str (payload seg)) = len T;
  em_size : len (str (payload seg)) <= MAX_PAYLOAD_SIZE;
  em_plain : ack (header seg) = false /\ rst (header seg) = false }.

(** Outstanding segments: non-empty, adjacent, from [a] up to [n]. *)
Fixpoint chain (a : Z) (segs : list TCPSegment) (n : Z) : Prop :=
  match segs with
  | [] => a = n
  | seg :: segs => emitted a seg /\ 0 < length_in_sequence_space seg /\ chain (a + length_in_sequence_space seg) segs n
  end.

(** The oldest sequence number in flight. *)
Definition base (s : TCPSender) : Z := _next_seqno s - bytes_in_flight_ s.

(** The numbers in flight: the outstanding segments cover them, what is
    confirmed lies before the end of the first of them, and there are few. *)
Record flight (s : TCPSender) : Prop := {
  fl_isn : _isn s = isn;
  fl_base : 0 <= base s;
  fl_chain : chain (base s) (_outstanding_segments s) (_next_seqno s);
  fl_confirmed : base s <= _confirmed_seqno s <= _next_seqno s;
  fl_partial : match _outstanding_segments s with
               | [] => True
               | front :: _ => _confirmed_seqno s < base s + length_in_sequence_space front
               end;
  fl_few : _next_seqno s - base s <= 2 ^ 17;
  fl_window : 0 <= _receiver_window_size s < 2 ^ 16 }.

(** The stream: what is buffered is the next stretch of [T], and the next
    sequence number counts SYN, the bytes read off and FIN. *)
Record feeds (s : TCPSender) : Prop := {
  fd_wf : ByteStream.wf (_stream s);
  fd_buffered : ByteStream._stream (_stream s) =
    slice (bytes_read (_stream s)) (len (ByteStream._stream (_stream s))) T;
  fd_fits : bytes_read (_stream s) + len (ByteStream._stream (_stream s)) <= len T;
  fd_ended : input_ended (_stream s) = true ->
    bytes_read (_stream s) + len (ByteStream._stream (_stream s)) = len T;
  fd_next : if _next_seqno s =? 0 then bytes_read (_stream s) = 0 /\ fin_sent s = false
            else _next_seqno s = 1 + bytes_read (_stream s) + (if fin_sent s then 1 else 0);
  fd_fin : fin_sent s = true -> eof (_stream s) = true }.

Record sinv (s : TCPSender) : Prop := { si_flight : flight s; si_feeds : feeds s }.

(** ** Lengths and chains *)

Lemma emitted_length a seg : emitted a seg ->
  length_in_sequence_space seg =
  len (str (payload seg)) + (if syn (header seg) then 1 else 0) + (if fin (header seg) then 1 else 0).
Proof. intros []. apply length_in_sequence_space_eq. unfold MAX_PAYLOAD_SIZE in *. lia. Qed.

Lemma emitted_length_bound a seg : emitted a seg -> 0 <= length_in_sequence_space seg <= 1001.
Proof.
  intros He. rewrite (emitted_length a) by done. destruct He as [_ _ Hs _ _ Hz _]. unfold MAX_PAYLOAD_SIZE in Hz.
  destruct (syn (header seg)); [destruct (Hs eq_refl) as (_ & -> & ->); simpl; lia|].
  destruct (fin (header seg)); lia.
Qed.

Lemma snoc_not_nil {A} (l : list A) x : l ++ [x] <> [].
Proof. by destruct l. Qed.

Lemma chain_app a segs seg n :
  chain a segs n -> emitted n seg -> 0 < length_in_sequence_space seg ->
  chain a (segs ++ [seg]) (n + length_in_sequence_space seg).
Proof. revert a. induction segs as [|x segs IH]; intros a; simpl; [intros ->; done|]. intros (? & ? & ?) ? ?. auto. Qed.

Lemma chain_le a segs n : chain a segs n -> a <= n.
Proof. revert a. induction segs as [|x segs IH]; intros a; simpl; [lia|]. intros (_ & ? & H). apply IH in H. lia. Qed.

Lemma set_seqno_length n seg : length_in_sequence_space (set_seqno n seg) = length_in_sequence_space seg.
Proof. done. Qed.

(** ** Sending a segment *)

Lemma flight_send seg s :
  flight s -> emitted (_next_seqno s) (set_seqno (wrap (_next_seqno s) isn) seg) ->
  0 < length_in_sequence_space seg -> _next_seqno s < 2 ^ 62 ->
  _next_seqno s + length_in_sequence_space seg - base s <= 2 ^ 17 ->
  let s' := (send_tcp_segment seg s).2 in
  flight s' /\ _next_seqno s' = _next_seqno s + length_in_sequence_space seg /\ base s' = base s.
Proof.
  intros [Hi Hb Hc Hcf Hp Hf Hw] He HL Hn Hfew. pose proof (emitted_length_bound _ _ He) as HLb.
  rewrite set_seqno_length in HLb. unfold send_tcp_segment, base in *. rewrite Hi in *. cbn [snd].
  rewrite !set_seqno_length. cbn [_next_seqno bytes_in_flight_]. unwrap_uint.
  split; [|lia]. split; cbn [_isn _next_seqno bytes_in_flight_ _outstanding_segments _confirmed_seqno _receiver_window_size];
    unfold base; cbn [_next_seqno bytes_in_flight_]; try done; try lia.
  - replace (_next_seqno s + length_in_sequence_space seg - (bytes_in_flight_ s + length_in_sequence_space seg))
      with (_next_seqno s - bytes_in_flight_ s) by lia.
    rewrite <- (set_seqno_length (wrap (_next_seqno s) isn) seg). by apply chain_app.
  - destruct (_outstanding_segments s) as [|x q]; simpl in *; [rewrite set_seqno_length; lia|lia].
Qed.

(** ** Reading a payload off the stream *)

Lemma feeds_read_range s : feeds s -> 0 <= bytes_read (_stream s) <= len T.
Proof. intros [[] _ ? _ _ _]. unfold bytes_read in *. lia. Qed.

Lemma feeds_next_bound s : feeds s -> 0 <= _next_seqno s -> _next_seqno s <= len T + 2.
Proof. intros Hf Hn. pose proof (feeds_read_range s Hf). destruct Hf as [_ _ _ _ Hx _]. repeat zcase; destruct (fin_sent s); lia. Qed.

(** Taking [n] buffered bytes, the first turn of the loop's body. *)
Lemma read_feeds n s :
  feeds s -> 0 < n <= len (ByteStream._stream (_stream s)) ->
  let st := _stream s in
  exists st', read n st = (slice (bytes_read st) n T, st') /\ ByteStream.wf st' /\
    bytes_read st' = bytes_read st + n /\ ByteStream._stream st' = zdrop n (ByteStream._stream st) /\
    ByteStream._stream st' = slice (bytes_read st + n) (len (ByteStream._stream st) - n) T /\
    input_ended st' = input_ended st.
Proof.
  intros Hf Hn st. pose proof (feeds_read_range s Hf) as Hr. destruct Hf as [Hw Hb Hfit _ _ _].
  unfold st in *. unfold read. destruct (Z.eqb_spec n 0); [lia|]. eexists. split.
  { rewrite peek_output_eq by done. rewrite Hb at 1. by rewrite ztake_slice_le by lia. }
  split; [apply wf_pop; [done|lia]|]. unfold bytes_read, input_ended in *. rewrite pop_output_eq by (done || lia). simpl.
  rewrite Z.min_l, u64_small by lia. split_and!; try done.
  rewrite Hb at 1. by rewrite zdrop_slice by lia.
Qed.

(** ** Filling the window *)

(** What filling the window does: new segments are appended to both queues, and
    nothing else that concerns acknowledgments changes. *)
Record fills (s s' : TCPSender) : Prop := {
  fs_sinv : sinv s';
  fs_new : exists new, _segments_out s' = _segments_out s ++ new /\
    _outstanding_segments s' = _outstanding_segments s ++ new /\ chain (_next_seqno s) new (_next_seqno s');
  fs_base : base s' = base s;
  fs_confirmed : _confirmed_seqno s' = _confirmed_seqno s;
  fs_window : _receiver_window_size s' = _receiver_window_size s;
  fs_timeouts : _applying_retransmission_timeout s' = _applying_retransmission_timeout s /\
    _initial_retransmission_timeout s' = _initial_retransmission_timeout s /\
    consecutive_retransmissions_ s' = consecutive_retransmissions_ s;
  fs_written : bytes_written (_stream s') = bytes_written (_stream s) /\
    input_ended (_stream s') = input_ended (_stream s);
  fs_timer : (_timing_begins s' = true /\ _outstanding_segments s' <> []) \/
    _outstanding_segments s' = _outstanding_segments s /\ _timing_begins s' = _timing_begins s }.

Lemma fills_refl s : sinv s -> fills s s.
Proof. intros H. split; try done; [exists []; by rewrite !app_nil_r|by right]. Qed.

Lemma chain_trans a xs b ys c : chain a xs b -> chain b ys c -> chain a (xs ++ ys) c.
Proof. revert a. induction xs as [|x xs IH]; intros a; simpl; [by intros ->|]. intros (? & ? & ?) ?. auto. Qed.

Lemma fills_trans s1 s2 s3 : fills s1 s2 -> fills s2 s3 -> fills s1 s3.
Proof.
  intros [_ (n1 & O1 & Q1 & C1) B1 F1 W1 (T1 & T1' & T1'') (R1 & R1') M1] [H2 (n2 & O2 & Q2 & C2) B2 F2 W2 (T2 & T2' & T2'') (R2 & R2') M2].
  split; try done; try congruence; [|split_and!; congruence|split; congruence|].
  2: { destruct M2 as [?|[E2 E2']]; [by left|]. rewrite E2, E2'. by destruct M1; [left|right]. }
  exists (n1 ++ n2). rewrite O2, O1, Q2, Q1, !app_assoc. split_and!; try done. by eapply chain_trans.
Qed.

(** The header of the segment the loop reuses. *)
Definition plain (seg : TCPSegment) : Prop :=
  syn (header seg) = false /\ fin (header seg) = false /\ ack (header seg) = false /\ rst (header seg) = false.

(** One turn of the loop. *)
Definition turn (seg : TCPSegment) (available_window : Z) (s : TCPSender) : TCPSegment * TCPSender :=
  let payload_size := Z.min (buffer_size (_stream s)) (Z.min available_window MAX_PAYLOAD_SIZE) in
  let '(data, st) := read payload_size (_stream s) in
  let seg := mkTCPSegment (header seg) (Buffer_of data) in
  let s := update_stream st s in
  let last := eof (_stream s) && (length_in_sequence_space seg <? available_window) in
  send_tcp_segment (if last then set_fin seg else seg) (if last then set_fin_sent s else s).

Lemma fill_loop_S fuel seg avail s :
  fill_loop (S fuel) seg avail s =
  if negb (buffer_empty (_stream s)) && negb (avail =? 0) then
    fill_loop fuel (turn seg avail s).1 (u64 (avail - length_in_sequence_space (turn seg avail s).1)) (turn seg avail s).2
  else s.
Proof. cbn [fill_loop]. destruct (_ && _); [|done]. unfold turn. destruct (read _ _) as [d st]. done. Qed.

(** The segment a turn cuts off the stream, and the stream left. *)
Record cut (seg : TCPSegment) (avail : Z) (s : TCPSender) (n : Z) (last : bool) (st' : ByteStream) (seg' : TCPSegment) : Prop := {
  cut_turn : turn seg avail s =
    send_tcp_segment seg' (if last then set_fin_sent (update_stream st' s) else update_stream st' s);
  cut_emitted : emitted (_next_seqno s) (set_seqno (wrap (_next_seqno s) isn) seg');
  cut_length : length_in_sequence_space seg' = n + (if last then 1 else 0);
  cut_size : 0 < n /\ n + (if last then 1 else 0) <= avail;
  cut_wf : ByteStream.wf st';
  cut_read : bytes_read st' = bytes_read (_stream s) + n;
  cut_left : ByteStream._stream st' = slice (bytes_read (_stream s) + n) (len (ByteStream._stream (_stream s)) - n) T;
  cut_left_len : len (ByteStream._stream st') = len (ByteStream._stream (_stream s)) - n;
  cut_ended : input_ended st' = input_ended (_stream s);
  cut_last : if last then eof st' = true else plain seg' /\ (eof st' = true -> n = avail) }.

Lemma turn_cut seg avail s :
  sinv s -> _next_seqno s <> 0 -> fin_sent s = false -> plain seg ->
  buffer_empty (_stream s) = false -> 0 < avail ->
  exists n last st' seg', cut seg avail s n last st' seg'.
Proof.
  intros [Hfl Hfd] Hn0 Hfin (Ps & Pf & Pa & Pr) Hne Hav.
  pose proof (feeds_read_range s Hfd) as Hrr. pose proof Hfd as [Hw Hb Hfit Hend Hnx _].
  set (L := len (ByteStream._stream (_stream s))) in *.
  assert (0 < L) as HL by (unfold buffer_empty in Hne; apply Z.eqb_neq in Hne; unfold L; lia).
  set (n := Z.min L (Z.min avail MAX_PAYLOAD_SIZE)).
  assert (0 < n <= L /\ n <= avail /\ n <= 1000) as Hn by (unfold n, MAX_PAYLOAD_SIZE; lia).
  destruct (read_feeds n s Hfd ltac:(fold L; lia)) as (st' & Hread & Hw' & Hr' & Hd' & Hs' & He').
  destruct (Z.eqb_spec (_next_seqno s) 0); [lia|]. rewrite Hfin in Hnx.
  set (data := slice _ n T) in Hread. assert (len data = n) as Hlen by (apply len_slice; lia).
  set (seg1 := mkTCPSegment (header seg) (Buffer_of data)).
  assert (str (payload seg1) = data) as Hpl by (apply str_Buffer_of; lia).
  assert (length_in_sequence_space seg1 = n) as HL1.
  { rewrite length_in_sequence_space_eq by (rewrite Hpl; lia). rewrite Hpl. cbn [seg1 header]. rewrite Ps, Pf. lia. }
  set (last := eof st' && (n <? avail)).
  assert (len (ByteStream._stream st') = L - n) as Hlen'. { rewrite Hd', len_zdrop by lia. fold L. lia. }
  assert (last = true -> input_ended st' = true /\ L = n /\ n < avail) as Hlast.
  { unfold last, eof, buffer_empty, input_ended. rewrite !andb_true_iff, Z.eqb_eq, Z.ltb_lt. intros [[-> ?] ?].
    split; [done|lia]. }
  set (seg2 := if last then set_fin seg1 else seg1).
  assert (str (payload seg2) = data) as Hpl2 by (unfold seg2; destruct last; exact Hpl).
  exists n, last, st', seg2. split; try done.
  - unfold turn, buffer_size. rewrite (wf_size _ Hw). fold L n. rewrite Hread. fold seg1. by rewrite HL1.
  - split; cbn [set_seqno header seqno payload syn fin ack rst]; rewrite ?Hpl2, ?Hlen.
    + unfold seg2. destruct last; apply wf_Buffer_of; lia.
    + done.
    + unfold seg2. destruct last; cbn; by rewrite Ps.
    + intros _. split_and!; [lia| |lia]. unfold data. f_equal. lia.
    + unfold seg2. destruct last; cbn; [intros _|by rewrite Pf].
      destruct (Hlast eq_refl) as (Hie & HLn & _). rewrite He' in Hie. apply Hend in Hie. fold L in Hie. lia.
    + unfold MAX_PAYLOAD_SIZE. lia.
    + unfold seg2. destruct last; cbn; by rewrite Pa, Pr.
  - rewrite length_in_sequence_space_eq by (rewrite Hpl2; lia). rewrite Hpl2. unfold seg2.
    destruct last; cbn; rewrite ?Ps, ?Pf; lia.
  - destruct last; [destruct (Hlast eq_refl)|]; lia.
  - unfold seg2, last in *. destruct (eof st'), (Z.ltb_spec n avail); simpl in *; try done.
    split; [done|]. lia.
Qed.

Lemma turn_fills seg avail s :
  sinv s -> _next_seqno s <> 0 -> fin_sent s = false -> plain seg ->
  buffer_empty (_stream s) = false -> 0 < avail -> _next_seqno s + avail - base s <= 2 ^ 17 ->
  let seg' := (turn seg avail s).1 in
  let s' := (turn seg avail s).2 in
  fills s s' /\ _next_seqno s' = _next_seqno s + length_in_sequence_space seg' /\
  0 < length_in_sequence_space seg' <= avail /\
  len (ByteStream._stream (_stream s')) < len (ByteStream._stream (_stream s)) /\
  (if fin_sent s' then buffer_empty (_stream s') = true
   else plain seg' /\ (eof (_stream s') = true -> length_in_sequence_space seg' = avail)).
Proof.
  intros Hs Hn0 Hfin Hp Hne Hav Hfew.
  destruct (turn_cut seg avail s Hs Hn0 Hfin Hp Hne Hav) as (n & last & st' & seg2 & [Ht He HL Hn Hw Hr Hl Hll Hend Hlast]).
  destruct Hs as [Hfl Hfd]. pose proof (feeds_next_bound s Hfd) as Hnb. pose proof (fd_wf s Hfd) as Hw0.
  set (s2 := if last then _ else _) in Ht.
  assert (_next_seqno s2 = _next_seqno s /\ base s2 = base s /\ flight s2) as (Hn2 & Hb2 & Hfl2).
  { unfold s2. destruct last; (split; [done|split; [done|]]); destruct Hfl; by split. }
  pose proof (fl_base s Hfl). pose proof (fl_confirmed s Hfl).
  destruct (flight_send seg2 s2 Hfl2) as (Hfl3 & Hn3 & Hb3); [by rewrite Hn2|destruct last; lia|lia|lia|].
  assert (_stream (send_tcp_segment seg2 s2).2 = st' /\ fin_sent (send_tcp_segment seg2 s2).2 = last) as [Hst3 Hf3].
  { unfold s2. by destruct last. }
  rewrite Ht. cbv zeta. set (s3 := (send_tcp_segment seg2 s2).2) in *.
  change (send_tcp_segment seg2 s2).1 with (set_seqno (wrap (_next_seqno s2) (_isn s2)) seg2).
  rewrite set_seqno_length, Hn3, Hn2, Hst3, Hf3. split; [|split; [done|split; [destruct last; lia|split; [lia|]]]].
  2: { destruct last; [unfold eof in Hlast; by apply andb_true_iff in Hlast as [_ ?]|].
       destruct Hlast as [Hpl Hx]. split; [done|]. intros E. rewrite HL, (Hx E). lia. }
  destruct Hfd as [_ Hb Hfit Hed Hnx Hf]. rewrite Hfin in Hnx. destruct (Z.eqb_spec (_next_seqno s) 0); [lia|].
  assert (bytes_written st' = bytes_written (_stream s)) as Hbw.
  { unfold bytes_written. rewrite (wf_written _ Hw), (wf_written _ Hw0). f_equal. unfold bytes_read in *. lia. }
  split.
  - split; [done|]. split; rewrite ?Hst3, ?Hf3, ?Hn3, ?Hn2, ?Hr, ?Hll, ?Hend; try done; try lia.
    + intros E. apply Hed in E. lia.
    + destruct last, (Z.eqb_spec (_next_seqno s + length_in_sequence_space seg2) 0); lia.
    + by destruct last.
  - exists [set_seqno (wrap (_next_seqno s2) (_isn s2)) seg2].
    unfold s3, s2. destruct last; (split; [done|split; [done|]]); simpl.
    all: rewrite Hfl.(fl_isn s), set_seqno_length, u64_small by lia; split; [done|]; split; [lia|done].
  - congruence.
  - unfold s3, s2. by destruct last.
  - unfold s3, s2. by destruct last.
  - unfold s3, s2. by destruct last.
  - rewrite Hst3. split; [done|exact Hend].
  - left. split; [done|]. apply snoc_not_nil.
Qed.

Lemma fill_loop_stop fuel seg avail s :
  buffer_empty (_stream s) = true \/ avail = 0 -> fill_loop fuel seg avail s = s.
Proof. destruct fuel; [done|]. rewrite fill_loop_S. intros [->| ->]; [done|]. by rewrite andb_false_r. Qed.

Lemma fill_loop_fills fuel seg avail s :
  sinv s -> _next_seqno s <> 0 -> fin_sent s = false -> plain seg ->
  0 <= avail -> _next_seqno s + avail - base s <= 2 ^ 17 -> (eof (_stream s) = true -> avail = 0) ->
  len (ByteStream._stream (_stream s)) <= Z.of_nat fuel ->
  let s' := fill_loop fuel seg avail s in
  fills s s' /\ _next_seqno s' <= _next_seqno s + avail /\
  (fin_sent s' = true \/ _next_seqno s' = _next_seqno s + avail \/
   buffer_empty (_stream s') = true /\ eof (_stream s') = false).
Proof.
  revert seg avail s. induction fuel as [|fuel IH]; intros seg avail s Hs Hn0 Hf Hp Hav Hfew Heof Hlen; cbv zeta.
  { split; [by apply fills_refl|]. simpl. split; [lia|].
    assert (buffer_empty (_stream s) = true) as Hbe by (apply Z.eqb_eq; lia).
    destruct (eof (_stream s)) eqn:E; [rewrite Heof by done|]; [right; left; lia|by right; right]. }
  destruct (buffer_empty (_stream s)) eqn:Hbe.
  { rewrite fill_loop_stop by by left. split; [by apply fills_refl|]. split; [lia|].
    destruct (eof (_stream s)) eqn:E; [rewrite Heof by done|]; [right; left; lia|by right; right]. }
  destruct (Z.eqb_spec avail 0) as [Ha|Ha].
  { rewrite fill_loop_stop by by right. split; [by apply fills_refl|]. split; [lia|]. right; left; lia. }
  rewrite fill_loop_S, Hbe. destruct (Z.eqb_spec avail 0); [done|]. cbn [negb andb].
  pose proof (turn_fills seg avail s Hs Hn0 Hf Hp Hbe ltac:(lia) Hfew) as Ht. cbv zeta in Ht.
  destruct (turn seg avail s) as [seg' s1]. cbn [fst snd] in *. destruct Ht as (Hfs & Hn1 & HL & Hlen1 & Hlast).
  pose proof (fl_confirmed _ (si_flight _ Hs)). pose proof (fl_base _ (si_flight _ Hs)).
  rewrite u64_small by lia.
  destruct (fin_sent s1) eqn:Hf1.
  { rewrite fill_loop_stop by by left. split; [done|]. split; [lia|]. by left. }
  destruct Hlast as [Hp1 He1].
  destruct (IH seg' (avail - length_in_sequence_space seg') s1) as (Hfs2 & Hn2 & Hmax);
    [by destruct Hfs|lia|done|done|lia|rewrite (fs_base _ _ Hfs); lia|intros E; specialize (He1 E); lia|lia|].
  split; [by eapply fills_trans|]. split; [lia|].
  destruct Hmax as [?|[?|?]]; [by left|right; left; lia|by right; right].
Qed.

(** The first sequence number after the receiver's window, an empty window
    counting as one. *)
Definition edge (s : TCPSender) : Z := _confirmed_seqno s + Z.max 1 (_receiver_window_size s).

Lemma edge_base s : flight s -> edge s - base s <= 2 ^ 17.
Proof.
  intros [_ _ Hc Hcf Hp _ Hw]. unfold edge. destruct (_outstanding_segments s) as [|front q]; simpl in Hc.
  - lia.
  - destruct Hc as (He & _ & _). pose proof (emitted_length_bound _ _ He). lia.
Qed.

(** Sending one segment with no payload, SYN or FIN. *)
Lemma send_single seg s :
  sinv s ->
  emitted (_next_seqno s) (set_seqno (wrap (_next_seqno s) isn) seg) -> length_in_sequence_space seg = 1 ->
  _next_seqno s + 1 - base s <= 2 ^ 17 ->
  let s' := (send_tcp_segment seg s).2 in
  flight s' /\ _next_seqno s' = _next_seqno s + 1 /\ base s' = base s /\
  _segments_out s' = _segments_out s ++ [set_seqno (wrap (_next_seqno s) isn) seg] /\
  _outstanding_segments s' = _outstanding_segments s ++ [set_seqno (wrap (_next_seqno s) isn) seg] /\
  chain (_next_seqno s) [set_seqno (wrap (_next_seqno s) isn) seg] (_next_seqno s + 1).
Proof.
  intros [Hfl Hfd] He HL Hfew. pose proof (feeds_next_bound s Hfd). pose proof (fl_base s Hfl). pose proof (fl_confirmed s Hfl).
  destruct (flight_send seg s Hfl He) as (Hfl' & Hn' & Hb'); [lia|lia|lia|].
  split; [done|]. split; [lia|]. split; [done|]. unfold send_tcp_segment. rewrite (fl_isn s Hfl).
  split; [done|]. split; [done|]. simpl. rewrite set_seqno_length, HL. done.
Qed.

Lemma syn_emitted : emitted 0 (set_seqno (wrap 0 isn) (set_syn TCPSegment_default)).
Proof. by split. Qed.

Lemma fin_emitted s :
  feeds s -> _next_seqno s <> 0 -> fin_sent s = false -> eof (_stream s) = true ->
  emitted (_next_seqno s) (set_seqno (wrap (_next_seqno s) isn) (set_fin TCPSegment_default)) /\
  bytes_read (_stream s) = len T.
Proof.
  intros Hfd Hn0 Hf He. pose proof (feeds_read_range s Hfd). destruct Hfd as [_ _ _ Hend Hnx _].
  unfold eof, buffer_empty in He. apply andb_true_iff in He as [He1 He2]. apply Z.eqb_eq in He2.
  apply Hend in He1. rewrite Hf in Hnx. destruct (Z.eqb_spec (_next_seqno s) 0); [done|]. split; [|lia].
  split; cbn [set_seqno set_fin header payload syn fin ack rst seqno TCPSegment_default TCPHeader_default]; try done.
  - intros _. cbn. split_and!; [lia|done|lia].
  - intros _. cbn. lia.
Qed.

Lemma fill_window_fills s :
  sinv s ->
  let s' := fill_window s in
  fills s s' /\ (_next_seqno s' <= Z.max (_next_seqno s) (edge s)) /\
  (if _next_seqno s =? 0 then _next_seqno s' = 1
   else fin_sent s' = true \/ edge s <= _next_seqno s' \/
        buffer_empty (_stream s') = true /\ eof (_stream s') = false).
Proof.
  intros Hs. pose proof Hs as [Hfl Hfd]. pose proof (edge_base s Hfl) as Hedge.
  pose proof (fl_base s Hfl). pose proof (fl_confirmed s Hfl). pose proof (fl_window s Hfl).
  pose proof (feeds_next_bound s Hfd). unfold fill_window. cbv zeta.
  destruct (fin_sent s) eqn:Hfin.
  { split; [by apply fills_refl|]. split; [lia|]. pose proof (fd_next s Hfd) as Hnx.
    destruct (_ =? 0); [destruct Hnx; congruence|by left]. }
  destruct (Z.eqb_spec (_next_seqno s) 0) as [Hn0|Hn0].
  { destruct (send_single (set_syn TCPSegment_default) s Hs) as (Hfl' & Hn' & Hb' & Ho & Hq & Hc);
      [rewrite Hn0; apply syn_emitted|done|lia|]. rewrite Hn', Hn0. unfold edge. split; [|split; [lia|done]].
    split; try done; [split; [done|]|by eexists; rewrite Hn'|left; split; [done|rewrite Hq; apply snoc_not_nil]].
    destruct Hfd as [? ? ? ? Hnx Hf]. rewrite Hn0 in Hnx. destruct Hnx.
    split; rewrite ?Hn', ?Hn0; try done. cbn. rewrite Hfin. simpl. lia. }
  assert ((if _receiver_window_size s =? 0 then 1 else _receiver_window_size s) = Z.max 1 (_receiver_window_size s)) as ->.
  { repeat zcase; lia. }
  rewrite u64_small by lia. fold (edge s).
  destruct (Z.leb_spec (edge s) (_next_seqno s)) as [Hfull|Hroom].
  { split; [by apply fills_refl|]. split; [lia|]. right; left; lia. }
  destruct (eof (_stream s)) eqn:Heof.
  { destruct (fin_emitted s Hfd Hn0 Hfin Heof) as [He Hr].
    destruct (send_single (set_fin TCPSegment_default) s Hs He) as (Hfl' & Hn' & Hb' & Ho & Hq & Hc); [done|lia|].
    unfold edge in *. split; [|split; [cbn [set_fin_sent _next_seqno]; lia|by left]].
    destruct Hfl' as [? ? ? ? ? ? ?]. split; try done; [split; [by split|]|eexists; split_and!; [done..|cbn [set_fin_sent _next_seqno]; by rewrite Hn']|left; split; [done|cbn [set_fin_sent _outstanding_segments]; rewrite Hq; apply snoc_not_nil]].
    destruct Hfd as [? ? ? ? Hnx Hf]. split; try done. cbn [set_fin_sent _next_seqno fin_sent _stream]. rewrite Hn'.
    destruct (Z.eqb_spec (_next_seqno s) 0), (Z.eqb_spec (_next_seqno s + 1) 0); try lia.
    rewrite Hfin in Hnx. change (_stream (send_tcp_segment (set_fin TCPSegment_default) s).2) with (_stream s). lia. }
  unfold edge in *. unwrap_uint.
  destruct (fill_loop_fills (length (ByteStream._stream (_stream s))) TCPSegment_default
    (Z.max 1 (_receiver_window_size s) - (_next_seqno s - _confirmed_seqno s)) s Hs Hn0 Hfin) as (Hfs & Hn' & Hmax);
    try done; [lia|lia|congruence|].
  split; [done|]. split; [lia|]. destruct Hmax as [?|[?|?]]; [by left|right; left; lia|by right; right].
Qed.

(** ** Acknowledgments *)

Lemma front_ackno_eq s front q :
  _isn s = isn -> _outstanding_segments s = front :: q -> emitted (base s) front ->
  0 <= base s -> _next_seqno s - base s <= 2 ^ 17 -> base s <= _next_seqno s <= 2 ^ 62 ->
  front_seg_outstanding_ackno s = base s + length_in_sequence_space front.
Proof.
  intros Hi Hq He Hb Hf Hn. unfold front_seg_outstanding_ackno. rewrite Hq, Hi, (em_seqno _ _ He).
  rewrite unwrap_wrap_near by lia. pose proof (emitted_length_bound _ _ He). apply u64_small. lia.
Qed.

Definition nonempty {A} (l : list A) : bool := match l with [] => false | _ => true end.

(** Timeout in use, consecutive retransmissions, time since the last tick. *)
Definition timers (s : TCPSender) : Z * Z * Z :=
  (_applying_retransmission_timeout s, consecutive_retransmissions_ s, _last_tick_time s).

(** What the loop of [ack_received] leaves: the outstanding segments without
    those that end at or before the acknowledged number; the timer is restarted
    (unless the flag [ack] is set already) if there was one. *)
Record acks (A : Z) (ack : bool) (s s' : TCPSender) (popped : list TCPSegment) : Prop := {
  ak_flight : flight s';
  ak_popped : _outstanding_segments s = popped ++ _outstanding_segments s';
  ak_chain : chain (base s) popped (base s');
  ak_next : _next_seqno s' = _next_seqno s;
  ak_confirmed : _confirmed_seqno s' = A;
  ak_out : _segments_out s' = _segments_out s;
  ak_stream : _stream s' = _stream s;
  ak_fin : fin_sent s' = fin_sent s;
  ak_window : _receiver_window_size s' = _receiver_window_size s;
  ak_initial : _initial_retransmission_timeout s' = _initial_retransmission_timeout s;
  ak_timing : _timing_begins s' = _timing_begins s;
  ak_timers : timers s' =
    if negb ack && nonempty popped then (_initial_retransmission_timeout s, 0, 0) else timers s }.

Lemma ack_loop_acks fuel A ack s :
  _isn s = isn -> 0 <= base s -> chain (base s) (_outstanding_segments s) (_next_seqno s) ->
  base s <= A <= _next_seqno s -> _confirmed_seqno s = A -> _next_seqno s - base s <= 2 ^ 17 ->
  0 <= _receiver_window_size s < 2 ^ 16 -> _next_seqno s <= 2 ^ 62 -> (length (_outstanding_segments s) <= fuel)%nat ->
  let '(returned, ack', s') := ack_loop fuel A ack s in
  exists popped, acks A ack s s' popped /\ ack' = ack || nonempty popped /\ returned = nonempty (_outstanding_segments s').
Proof.
  revert ack s. induction fuel as [|fuel IH]; intros ack s Hi Hb Hc HA Hcf Hf Hw Hn Hfuel.
  all: assert (flight s -> acks A ack s s []) as Hrefl by (intros; split; try done; by rewrite andb_false_r).
  { cbn [ack_loop]. destruct (_outstanding_segments s) eqn:Hq; [|simpl in Hfuel; lia]. exists [].
    rewrite orb_false_r. split; [apply Hrefl; split; rewrite ?Hq; done || lia|done]. }
  cbn [ack_loop]. destruct (_outstanding_segments s) as [|front q] eqn:Hq.
  { exists []. rewrite orb_false_r, Hq. split; [apply Hrefl; split; rewrite ?Hq; done || lia|done]. }
  simpl in Hc. destruct Hc as (He & HL & Hc). pose proof (chain_le _ _ _ Hc).
  pose proof (emitted_length_bound _ _ He). rewrite (front_ackno_eq s front q) by (done || lia).
  destruct (Z.ltb_spec A (base s + length_in_sequence_space front)) as [Hlt|Hge].
  { exists []. rewrite orb_false_r, Hq. split; [apply Hrefl; split; rewrite ?Hq; done || lia|done]. }
  set (s0 := if negb ack then restart_timer s else s). set (s1 := pop_outstanding s0).
  assert (_isn s1 = isn /\ _outstanding_segments s1 = q /\ _next_seqno s1 = _next_seqno s /\ base s1 = base s + length_in_sequence_space front /\
    _confirmed_seqno s1 = A /\ _receiver_window_size s1 = _receiver_window_size s /\ _segments_out s1 = _segments_out s /\
    _stream s1 = _stream s /\ fin_sent s1 = fin_sent s /\ _initial_retransmission_timeout s1 = _initial_retransmission_timeout s /\
    _timing_begins s1 = _timing_begins s /\
    timers s1 = if negb ack then (_initial_retransmission_timeout s, 0, 0) else timers s)
    as (I1 & I2 & I3 & I4 & I5 & I6 & I7 & I8 & I9 & I10 & I11 & I12).
  { unfold s1, s0, pop_outstanding, base, front_seg_outstanding_size in *. destruct ack; simpl; rewrite Hq; simpl;
      rewrite u64_small by lia; split_and!; done || lia. }
  specialize (IH true s1). rewrite I1, I2, I3, I4, I5, I6 in IH. simpl in Hfuel.
  specialize (IH eq_refl ltac:(lia) Hc ltac:(lia) eq_refl ltac:(lia) Hw Hn ltac:(lia)).
  destruct (ack_loop fuel A true s1) as [[ret ack'] s']. destruct IH as (popped & [K1 K2 K3 K4 K5 K6 K7 K8 K9 K10 K11 K12] & -> & ->).
  exists (front :: popped). split; [|by rewrite orb_true_r]. split; try congruence.
  - rewrite Hq. simpl. congruence.
  - simpl. rewrite I4 in K3. done.
  - rewrite K12, I12. simpl. by destruct ack.
Qed.

Lemma feeds_ext s s' :
  _stream s' = _stream s -> _next_seqno s' = _next_seqno s -> fin_sent s' = fin_sent s -> feeds s -> feeds s'.
Proof. intros E1 E2 E3 []. split; rewrite ?E1, ?E2, ?E3; done. Qed.

Lemma flight_ext s s' :
  _isn s' = _isn s -> _outstanding_segments s' = _outstanding_segments s -> _next_seqno s' = _next_seqno s ->
  bytes_in_flight_ s' = bytes_in_flight_ s -> _confirmed_seqno s' = _confirmed_seqno s ->
  _receiver_window_size s' = _receiver_window_size s -> flight s -> flight s'.
Proof.
  intros E1 E2 E3 E4 E5 E6 []. assert (base s' = base s) as Eb by (unfold base; congruence).
  split; rewrite ?Eb, ?E1, ?E2, ?E3, ?E5, ?E6; done.
Qed.

(** The whole of [ack_received], for an acknowledgment that is neither old nor
    of something not sent: acknowledged segments leave the queue, and when none
    is left the window is filled. *)
Lemma ack_received_ok an w s :
  sinv s -> 0 <= w < 2 ^ 16 ->
  let A := unwrap an isn (_next_seqno s) in
  _confirmed_seqno s <= A <= _next_seqno s ->
  exists s1 popped, acks A false (set_confirmed A w s) s1 popped /\ sinv s1 /\
    (if nonempty (_outstanding_segments s1) then ack_received an w s = s1
     else exists s2, fills s1 s2 /\ (nonempty popped = false -> s2 = s1) /\ (nonempty popped = true -> s2 = fill_window s1) /\
       ack_received an w s = set_timing (nonempty (_outstanding_segments s2)) s2).
Proof.
  intros [Hfl Hfd] Hw A HA. pose proof (feeds_next_bound s Hfd). destruct Hfl as [Hi Hb Hc Hcf Hp Hf Hwin].
  unfold ack_received. rewrite Hi. fold A.
  destruct (Z.ltb_spec A (_confirmed_seqno s)); [lia|]. destruct (Z.ltb_spec (_next_seqno s) A); [lia|]. cbn [orb].
  pose proof (ack_loop_acks (length (_outstanding_segments s)) A false (set_confirmed A w s) Hi Hb Hc ltac:(unfold base in *; simpl in *; lia) eq_refl Hf Hw
    ltac:(simpl; lia) ltac:(done)) as Hloop.
  cbn [set_confirmed _outstanding_segments] in *. destruct (ack_loop _ _ _ _) as [[ret ak] s1].
  destruct Hloop as (popped & Hak & -> & ->). exists s1, popped. split; [done|].
  assert (sinv s1) as Hs1. { split; [by destruct Hak|]. destruct Hak. eapply feeds_ext; [..|exact Hfd]; done. }
  split; [done|]. destruct (nonempty (_outstanding_segments s1)); [done|]. simpl.
  exists (if nonempty popped then fill_window s1 else s1). split_and!.
  - destruct (nonempty popped); [by apply fill_window_fills|by apply fills_refl].
  - by intros ->.
  - by intros ->.
  - by destruct (_outstanding_segments (if nonempty popped then _ else _)).
Qed.

Lemma set_timing_sinv b s : sinv s -> sinv (set_timing b s).
Proof. intros [Hfl Hfd]. split; [by apply (flight_ext s)|by apply (feeds_ext s)]. Qed.

(** What the parts of [ack_received] preserve, it preserves. *)
Lemma ack_received_preserves (P : TCPSender -> Prop) an w s :
  let A := unwrap an isn (_next_seqno s) in
  sinv s -> 0 <= w < 2 ^ 16 -> P s ->
  (forall s1 popped, _confirmed_seqno s <= A <= _next_seqno s -> acks A false (set_confirmed A w s) s1 popped -> sinv s1 -> P s1) ->
  (forall s1, sinv s1 -> P s1 -> P (fill_window s1)) ->
  (forall b s2, (_outstanding_segments s2 <> [] -> b = true) -> P s2 -> P (set_timing b s2)) -> P (ack_received an w s).
Proof.
  intros A Hs Hw HP Hacks Hfill Htiming. destruct (decide (_confirmed_seqno s <= A <= _next_seqno s)) as [HA|HA].
  - destruct (ack_received_ok an w s Hs Hw HA) as (s1 & popped & Hak & Hs1 & Hres). pose proof (Hacks s1 popped HA Hak Hs1) as H1.
    destruct (nonempty (_outstanding_segments s1)); [by rewrite Hres|]. destruct Hres as (s2 & _ & E1 & E2 & ->).
    apply Htiming; [by destruct (_outstanding_segments s2)|].
    destruct (nonempty popped); [rewrite E2 by done; by apply Hfill|by rewrite E1].
  - unfold ack_received. rewrite (fl_isn s (si_flight s Hs)). fold A.
    destruct (Z.ltb_spec A (_confirmed_seqno s)); [done|]. destruct (Z.ltb_spec (_next_seqno s) A); [done|]. lia.
Qed.

Lemma ack_received_sinv an w s : sinv s -> 0 <= w < 2 ^ 16 -> sinv (ack_received an w s).
Proof.
  intros Hs Hw. apply ack_received_preserves; try done; [|by intros b s2 _; apply set_timing_sinv].
  intros s1 Hs1 _. by destruct (fill_window_fills s1 Hs1) as ([? _ _ _ _ _ _ _] & _).
Qed.

(** ** Time and the writer *)

Lemma tick_fields ms s :
  _isn (tick ms s) = _isn s /\ _outstanding_segments (tick ms s) = _outstanding_segments s /\
  _next_seqno (tick ms s) = _next_seqno s /\ bytes_in_flight_ (tick ms s) = bytes_in_flight_ s /\
  _confirmed_seqno (tick ms s) = _confirmed_seqno s /\ _receiver_window_size (tick ms s) = _receiver_window_size s /\
  _stream (tick ms s) = _stream s /\ fin_sent (tick ms s) = fin_sent s /\ _timing_begins (tick ms s) = _timing_begins s /\
  exists re, _segments_out (tick ms s) = _segments_out s ++ re /\ (forall x, x ∈ re -> x ∈ _outstanding_segments s).
Proof.
  unfold tick. destruct (_timing_begins s) eqn:Ht; simpl.
  2: { split_and!; try done. exists []. rewrite app_nil_r. split; [done|]. by intros x []%not_elem_of_nil. }
  destruct (_outstanding_segments s) as [|f q] eqn:Hq; [|destruct (_ <=? _)]; simpl; split_and!; try done.
  all: first [exists [f]; split; [done|]; intros x ->%list_elem_of_singleton; by left
             |exists []; rewrite app_nil_r; split; [done|]; by intros x []%not_elem_of_nil].
Qed.

Lemma tick_sinv ms s : sinv s -> sinv (tick ms s).
Proof.
  intros [Hfl Hfd]. destruct (tick_fields ms s) as (? & ? & ? & ? & ? & ? & ? & ? & _).
  split; [by apply (flight_ext s)|by apply (feeds_ext s)].
Qed.

(** The application writes the next bytes of [T] and ends the stream after the
    last of them. *)
Lemma write_sinv data s :
  sinv s -> input_ended (_stream s) = false ->
  data = slice (bytes_read (_stream s) + len (ByteStream._stream (_stream s))) (len data) T ->
  bytes_read (_stream s) + len (ByteStream._stream (_stream s)) + len data <= len T ->
  sinv (update_stream (write data (_stream s)).2 s).
Proof.
  intros [Hfl Hfd] He Hd Hlen. pose proof (feeds_read_range s Hfd). split; [by apply (flight_ext s)|].
  destruct Hfd as [Hw Hb Hfit Hend Hnx Hfin]. pose proof (wf_write data _ Hw) as Hw'.
  assert (len (accepted data (_stream s)) <= len data) as Hacc.
  { unfold accepted. pose proof (wf_fits _ Hw). rewrite len_ztake by lia. lia. }
  split; cbn [update_stream _stream _next_seqno fin_sent]; rewrite ?write_eq in * by done; cbn [snd] in *;
    unfold bytes_read, input_ended in *; cbn [ByteStream._bytes_read ByteStream._stream _input_ended] in *; try done.
  - rewrite len_app, <- slice_app by lia. f_equal; [done|]. unfold accepted in *. rewrite Hd at 1.
    pose proof (wf_fits _ Hw). rewrite len_ztake in * by lia.
    destruct (Z.le_ge_cases (ByteStream._capacity (_stream s) - len (ByteStream._stream (_stream s))) (len data)).
    + rewrite ztake_slice_le by lia. f_equal. lia.
    + rewrite ztake_all by (rewrite <- Hd; lia). f_equal. lia.
  - rewrite len_app. lia.
  - congruence.
  - intros Hs. apply Hfin in Hs. unfold eof in Hs. rewrite He in Hs. done.
Qed.

Lemma end_input_sinv s :
  sinv s -> bytes_read (_stream s) + len (ByteStream._stream (_stream s)) = len T ->
  sinv (update_stream (end_input (_stream s)) s).
Proof.
  intros [Hfl Hfd] HT. split; [by apply (flight_ext s)|]. destruct Hfd as [Hw Hb Hfit Hend Hnx Hfin].
  split; cbn [update_stream _stream _next_seqno fin_sent]; try done; [by apply wf_end_input|].
  intros Hs. apply Hfin in Hs. unfold eof in *. apply andb_true_iff in Hs as [_ Hs]. exact Hs.
Qed.

Lemma init_sinv capacity rto r : 0 <= capacity < 2 ^ 64 -> sinv (TCPSender_of capacity rto (Some isn) r).
Proof.
  intros Hc. split; split; unfold base; simpl; try done; try lia. by apply wf_init.
Qed.

(** ** Runs of the sender *)

(** A segment in the outbound queue: data at a position already counted, or an
    empty segment for the connection to fill in. *)
Definition queued (n : Z) (seg : TCPSegment) : Prop :=
  (exists a, emitted a seg /\ 0 <= a /\ a + length_in_sequence_space seg <= n) \/
  (exists k, seg = set_seqno (wrap k isn) TCPSegment_default).

Lemma queued_mono n m seg : n <= m -> queued n seg -> queued m seg.
Proof. intros ? [(a & ? & ? & ?)|?]; [left; exists a; split_and!; done || lia|by right]. Qed.

Lemma chain_queued a segs n : 0 <= a -> chain a segs n -> Forall (queued n) segs.
Proof.
  revert a. induction segs as [|x segs IH]; intros a Ha; [constructor|]. simpl. intros (He & HL & Hc).
  pose proof (chain_le _ _ _ Hc). constructor; [left; exists a; split_and!; done || lia|]. eapply IH; [|done]. lia.
Qed.

Record sender_ok (s : TCPSender) : Prop := {
  ok_sinv : sinv s;
  ok_timer : _timing_begins s = nonempty (_outstanding_segments s);
  ok_queue : Forall (queued (_next_seqno s)) (_segments_out s) }.

Inductive sends (capacity rto : Z) : TCPSender -> Prop :=
  | sends_init r : sends capacity rto (TCPSender_of capacity rto (Some isn) r)
  | sends_write data s : sends capacity rto s -> input_ended (_stream s) = false ->
      data = slice (bytes_written (_stream s)) (len data) T -> bytes_written (_stream s) + len data <= len T ->
      sends capacity rto (update_stream (write data (_stream s)).2 s)
  | sends_end s : sends capacity rto s -> bytes_written (_stream s) = len T ->
      sends capacity rto (update_stream (end_input (_stream s)) s)
  | sends_fill s : sends capacity rto s -> sends capacity rto (fill_window s)
  | sends_ack an w s : sends capacity rto s -> 0 <= w < 2 ^ 16 -> sends capacity rto (ack_received an w s)
  | sends_tick ms s : sends capacity rto s -> sends capacity rto (tick ms s)
  | sends_empty s : sends capacity rto s -> sends capacity rto (send_empty_segment s)
  | sends_take seg s s' : sends capacity rto s -> read_a_segment s = Some (seg, s') -> sends capacity rto s'.

Lemma feeds_written s : feeds s -> bytes_written (_stream s) = bytes_read (_stream s) + len (ByteStream._stream (_stream s)).
Proof.
  intros Hf. pose proof (feeds_read_range s Hf). destruct Hf as [Hw _ Hfit _ _ _]. unfold bytes_written.
  rewrite (wf_written _ Hw). apply u64_small. unfold bytes_read in *. lia.
Qed.

Lemma fills_ok s s' :
  sinv s -> Forall (queued (_next_seqno s)) (_segments_out s) -> fills s s' ->
  _next_seqno s <= _next_seqno s' /\ Forall (queued (_next_seqno s')) (_segments_out s').
Proof.
  intros Hs Hq [_ (new & -> & _ & Hc) _ _ _ _ _ _]. pose proof (chain_le _ _ _ Hc). split; [done|].
  pose proof (fl_base _ (si_flight _ Hs)). pose proof (fl_confirmed _ (si_flight _ Hs)).
  apply Forall_app. split; [|eapply chain_queued; [|done]; lia].
  eapply Forall_impl; [exact Hq|]. intros x. by apply queued_mono.
Qed.

Lemma fill_window_ok s : sender_ok s -> sender_ok (fill_window s).
Proof.
  intros [Hs Ht Hq]. destruct (fill_window_fills s Hs) as (Hf & _ & _). split; [by destruct Hf| |by apply (fills_ok s)].
  destruct (fs_timer _ _ Hf) as [[-> Hne]|[-> ->]]; [|done]. by destruct (_outstanding_segments (fill_window s)).
Qed.

Lemma ack_received_sender_ok an w s : sender_ok s -> 0 <= w < 2 ^ 16 -> sender_ok (ack_received an w s).
Proof.
  intros [Hs Ht Hq] Hw. pose proof (ack_received_sinv an w s Hs Hw) as Hs'.
  destruct (decide (_confirmed_seqno s <= unwrap an isn (_next_seqno s) <= _next_seqno s)) as [HA|HA].
  2: { revert Hs'. unfold ack_received. rewrite (fl_isn s (si_flight s Hs)).
       destruct (Z.ltb_spec (unwrap an isn (_next_seqno s)) (_confirmed_seqno s)); [done|].
       destruct (Z.ltb_spec (_next_seqno s) (unwrap an isn (_next_seqno s))); [done|]. lia. }
  destruct (ack_received_ok an w s Hs Hw HA) as (s1 & popped & Hak & Hs1 & Hres).
  assert (Forall (queued (_next_seqno s1)) (_segments_out s1)) as Hq1.
  { rewrite (ak_next _ _ _ _ _ Hak), (ak_out _ _ _ _ _ Hak). exact Hq. }
  destruct (nonempty (_outstanding_segments s1)) eqn:Hne.
  - rewrite Hres in *. split; [done| |done]. rewrite Hne, (ak_timing _ _ _ _ _ Hak). simpl. rewrite Ht.
    pose proof (ak_popped _ _ _ _ _ Hak) as Hp. simpl in Hp. rewrite Hp. by destruct popped, (_outstanding_segments s1).
  - destruct Hres as (s2 & Hf & _ & _ & E). rewrite E in *. split; [done|done|]. by apply (fills_ok s1 s2).
Qed.

Lemma sends_ok capacity rto s : 0 <= capacity < 2 ^ 64 -> sends capacity rto s -> sender_ok s.
Proof.
  intros Hc. induction 1 as [r|data s _ IH He Hd Hl|s _ IH HT|s _ IH|an w s _ IH Hw|ms s _ IH|s _ IH|seg s s' _ IH Hr].
  - split; [by apply init_sinv|done|constructor].
  - destruct IH as [Hs Ht Hq]. rewrite (feeds_written s (si_feeds s Hs)) in *. split; [by apply write_sinv|done|done].
  - destruct IH as [Hs Ht Hq]. rewrite (feeds_written s (si_feeds s Hs)) in *. split; [by apply end_input_sinv|done|done].
  - by apply fill_window_ok.
  - by apply ack_received_sender_ok.
  - destruct IH as [Hs Ht Hq]. destruct (tick_fields ms s) as (_ & HQ & Hn & _ & _ & _ & _ & _ & HT & re & Ho & Hre).
    split; [by apply tick_sinv|by rewrite HT, HQ|]. rewrite Hn, Ho. apply Forall_app. split; [done|].
    pose proof (fl_base _ (si_flight _ Hs)).
    pose proof (chain_queued _ _ _ ltac:(done) (fl_chain _ (si_flight _ Hs))) as HqQ.
    rewrite Forall_forall in *. intros x Hx. by apply HqQ, Hre.
  - destruct IH as [[Hfl Hfd] Ht Hq]. split; [split; [by apply (flight_ext s)|by apply (feeds_ext s)]|done|].
    apply Forall_app. split; [done|]. constructor; [|constructor]. right. exists (_next_seqno s).
    by rewrite (fl_isn s Hfl).
  - destruct IH as [[Hfl Hfd] Ht Hq]. unfold read_a_segment in Hr.
    destruct (_segments_out s) as [|x q] eqn:E; [done|]. injection Hr as <- <-. apply Forall_cons in Hq as [_ Hq].
    split; [split; [by apply (flight_ext s)|by apply (feeds_ext s)]|done|done].
Qed.
End Sending.

(** ** What the sender promises *)

Definition total_length (segs : list TCPSegment) : Z := foldr (fun seg acc => length_in_sequence_space seg + acc) 0 segs.

Lemma chain_total T isn a segs n : chain T isn a segs n -> n = a + total_length segs.
Proof. revert a. induction segs as [|x segs IH]; intros a; simpl; [lia|]. intros (_ & _ & Hc). apply IH in Hc. lia. Qed.

(** C4: The sender's books are right.  In every state of a run (writes of the
    stream [T], its end, window filling, any acknowledgments and windows, ticks,
    empty segments, dequeuing): the outstanding segments are non-empty, adjacent
    and end at the next sequence number; each carries SYN, or at most 1000 bytes
    of [T] at its place, with FIN only at the end of [T]; [bytes_in_flight] is
    the sum of their lengths; the confirmed number lies within them; the next
    sequence number counts SYN, the bytes read and FIN; and the retransmission
    timer runs exactly when something is outstanding. *)
Theorem sender_books T isn capacity rto s :
  len T < 2 ^ 61 -> 0 <= capacity < 2 ^ 64 -> sends T isn capacity rto s ->
  chain T isn (_next_seqno s - bytes_in_flight s) (_outstanding_segments s) (_next_seqno s) /\
  bytes_in_flight s = total_length (_outstanding_segments s) /\
  _next_seqno s - bytes_in_flight s <= _confirmed_seqno s <= _next_seqno s /\
  _timing_begins s = nonempty (_outstanding_segments s) /\
  (_next_seqno s <> 0 -> _next_seqno s = 1 + bytes_read (_stream s) + (if fin_sent s then 1 else 0)) /\
  Forall (queued T isn (_next_seqno s)) (_segments_out s).
Proof.
  intros HT Hc Hr. apply sends_ok in Hr as [[Hfl Hfd] Ht Hq]; [|done..].
  pose proof (chain_total _ _ _ _ _ (fl_chain _ _ _ Hfl)) as Hsum. unfold base in Hsum.
  split; [by destruct Hfl|]. split; [unfold bytes_in_flight; lia|]. split; [by destruct Hfl|].
  split; [done|]. split; [|done]. intros Hn. pose proof (fd_next _ _ Hfd) as Hx.
  by destruct (Z.eqb_spec (_next_seqno s) 0).
Qed.

Definition isn1 : WrappingInt32 := mkWrappingInt32 0xffffffff.
Definition sender0 : TCPSender := TCPSender_of 16 1000 (Some isn1) 0.
Definition sender1 : TCPSender := fill_window sender0.
Definition sender2 : TCPSender := update_stream (write (lit "hello") (_stream sender1)).2 sender1.
Definition sender3 : TCPSender := ack_received (wrap 1 isn1) 4 sender2.

Lemma sender3_sends : sends (lit "hello") isn1 16 1000 sender3.
Proof.
  apply sends_ack; [|by vm_compute]. apply (sends_write _ _ _ _ (lit "hello") sender1); [|by vm_compute..].
  apply sends_fill, sends_init.
Qed.

Lemma sender_books_witness :
  bytes_in_flight sender3 = total_length (_outstanding_segments sender3) /\ bytes_in_flight sender3 = 4.
Proof.
  split; [|by vm_compute]. apply (sender_books (lit "hello") isn1 16 1000 sender3); [by vm_compute|lia|apply sender3_sends].
Defined.

(** C10: [fill_window] respects the window and uses it up.  The new segments are
    appended to both queues and run from the old next sequence number to the new
    one, which does not pass the edge of the receiver's window (an empty window
    counting as one); and it stops only when FIN has been sent, the window is
    full, or there is nothing left to send. *)
Theorem fill_window_spec T isn capacity rto s :
  len T < 2 ^ 61 -> 0 <= capacity < 2 ^ 64 -> sends T isn capacity rto s ->
  let s' := fill_window s in
  (exists new, _segments_out s' = _segments_out s ++ new /\ _outstanding_segments s' = _outstanding_segments s ++ new /\
    chain T isn (_next_seqno s) new (_next_seqno s')) /\
  _next_seqno s' <= Z.max (_next_seqno s) (_confirmed_seqno s + Z.max 1 (_receiver_window_size s)) /\
  (if _next_seqno s =? 0 then _next_seqno s' = 1
   else fin_sent s' = true \/ _confirmed_seqno s + Z.max 1 (_receiver_window_size s) <= _next_seqno s' \/
        buffer_empty (_stream s') = true /\ input_ended (_stream s') = false).
Proof.
  intros HT Hc Hr. apply sends_ok in Hr as [Hs _ _]; [|done..].
  destruct (fill_window_fills T isn HT s Hs) as (Hf & Hn & Hmax).
  unfold edge in *. split; [by destruct Hf|]. split; [exact Hn|]. destruct (_ =? 0); [done|].
  destruct Hmax as [?|[?|[Hb He]]]; [by left|by right; left|right; right].
  split; [done|]. unfold eof in He. rewrite Hb, andb_true_r in He. done.
Qed.

Lemma fill_window_spec_witness :
  let s := update_stream (end_input (_stream sender3)) sender3 in
  let s' := fill_window (ack_received (wrap 5 isn1) 9 s) in
  fin_sent s' = true \/ 14 <= _next_seqno s' \/ buffer_empty (_stream s') = true /\ input_ended (_stream s') = false.
Proof.
  intros s s'.
  assert (sends (lit "hello") isn1 16 1000 (ack_received (wrap 5 isn1) 9 s)) as Hs.
  { apply sends_ack; [|by vm_compute]. apply sends_end; [apply sender3_sends|by vm_compute]. }
  destruct (fill_window_spec (lit "hello") isn1 16 1000 (ack_received (wrap 5 isn1) 9 s)) as (_ & _ & H);
    [by vm_compute|lia|exact Hs|]. vm_compute in H. vm_compute. exact H.
Defined.



(** ** Retransmission *)

(** Let the timer run out once. *)
Definition expire (s : TCPSender) : TCPSender := tick (_applying_retransmission_timeout s) s.

Lemma expire_eq front q s :
  _outstanding_segments s = front :: q -> _timing_begins s = true ->
  0 < _receiver_window_size s \/ syn (header front) = true ->
  0 <= _last_tick_time s -> 0 <= _applying_retransmission_timeout s ->
  _last_tick_time s + _applying_retransmission_timeout s < 2 ^ 64 ->
  _applying_retransmission_timeout s * 2 < 2 ^ 32 -> 0 <= consecutive_retransmissions s < 2 ^ 16 - 1 ->
  _segments_out (expire s) = _segments_out s ++ [front] /\
  _applying_retransmission_timeout (expire s) = 2 * _applying_retransmission_timeout s /\
  consecutive_retransmissions (expire s) = consecutive_retransmissions s + 1 /\
  _outstanding_segments (expire s) = _outstanding_segments s /\ _timing_begins (expire s) = true /\
  _last_tick_time (expire s) = 0 /\ _receiver_window_size (expire s) = _receiver_window_size s.
Proof.
  intros Hq Ht Hw Hl Ha Hla H32 H16. unfold expire, tick. rewrite Ht, Hq. simpl.
  rewrite u64_small by lia. destruct (Z.leb_spec (_applying_retransmission_timeout s) (_last_tick_time s + _applying_retransmission_timeout s)); [|lia].
  unfold consecutive_retransmissions in *. simpl.
  assert ((0 <? _receiver_window_size s) || syn (header front) = true) as ->.
  { destruct Hw as [Hw| ->]; [|by rewrite orb_true_r]. by destruct (Z.ltb_spec 0 (_receiver_window_size s)); [|lia]. }
  rewrite u32_small, u16_small by lia. split_and!; try done; lia.
Qed.


