(* ===== verification/TCPState.v ===== *)
(** Summaries of a connection's state: [TCPState] of
    [tcp_helpers/tcp_state.hh] and [tcp_state.cc]. *)
From S2P Require Import Prelude WrappingIntegers ByteStream StreamReassembler TCPReceiver TCPSender.

Record TCPState := mkTCPState {
  _sender : string; _receiver : string; _active : bool; _linger_after_streams_finish : bool }.

Inductive State :=
  | LISTEN | SYN_RCVD | SYN_SENT | ESTABLISHED | CLOSE_WAIT | LAST_ACK | FIN_WAIT_1 | FIN_WAIT_2
  | CLOSING | TIME_WAIT | CLOSED | RESET.

(** ** The summaries' texts *)

Definition Receiver_ERROR : string := "error (connection was reset)".
Definition Receiver_LISTEN : string := "waiting for SYN: ackno is empty".
Definition Receiver_SYN_RECV : string := "SYN received (ackno exists), and input to stream hasn't ended".
Definition Receiver_FIN_RECV : string := "input to stream has ended".

Definition Sender_ERROR : string := "error (connection was reset)".
Definition Sender_CLOSED : string := "waiting for stream to begin (no SYN sent)".
Definition Sender_SYN_SENT : string := "stream started but nothing acknowledged".
Definition Sender_SYN_ACKED : string := "stream ongoing".
Definition Sender_FIN_SENT : string := "stream finished (FIN sent) but not fully acknowledged".
Definition Sender_FIN_ACKED : string := "stream finished and fully acknowledged".

(** ** Operations *)

Definition TCPState_eq (a b : TCPState) : bool :=
  Bool.eqb (_active a) (_active b) &&
  Bool.eqb (_linger_after_streams_finish a) (_linger_after_streams_finish b) &&
  bool_decide (_sender a = _sender b) && bool_decide (_receiver a = _receiver b).

(** [std::to_string] of a [bool] converts it to [int] first. *)
Definition bool_to_string (b : bool) : string := if b then "1" else "0".

Definition name (s : TCPState) : string :=
  ("sender=`" +:+ _sender s +:+ "`, receiver=`" +:+ _receiver s +:+ "`, active=" +:+ bool_to_string (_active s) +:+
   ", linger_after_streams_finish=" +:+ bool_to_string (_linger_after_streams_finish s))%string.

(** [TCPState(State)]: the flags are [true] unless the case clears them. *)
Definition TCPState_of_State (state : State) : TCPState :=
  match state with
  | LISTEN => mkTCPState Sender_CLOSED Receiver_LISTEN true true
  | SYN_RCVD => mkTCPState Sender_SYN_SENT Receiver_SYN_RECV true true
  | SYN_SENT => mkTCPState Sender_SYN_SENT Receiver_LISTEN true true
  | ESTABLISHED => mkTCPState Sender_SYN_ACKED Receiver_SYN_RECV true true
  | CLOSE_WAIT => mkTCPState Sender_SYN_ACKED Receiver_FIN_RECV true false
  | LAST_ACK => mkTCPState Sender_FIN_SENT Receiver_FIN_RECV true false
  | CLOSING => mkTCPState Sender_FIN_SENT Receiver_FIN_RECV true true
  | FIN_WAIT_1 => mkTCPState Sender_FIN_SENT Receiver_SYN_RECV true true
  | FIN_WAIT_2 => mkTCPState Sender_FIN_ACKED Receiver_SYN_RECV true true
  | TIME_WAIT => mkTCPState Sender_FIN_ACKED Receiver_FIN_RECV true true
  | RESET => mkTCPState Sender_ERROR Receiver_ERROR false false
  | CLOSED => mkTCPState Sender_FIN_ACKED Receiver_FIN_RECV false false
  end.

(** [state_summary(const TCPReceiver &)] *)
Definition receiver_summary (receiver : TCPReceiver) : string :=
  if ByteStream.error (receiver_stream_out receiver) then Receiver_ERROR
  else match TCPReceiver.ackno receiver with
       | None => Receiver_LISTEN
       | Some _ => if ByteStream.input_ended (receiver_stream_out receiver) then Receiver_FIN_RECV else Receiver_SYN_RECV
       end.

(** [state_summary(const TCPSender &)] *)
Definition sender_summary (sender : TCPSender) : string :=
  if ByteStream.error (stream_in sender) then Sender_ERROR
  else if next_seqno_absolute sender =? 0 then Sender_CLOSED
  else if next_seqno_absolute sender =? bytes_in_flight sender then Sender_SYN_SENT
  else if negb (ByteStream.eof (stream_in sender)) then Sender_SYN_ACKED
  else if next_seqno_absolute sender <? u64 (bytes_written (stream_in sender) + 2) then Sender_SYN_ACKED
  else if negb (bytes_in_flight sender =? 0) then Sender_FIN_SENT
  else Sender_FIN_ACKED.

Definition TCPState_of (sender : TCPSender) (receiver : TCPReceiver) (active linger : bool) : TCPState :=
  mkTCPState (sender_summary sender) (receiver_summary receiver) active (if active then linger else false).

(** ** The official states *)

Lemma TCPState_eq_spec a b : TCPState_eq a b = true <-> a = b.
Proof.
  unfold TCPState_eq. rewrite !andb_true_iff, !bool_decide_eq_true, !Bool.eqb_true_iff.
  destruct a, b; simpl. split; [by intros [[[-> ->] ->] ->]|by intros [= -> -> -> ->]].
Qed.

(** The summaries tell the official states apart. *)
Lemma official_states_distinct (a b : State) : TCPState_eq (TCPState_of_State a) (TCPState_of_State b) = true -> a = b.
Proof. rewrite TCPState_eq_spec. by destruct a, b. Qed.
