(* ===== verification/TCPConnection.v ===== *)
(** A complete endpoint: [TCPConnection] of [libsponge/tcp_connection.hh] and
    [tcp_connection.cc].  The connection owns a receiver and a sender; whatever
    the sender queues is stamped with the receiver's acknowledgment number and
    window and moved to the connection's own queue.

    [segment_received] and what calls it return [None] when the receiver does
    not come back from its reassembler. *)
From S2P Require Import Prelude WrappingIntegers Buffer ByteStream StreamReassembler TCPSegment TCPReceiver TCPSender TCPState.

Record TCPConnection := mkTCPConnection {
  _cfg : TCPConfig;
  _receiver : TCPReceiver;
  _sender : TCPSender;
  _segments_out : list TCPSegment;
  _linger_after_streams_finish : bool;
  _active : bool;
  _last_tick_time : Z }.

(** The constructor; [random_isn] as for the sender. *)
Definition TCPConnection_of (cfg : TCPConfig) (random_isn : Z) : TCPConnection :=
  mkTCPConnection cfg (TCPReceiver_of (recv_capacity cfg))
    (TCPSender_of (send_capacity cfg) (rt_timeout cfg) (fixed_isn cfg) random_isn) [] true true 0.

(** ** Accessors *)

Definition check_inbound_ended (c : TCPConnection) : bool :=
  (TCPReceiver.unassembled_bytes (_receiver c) =? 0) && ByteStream.input_ended (receiver_stream_out (_receiver c)).

Definition check_outbound_ended (c : TCPConnection) : bool :=
  ByteStream.eof (stream_in (_sender c)) &&
  (next_seqno_absolute (_sender c) =? u64 (bytes_written (stream_in (_sender c)) + 2)) &&
  (TCPSender.bytes_in_flight (_sender c) =? 0).

Definition active (c : TCPConnection) : bool := _active c.
Definition state (c : TCPConnection) : TCPState :=
  TCPState_of (_sender c) (_receiver c) (active c) (_linger_after_streams_finish c).
Definition remaining_outbound_capacity (c : TCPConnection) : Z := remaining_capacity (stream_in (_sender c)).
Definition bytes_in_flight (c : TCPConnection) : Z := TCPSender.bytes_in_flight (_sender c).
Definition unassembled_bytes (c : TCPConnection) : Z := TCPReceiver.unassembled_bytes (_receiver c).
Definition time_since_last_segment_received (c : TCPConnection) : Z := _last_tick_time c.
Definition inbound_stream (c : TCPConnection) : ByteStream := receiver_stream_out (_receiver c).

(** ** Updates of one member *)

Definition set_receiver (r : TCPReceiver) (c : TCPConnection) : TCPConnection :=
  mkTCPConnection (_cfg c) r (_sender c) (_segments_out c) (_linger_after_streams_finish c) (_active c) (_last_tick_time c).
Definition set_sender (s : TCPSender) (c : TCPConnection) : TCPConnection :=
  mkTCPConnection (_cfg c) (_receiver c) s (_segments_out c) (_linger_after_streams_finish c) (_active c) (_last_tick_time c).
Definition set_out (q : list TCPSegment) (c : TCPConnection) : TCPConnection :=
  mkTCPConnection (_cfg c) (_receiver c) (_sender c) q (_linger_after_streams_finish c) (_active c) (_last_tick_time c).
Definition set_linger (b : bool) (c : TCPConnection) : TCPConnection :=
  mkTCPConnection (_cfg c) (_receiver c) (_sender c) (_segments_out c) b (_active c) (_last_tick_time c).
Definition set_active (b : bool) (c : TCPConnection) : TCPConnection :=
  mkTCPConnection (_cfg c) (_receiver c) (_sender c) (_segments_out c) (_linger_after_streams_finish c) b (_last_tick_time c).
Definition set_tick_time (t : Z) (c : TCPConnection) : TCPConnection :=
  mkTCPConnection (_cfg c) (_receiver c) (_sender c) (_segments_out c) (_linger_after_streams_finish c) (_active c) t.

(** ** Sending *)

(** The header fields the connection fills in. *)
Definition stamp (r : TCPReceiver) (seg : TCPSegment) : TCPSegment :=
  let h := header seg in
  let '(a, an) := match TCPReceiver.ackno r with Some n => (true, n) | None => (ack h, TCPSegment.ackno h) end in
  mkTCPSegment (mkTCPHeader (sport h) (dport h) (seqno h) an (doff h) (urg h) a (psh h) (rst h) (syn h) (fin h)
    (u16 (window_size r)) (cksum h) (uptr h)) (payload seg).

Definition set_rst (seg : TCPSegment) : TCPSegment :=
  let h := header seg in
  mkTCPSegment (mkTCPHeader (sport h) (dport h) (seqno h) (TCPSegment.ackno h) (doff h) (urg h) (ack h) (psh h) true (syn h)
    (fin h) (win h) (cksum h) (uptr h)) (payload seg).

(** The loop of [send_segments_out] takes one segment per turn off the sender's
    queue, so the length of the queue bounds its turns. *)
Fixpoint send_loop (fuel : nat) (has_sent : bool) (c : TCPConnection) : bool * TCPConnection :=
  match fuel with
  | O => (has_sent, c)
  | S fuel =>
      match read_a_segment (_sender c) with
      | None => (has_sent, c)
      | Some (seg, s) =>
          send_loop fuel true (set_out (_segments_out c ++ [stamp (_receiver c) seg]) (set_sender s c))
      end
  end.

Definition send_segments_out (c : TCPConnection) : bool * TCPConnection :=
  send_loop (length (TCPSender._segments_out (_sender c))) false c.

(** ** Operations *)

Definition segment_received (seg : TCPSegment) (c : TCPConnection) : option TCPConnection :=
  let c := set_tick_time 0 c in
  if rst (header seg) then
    let c := set_sender (update_stream (set_error (stream_in (_sender c))) (_sender c)) c in
    let c := set_receiver (update_stream_out set_error (_receiver c)) c in
    Some (set_active false c)
  else
    match TCPReceiver.segment_received seg (_receiver c) with
    | None => None
    | Some r =>
        let c := set_receiver r c in
        let c := if check_inbound_ended c && negb (ByteStream.eof (stream_in (_sender c))) then set_linger false c else c in
        let c := if ack (header seg)
                 then (send_segments_out (set_sender (ack_received (TCPSegment.ackno (header seg)) (win (header seg)) (_sender c)) c)).2
                 else c in
        if 0 <? length_in_sequence_space seg then
          let '(is_sent, c) := send_segments_out (set_sender (fill_window (_sender c)) c) in
          if negb is_sent then Some (send_segments_out (set_sender (send_empty_segment (_sender c)) c)).2
          else Some c
        else Some c
    end.

Definition write (data : list byte) (c : TCPConnection) : Z * TCPConnection :=
  if len data =? 0 then (0, c)
  else
    let '(result, st) := ByteStream.write data (stream_in (_sender c)) in
    let s := update_stream st (_sender c) in
    (result, (send_segments_out (set_sender (fill_window s) c)).2).

(** Sending a RST: an empty segment of the sender, marked, and handed to the
    connection's own [segment_received].  The sender's queue is empty before,
    so the segment read back is the one just queued. *)
Definition send_rst (c : TCPConnection) : option TCPConnection :=
  match read_a_segment (send_empty_segment (_sender c)) with
  | None => None
  | Some (seg, s) =>
      let seg := set_rst seg in
      let c := set_sender s c in
      segment_received seg (set_out (_segments_out c ++ [seg]) c)
  end.

Definition tick (ms_since_last_tick : Z) (c : TCPConnection) : option TCPConnection :=
  let c := set_tick_time (u64 (_last_tick_time c + ms_since_last_tick)) c in
  let c := set_sender (TCPSender.tick ms_since_last_tick (_sender c)) c in
  let c := (send_segments_out c).2 in
  match
    if MAX_RETX_ATTEMPTS <? consecutive_retransmissions (_sender c)
    then send_rst (set_out [] c)
    else Some c
  with
  | None => None
  | Some c =>
      if check_inbound_ended c && check_outbound_ended c
      then Some (set_active (negb (negb (_linger_after_streams_finish c) || (10 * rt_timeout (_cfg c) <=? _last_tick_time c))) c)
      else Some c
  end.

Definition end_input_stream (c : TCPConnection) : TCPConnection :=
  let s := update_stream (end_input (stream_in (_sender c))) (_sender c) in
  (send_segments_out (set_sender (fill_window s) c)).2.

Definition connect (c : TCPConnection) : TCPConnection :=
  (send_segments_out (set_sender (fill_window (_sender c)) c)).2.

(** The destructor; what it leaves is the state whose queue the owner could
    still see. *)
Definition destroy (c : TCPConnection) : option TCPConnection :=
  if active c then send_rst c else Some c.

(** ** Moving the sender's segments out *)

Lemma set_segments_out_id s : TCPSender._segments_out s = [] -> set_segments_out [] s = s.
Proof. destruct s; simpl. by intros ->. Qed.

Lemma send_loop_eq fuel b c :
  (length (TCPSender._segments_out (_sender c)) <= fuel)%nat ->
  let q := TCPSender._segments_out (_sender c) in
  send_loop fuel b c =
  (b || nonempty q, set_out (_segments_out c ++ map (stamp (_receiver c)) q) (set_sender (set_segments_out [] (_sender c)) c)).
Proof.
  revert b c. induction fuel as [|fuel IH]; intros b c Hlen q.
  - subst q. destruct (TCPSender._segments_out (_sender c)) eqn:E; [|simpl in Hlen; lia].
    simpl. rewrite app_nil_r, orb_false_r, set_segments_out_id by done. by destruct c.
  - subst q. cbn [send_loop]. unfold read_a_segment. destruct (TCPSender._segments_out (_sender c)) as [|x q] eqn:E.
    + simpl. rewrite app_nil_r, orb_false_r, set_segments_out_id by done. by destruct c.
    + rewrite IH by (simpl in *; lia). simpl. rewrite orb_true_r, <- app_assoc. done.
Qed.

Lemma send_segments_out_eq c :
  let q := TCPSender._segments_out (_sender c) in
  send_segments_out c =
  (nonempty q, set_out (_segments_out c ++ map (stamp (_receiver c)) q) (set_sender (set_segments_out [] (_sender c)) c)).
Proof. unfold send_segments_out. by rewrite send_loop_eq. Qed.

(** Nothing waits in the sender's own queue. *)
Definition quiet (c : TCPConnection) : Prop := TCPSender._segments_out (_sender c) = [].

(** What a sending operation does to the connection's queue: segments stamped
    with the receiver's state are appended. *)
Record emits (c c' : TCPConnection) (new : list TCPSegment) : Prop := {
  em_quiet : quiet c';
  em_out : _segments_out c' = _segments_out c ++ map (stamp (_receiver c')) new;
  em_receiver : _receiver c' = _receiver c;
  em_flags : _linger_after_streams_finish c' = _linger_after_streams_finish c /\ _active c' = _active c /\
    _last_tick_time c' = _last_tick_time c /\ _cfg c' = _cfg c }.

Lemma send_segments_out_emits s c :
  let '(b, c') := send_segments_out (set_sender s c) in
  emits c c' (TCPSender._segments_out s) /\ b = nonempty (TCPSender._segments_out s) /\ _sender c' = set_segments_out [] s.
Proof. rewrite send_segments_out_eq. by split. Qed.

Lemma emits_trans c1 c2 c3 n1 n2 : emits c1 c2 n1 -> emits c2 c3 n2 -> emits c1 c3 (n1 ++ n2).
Proof.
  intros [_ O1 R1 (? & ? & ? & ?)] [Q2 O2 R2 (? & ? & ? & ?)]. split; [done| |congruence|split_and!; congruence].
  rewrite O2, O1, R2, map_app, <- app_assoc. done.
Qed.

Lemma emits_refl c : quiet c -> emits c c [].
Proof. intros. split; try done. simpl. by rewrite app_nil_r. Qed.

(** The part of [segment_received] after the receiver. *)
Definition respond (seg : TCPSegment) (c : TCPConnection) : TCPConnection :=
  let c := if ack (header seg)
           then (send_segments_out (set_sender (ack_received (TCPSegment.ackno (header seg)) (win (header seg)) (_sender c)) c)).2
           else c in
  if 0 <? length_in_sequence_space seg then
    let '(is_sent, c) := send_segments_out (set_sender (fill_window (_sender c)) c) in
    if negb is_sent then (send_segments_out (set_sender (send_empty_segment (_sender c)) c)).2 else c
  else c.

Definition after_receiver (r : TCPReceiver) (c : TCPConnection) : TCPConnection :=
  let c := set_receiver r (set_tick_time 0 c) in
  if check_inbound_ended c && negb (ByteStream.eof (stream_in (_sender c))) then set_linger false c else c.

Lemma segment_received_eq seg c :
  rst (header seg) = false ->
  segment_received seg c =
  match TCPReceiver.segment_received seg (_receiver c) with
  | None => None
  | Some r => Some (respond seg (after_receiver r c))
  end.
Proof.
  intros Hr. unfold segment_received. rewrite Hr. cbn [set_tick_time _receiver].
  destruct (TCPReceiver.segment_received seg (_receiver c)) as [r|]; [|done].
  unfold respond, after_receiver. destruct (0 <? _); [|done]. destruct (send_segments_out _) as [b c1]. by destruct b.
Qed.

(** What a RST leaves. *)
Definition failed (c : TCPConnection) : TCPConnection :=
  mkTCPConnection (_cfg c) (update_stream_out set_error (_receiver c)) (update_stream (set_error (stream_in (_sender c))) (_sender c))
    (_segments_out c) (_linger_after_streams_finish c) false 0.

Lemma segment_received_rst seg c : rst (header seg) = true -> segment_received seg c = Some (failed c).
Proof. intros Hr. unfold segment_received. by rewrite Hr. Qed.

Lemma respond_emits seg c :
  quiet c ->
  exists new, emits c (respond seg c) new /\ (0 < length_in_sequence_space seg -> new <> []) /\
    (ack (header seg) = false -> length_in_sequence_space seg = 0 -> respond seg c = c).
Proof.
  intros Hq. unfold respond.
  set (c1 := if ack (header seg) then _ else c).
  assert (exists n1, emits c c1 n1) as [n1 H1].
  { subst c1. destruct (ack (header seg)); [|by exists []; apply emits_refl].
    pose proof (send_segments_out_emits (ack_received (TCPSegment.ackno (header seg)) (win (header seg)) (_sender c)) c) as Hs.
    destruct (send_segments_out _) as [b c1]. destruct Hs as (He & _). by eexists. }
  destruct (Z.ltb_spec 0 (length_in_sequence_space seg)) as [Hl|Hl].
  2: { exists n1. split_and!; [done|lia|]. intros Ha _. subst c1. by rewrite Ha. }
  pose proof (send_segments_out_emits (fill_window (_sender c1)) c1) as Hs.
  destruct (send_segments_out (set_sender (fill_window (_sender c1)) c1)) as [b c2]. destruct Hs as (H2 & -> & Es).
  destruct (TCPSender._segments_out (fill_window (_sender c1))) as [|x q] eqn:Ef; cbn [nonempty negb].
  - pose proof (send_segments_out_emits (send_empty_segment (_sender c2)) c2) as Hs.
    destruct (send_segments_out (set_sender (send_empty_segment (_sender c2)) c2)) as [b c3]. destruct Hs as (H3 & _).
    assert (TCPSender._segments_out (send_empty_segment (_sender c2)) =
      [set_seqno (wrap (_next_seqno (_sender c2)) (_isn (_sender c2))) TCPSegment_default]) as E3.
    { unfold send_empty_segment. cbn [set_segments_out TCPSender._segments_out]. by rewrite (em_quiet _ _ _ H2). }
    rewrite E3 in H3. eexists. split; [exact (emits_trans _ _ _ _ _ H1 (emits_trans _ _ _ _ _ H2 H3))|].
    split; [intros _ E; by apply app_eq_nil in E as [_ E]|lia].
  - eexists. split; [exact (emits_trans _ _ _ _ _ H1 H2)|]. split; [intros _ E; by apply app_eq_nil in E as [_ E]|lia].
Qed.

(** ** Runs of a connection *)

Inductive runs (cfg : TCPConfig) (random_isn : Z) : TCPConnection -> Prop :=
  | runs_init : runs cfg random_isn (TCPConnection_of cfg random_isn)
  | runs_connect c : runs cfg random_isn c -> runs cfg random_isn (connect c)
  | runs_write data c : runs cfg random_isn c -> runs cfg random_isn (write data c).2
  | runs_end c : runs cfg random_isn c -> runs cfg random_isn (end_input_stream c)
  | runs_recv seg c c' : runs cfg random_isn c -> segment_received seg c = Some c' -> runs cfg random_isn c'
  | runs_tick ms c c' : runs cfg random_isn c -> tick ms c = Some c' -> runs cfg random_isn c'
  | runs_read n c : runs cfg random_isn c -> 0 <= n ->
      runs cfg random_isn (set_receiver (update_stream_out (pop_output n) (_receiver c)) c)
  | runs_take seg q c : runs cfg random_isn c -> _segments_out c = seg :: q -> runs cfg random_isn (set_out q c).

Lemma segment_received_quiet seg c c' : quiet c -> segment_received seg c = Some c' -> quiet c'.
Proof.
  intros Hq. destruct (rst (header seg)) eqn:Hr.
  - rewrite segment_received_rst by done. by intros [= <-].
  - rewrite segment_received_eq by done. destruct (TCPReceiver.segment_received _ _) as [r|]; [|done]. intros [= <-].
    destruct (respond_emits seg (after_receiver r c)) as (new & He & _); [|by destruct He].
    unfold after_receiver. by destruct (_ && _).
Qed.

Lemma send_rst_eq c :
  quiet c ->
  let seg := set_rst (set_seqno (wrap (_next_seqno (_sender c)) (_isn (_sender c))) TCPSegment_default) in
  send_rst c = segment_received seg (set_out (_segments_out c ++ [seg]) c).
Proof.
  intros Hq seg. unfold send_rst, send_empty_segment, read_a_segment. cbn [set_segments_out TCPSender._segments_out].
  unfold quiet in Hq. rewrite Hq. cbn [app]. fold seg.
  change (set_segments_out [] (set_segments_out _ (_sender c))) with (set_segments_out [] (_sender c)).
  rewrite set_segments_out_id by done. by destruct c.
Qed.

(** [tick] up to the test of the retransmissions, and its last statement. *)
Definition ticked (ms : Z) (c : TCPConnection) : TCPConnection :=
  let s := TCPSender.tick ms (_sender c) in
  mkTCPConnection (_cfg c) (_receiver c) (set_segments_out [] s)
    (_segments_out c ++ map (stamp (_receiver c)) (TCPSender._segments_out s))
    (_linger_after_streams_finish c) (_active c) (u64 (_last_tick_time c + ms)).

Definition settle (c : TCPConnection) : TCPConnection :=
  if check_inbound_ended c && check_outbound_ended c
  then set_active (_linger_after_streams_finish c && (_last_tick_time c <? 10 * rt_timeout (_cfg c))) c
  else c.

Lemma tick_eq ms c :
  tick ms c =
  Some (settle (if MAX_RETX_ATTEMPTS <? consecutive_retransmissions (TCPSender.tick ms (_sender c))
                then failed (set_out [set_rst (set_seqno (next_seqno (TCPSender.tick ms (_sender c))) TCPSegment_default)] (ticked ms c))
                else ticked ms c)).
Proof.
  assert (forall c2, (if check_inbound_ended c2 && check_outbound_ended c2
    then Some (set_active (negb (negb (_linger_after_streams_finish c2) || (10 * rt_timeout (_cfg c2) <=? _last_tick_time c2))) c2)
    else Some c2) = Some (settle c2)) as Hs.
  { intros c2. unfold settle. destruct (_ && _); [|done].
    by rewrite negb_orb, negb_involutive, Z.leb_antisym, negb_involutive. }
  unfold tick. cbv zeta. rewrite send_segments_out_eq. cbn [fst snd].
  change (set_out _ (set_sender _ _)) with (ticked ms c).
  change (consecutive_retransmissions (_sender (ticked ms c))) with (consecutive_retransmissions (TCPSender.tick ms (_sender c))).
  destruct (MAX_RETX_ATTEMPTS <? _); [|apply Hs].
  rewrite send_rst_eq, segment_received_rst by done. apply Hs.
Qed.

Lemma tick_quiet ms c c' : tick ms c = Some c' -> quiet c'.
Proof. rewrite tick_eq. intros [= <-]. unfold settle. destruct (MAX_RETX_ATTEMPTS <? _), (_ && _); done. Qed.

Lemma runs_quiet cfg random_isn c : runs cfg random_isn c -> quiet c.
Proof.
  induction 1 as [|c _ IH|data c _ IH|c _ IH|seg c c' _ IH Hr|ms c c' _ IH Ht|n c _ IH _|seg q c _ IH Hq]; try done.
  - unfold connect. by rewrite send_segments_out_eq.
  - unfold write. destruct (_ =? 0); [done|]. destruct (ByteStream.write _ _). simpl. by rewrite send_segments_out_eq.
  - unfold end_input_stream. by rewrite send_segments_out_eq.
  - by eapply segment_received_quiet.
  - by eapply tick_quiet.
Qed.

(** ** What the connection promises *)


Definition cfg0 : TCPConfig := mkTCPConfig 1000 64000 64000 (Some isn1).
Definition conn0 : TCPConnection := TCPConnection_of cfg0 0.
Definition default_or (c : TCPConnection) (o : option TCPConnection) : TCPConnection := default c o.


(** A RST ends everything at once: both streams are marked as failed, the
    connection is inactive, and nothing is sent in reply. *)
Theorem rst_received seg c :
  rst (header seg) = true ->
  exists c', segment_received seg c = Some c' /\ active c' = false /\
    error (inbound_stream c') = true /\ error (stream_in (_sender c')) = true /\
    _segments_out c' = _segments_out c /\ state c' = TCPState_of_State RESET.
Proof. intros Hr. rewrite segment_received_rst by done. by eexists. Qed.

Lemma rst_received_witness :
  exists c', segment_received (set_rst syn_segment) (connect conn0) = Some c' /\ active c' = false /\
    error (inbound_stream c') = true /\ error (stream_in (_sender c')) = true /\
    _segments_out c' = _segments_out (connect conn0) /\ state c' = TCPState_of_State RESET.
Proof. by apply (rst_received (set_rst syn_segment) (connect conn0)). Defined.

(** C30: Giving up: when a tick brings the consecutive retransmissions above
    [MAX_RETX_ATTEMPTS], whatever was waiting to be sent is replaced by a single
    empty RST segment at the next sequence number, both streams are marked as
    failed and the connection is inactive. *)
Theorem tick_gives_up ms c :
  MAX_RETX_ATTEMPTS < consecutive_retransmissions (TCPSender.tick ms (_sender c)) -> bytes_in_flight c <> 0 ->
  exists c' seg, tick ms c = Some c' /\ _segments_out c' = [seg] /\ rst (header seg) = true /\
    seqno (header seg) = next_seqno (_sender c) /\ length_in_sequence_space seg = 0 /\
    active c' = false /\ state c' = TCPState_of_State RESET.
Proof.
  intros Hc Hb. rewrite tick_eq. destruct (Z.ltb_spec MAX_RETX_ATTEMPTS (consecutive_retransmissions (TCPSender.tick ms (_sender c)))); [|lia].
  destruct (tick_fields ms (_sender c)) as (Hi & _ & Hn & Hbf & _).
  unfold settle. set (c2 := failed _).
  assert (check_outbound_ended c2 = false) as ->.
  { unfold check_outbound_ended. change (TCPSender.bytes_in_flight (_sender c2)) with (bytes_in_flight_ (TCPSender.tick ms (_sender c))).
    rewrite Hbf. unfold bytes_in_flight, TCPSender.bytes_in_flight in Hb. destruct (Z.eqb_spec (bytes_in_flight_ (_sender c)) 0); [done|].
    apply andb_false_r. }
  rewrite andb_false_r. eexists _, _. split_and!; try done. unfold next_seqno. by rewrite <- Hi, <- Hn.
Qed.

Definition tired : TCPConnection := Nat.iter 8 (fun c => default_or c (tick 300000 c)) (connect conn0).

Lemma tick_gives_up_witness :
  exists c' seg, tick 300000 tired = Some c' /\ _segments_out c' = [seg] /\ rst (header seg) = true /\
    seqno (header seg) = next_seqno (_sender tired) /\ length_in_sequence_space seg = 0 /\
    active c' = false /\ state c' = TCPState_of_State RESET.
Proof. apply (tick_gives_up 300000 tired); by vm_compute. Defined.

(** A tick of a sender with nothing outstanding only moves its clock. *)
Lemma idle_tick ms s :
  _outstanding_segments s = [] ->
  consecutive_retransmissions (TCPSender.tick ms s) = consecutive_retransmissions s /\
  TCPSender._segments_out (TCPSender.tick ms s) = TCPSender._segments_out s.
Proof. intros Hq. unfold TCPSender.tick. destruct (negb _); [done|]. by rewrite Hq. Qed.

Lemma idle_tick_eq ms c :
  quiet c -> _outstanding_segments (_sender c) = [] -> consecutive_retransmissions (_sender c) <= MAX_RETX_ATTEMPTS ->
  check_inbound_ended c = true -> check_outbound_ended c = true ->
  exists c', tick ms c = Some c' /\ _segments_out c' = _segments_out c /\
    active c' = _linger_after_streams_finish c && (u64 (_last_tick_time c + ms) <? 10 * rt_timeout (_cfg c)).
Proof.
  intros Hq HQ Hr Hi Ho. destruct (idle_tick ms _ HQ) as [Hc Hso]. rewrite tick_eq, Hc.
  destruct (Z.ltb_spec MAX_RETX_ATTEMPTS (consecutive_retransmissions (_sender c))); [lia|].
  destruct (tick_fields ms (_sender c)) as (_ & _ & Hn & Hb & _ & _ & Hst & _).
  assert (check_outbound_ended (ticked ms c) = true) as Ho'.
  { rewrite <- Ho. unfold check_outbound_ended, stream_in, next_seqno_absolute, TCPSender.bytes_in_flight. simpl. by rewrite Hst, Hn, Hb. }
  eexists. split; [done|]. unfold settle. change (check_inbound_ended (ticked ms c)) with (check_inbound_ended c).
  rewrite Hi, Ho'. simpl. rewrite Hso, Hq, app_nil_r. done.
Qed.

(** C31: Clean shutdown.  When both streams have ended and nothing is
    outstanding, a tick decides whether the connection stays up: one that does
    not have to linger goes down, one that has to stays up as long as less than
    ten initial timeouts have passed since the last segment, and nothing is sent. *)
Theorem tick_shuts_down ms cfg random_isn c :
  runs cfg random_isn c -> _outstanding_segments (_sender c) = [] ->
  consecutive_retransmissions (_sender c) <= MAX_RETX_ATTEMPTS ->
  check_inbound_ended c = true -> check_outbound_ended c = true -> 0 <= ms -> 0 <= _last_tick_time c ->
  _last_tick_time c + ms < 2 ^ 64 ->
  exists c', tick ms c = Some c' /\ _segments_out c' = _segments_out c /\
    active c' = _linger_after_streams_finish c && (time_since_last_segment_received c + ms <? 10 * rt_timeout (_cfg c)).
Proof.
  intros Hr HQ Hc Hi Ho H1 H2 H3. apply runs_quiet in Hr. destruct (idle_tick_eq ms c) as (c' & Ht & Hs & Ha); try done.
  exists c'. rewrite u64_small in Ha by lia. done.
Qed.

(** A segment of the peer with an acknowledgment. *)
Definition stamp_ack (n : WrappingInt32) (seg : TCPSegment) : TCPSegment :=
  let h := header seg in
  mkTCPSegment (mkTCPHeader (sport h) (dport h) (seqno h) n (doff h) (urg h) true (psh h) (rst h) (syn h) (fin h)
    1000 (cksum h) (uptr h)) (payload seg).

(** A connection that has opened and closed actively: both streams are ended. *)
Definition conn1 : TCPConnection := default_or conn0 (segment_received (stamp_ack (wrap 1 isn1) syn_segment) (connect conn0)).
Definition conn2 : TCPConnection := end_input_stream conn1.
Definition conn3 : TCPConnection := default_or conn0 (segment_received (stamp_ack (wrap 2 isn1) (data_segment 0 [] true)) conn2).

Lemma conn3_runs : runs cfg0 0 conn3.
Proof.
  eapply (runs_recv _ _ (stamp_ack (wrap 2 isn1) (data_segment 0 [] true)) conn2); [|by vm_compute].
  apply runs_end. eapply (runs_recv _ _ (stamp_ack (wrap 1 isn1) syn_segment) (connect conn0)); [|by vm_compute].
  apply runs_connect, runs_init.
Qed.

Lemma tick_shuts_down_witness :
  exists c', tick 9999 conn3 = Some c' /\ _segments_out c' = _segments_out conn3 /\
    active c' = _linger_after_streams_finish conn3 && (time_since_last_segment_received conn3 + 9999 <? 10 * rt_timeout (_cfg conn3)).
Proof. apply (tick_shuts_down 9999 cfg0 0 conn3); [apply conn3_runs|by vm_compute..]. Defined.

(** ** Where the connection misbehaves *)

(** A reset connection comes back to life: if a RST arrives while the
    connection lingers after both streams have ended, it becomes inactive as it
    should, but the next tick within ten timeouts makes it active again. *)
Theorem reset_revived ms seg cfg random_isn c :
  runs cfg random_isn c -> _outstanding_segments (_sender c) = [] ->
  consecutive_retransmissions (_sender c) <= MAX_RETX_ATTEMPTS ->
  check_inbound_ended c = true -> check_outbound_ended c = true -> _linger_after_streams_finish c = true ->
  rst (header seg) = true -> 0 <= ms < 10 * rt_timeout (_cfg c) -> ms < 2 ^ 64 ->
  exists c1 c2, segment_received seg c = Some c1 /\ active c1 = false /\ tick ms c1 = Some c2 /\
    active c2 = true /\ error (inbound_stream c2) = true.
Proof.
  intros Hr HQ Hc Hi Ho Hl Hrst Hms H64. apply runs_quiet in Hr. exists (failed c).
  destruct (idle_tick_eq ms (failed c)) as (c2 & Ht & Hs & Ha); try done.
  exists c2. rewrite segment_received_rst, Ht by done. split_and!; try done.
  - rewrite Ha. cbn [failed _linger_after_streams_finish _last_tick_time _cfg]. rewrite Hl, u64_small by lia.
    by destruct (Z.ltb_spec (0 + ms) (10 * rt_timeout (_cfg c))); [|lia].
  - rewrite tick_eq in Ht. injection Ht as <-. unfold settle.
    destruct (MAX_RETX_ATTEMPTS <? _), (check_inbound_ended _ && check_outbound_ended _); done.
Qed.

Lemma reset_revived_witness :
  exists c1 c2, segment_received (set_rst syn_segment) conn3 = Some c1 /\ active c1 = false /\ tick 10 c1 = Some c2 /\
    active c2 = true /\ error (inbound_stream c2) = true.
Proof. apply (reset_revived 10 (set_rst syn_segment) cfg0 0 conn3); [apply conn3_runs|by vm_compute..]. Defined.

(** A stray segment opens a listening connection: to any segment without
    SYN, ACK and RST that carries data, a fresh connection (which has not seen a
    SYN and was not told to connect) answers with a SYN of its own and is then
    in state SYN_SENT. *)
Theorem stray_segment_opens cfg random_isn seg :
  rst (header seg) = false -> syn (header seg) = false -> ack (header seg) = false -> 0 < length_in_sequence_space seg ->
  exists c' out, segment_received seg (TCPConnection_of cfg random_isn) = Some c' /\
    _segments_out c' = [out] /\ syn (header out) = true /\ ack (header out) = false /\
    state c' = TCPState_of_State SYN_SENT.
Proof.
  intros Hr Hs Ha Hl. rewrite segment_received_eq by done.
  unfold TCPReceiver.segment_received. cbn [TCPConnection_of TCPReceiver_of _receiver first_segment]. rewrite Hs. cbn [andb negb].
  unfold respond. rewrite Ha. destruct (Z.ltb_spec 0 (length_in_sequence_space seg)); [|lia].
  rewrite send_segments_out_eq. by eexists _, _.
Qed.

Lemma stray_segment_opens_witness :
  exists c' out, segment_received (set_seqno isn0 (mkTCPSegment TCPHeader_default (Buffer_of (lit "junk")))) conn0 = Some c' /\
    _segments_out c' = [out] /\ syn (header out) = true /\ ack (header out) = false /\
    state c' = TCPState_of_State SYN_SENT.
Proof.
  by apply (stray_segment_opens cfg0 0 (set_seqno isn0 (mkTCPSegment TCPHeader_default (Buffer_of (lit "junk"))))).
Defined.

(** The advertised window wraps around: a connection whose receive capacity
    does not fit in 16 bits announces the capacity modulo 65536 (zero for a
    capacity of 65536), not the largest window the header can express. *)
Theorem window_wraps cfg random_isn :
  0 <= recv_capacity cfg < 2 ^ 64 ->
  exists out, _segments_out (connect (TCPConnection_of cfg random_isn)) = [out] /\
    syn (header out) = true /\ win (header out) = recv_capacity cfg mod 65536.
Proof.
  intros Hc. unfold connect. rewrite send_segments_out_eq. eexists. split; [done|]. split; [done|].
  cbn. unfold window_size. cbn. rewrite Z.sub_0_r, u64_small by lia. done.
Qed.

Lemma window_wraps_witness :
  exists out, _segments_out (connect (TCPConnection_of (mkTCPConfig 1000 65536 64000 (Some isn1)) 0)) = [out] /\
    syn (header out) = true /\ win (header out) = 0.
Proof. apply (window_wraps (mkTCPConfig 1000 65536 64000 (Some isn1)) 0). simpl. lia. Defined.
