(* ===== verification/ConnectionStreams.v ===== *)
(** The two byte streams of a connection stay in order, whatever segments
    arrive: both are well formed and have the capacities of the configuration. *)
From S2P Require Import Prelude WrappingIntegers Buffer ByteStream StreamReassembler TCPSegment TCPReceiver TCPSender TCPState TCPConnection.

Definition sound (cap : Z) (o : ByteStream) : Prop := ByteStream.wf o /\ ByteStream._capacity o = cap.

Lemma sound_write cap data o : sound cap o -> sound cap (ByteStream.write data o).2.
Proof.
  intros [Hw Hc]. split; [by apply wf_write|]. unfold ByteStream.write. case_match; [done|]. simpl. by rewrite write_loop_eq.
Qed.

Lemma sound_end cap o : sound cap o -> sound cap (end_input o).
Proof. intros [Hw Hc]. split; [by apply wf_end_input|done]. Qed.

Lemma sound_error cap o : sound cap o -> sound cap (set_error o).
Proof. intros [Hw Hc]. split; [by apply wf_set_error|done]. Qed.

Lemma sound_pop cap n o : 0 <= n -> sound cap o -> sound cap (pop_output n o).
Proof. intros Hn [Hw Hc]. split; [by apply wf_pop|done]. Qed.

Lemma sound_read cap n o : 0 <= n -> sound cap o -> sound cap (ByteStream.read n o).2.
Proof. intros Hn [Hw Hc]. split; [by apply wf_read_op|]. unfold ByteStream.read. by destruct (n =? 0). Qed.

(** ** The receiver *)

Lemma receiver_sound cap seg r r' :
  TCPReceiver.segment_received seg r = Some r' -> sound cap (receiver_stream_out r) -> sound cap (receiver_stream_out r').
Proof.
  unfold TCPReceiver.segment_received. intros E Hs. destruct (first_segment r && negb _); [by injection E as <-|].
  set (r1 := if first_segment r && syn (header seg) then _ else r) in E.
  assert (sound cap (receiver_stream_out r1)) as H1 by (subst r1; by destruct (first_segment r && syn (header seg))).
  destruct ((abs_seqno r1 =? 1) && _); [by injection E as <-|].
  destruct (push _ _ _ _) as [s|] eqn:Ep; [|done].
  apply (push_keeps (sound cap)) in Ep; [|apply sound_write|apply sound_end|exact H1].
  destruct (negb _); by injection E as <-.
Qed.

(** ** The sender *)

Lemma fill_loop_sound cap fuel seg w s :
  sound cap (TCPSender._stream s) -> 0 <= w -> sound cap (TCPSender._stream (fill_loop fuel seg w s)).
Proof.
  revert seg w s. induction fuel as [|fuel IH]; intros seg w s Hs Hw; [done|]. cbn [fill_loop].
  destruct (_ && _); [|done].
  assert (0 <= Z.min (buffer_size (TCPSender._stream s)) (Z.min w MAX_PAYLOAD_SIZE)) as Hp.
  { destruct Hs as [Hwf _]. unfold buffer_size. rewrite (wf_size _ Hwf). unfold MAX_PAYLOAD_SIZE. lia. }
  pose proof (sound_read cap _ _ Hp Hs) as Hr. destruct (ByteStream.read _ _) as [data st]. simpl in Hr.
  destruct (ByteStream.eof _ && _); apply IH; try done; apply u64_range.
Qed.

Lemma fill_window_sound cap s :
  sound cap (TCPSender._stream s) -> sound cap (TCPSender._stream (fill_window s)).
Proof.
  intros Hs. unfold fill_window. destruct (fin_sent s); [done|]. destruct (_ =? 0); [done|].
  destruct (_ <=? _); [done|]. destruct (ByteStream.eof _); [done|]. apply fill_loop_sound; [done|apply u64_range].
Qed.

Lemma ack_loop_stream fuel a b s : TCPSender._stream (ack_loop fuel a b s).2 = TCPSender._stream s.
Proof.
  revert b s. induction fuel as [|fuel IH]; intros b s; [done|]. cbn [ack_loop]. destruct (_outstanding_segments s); [done|].
  destruct (a <? _); [done|]. rewrite IH. by destruct b.
Qed.

Lemma ack_received_sound cap an w s :
  sound cap (TCPSender._stream s) -> sound cap (TCPSender._stream (ack_received an w s)).
Proof.
  intros Hs. unfold ack_received. destruct (_ || _); [done|].
  pose proof (ack_loop_stream (length (_outstanding_segments (set_confirmed (unwrap an (_isn s) (_next_seqno s)) w s)))
    (unwrap an (_isn s) (_next_seqno s)) false (set_confirmed (unwrap an (_isn s) (_next_seqno s)) w s)) as E.
  destruct (ack_loop _ _ _ _) as [[ret ack] s1]. simpl in E.
  assert (sound cap (TCPSender._stream s1)) as H1 by (by rewrite E).
  destruct ret; [done|]. destruct ack; [by apply fill_window_sound|done].
Qed.

Lemma tick_stream ms s : TCPSender._stream (TCPSender.tick ms s) = TCPSender._stream s.
Proof. unfold TCPSender.tick. destruct (negb _); [done|]. destruct (_outstanding_segments s); [done|]. by destruct (_ <=? _). Qed.

(** ** The connection *)

Definition streams_sound (c : TCPConnection) : Prop :=
  sound (send_capacity (_cfg c)) (stream_in (_sender c)) /\ sound (recv_capacity (_cfg c)) (inbound_stream c).

Lemma send_segments_out_sound s c :
  _cfg (send_segments_out (set_sender s c)).2 = _cfg c /\
  stream_in (_sender (send_segments_out (set_sender s c)).2) = stream_in s /\
  inbound_stream (send_segments_out (set_sender s c)).2 = inbound_stream c.
Proof. by rewrite send_segments_out_eq. Qed.

Lemma set_sender_sound s c :
  streams_sound c -> sound (send_capacity (_cfg c)) (stream_in s) -> streams_sound (send_segments_out (set_sender s c)).2.
Proof.
  intros [_ Hi] Hs. destruct (send_segments_out_sound s c) as (E1 & E2 & E3). unfold streams_sound. by rewrite E1, E2, E3.
Qed.

Lemma respond_sound seg c : streams_sound c -> streams_sound (respond seg c).
Proof.
  intros Hc. unfold respond.
  set (c1 := if ack (header seg) then _ else c).
  assert (streams_sound c1) as H1.
  { subst c1. destruct (ack (header seg)); [|done]. apply set_sender_sound; [done|]. apply ack_received_sound. by destruct Hc. }
  destruct (0 <? _); [|done].
  pose proof (set_sender_sound (fill_window (_sender c1)) c1 H1) as H2.
  destruct (send_segments_out (set_sender (fill_window (_sender c1)) c1)) as [b c2]. simpl in H2.
  specialize (H2 (fill_window_sound _ _ (proj1 H1))). destruct b; [done|]. apply set_sender_sound; [done|]. by destruct H2.
Qed.

Lemma segment_received_sound seg c c' : streams_sound c -> segment_received seg c = Some c' -> streams_sound c'.
Proof.
  intros [Ho Hi]. destruct (rst (header seg)) eqn:Hr.
  - rewrite segment_received_rst by done. intros [= <-]. split; by apply sound_error.
  - rewrite segment_received_eq by done. destruct (TCPReceiver.segment_received seg (_receiver c)) as [r|] eqn:E; [|done].
    intros [= <-]. apply respond_sound. apply (receiver_sound (recv_capacity (_cfg c))) in E; [|exact Hi].
    unfold after_receiver. by destruct (_ && _).
Qed.

Lemma tick_sound ms c c' : streams_sound c -> tick ms c = Some c' -> streams_sound c'.
Proof.
  intros [Ho Hi]. rewrite tick_eq. intros [= <-]. unfold settle.
  assert (forall d, streams_sound d -> streams_sound (if check_inbound_ended d && check_outbound_ended d
    then set_active (_linger_after_streams_finish d && (_last_tick_time d <? 10 * rt_timeout (_cfg d))) d else d)) as Hset.
  { intros d Hd. by destruct (_ && _). }
  apply Hset. assert (streams_sound (ticked ms c)) as Ht.
  { split; [|done]. unfold ticked. cbn [_sender _cfg]. unfold stream_in. cbn [set_segments_out TCPSender._stream]. by rewrite tick_stream. }
  destruct (MAX_RETX_ATTEMPTS <? _); [|done]. destruct Ht. split; by apply sound_error.
Qed.

Lemma write_sound data c : streams_sound c -> streams_sound (write data c).2.
Proof.
  intros Hc. unfold write. destruct (len data =? 0); [done|].
  pose proof (sound_write _ data _ (proj1 Hc)) as Hw. destruct (ByteStream.write data _) as [n st]. simpl in Hw |- *.
  apply set_sender_sound; [done|]. by apply fill_window_sound.
Qed.

Lemma runs_sound cfg random_isn c :
  0 <= send_capacity cfg < 2 ^ 64 -> 0 <= recv_capacity cfg < 2 ^ 64 -> runs cfg random_isn c -> streams_sound c.
Proof.
  intros Hs Hr. induction 1 as [|c _ IH|data c _ IH|c _ IH|seg c c' _ IH E|ms c c' _ IH E|n c _ IH Hn|seg q c _ IH Hq].
  - split; (split; [by apply wf_init|done]).
  - apply set_sender_sound; [done|]. apply fill_window_sound. by destruct IH.
  - by apply write_sound.
  - unfold end_input_stream. apply set_sender_sound; [done|]. apply fill_window_sound. apply sound_end. by destruct IH.
  - by eapply segment_received_sound.
  - by eapply tick_sound.
  - destruct IH as [Ho Hi]. split; [done|]. by apply sound_pop.
  - done.
Qed.
