(* ===== verification/Handshake.v ===== *)
(** Opening a connection: the three-way handshake between two [TCPConnection]s,
    for all initial sequence numbers and configurations. *)
From S2P Require Import Prelude WrappingIntegers Buffer ByteStream StreamReassembler TCPSegment TCPReceiver TCPSender TCPState TCPConnection.

(** ** The receiver *)

(** A receiver that has the peer's SYN and nothing else. *)
Definition opened (cap : Z) (isn : WrappingInt32) : TCPReceiver :=
  mkTCPReceiver (StreamReassembler_of cap) cap 1 isn false.

Lemma push_nothing cap : 0 <= cap < 2 ^ 63 -> push [] 0 false (StreamReassembler_of cap) = Some (StreamReassembler_of cap).
Proof.
  intros Hc. unfold push, enough.
  assert (remaining_capacity (ByteStream_of cap) = cap) as Hr.
  { unfold remaining_capacity. simpl. rewrite Z.sub_0_r. apply u64_small. lia. }
  assert (good_case [] (StreamReassembler_of cap) = StreamReassembler_of cap) as Hg.
  { unfold good_case, ByteStream.write. simpl. rewrite Hr, orb_true_r. change (Z.of_nat 0) with 0. by destruct (Z.ltb_spec cap 0); [lia|]. }
  cbn [push_substring StreamReassembler_of temporarily_descrete_data_storage length _output _next_assembling_index].
  rewrite Hr. destruct (Z.eqb_spec cap 0); [done|].
  fold (StreamReassembler_of cap). rewrite Hg.
  assert (u64 (StreamReassembler._capacity (StreamReassembler_of cap) + first_unassemble_byte_index (StreamReassembler_of cap)) = cap) as E.
  { simpl. rewrite Z.add_0_r. apply u64_small. lia. }
  rewrite E. cbn [first_unassemble_byte_index StreamReassembler_of temporarily_descrete_data_storage Z.leb Z.compare].
  by destruct (Z.leb_spec cap 0); [lia|].
Qed.

Lemma syn_opens cap seg :
  0 <= cap < 2 ^ 63 -> WrappingIntegers.wf (seqno (header seg)) -> syn (header seg) = true -> fin (header seg) = false ->
  str (payload seg) = [] ->
  TCPReceiver.segment_received seg (TCPReceiver_of cap) = Some (opened cap (seqno (header seg))).
Proof.
  intros Hc Hw Hs Hf Hp. unfold TCPReceiver.segment_received, copy, TCPReceiver_of.
  cbn [first_segment]. rewrite Hs, Hp, Hf. cbn [andb negb ISN abs_seqno _reassembler TCPReceiver._capacity first_segment].
  assert (unwrap (seqno (header seg)) (seqno (header seg)) 0 = 0) as E.
  { rewrite <- (wrap_0 (seqno (header seg)) Hw) at 1. by apply unwrap_wrap_near; lia. }
  rewrite E. cbn [Z.eqb Z.ltb Z.compare andb]. by rewrite push_nothing.
Qed.

Lemma ack_ignored cap isn seg :
  0 <= cap < 2 ^ 63 -> seqno (header seg) = wrap 1 isn -> syn (header seg) = false -> fin (header seg) = false ->
  str (payload seg) = [] -> TCPReceiver.segment_received seg (opened cap isn) = Some (opened cap isn).
Proof.
  intros Hc Hq Hs Hf Hp. unfold TCPReceiver.segment_received, copy, opened.
  cbn [first_segment]. rewrite Hs, Hp, Hf. cbn [andb negb ISN abs_seqno _reassembler TCPReceiver._capacity first_segment].
  rewrite Hq, unwrap_wrap_near by lia. cbn [Z.eqb Pos.eqb Z.ltb Z.compare Pos.compare Pos.compare_cont andb Z.sub].
  change (u64 (1 - 1)) with 0. by rewrite push_nothing.
Qed.

(** ** The sender *)

(** A sender that has sent its SYN, with the segments [q] queued. *)
Definition syn_of (isn : WrappingInt32) : TCPSegment := set_seqno (wrap 0 isn) (set_syn TCPSegment_default).

Definition syn_sent (cap rto : Z) (isn : WrappingInt32) (q : list TCPSegment) : TCPSender :=
  mkTCPSender isn q [syn_of isn] rto rto 0 true 0 (ByteStream_of cap) 1 0 false 1 0.

Definition syn_acked (cap rto : Z) (isn : WrappingInt32) (w : Z) (timing : bool) : TCPSender :=
  mkTCPSender isn [] [] rto rto 0 timing 0 (ByteStream_of cap) 1 1 false 0 w.

Lemma fill_window_syn cap rto isn r :
  fill_window (TCPSender_of cap rto (Some isn) r) = syn_sent cap rto isn [syn_of isn].
Proof. done. Qed.

Lemma fill_window_waits cap rto isn : fill_window (syn_sent cap rto isn []) = syn_sent cap rto isn [].
Proof. done. Qed.

Lemma fill_window_empty cap rto isn w t :
  0 <= w < 2 ^ 16 -> fill_window (syn_acked cap rto isn w t) = syn_acked cap rto isn w t.
Proof.
  intros Hw. unfold fill_window. cbn [syn_acked fin_sent _next_seqno Z.eqb _confirmed_seqno _receiver_window_size TCPSender._stream].
  destruct (Z.eqb_spec w 0); unwrap_uint; (destruct (Z.leb_spec (1 + (if w =? 0 then 1 else w)) 1) as [H|H] || idtac).
  all: repeat zcase; done || lia.
Qed.

Lemma syn_acknowledged cap rto isn w :
  0 <= w < 2 ^ 16 -> ack_received (wrap 1 isn) w (syn_sent cap rto isn []) = syn_acked cap rto isn w false.
Proof.
  intros Hw. set (s1 := set_confirmed 1 w (syn_sent cap rto isn [])).
  assert (front_seg_outstanding_ackno s1 = 1) as Hf.
  { change (u64 (unwrap (wrap 0 isn) isn 1 + 1) = 1). by rewrite unwrap_wrap_near by lia. }
  unfold ack_received. change (unwrap (wrap 1 isn) (_isn (syn_sent cap rto isn [])) (_next_seqno (syn_sent cap rto isn [])))
    with (unwrap (wrap 1 isn) isn 1).
  rewrite unwrap_wrap_near by lia. cbn [syn_sent _next_seqno _confirmed_seqno Z.ltb Z.compare Pos.compare Pos.compare_cont orb].
  fold (syn_sent cap rto isn []). fold s1. cbv zeta.
  change (length (_outstanding_segments s1)) with 1%nat. cbn [ack_loop]. change (_outstanding_segments s1) with [syn_of isn].
  rewrite Hf. cbn [Z.ltb Z.compare Pos.compare Pos.compare_cont negb].
  change (pop_outstanding (restart_timer s1)) with (syn_acked cap rto isn w true).
  by rewrite fill_window_empty.
Qed.

(** ** The handshake *)

(** The owner takes the segments of a connection's queue. *)
Definition sent_off (c : TCPConnection) : TCPConnection := set_out [] c.

Definition pure_ack_of (isn peer : WrappingInt32) (w : Z) (seg : TCPSegment) : Prop :=
  seqno (header seg) = wrap 1 isn /\ ack (header seg) = true /\ TCPSegment.ackno (header seg) = wrap 1 peer /\
  win (header seg) = w /\ length_in_sequence_space seg = 0.

Lemma window_opened cap isn : 0 <= cap < 2 ^ 63 -> window_size (opened cap isn) = cap.
Proof. intros Hc. unfold window_size, opened. simpl. rewrite Z.sub_0_r. apply u64_small. lia. Qed.

(** The three connections of an opening, as states. *)
Definition in_syn_sent (c : TCPConfig) (isn : WrappingInt32) (q : list TCPSegment) : TCPConnection :=
  mkTCPConnection c (TCPReceiver_of (recv_capacity c)) (syn_sent (send_capacity c) (rt_timeout c) isn []) q true true 0.

Definition in_syn_rcvd (c : TCPConfig) (isn peer : WrappingInt32) (q : list TCPSegment) : TCPConnection :=
  mkTCPConnection c (opened (recv_capacity c) peer) (syn_sent (send_capacity c) (rt_timeout c) isn []) q true true 0.

Definition established (c : TCPConfig) (isn peer : WrappingInt32) (w : Z) (q : list TCPSegment) : TCPConnection :=
  mkTCPConnection c (opened (recv_capacity c) peer) (syn_acked (send_capacity c) (rt_timeout c) isn w false) q true true 0.

Lemma connect_sends_syn c isn r :
  fixed_isn c = Some isn ->
  connect (TCPConnection_of c r) = in_syn_sent c isn [stamp (TCPReceiver_of (recv_capacity c)) (syn_of isn)].
Proof. intros E. unfold connect, TCPConnection_of. rewrite E. by rewrite send_segments_out_eq. Qed.

Lemma listener_answers_syn c isn peer r seg :
  fixed_isn c = Some isn -> 0 <= recv_capacity c < 2 ^ 63 -> WrappingIntegers.wf peer ->
  seg = stamp r (syn_of peer) -> TCPReceiver.ackno r = None -> seqno (header seg) = peer ->
  forall n, segment_received seg (TCPConnection_of c n) =
    Some (in_syn_rcvd c isn peer [stamp (opened (recv_capacity c) peer) (syn_of isn)]).
Proof.
  intros E Hc Hw -> Hr Hq n. unfold stamp in Hq |- *. rewrite Hr in Hq |- *.
  rewrite segment_received_eq by done. unfold TCPConnection_of at 1. cbn [_receiver].
  rewrite syn_opens by (try done; by rewrite Hq). rewrite Hq.
  unfold respond, after_receiver, TCPConnection_of. rewrite E. reflexivity.
Qed.

Lemma syn_ack_establishes c isn peer cap w seg :
  0 <= recv_capacity c < 2 ^ 63 -> 0 <= cap < 2 ^ 63 -> WrappingIntegers.wf peer -> w = u16 cap ->
  seg = stamp (opened cap isn) (syn_of peer) -> seqno (header seg) = peer ->
  segment_received seg (in_syn_sent c isn []) =
    Some (established c isn peer w [stamp (opened (recv_capacity c) peer) (set_seqno (wrap 1 isn) TCPSegment_default)]).
Proof.
  intros Hc Hcap Hw -> -> Hq. unfold stamp in Hq |- *. rewrite window_opened in Hq |- * by done.
  change (TCPReceiver.ackno (opened cap isn)) with (Some (wrap 1 isn)) in *.
  rewrite segment_received_eq by done. unfold in_syn_sent at 1. cbn [_receiver].
  rewrite syn_opens by (try done; by rewrite Hq). rewrite Hq.
  pose proof (syn_acknowledged (send_capacity c) (rt_timeout c) isn (u16 cap)) as Ha.
  unfold respond. cbn [ack header win TCPSegment.ackno].
  change (_sender (after_receiver (opened (recv_capacity c) peer) (in_syn_sent c isn [])))
    with (syn_sent (send_capacity c) (rt_timeout c) isn []).
  rewrite Ha by apply u16_range.
  match goal with |- context [(send_segments_out ?d).2] => change (send_segments_out d).2 with (established c isn peer (u16 cap) []) end.
  change (0 <? length_in_sequence_space _) with true. cbv iota.
  change (_sender (established c isn peer (u16 cap) [])) with (syn_acked (send_capacity c) (rt_timeout c) isn (u16 cap) false).
  rewrite fill_window_empty by apply u16_range. reflexivity.
Qed.

Lemma ack_establishes c isn peer cap w seg :
  0 <= recv_capacity c < 2 ^ 63 -> 0 <= cap < 2 ^ 63 -> w = u16 cap ->
  seg = stamp (opened cap isn) (set_seqno (wrap 1 peer) TCPSegment_default) ->
  segment_received seg (in_syn_rcvd c isn peer []) = Some (established c isn peer w []).
Proof.
  intros Hc Hcap -> ->. unfold stamp. rewrite window_opened by done.
  change (TCPReceiver.ackno (opened cap isn)) with (Some (wrap 1 isn)).
  rewrite segment_received_eq by done. unfold in_syn_rcvd at 1. cbn [_receiver].
  rewrite ack_ignored by done.
  pose proof (syn_acknowledged (send_capacity c) (rt_timeout c) isn (u16 cap)) as Ha.
  unfold respond. cbn [ack header win TCPSegment.ackno].
  change (_sender (after_receiver (opened (recv_capacity c) peer) (in_syn_rcvd c isn peer [])))
    with (syn_sent (send_capacity c) (rt_timeout c) isn []).
  rewrite Ha by apply u16_range. by rewrite send_segments_out_eq.
Qed.

(** C6: The three-way handshake.  One connection is told to connect and the
    other listens; each receives what the other sends.  For all initial sequence
    numbers, timeouts and capacities (up to [2^63]): the first sends a SYN and
    is in SYN_SENT; the second answers with SYN and ACK and is in SYN_RCVD; the
    first answers with a pure ACK and is ESTABLISHED; on receiving that the
    second is ESTABLISHED and sends nothing.  Each acknowledges exactly the
    other's SYN. *)
Theorem three_way_handshake ca cb a b ra rb :
  fixed_isn ca = Some a -> fixed_isn cb = Some b -> WrappingIntegers.wf a -> WrappingIntegers.wf b ->
  0 <= recv_capacity ca < 2 ^ 63 -> 0 <= recv_capacity cb < 2 ^ 63 ->
  exists syn1 syn2 ack3 B1 A2 B2,
    let A1 := connect (TCPConnection_of ca ra) in
    _segments_out A1 = [syn1] /\ syn (header syn1) = true /\ ack (header syn1) = false /\
    state A1 = TCPState_of_State SYN_SENT /\
    segment_received syn1 (TCPConnection_of cb rb) = Some B1 /\
    _segments_out B1 = [syn2] /\ syn (header syn2) = true /\ ack (header syn2) = true /\
    TCPSegment.ackno (header syn2) = wrap 1 a /\ state B1 = TCPState_of_State SYN_RCVD /\
    segment_received syn2 (sent_off A1) = Some A2 /\
    _segments_out A2 = [ack3] /\ pure_ack_of a b (u16 (recv_capacity ca)) ack3 /\
    state A2 = TCPState_of_State ESTABLISHED /\
    segment_received ack3 (sent_off B1) = Some B2 /\
    _segments_out B2 = [] /\ state B2 = TCPState_of_State ESTABLISHED.
Proof.
  intros Ea Eb Wa Wb Ca Cb. cbv zeta. rewrite (connect_sends_syn ca a ra Ea).
  pose proof (listener_answers_syn cb b a (TCPReceiver_of (recv_capacity ca)) _ Eb Cb Wa eq_refl eq_refl (wrap_0 a Wa) rb) as H1.
  pose proof (syn_ack_establishes ca a b (recv_capacity cb) _ _ Ca Cb Wb eq_refl eq_refl (wrap_0 b Wb)) as H2.
  pose proof (ack_establishes cb b a (recv_capacity ca) _ _ Cb Ca eq_refl eq_refl) as H3.
  eexists _, _, _, _, _, _. split; [reflexivity|]. do 2 (split; [reflexivity|]). split; [reflexivity|].
  split; [exact H1|]. do 4 (split; [reflexivity|]). split; [reflexivity|].
  split; [exact H2|]. split; [reflexivity|].
  split; [unfold pure_ack_of, stamp; by rewrite window_opened|]. split; [reflexivity|].
  split; [exact H3|]. by split.
Qed.

Definition cfg_a : TCPConfig := mkTCPConfig 1000 64000 64000 (Some (mkWrappingInt32 (2 ^ 32 - 1))).
Definition cfg_b : TCPConfig := mkTCPConfig 1000 70000 64000 (Some (mkWrappingInt32 7)).

Lemma three_way_handshake_witness :
  exists A2, (exists syn2, segment_received syn2 (sent_off (connect (TCPConnection_of cfg_a 0))) = Some A2) /\
    state A2 = TCPState_of_State ESTABLISHED.
Proof.
  assert (WrappingIntegers.wf (mkWrappingInt32 (2 ^ 32 - 1)) /\ WrappingIntegers.wf (mkWrappingInt32 7)) as [Wa Wb] by (split; by vm_compute).
  pose proof (three_way_handshake cfg_a cfg_b _ _ 0 0 eq_refl eq_refl Wa Wb ltac:(simpl; lia) ltac:(simpl; lia)) as H.
  destruct H as (s1 & s2 & a3 & B1 & A2 & B2 & _ & _ & _ & _ & _ & _ & _ & _ & _ & _ & H1 & _ & _ & H2 & _).
  exists A2. split; [exists s2; exact H1|exact H2].
Defined.
