(* ===== verification/Clock.v ===== *)
(** The clock of the stack: [timestamp_ms] of [util/util.cc], with the readings of
    [std::chrono::steady_clock] (in nanoseconds) as arguments.  The socket hands the
    differences of successive timestamps to its connection; they add up to the time
    that has passed, with no drift from the rounding of each of them. *)
From S2P Require Import Prelude.

(** The static [program_start], set by the first call; [start] and [now] are the two
    readings of the clock, the first of which is only used by the first call. *)
Definition timestamp_ms (start now : Z) (program_start : option Z) : Z * option Z :=
  let program_start := default start program_start in
  (u64 (Z.quot (now - program_start) 1000000), Some program_start).

(** The timestamps of a sequence of calls. *)
Fixpoint timestamps (readings : list (Z * Z)) (program_start : option Z) : list Z :=
  match readings with
  | [] => []
  | (start, now) :: readings =>
      let '(t, program_start) := timestamp_ms start now program_start in t :: timestamps readings program_start
  end.

(** The differences [next_time - base_time] of [_tcp_loop], added up. *)
Fixpoint elapsed (base_time : Z) (times : list Z) : Z :=
  match times with
  | [] => 0
  | next_time :: times => u64 (next_time - base_time) + elapsed next_time times
  end.

(** A later reading is not smaller. *)
Definition steady (l : list (Z * Z)) : Prop :=
  (forall i start now, l !! i = Some (start, now) -> start <= now) /\
  (forall i x y, l !! i = Some x -> l !! S i = Some y -> x.2 <= y.2).

Lemma steady_tail x l : steady (x :: l) -> steady l.
Proof. intros [H1 H2]. split; [intros i; apply (H1 (S i))|intros i; apply (H2 (S i))]. Qed.

Lemma steady_from start now l : steady ((start, now) :: l) -> steady ((now, now) :: l).
Proof.
  intros [H1 H2]. split.
  - intros [|i] st nw; [intros [= <- <-]; lia|apply (H1 (S i))].
  - intros [|i]; [intros x y [= <-]; apply (H2 0%nat (start, now) y eq_refl)|apply (H2 (S i))].
Qed.

Lemma timestamps_head start now l s :
  timestamps ((start, now) :: l) s = u64 (Z.quot (now - default start s) 1000000) :: timestamps l (Some (default start s)).
Proof. done. Qed.

Lemma elapsed_from l s base now0 :
  steady ((now0, now0) :: l) -> s <= now0 -> (forall x, x ∈ l -> x.2 - s < 2 ^ 63) -> now0 - s < 2 ^ 63 ->
  base = (now0 - s) / 1000000 ->
  elapsed base (timestamps l (Some s)) = ((default (now0, now0) (last l)).2 - s) / 1000000 - base.
Proof.
  revert base now0. induction l as [|[start now] l IH]; intros base now0 Hst Hs Hl Hn ->; [cbn; lia|].
  rewrite timestamps_head. change (default start (Some s)) with s. cbn [elapsed]. pose proof (proj2 Hst 0%nat _ _ eq_refl eq_refl) as Hle. cbn in Hle.
  assert (now - s < 2 ^ 63) as Hb by apply (Hl (start, now)), list_elem_of_here.
  rewrite Z.quot_div_nonneg by lia. rewrite (u64_small ((now - s) / 1000000)) by (split; [apply Z.div_pos|apply Z.div_lt_upper_bound]; lia).
  pose proof (Z.div_le_mono (now0 - s) (now - s) 1000000 ltac:(lia) ltac:(lia)).
  pose proof (Z.div_pos (now0 - s) 1000000 ltac:(lia) ltac:(lia)). pose proof (Z.div_le_upper_bound (now - s) 1000000 (2 ^ 63) ltac:(lia) ltac:(lia)).
  rewrite u64_small by lia. rewrite (IH ((now - s) / 1000000) now); try done; [| |lia|].
  - rewrite last_cons. destruct (last l) as [x|]; cbn; lia.
  - by eapply steady_from, steady_tail.
  - intros x Hx. by apply Hl, list_elem_of_further.
Qed.

(** No drift: the milliseconds handed to the connection differ from the nanoseconds
    that have passed by less than one millisecond, however many ticks there were
    (for a program that runs for less than [2^63] nanoseconds). *)
Lemma elapsed_exact start now l :
  let last_now := (default (start, now) (last l)).2 in
  steady ((start, now) :: l) -> (forall x, x ∈ l -> x.2 - start < 2 ^ 63) -> now - start < 2 ^ 63 ->
  match timestamps ((start, now) :: l) None with
  | base_time :: times => Z.abs (1000000 * elapsed base_time times - (last_now - now)) < 1000000
  | [] => False
  end.
Proof.
  intros ln Hst Hl Hn. rewrite timestamps_head. change (default start None) with start. pose proof (proj1 Hst 0%nat _ _ eq_refl) as Hle.
  rewrite Z.quot_div_nonneg by lia. rewrite u64_small by (split; [apply Z.div_pos|apply Z.div_lt_upper_bound]; lia).
  rewrite (elapsed_from l start _ now); try done.
  - replace (default (now, now) (last l)).2 with ln by (subst ln; by destruct (last l)).
    pose proof (Z.div_mod (ln - start) 1000000 ltac:(lia)). pose proof (Z.mod_pos_bound (ln - start) 1000000 ltac:(lia)).
    pose proof (Z.div_mod (now - start) 1000000 ltac:(lia)). pose proof (Z.mod_pos_bound (now - start) 1000000 ltac:(lia)). lia.
  - by eapply steady_from.
Qed.

(** Three turns of 1.5 ms: rounding each by itself would give 3 ms, not 4. *)
Lemma elapsed_example :
  match timestamps [(7, 7); (0, 1500007); (0, 3000007); (0, 4500007)] None with
  | base_time :: times => elapsed base_time times = 4
  | [] => False
  end.
Proof. vm_compute. reflexivity. Qed.
