(* ===== verification/TCPSpongeSocket.v ===== *)
(** The socket: [TCPSpongeSocket] of [tcp_helpers/tcp_sponge_socket.hh] and [.cc],
    which drives a [TCPConnection] from an event loop between a datagram adapter
    and a local stream socket to the owner.

    The four rules of the event loop are definitions of their own: what the
    callback does, when the rule is interested, and how it is cancelled.  They
    run on the socket together with the [Events] of the turn: what arrives at the
    descriptors and what the kernel answers; a rule runs at most once in a turn.
    [pipe_out] is what has been written to the owner and [net_out] what the adapter
    has sent.  A function is [None] where it does not return: when the reassembler
    or the adapter does not, when an answer of the kernel is still missing, or
    when there is no connection. *)
From S2P Require Import Prelude Text WrappingIntegers Buffer FileDescriptor EventLoop Address Socket ByteStream.
From S2P Require Import StreamReassembler TCPSegment TCPReceiver TCPSender TCPState TCPConnection ConnectionStreams FdAdapter.

Definition TCP_TICK_MS : Z := 10.

(** What the socket needs of its adapter; [Input] is what arrives at the
    adapter's descriptor, and [Output] what a write sends.  The answers are those
    of the kernel to what the adapter writes to its descriptor, in as many calls
    as each of these writes takes.  Reading a datagram counts as a read of the
    descriptor. *)
Class DatagramAdapter (A Input Output : Type) := {
  da_fd : A -> FDWrapper;
  da_config : A -> FdAdapterConfig;
  da_set_config : FdAdapterConfig -> A -> A;
  da_set_listening : bool -> A -> A;
  da_tick : list (list call) -> Z -> A -> option (result unit * A);
  da_read : Input -> A -> option (result (option TCPSegment) * A);
  da_write : list (list call) -> TCPSegment -> A -> option (result (list Output) * A);
  da_read_counts input a seg a' : da_read input a = Some (Ok seg, a') ->
    read_count (da_fd a') = u32 (read_count (da_fd a) + 1) }.

Section sponge.
Context `{DatagramAdapter A Input Output}.
Context (getnameinfo : list byte -> Z -> Z * list byte * list byte).

Record TCPSpongeSocket := mkTCPSpongeSocket {
  _owner : FDWrapper;
  _thread_data : FDWrapper;
  _datagram_adapter : A;
  _tcp : option TCPConnection;
  _inbound_shutdown : bool;
  _outbound_shutdown : bool;
  _fully_acked : bool;
  pipe_out : list byte;
  net_out : list Output }.

(** One turn of the loop: a datagram; the answer to a read of the pipe and its
    bytes; the answers to a write to it and to its shutdown; for each segment
    sent, the answers to the adapter's writes. *)
Record Events := mkEvents {
  ev_datagram : Input;
  ev_read : call;
  ev_bytes : list byte;
  ev_write : call;
  ev_shutdown : call;
  ev_sends : list (list (list call)) }.

(** The answers to the calls of the constructors: the domain and the type of
    either end of the socket pair, and the two calls of [fcntl]. *)
Record PairAnswers := mkPairAnswers {
  pa_first : sockopt * sockopt; pa_second : sockopt * sockopt; pa_getfl : call; pa_setfl : call }.

Definition TCPSpongeSocket_of (answers : PairAnswers) (data_socket_pair : FDWrapper * FDWrapper) (datagram_interface : A) :
    result TCPSpongeSocket :=
  let* owner := LocalStreamSocket_of data_socket_pair.1 (pa_first answers).1 (pa_first answers).2 in
  let* thread_data := LocalStreamSocket_of data_socket_pair.2 (pa_second answers).1 (pa_second answers).2 in
  let* _ := set_blocking false (ret (pa_getfl answers)) (errno (pa_getfl answers)) (ret (pa_setfl answers)) (errno (pa_setfl answers)) in
  Ok (mkTCPSpongeSocket owner thread_data datagram_interface None false false false [] []).

(** [socketpair] answers with two descriptors. *)
Definition socket_pair_helper (c : call) (fds : Z * Z) : result (FDWrapper * FDWrapper) :=
  let* _ := checked (lit "socketpair") c in
  let* first := FileDescriptor_of fds.1 in
  let* second := FileDescriptor_of fds.2 in
  Ok (first, second).

Definition TCPSpongeSocket_over (c : call) (fds : Z * Z) (answers : PairAnswers) (datagram_interface : A) : result TCPSpongeSocket :=
  let* fd_pair := socket_pair_helper c fds in TCPSpongeSocket_of answers fd_pair datagram_interface.

(** ** Updates of one member *)

Definition set_owner (w : FDWrapper) (s : TCPSpongeSocket) : TCPSpongeSocket :=
  mkTCPSpongeSocket w (_thread_data s) (_datagram_adapter s) (_tcp s) (_inbound_shutdown s) (_outbound_shutdown s) (_fully_acked s) (pipe_out s) (net_out s).
Definition set_thread_data (w : FDWrapper) (s : TCPSpongeSocket) : TCPSpongeSocket :=
  mkTCPSpongeSocket (_owner s) w (_datagram_adapter s) (_tcp s) (_inbound_shutdown s) (_outbound_shutdown s) (_fully_acked s) (pipe_out s) (net_out s).
Definition set_adapter (a : A) (s : TCPSpongeSocket) : TCPSpongeSocket :=
  mkTCPSpongeSocket (_owner s) (_thread_data s) a (_tcp s) (_inbound_shutdown s) (_outbound_shutdown s) (_fully_acked s) (pipe_out s) (net_out s).
Definition set_tcp (c : option TCPConnection) (s : TCPSpongeSocket) : TCPSpongeSocket :=
  mkTCPSpongeSocket (_owner s) (_thread_data s) (_datagram_adapter s) c (_inbound_shutdown s) (_outbound_shutdown s) (_fully_acked s) (pipe_out s) (net_out s).
Definition set_inbound_shutdown (s : TCPSpongeSocket) : TCPSpongeSocket :=
  mkTCPSpongeSocket (_owner s) (_thread_data s) (_datagram_adapter s) (_tcp s) true (_outbound_shutdown s) (_fully_acked s) (pipe_out s) (net_out s).
Definition set_outbound_shutdown (s : TCPSpongeSocket) : TCPSpongeSocket :=
  mkTCPSpongeSocket (_owner s) (_thread_data s) (_datagram_adapter s) (_tcp s) (_inbound_shutdown s) true (_fully_acked s) (pipe_out s) (net_out s).
Definition set_fully_acked (s : TCPSpongeSocket) : TCPSpongeSocket :=
  mkTCPSpongeSocket (_owner s) (_thread_data s) (_datagram_adapter s) (_tcp s) (_inbound_shutdown s) (_outbound_shutdown s) true (pipe_out s) (net_out s).
Definition to_pipe (data : list byte) (s : TCPSpongeSocket) : TCPSpongeSocket :=
  mkTCPSpongeSocket (_owner s) (_thread_data s) (_datagram_adapter s) (_tcp s) (_inbound_shutdown s) (_outbound_shutdown s) (_fully_acked s) (pipe_out s ++ data) (net_out s).
Definition to_net (out : list Output) (s : TCPSpongeSocket) : TCPSpongeSocket :=
  mkTCPSpongeSocket (_owner s) (_thread_data s) (_datagram_adapter s) (_tcp s) (_inbound_shutdown s) (_outbound_shutdown s) (_fully_acked s) (pipe_out s) (net_out s ++ out).

(** The debugging output needs the destination as text, which may throw; [ok] is
    the socket after it. *)
Definition debug_destination (s ok : TCPSpongeSocket) : option (result unit * TCPSpongeSocket) :=
  match Address_to_string getnameinfo (destination (da_config (_datagram_adapter s))) with
  | Throw e => Some (Throw e, s)
  | Ok _ => Some (Ok tt, ok)
  end.

(** ** Rule 1: datagrams *)

Definition rule1_callback (ev : Events) (s : TCPSpongeSocket) : option (result unit * TCPSpongeSocket) :=
  match da_read (ev_datagram ev) (_datagram_adapter s), _tcp s with
  | Some (Throw e, a), _ => Some (Throw e, set_adapter a s)
  | Some (Ok seg, a), Some tcp =>
      match (match seg with Some g => TCPConnection.segment_received g tcp | None => Some tcp end) with
      | None => None
      | Some tcp =>
          let s := set_tcp (Some tcp) (set_adapter a s) in
          if FileDescriptor.eof (_thread_data s) && (TCPConnection.bytes_in_flight tcp =? 0) && negb (_fully_acked s)
          then debug_destination s (set_fully_acked s)
          else Some (Ok tt, s)
      end
  | _, _ => None
  end.

Definition rule1_interest (s : TCPSpongeSocket) : bool :=
  match _tcp s with Some tcp => active tcp | None => false end.

(** ** Rule 2: bytes from the owner *)

Definition rule2_callback (ev : Events) (s : TCPSpongeSocket) : option (result unit * TCPSpongeSocket) :=
  match _tcp s with
  | None => None
  | Some tcp =>
      match FileDescriptor.read (remaining_outbound_capacity tcp) (ret (ev_read ev)) (errno (ev_read ev)) (ev_bytes ev)
              (_thread_data s) with
      | (Throw e, w) => Some (Throw e, set_thread_data w s)
      | (Ok data, w) =>
          let '(amount_written, tcp) := TCPConnection.write data tcp in
          let s := set_tcp (Some tcp) (set_thread_data w s) in
          if negb (amount_written =? len data)
          then Some (Throw (runtime_error "TCPConnection::write() accepted less than advertised length"), s)
          else if FileDescriptor.eof w then
            let s := set_outbound_shutdown (set_tcp (Some (end_input_stream tcp)) s) in
            debug_destination s s
          else Some (Ok tt, s)
      end
  end.

Definition rule2_interest (s : TCPSpongeSocket) : bool :=
  match _tcp s with
  | Some tcp => active tcp && negb (_outbound_shutdown s) && (0 <? remaining_outbound_capacity tcp)
  | None => false
  end.

Definition rule2_cancel (ev : Events) (s : TCPSpongeSocket) : option (result unit * TCPSpongeSocket) :=
  match _tcp s with
  | None => None
  | Some tcp => Some (Ok tt, set_outbound_shutdown (set_tcp (Some (end_input_stream tcp)) s))
  end.

(** ** Rule 3: bytes for the owner *)

Definition rule3_callback (ev : Events) (s : TCPSpongeSocket) : option (result unit * TCPSpongeSocket) :=
  match _tcp s with
  | None => None
  | Some tcp =>
      let inbound := inbound_stream tcp in
      let amount_to_write := Z.min 65536 (buffer_size inbound) in
      let buffer := peek_output amount_to_write inbound in
      match FileDescriptor.write [(ret (ev_write ev), errno (ev_write ev))] (BufferViewList_of_string buffer) false (_thread_data s) with
      | None => None
      | Some (Throw e, w) => Some (Throw e, set_thread_data w s)
      | Some (Ok bytes_written, w) =>
          let tcp := set_receiver (update_stream_out (pop_output bytes_written) (_receiver tcp)) tcp in
          let s := to_pipe (ztake bytes_written buffer) (set_tcp (Some tcp) (set_thread_data w s)) in
          if ByteStream.eof (inbound_stream tcp) || ByteStream.error (inbound_stream tcp) then
            match shutdown SHUT_WR (ev_shutdown ev) w with
            | (Throw e, w) => Some (Throw e, set_thread_data w s)
            | (Ok _, w) =>
                let s := set_inbound_shutdown (set_thread_data w s) in
                debug_destination s s
            end
          else Some (Ok tt, s)
      end
  end.

Definition rule3_interest (s : TCPSpongeSocket) : bool :=
  match _tcp s with
  | Some tcp =>
      negb (buffer_empty (inbound_stream tcp)) ||
      ((ByteStream.eof (inbound_stream tcp) || ByteStream.error (inbound_stream tcp)) && negb (_inbound_shutdown s))
  | None => false
  end.

(** ** Rule 4: segments to the adapter *)

(** The loop takes one segment off the queue per turn.  The adapter writes its
    ports into the segment it is given, and does so again when that one is still
    in the queue after a failure. *)
Fixpoint rule4_loop (fuel : nat) (sends : list (list (list call))) (s : TCPSpongeSocket) : option (result unit * TCPSpongeSocket) :=
  match _tcp s with
  | None => None
  | Some tcp =>
      match fuel, TCPConnection._segments_out tcp with
      | S fuel, front :: rest =>
          match sends with
          | [] => None
          | answers :: sends =>
              match da_write answers front (_datagram_adapter s) with
              | None => None
              | Some (Throw e, a) => Some (Throw e, set_adapter a s)
              | Some (Ok out, a) => rule4_loop fuel sends (to_net out (set_tcp (Some (set_out rest tcp)) (set_adapter a s)))
              end
          end
      | _, _ => Some (Ok tt, s)
      end
  end.

Definition rule4_callback (ev : Events) (s : TCPSpongeSocket) : option (result unit * TCPSpongeSocket) :=
  match _tcp s with
  | None => None
  | Some tcp => rule4_loop (length (TCPConnection._segments_out tcp)) (ev_sends ev) s
  end.

Definition rule4_interest (s : TCPSpongeSocket) : bool :=
  match _tcp s with
  | Some tcp => match TCPConnection._segments_out tcp with [] => false | _ => true end
  | None => false
  end.

(** ** The rules *)

(** The state the event loop works on, and its descriptors: the adapter's (0) and
    the pipe to the owner (1). *)
Definition world : Type := TCPSpongeSocket * Events.

Definition sponge_wrapper (fd : nat) (w : world) : FDWrapper :=
  match fd with O => da_fd (_datagram_adapter w.1) | _ => _thread_data w.1 end.

Definition on (f : Events -> TCPSpongeSocket -> option (result unit * TCPSpongeSocket)) : action (S := world) :=
  fun w => match f w.2 w.1 with Some (r, s) => Some (r, (s, w.2)) | None => None end.

(** The cancellation of a rule that has none. *)
Definition no_cancel (ev : Events) (s : TCPSpongeSocket) : option (result unit * TCPSpongeSocket) := Some (Ok tt, s).

Definition rule1 : Rule world := mkRule 0 In (on rule1_callback) (fun w => rule1_interest w.1) (on no_cancel).
Definition rule2 : Rule world := mkRule 1 In (on rule2_callback) (fun w => rule2_interest w.1) (on rule2_cancel).
Definition rule3 : Rule world := mkRule 1 Out (on rule3_callback) (fun w => rule3_interest w.1) (on no_cancel).
Definition rule4 : Rule world := mkRule 0 Out (on rule4_callback) (fun w => rule4_interest w.1) (on no_cancel).

(** [_initialize_TCP]: the rules of the loop, and the socket. *)
Definition _initialize_TCP (config : TCPConfig) (random_isn : Z) (rules : list (Rule world)) (s : TCPSpongeSocket) :
    list (Rule world) * TCPSpongeSocket :=
  let rules := add_rule 0 In (callback rule1) (interest rule1) (cancel rule1) rules in
  let rules := add_rule 1 In (callback rule2) (interest rule2) (cancel rule2) rules in
  let rules := add_rule 1 Out (callback rule3) (interest rule3) (cancel rule3) rules in
  let rules := add_rule 0 Out (callback rule4) (interest rule4) (cancel rule4) rules in
  (rules, set_tcp (Some (TCPConnection_of config random_isn)) s).

(** ** The loop *)

(** What happens in a turn of [_tcp_loop] from outside: the events, the answer of
    [poll], the flag [_abort] and the clock after the wait, and the answers to the
    writes of the adapter's tick. *)
Record Turn := mkTurn {
  tu_events : Events;
  tu_poll : list pollfd -> Z -> Z * Z * list Z;
  tu_abort : bool;
  tu_time : Z;
  tu_tick : list (list call) }.

(** The loop has ended, or thrown, or waits for its next turn. *)
Inductive progress := Left | Threw (e : exn) | Waiting.

(** The end of a turn. *)
Definition turn_tick (answers : list (list call)) (time base_time : Z) (s : TCPSpongeSocket) : option (result Z * TCPSpongeSocket) :=
  match _tcp s with
  | None => None
  | Some tcp =>
      if active tcp then
        match TCPConnection.tick (u64 (time - base_time)) tcp with
        | None => None
        | Some tcp =>
            match da_tick answers (u64 (time - base_time)) (_datagram_adapter s) with
            | None => None
            | Some (Throw e, a) => Some (Throw e, set_adapter a (set_tcp (Some tcp) s))
            | Some (Ok _, a) => Some (Ok time, set_adapter a (set_tcp (Some tcp) s))
            end
        end
      else Some (Ok base_time, s)
  end.

Fixpoint _tcp_loop (condition : TCPSpongeSocket -> bool) (turns : list Turn) (base_time : Z) (rules : list (Rule world))
    (s : TCPSpongeSocket) : option (progress * list (Rule world) * TCPSpongeSocket) :=
  if negb (condition s) then Some (Left, rules, s)
  else
    match turns with
    | [] => Some (Waiting, rules, s)
    | t :: turns =>
        match wait_next_event sponge_wrapper (tu_poll t) TCP_TICK_MS rules (s, tu_events t) with
        | None => None
        | Some (Throw e, rules, (s, _)) => Some (Threw e, rules, s)
        | Some (Ok ret, rules, (s, _)) =>
            if (match ret with Exit => true | _ => false end) || tu_abort t then Some (Left, rules, s)
            else
              match turn_tick (tu_tick t) (tu_time t) base_time s with
              | None => None
              | Some (Throw e, s) => Some (Threw e, rules, s)
              | Some (Ok base_time, s) => _tcp_loop condition turns base_time rules s
              end
        end
    end.

(** ** Opening and closing *)

Definition in_state (st : State) (s : TCPSpongeSocket) : bool :=
  match _tcp s with Some tcp => TCPState_eq (TCPConnection.state tcp) (TCPState_of_State st) | None => false end.

(** [connect] up to its loop. *)
Definition connect_start (c_tcp : TCPConfig) (c_ad : FdAdapterConfig) (random_isn : Z) (rules : list (Rule world))
    (s : TCPSpongeSocket) : result unit * list (Rule world) * TCPSpongeSocket :=
  match _tcp s with
  | Some _ => (Throw (runtime_error "connect() with TCPConnection already initialized"), rules, s)
  | None =>
      let '(rules, s) := _initialize_TCP c_tcp random_isn rules s in
      let s := set_adapter (da_set_config c_ad (_datagram_adapter s)) s in
      match Address_to_string getnameinfo (destination c_ad) with
      | Throw e => (Throw e, rules, s)
      | Ok _ =>
          let tcp := TCPConnection.connect (TCPConnection_of c_tcp random_isn) in
          let s := set_tcp (Some tcp) s in
          let expected_state := TCPState_of_State SYN_SENT in
          if negb (TCPState_eq (TCPConnection.state tcp) expected_state)
          then (Throw (runtime_error ("After TCPConnection::connect(), state was " +:+ name (TCPConnection.state tcp) +:+
                  " but expected " +:+ name expected_state)), rules, s)
          else (Ok tt, rules, s)
      end
  end.

(** [connect], until it starts the thread. *)
Definition connect (c_tcp : TCPConfig) (c_ad : FdAdapterConfig) (random_isn : Z) (turns : list Turn) (time : Z)
    (rules : list (Rule world)) (s : TCPSpongeSocket) : option (progress * list (Rule world) * TCPSpongeSocket) :=
  match connect_start c_tcp c_ad random_isn rules s with
  | (Throw e, rules, s) => Some (Threw e, rules, s)
  | (Ok _, rules, s) =>
      match _tcp_loop (in_state SYN_SENT) turns time rules s with
      | Some (Left, rules, s) =>
          match Address_to_string getnameinfo (destination c_ad) with
          | Throw e => Some (Threw e, rules, s)
          | Ok _ => Some (Left, rules, s)
          end
      | r => r
      end
  end.

(** [listen_and_accept] up to its loop. *)
Definition listen_start (c_tcp : TCPConfig) (c_ad : FdAdapterConfig) (random_isn : Z) (rules : list (Rule world))
    (s : TCPSpongeSocket) : result unit * list (Rule world) * TCPSpongeSocket :=
  match _tcp s with
  | Some _ => (Throw (runtime_error "listen_and_accept() with TCPConnection already initialized"), rules, s)
  | None =>
      let '(rules, s) := _initialize_TCP c_tcp random_isn rules s in
      (Ok tt, rules, set_adapter (da_set_listening true (da_set_config c_ad (_datagram_adapter s))) s)
  end.

Definition listen_and_accept (c_tcp : TCPConfig) (c_ad : FdAdapterConfig) (random_isn : Z) (turns : list Turn) (time : Z)
    (rules : list (Rule world)) (s : TCPSpongeSocket) : option (progress * list (Rule world) * TCPSpongeSocket) :=
  match listen_start c_tcp c_ad random_isn rules s with
  | (Throw e, rules, s) => Some (Threw e, rules, s)
  | (Ok _, rules, s) =>
      match _tcp_loop (fun s => in_state LISTEN s || in_state SYN_RCVD s || in_state SYN_SENT s) turns time rules s with
      | Some (Left, rules, s) =>
          match Address_to_string getnameinfo (destination (da_config (_datagram_adapter s))) with
          | Throw e => Some (Threw e, rules, s)
          | Ok _ => Some (Left, rules, s)
          end
      | r => r
      end
  end.

(** [_tcp_main], the body of the thread; [shut] answers the shutdown of the
    owner's end.  The connection is destroyed at the end. *)
Definition _tcp_main (turns : list Turn) (time : Z) (shut : call) (rules : list (Rule world)) (s : TCPSpongeSocket) :
    option (progress * list (Rule world) * TCPSpongeSocket) :=
  match _tcp s with
  | None => Some (Threw (runtime_error "no TCP"), rules, s)
  | Some _ =>
      match _tcp_loop (fun _ => true) turns time rules s with
      | Some (Left, rules, s) =>
          match shutdown SHUT_RDWR shut (_owner s) with
          | (Throw e, w) => Some (Threw e, rules, set_owner w s)
          | (Ok _, w) =>
              match _tcp s with
              | None => None
              | Some tcp =>
                  match destroy tcp with
                  | None => None
                  | Some _ => Some (Left, rules, set_tcp None (set_owner w s))
                  end
              end
          end
      | r => r
      end
  end.

(** ** The thread

    The owner's calls that join the thread, while the thread is between two
    turns of its loop: what the thread does from there on is [_tcp_main] with the
    turns to come. *)

(** [wait_until_closed]; [joinable] when the thread has been started. *)
Definition wait_until_closed (joinable : bool) (shut : call) (turns : list Turn) (time : Z) (shut_main : call)
    (rules : list (Rule world)) (s : TCPSpongeSocket) : option (progress * list (Rule world) * TCPSpongeSocket) :=
  match shutdown SHUT_RDWR shut (_owner s) with
  | (Throw e, w) => Some (Threw e, rules, set_owner w s)
  | (Ok _, w) => if joinable then _tcp_main turns time shut_main rules (set_owner w s) else Some (Left, rules, set_owner w s)
  end.

(** The flag [_abort] is set from now on. *)
Definition aborted (t : Turn) : Turn := mkTurn (tu_events t) (tu_poll t) true (tu_time t) (tu_tick t).

(** The destructor. *)
Definition TCPSpongeSocket_destroy (joinable : bool) (turns : list Turn) (time : Z) (shut_main : call)
    (rules : list (Rule world)) (s : TCPSpongeSocket) : option (progress * list (Rule world) * TCPSpongeSocket) :=
  if joinable then _tcp_main (map aborted turns) time shut_main rules s else Some (Left, rules, s).
End sponge.
Arguments TCPSpongeSocket A Output : clear implicits.
Arguments Events Input : clear implicits.
Arguments Turn Input : clear implicits.
