(* ===== verification/SocketAdapters.v ===== *)
(** The adapters a socket runs over: [TCPOverUDPSocketAdapter],
    [TCPOverIPv4OverTunFdAdapter] and [TCPOverIPv4OverEthernetAdapter] with their
    descriptors, and [LossyFdAdapter] around any of them, as instances of
    [DatagramAdapter].  A write needs the kernel's answers; with too few of them
    it has not returned. *)
From S2P Require Import Prelude Text WrappingIntegers Buffer FileDescriptor EventLoop Address Resolver Socket ByteStream.
From S2P Require Import Parser TCPSegment IPv4 Ethernet FdAdapter NetworkInterface TunTap TCPSpongeSocket.

Section adapters.
Context (getaddrinfo : list byte -> list byte -> addrinfo -> Z * option (list byte * Z))
  (getnameinfo : list byte -> Z -> Z * list byte * list byte).

(** ** UDP *)

(** What [recvfrom] answers: the length, the bytes, the sender and its size. *)
Record udp_input := mkUdpInput { ui_call : call; ui_data : list byte; ui_from : list byte; ui_fromlen : Z }.

(** [UDPSocket::recv] has this default. *)
Definition udp_mtu : Z := 65536.

Definition udp_socket_read (input : udp_input) (a : FDWrapper * FdAdapterBase) :
    option (result (option TCPSegment) * (FDWrapper * FdAdapterBase)) :=
  match recv udp_mtu (ui_call input) (ui_data input) (ui_from input) (ui_fromlen input) a.1 with
  | (Throw e, w) => Some (Throw e, (w, a.2))
  | (Ok datagram, w) => let '(r, b) := udp_read datagram a.2 in Some (r, (w, b))
  end.

Definition udp_socket_write (answers : list (list call)) (seg : TCPSegment) (a : FDWrapper * FdAdapterBase) :
    option (result (list (Address * BufferList)) * (FDWrapper * FdAdapterBase)) :=
  match udp_write getnameinfo seg a.2, answers with
  | Throw e, _ => Some (Throw e, a)
  | Ok (_, (destination, out)), (c :: _) :: _ =>
      match sendto c (BufferViewList_of_BufferList out) a.1 with
      | (Throw e, w) => Some (Throw e, (w, a.2))
      | (Ok _, w) => Some (Ok [(destination, out)], (w, a.2))
      end
  | Ok _, _ => None
  end.

Lemma udp_socket_counts input a seg a' :
  udp_socket_read input a = Some (Ok seg, a') -> read_count a'.1 = u32 (read_count a.1 + 1).
Proof.
  unfold udp_socket_read, recv, andthen, lift, modify, returns. destruct (checked _ _) as [n|]; [|done].
  destruct (_ <? _); [done|]. destruct (Address_of_sockaddr _ _); [|done].
  destruct (udp_read _ _) as [r b]. by intros [= _ <-].
Qed.

#[export] Instance udp_socket_adapter : DatagramAdapter (FDWrapper * FdAdapterBase) udp_input (Address * BufferList) := {
  da_fd := fst;
  da_config a := config a.2;
  da_set_config c a := (a.1, set_config c a.2);
  da_set_listening l a := (a.1, set_listening l a.2);
  da_tick _ ms a := Some (Ok tt, (a.1, base_tick ms a.2));
  da_read := udp_socket_read;
  da_write := udp_socket_write;
  da_read_counts := udp_socket_counts }.

(** ** TUN *)

(** What [read] answers, and the bytes. *)
Record tun_input := mkTunInput { ti_call : call; ti_data : list byte }.

Definition tun_device_read (input : tun_input) (a : FDWrapper * FdAdapterBase) :
    option (result (option TCPSegment) * (FDWrapper * FdAdapterBase)) :=
  match FileDescriptor.read (2 ^ 64 - 1) (ret (ti_call input)) (errno (ti_call input)) (ti_data input) a.1 with
  | (Throw e, w) => Some (Throw e, (w, a.2))
  | (Ok bytes, w) => let '(r, b) := tun_read getaddrinfo getnameinfo bytes a.2 in Some (r, (w, b))
  end.

(** The answers to one write of a descriptor. *)
Definition pairs (answers : list call) : list (Z * Z) := map (fun c => (ret c, errno c)) answers.

Definition tun_device_write (answers : list (list call)) (seg : TCPSegment) (a : FDWrapper * FdAdapterBase) :
    option (result (list BufferList) * (FDWrapper * FdAdapterBase)) :=
  match tun_write getnameinfo seg a.2 with
  | Throw e => Some (Throw e, a)
  | Ok (_, out) =>
      match FileDescriptor.write (pairs (hd [] answers)) (BufferViewList_of_BufferList out) true a.1 with
      | None => None
      | Some (Throw e, w) => Some (Throw e, (w, a.2))
      | Some (Ok _, w) => Some (Ok [out], (w, a.2))
      end
  end.

Lemma tun_device_counts input a seg a' :
  tun_device_read input a = Some (Ok seg, a') -> read_count a'.1 = u32 (read_count a.1 + 1).
Proof.
  unfold tun_device_read. destruct (FileDescriptor.read _ _ _ _ _) as [[bytes|] w] eqn:E; [|done].
  apply read_bound in E as (_ & Hw & _); [|lia]. destruct (tun_read _ _ _ _) as [r b]. by intros [= _ <-].
Qed.

#[export] Instance tun_device_adapter : DatagramAdapter (FDWrapper * FdAdapterBase) tun_input BufferList := {
  da_fd := fst;
  da_config a := config a.2;
  da_set_config c a := (a.1, set_config c a.2);
  da_set_listening l a := (a.1, set_listening l a.2);
  da_tick _ ms a := Some (Ok tt, (a.1, base_tick ms a.2));
  da_read := tun_device_read;
  da_write := tun_device_write;
  da_read_counts := tun_device_counts }.

(** ** TAP *)

(** What [read] answers, the bytes, and the answers to the writes of the frames
    that are sent in reply. *)
Record tap_input := mkTapInput { pi_call : call; pi_data : list byte; pi_writes : list (list call) }.

(** [send_pending] on the device: a frame leaves the queue when it is written. *)
Fixpoint tap_send_loop (frames : list EthernetFrame) (answers : list (list call)) (w : FDWrapper) (a : EthernetAdapter) :
    option (result unit * (FDWrapper * EthernetAdapter)) :=
  match frames with
  | [] => Some (Ok tt, (w, a))
  | front :: frames =>
      match answers with
      | [] => None
      | answer :: answers =>
          let out := EthernetFrame_serialize front in
          match FileDescriptor.write (pairs answer) (BufferViewList_of_BufferList out) true w with
          | None => None
          | Some (Throw e, w) => Some (Throw e, (w, a))
          | Some (Ok _, w) =>
              tap_send_loop frames answers w
                (mkEthernetAdapter (eth_base a) (_tap a ++ [out]) (set_frames_out frames (_interface a)) (_next_hop a))
          end
      end
  end.

Definition tap_send_pending (answers : list (list call)) (w : FDWrapper) (a : EthernetAdapter) :
    option (result unit * (FDWrapper * EthernetAdapter)) :=
  tap_send_loop (_frames_out (_interface a)) answers w a.

Definition tap_device_read (input : tap_input) (a : FDWrapper * EthernetAdapter) :
    option (result (option TCPSegment) * (FDWrapper * EthernetAdapter)) :=
  match FileDescriptor.read (2 ^ 64 - 1) (ret (pi_call input)) (errno (pi_call input)) (pi_data input) a.1 with
  | (Throw e, w) => Some (Throw e, (w, a.2))
  | (Ok bytes, w) =>
      match EthernetFrame_parse (Buffer_of bytes) EthernetFrame_default with
      | Throw e => Some (Throw e, (w, a.2))
      | Ok (NoError, frame) =>
          match recv_frame frame (_interface a.2) with
          | None => None
          | Some (Throw e, n) => Some (Throw e, (w, set_interface n a.2))
          | Some (Ok ip_dgram, n) =>
              match tap_send_pending (pi_writes input) w (set_interface n a.2) with
              | None => None
              | Some (Throw e, a) => Some (Throw e, a)
              | Some (Ok _, (w, a)) =>
                  match ip_dgram with
                  | Some d => let '(r, b) := unwrap_tcp_in_ip getaddrinfo getnameinfo d (eth_base a) in Some (r, (w, set_base b a))
                  | None => Some (Ok None, (w, a))
                  end
              end
          end
      | Ok (_, _) => Some (Ok None, (w, a.2))
      end
  end.

Definition tap_device_tick (answers : list (list call)) (ms_since_last_tick : Z) (a : FDWrapper * EthernetAdapter) :
    option (result unit * (FDWrapper * EthernetAdapter)) :=
  match NetworkInterface.tick ms_since_last_tick (_interface a.2) with
  | None => None
  | Some (Throw e, n) => Some (Throw e, (a.1, set_interface n a.2))
  | Some (Ok _, n) => tap_send_pending answers a.1 (set_interface n a.2)
  end.

(** What is sent is in [_tap]. *)
Definition tap_device_write (answers : list (list call)) (seg : TCPSegment) (a : FDWrapper * EthernetAdapter) :
    option (result (list Empty_set) * (FDWrapper * EthernetAdapter)) :=
  match wrap_tcp_in_ip getnameinfo seg (eth_base a.2) with
  | Throw e => Some (Throw e, a)
  | Ok (_, d) =>
      match send_datagram d (_next_hop a.2) (_interface a.2) with
      | (Throw e, n) => Some (Throw e, (a.1, set_interface n a.2))
      | (Ok _, n) =>
          match tap_send_pending answers a.1 (set_interface n a.2) with
          | None => None
          | Some (Throw e, a) => Some (Throw e, a)
          | Some (Ok _, a) => Some (Ok [], a)
          end
      end
  end.

(** When all frames are written, what the device does is what [TunTap] says of the
    adapter without its device. *)
Lemma tap_send_loop_ok frames answers w a w' a' :
  tap_send_loop frames answers w a = Some (Ok tt, (w', a')) -> _frames_out (_interface a) = frames ->
  a' = send_pending a /\ read_count w' = read_count w.
Proof.
  revert answers w a. induction frames as [|f frames IH]; intros answers w a; cbn [tap_send_loop].
  - intros [= <- <-] E. split; [|done]. unfold send_pending. rewrite E. destruct a as [b tap [] h]; simpl in *. by subst.
  - destruct answers as [|ans answers]; [done|]. destruct (FileDescriptor.write _ _ _ _) as [[[k|e] w1]|] eqn:Ew; [|done|done].
    intros Hx E. apply IH in Hx as [-> Hr]; [|done]. apply write_loop_keeps in Ew as (Hr1 & _).
    split; [|congruence]. unfold send_pending. by rewrite E.
Qed.

Lemma tap_device_counts input a seg a' :
  tap_device_read input a = Some (Ok seg, a') -> read_count a'.1 = u32 (read_count a.1 + 1).
Proof.
  unfold tap_device_read. destruct (FileDescriptor.read _ _ _ _ _) as [[bytes|] w] eqn:E; [|done].
  apply read_bound in E as (_ & Hw & _); [|lia]. destruct (EthernetFrame_parse _ _) as [[[] frame]|]; try (by intros [= _ <-]).
  destruct (recv_frame _ _) as [[[d|] n]|]; [|done|done].
  destruct (tap_send_pending _ _ _) as [[[[]|] [w1 a1]]|] eqn:Ep; [|done|done].
  apply tap_send_loop_ok in Ep as [_ Hr]; [|done]. assert (read_count w1 = u32 (read_count a.1 + 1)) as Hc by (unfold read_count in *; congruence).
  destruct d; [|by intros [= _ <-]]. destruct (unwrap_tcp_in_ip _ _ _ _) as [r b]. by intros [= _ <-].
Qed.

Lemma tap_device_refines_read input w a bytes w1 seg w' a' :
  FileDescriptor.read (2 ^ 64 - 1) (ret (pi_call input)) (errno (pi_call input)) (pi_data input) w = (Ok bytes, w1) ->
  tap_device_read input (w, a) = Some (Ok seg, (w', a')) -> eth_read getaddrinfo getnameinfo bytes a = Some (Ok seg, a').
Proof.
  unfold tap_device_read, eth_read. cbn [fst snd]. intros ->.
  destruct (EthernetFrame_parse _ _) as [[[] frame]|]; try (by intros [= <- _ <-]).
  destruct (recv_frame _ _) as [[[d|] n]|]; [|done|done].
  destruct (tap_send_pending _ _ _) as [[[[]|] [w2 a2]]|] eqn:Ep; [|done|done].
  apply tap_send_loop_ok in Ep as [-> _]; [|done].
  destruct d; [|by intros [= <- _ <-]]. destruct (unwrap_tcp_in_ip _ _ _ _) as [r b]. by intros [= <- _ <-].
Qed.

Lemma tap_device_refines_tick answers ms w a w' a' :
  tap_device_tick answers ms (w, a) = Some (Ok tt, (w', a')) -> eth_tick ms a = Some (Ok tt, a').
Proof.
  unfold tap_device_tick, eth_tick. cbn [fst snd]. destruct (NetworkInterface.tick _ _) as [[[?|] n]|]; [|done|done].
  intros E. by apply tap_send_loop_ok in E as [-> _].
Qed.

Lemma tap_device_refines_write answers seg w a out w' a' :
  tap_device_write answers seg (w, a) = Some (Ok out, (w', a')) -> exists seg', eth_write getnameinfo seg a = (Ok seg', a').
Proof.
  unfold tap_device_write, eth_write. cbn [fst snd]. destruct (wrap_tcp_in_ip _ _ _) as [[seg' d]|]; [|done].
  destruct (send_datagram _ _ _) as [[?|] n]; [|done].
  destruct (tap_send_pending _ _ _) as [[[[]|] [w2 a2]]|] eqn:Ep; [|done|done]. intros [= _ _ <-].
  apply tap_send_loop_ok in Ep as [-> _]; [|done]. by eexists.
Qed.

#[export] Instance tap_device_adapter : DatagramAdapter (FDWrapper * EthernetAdapter) tap_input Empty_set := {
  da_fd := fst;
  da_config a := config (eth_base a.2);
  da_set_config c a := (a.1, set_base (set_config c (eth_base a.2)) a.2);
  da_set_listening l a := (a.1, set_base (set_listening l (eth_base a.2)) a.2);
  da_tick := tap_device_tick;
  da_read := tap_device_read;
  da_write := tap_device_write;
  da_read_counts := tap_device_counts }.
End adapters.

(** ** The lossy wrapper *)

Section lossy.
Context `{DatagramAdapter A Input Output} {G : Type} (draw : G -> Z * G).

Definition device_should_drop (uplink : bool) (l : LossyFdAdapter A G) : bool * LossyFdAdapter A G :=
  let cfg := da_config (_adapter l) in
  let loss := if uplink then loss_rate_up cfg else loss_rate_dn cfg in
  if loss =? 0 then (false, l)
  else let '(x, g) := draw (_rand l) in (u16 x <? loss, mkLossyFdAdapter g (_adapter l)).

Definition lossy_device_read (input : Input) (l : LossyFdAdapter A G) :
    option (result (option TCPSegment) * LossyFdAdapter A G) :=
  match da_read input (_adapter l) with
  | None => None
  | Some (Throw e, a) => Some (Throw e, mkLossyFdAdapter (_rand l) a)
  | Some (Ok ret, a) =>
      let '(drop, l) := device_should_drop false (mkLossyFdAdapter (_rand l) a) in
      Some (Ok (if drop then None else ret), l)
  end.

Definition lossy_device_write (answers : list (list call)) (seg : TCPSegment) (l : LossyFdAdapter A G) :
    option (result (list Output) * LossyFdAdapter A G) :=
  let '(drop, l) := device_should_drop true l in
  if drop then Some (Ok [], l)
  else
    match da_write answers seg (_adapter l) with
    | None => None
    | Some (r, a) => Some (r, mkLossyFdAdapter (_rand l) a)
    end.

Lemma device_should_drop_adapter uplink l : _adapter (device_should_drop uplink l).2 = _adapter l.
Proof. unfold device_should_drop. destruct (_ =? 0); [done|]. by destruct (draw _). Qed.

Lemma lossy_device_counts input l seg l' :
  lossy_device_read input l = Some (Ok seg, l') -> read_count (da_fd (_adapter l')) = u32 (read_count (da_fd (_adapter l)) + 1).
Proof.
  unfold lossy_device_read. destruct (da_read input (_adapter l)) as [[[ret|e] a]|] eqn:E; [|done|done].
  apply da_read_counts in E. pose proof (device_should_drop_adapter false (mkLossyFdAdapter (_rand l) a)) as Ha.
  destruct (device_should_drop _ _) as [drop l1]. intros [= _ <-]. simpl in Ha. by rewrite Ha.
Qed.

#[export] Instance lossy_device_adapter : DatagramAdapter (LossyFdAdapter A G) Input Output := {
  da_fd l := da_fd (_adapter l);
  da_config l := da_config (_adapter l);
  da_set_config c l := mkLossyFdAdapter (_rand l) (da_set_config c (_adapter l));
  da_set_listening b l := mkLossyFdAdapter (_rand l) (da_set_listening b (_adapter l));
  da_tick answers ms l :=
    match da_tick answers ms (_adapter l) with
    | None => None
    | Some (r, a) => Some (r, mkLossyFdAdapter (_rand l) a)
    end;
  da_read := lossy_device_read;
  da_write := lossy_device_write;
  da_read_counts := lossy_device_counts }.
End lossy.
