(* ===== verification/SocketLoop.v ===== *)
(** The socket's loop as a user of its connection.

    [use] is what the owner of a connection may do with it; a run of the socket,
    whatever arrives and whatever the kernel answers, is a sequence of such uses
    ([socket_refines_uses]), and the loop fails only for reasons outside of it. *)
From S2P Require Import Prelude Text WrappingIntegers Buffer FileDescriptor EventLoop Address Socket ByteStream.
From S2P Require Import StreamReassembler TCPSegment TCPReceiver TCPSender TCPState TCPConnection ConnectionStreams FdAdapter TCPSpongeSocket SocketAdapters Resolver.

(** ** Uses of a connection *)

Inductive usage :=
  | Connected
  | Received (seg : TCPSegment)
  | Written (data : list byte)
  | Ended
  | Delivered (data : list byte)
  | Dequeued (seg : TCPSegment)
  | Ticked (ms : Z).

(** The connection, and the bytes taken from its inbound stream so far. *)
Definition session : Type := TCPConnection * list byte.

Inductive use : usage -> session -> session -> Prop :=
  | use_connected c p : use Connected (c, p) (TCPConnection.connect c, p)
  | use_received seg c c' p : segment_received seg c = Some c' -> use (Received seg) (c, p) (c', p)
  | use_written data c p :
      len data <= remaining_outbound_capacity c -> use (Written data) (c, p) ((TCPConnection.write data c).2, p)
  | use_ended c p : use Ended (c, p) (end_input_stream c, p)
  | use_delivered n c p :
      0 <= n <= buffer_size (inbound_stream c) ->
      use (Delivered (peek_output n (inbound_stream c))) (c, p)
        (set_receiver (update_stream_out (pop_output n) (_receiver c)) c, p ++ peek_output n (inbound_stream c))
  | use_dequeued seg q c p : TCPConnection._segments_out c = seg :: q -> use (Dequeued seg) (c, p) (set_out q c, p)
  | use_ticked ms c c' p : active c = true -> TCPConnection.tick ms c = Some c' -> use (Ticked ms) (c, p) (c', p).

Inductive uses : list usage -> session -> session -> Prop :=
  | uses_nil x : uses [] x x
  | uses_snoc us u x y z : uses us x y -> use u y z -> uses (us ++ [u]) x z.

Lemma uses_one u x y : use u x y -> uses [u] x y.
Proof. intros. apply (uses_snoc [] u x x y); [constructor|done]. Qed.

Lemma uses_trans us vs x y z : uses us x y -> uses vs y z -> uses (us ++ vs) x z.
Proof. intros Hx Hy. induction Hy as [y|vs v y z w _ IH Hv]; [by rewrite app_nil_r|]. rewrite app_assoc. by eapply uses_snoc; eauto. Qed.

(** The streams of a connection stay in order. *)
Lemma use_sound u x y : use u x y -> streams_sound x.1 -> streams_sound y.1.
Proof.
  destruct 1 as [c p|seg c c' p E|data c p _|c p|n c p [Hn _]|seg q c p _|ms c c' p _ E]; cbn [fst]; intros Hs.
  - apply set_sender_sound; [done|]. apply fill_window_sound. by destruct Hs.
  - by eapply segment_received_sound.
  - by apply write_sound.
  - unfold end_input_stream. apply set_sender_sound; [done|]. apply fill_window_sound, sound_end. by destruct Hs.
  - destruct Hs as [Ho Hi]. split; [done|]. by apply sound_pop.
  - done.
  - by eapply tick_sound.
Qed.

Lemma uses_sound us x y : uses us x y -> streams_sound x.1 -> streams_sound y.1.
Proof. induction 1 as [|us u x y z _ IH Hu]; [done|]. intros. eapply use_sound; eauto. Qed.

(** A use is a step of [runs]. *)
Lemma use_runs cfg random_isn u x y : use u x y -> runs cfg random_isn x.1 -> runs cfg random_isn y.1.
Proof.
  destruct 1 as [c p|seg c c' p E|data c p _|c p|n c p [Hn _]|seg q c p E|ms c c' p _ E]; cbn [fst]; intros Hr;
    [by apply runs_connect|by eapply runs_recv|by apply runs_write|by apply runs_end|by apply runs_read|by eapply runs_take|by eapply runs_tick].
Qed.

(** Bytes that fit are accepted. *)
Lemma write_accepts data c :
  streams_sound c -> len data <= remaining_outbound_capacity c -> (TCPConnection.write data c).1 = len data.
Proof.
  intros [[Hw _] _] Hl. unfold TCPConnection.write. destruct (Z.eqb_spec (len data) 0); [done|].
  unfold remaining_outbound_capacity in Hl. rewrite remaining_capacity_eq in Hl by done.
  rewrite write_eq by done. cbn [fst]. unfold accepted. by rewrite ztake_all.
Qed.

Section loop.
Context `{DatagramAdapter A Input Output}.
Context (getnameinfo : list byte -> Z -> Z * list byte * list byte).
Abbreviation sock := (TCPSpongeSocket A Output).

(** The socket has gone through a sequence of uses since [x]. *)
Definition follows (x : session) (s : sock) : Prop :=
  exists us c, _tcp s = Some c /\ uses us x (c, pipe_out s).

Lemma follows_start s c : _tcp s = Some c -> follows (c, pipe_out s) s.
Proof. intros. exists [], c. split; [done|constructor]. Qed.

(** One more use; what else changes in the socket does not matter. *)
Lemma follows_use x u c s s' c' :
  _tcp s = Some c -> use u (c, pipe_out s) (c', pipe_out s') -> _tcp s' = Some c' -> follows x s -> follows x s'.
Proof. intros Ec Hu Ec' (us & c0 & E & Hus). simplify_eq. exists (us ++ [u]), c'. split; [done|]. by eapply uses_snoc. Qed.

Lemma follows_same x s s' : _tcp s' = _tcp s -> pipe_out s' = pipe_out s -> follows x s -> follows x s'.
Proof. unfold follows. by intros -> ->. Qed.

Lemma debug_follows x s ok r s' :
  debug_destination getnameinfo s ok = Some (r, s') -> follows x s -> follows x ok -> follows x s'.
Proof. unfold debug_destination. destruct (Address_to_string _ _); by intros [= <- <-]. Qed.

Lemma rule1_follows x ev s r s' : rule1_callback getnameinfo ev s = Some (r, s') -> follows x s -> follows x s'.
Proof.
  unfold rule1_callback. intros E Hf. destruct (da_read _ _) as [[[seg|e] a]|]; [| |done].
  2: { destruct (_tcp s); injection E as <- <-; by apply (follows_same x s). }
  destruct (_tcp s) as [c|] eqn:Ec; [|done].
  destruct (match seg with Some g => TCPConnection.segment_received g c | None => Some c end) as [c'|] eqn:Er; [|done].
  assert (follows x (set_tcp (Some c') (set_adapter a s))) as Hf'.
  { destruct seg as [g|]; [|injection Er as <-; apply (follows_same x s); done].
    eapply (follows_use x (Received g) c s); [done| |done|done]. by apply use_received. }
  destruct (_ && _ && _); [|by injection E as <- <-].
  eapply debug_follows; [exact E|done|]. by apply (follows_same x (set_tcp (Some c') (set_adapter a s))).
Qed.

Lemma end_follows x s s' c :
  _tcp s = Some c -> _tcp s' = Some (end_input_stream c) -> pipe_out s' = pipe_out s -> follows x s -> follows x s'.
Proof. intros Ec Ec' Ep Hf. eapply (follows_use x Ended); [exact Ec| |exact Ec'|done]. rewrite Ep. apply use_ended. Qed.

Lemma remaining_nonneg c : 0 <= remaining_outbound_capacity c.
Proof. unfold remaining_outbound_capacity, remaining_capacity. apply u64_range. Qed.

Lemma rule2_follows x ev s r s' : rule2_callback getnameinfo ev s = Some (r, s') -> follows x s -> follows x s'.
Proof.
  unfold rule2_callback. destruct (_tcp s) as [c|] eqn:Ec; [|done]. intros E Hf.
  destruct (FileDescriptor.read _ _ _ _ _) as [[data|e] w] eqn:Er; [|injection E as <- <-; by apply (follows_same x s)].
  apply read_bound in Er as (Hd & _); [|apply remaining_nonneg].
  destruct (TCPConnection.write data c) as [n c'] eqn:Ew.
  assert (follows x (set_tcp (Some c') (set_thread_data w s))) as Hf'.
  { eapply (follows_use x (Written data) c s); [done| |done|done].
    replace c' with (TCPConnection.write data c).2 by (by rewrite Ew). by apply use_written. }
  destruct (negb _); [by injection E as <- <-|]. destruct (FileDescriptor.eof w); [|by injection E as <- <-].
  assert (follows x (set_outbound_shutdown (set_tcp (Some (end_input_stream c')) (set_tcp (Some c') (set_thread_data w s))))) as Hf2.
  { eapply (end_follows x _ _ c'); [| | |exact Hf']; done. }
  by eapply debug_follows.
Qed.

Lemma rule2_cancel_follows x ev s r s' : rule2_cancel (Input := Input) ev s = Some (r, s') -> follows x s -> follows x s'.
Proof.
  unfold rule2_cancel. destruct (_tcp s) as [c|] eqn:Ec; [|done]. intros [= <- <-]. by eapply end_follows.
Qed.

(** What rule 3 writes is at most what the stream holds. *)
Lemma rule3_amount c n :
  streams_sound c -> 0 <= n <= len (peek_output (Z.min 65536 (buffer_size (inbound_stream c))) (inbound_stream c)) ->
  0 <= n <= buffer_size (inbound_stream c) /\
  ztake n (peek_output (Z.min 65536 (buffer_size (inbound_stream c))) (inbound_stream c)) = peek_output n (inbound_stream c).
Proof.
  intros [_ [Hw _]]. rewrite !peek_output_eq by done. unfold buffer_size. rewrite (wf_size _ Hw). rewrite len_ztake by lia.
  intros Hn. split; [lia|]. by rewrite ztake_ztake by lia.
Qed.

Lemma peek_small c :
  streams_sound c -> len (peek_output (Z.min 65536 (buffer_size (inbound_stream c))) (inbound_stream c)) < 2 ^ 63.
Proof. intros [_ [Hw _]]. rewrite peek_output_eq by done. unfold buffer_size. rewrite (wf_size _ Hw), len_ztake by lia. lia. Qed.

Lemma rule3_follows x ev s r s' :
  streams_sound x.1 -> rule3_callback getnameinfo ev s = Some (r, s') -> follows x s -> follows x s'.
Proof.
  intros Hx. unfold rule3_callback. destruct (_tcp s) as [c|] eqn:Ec; [|done]. intros E Hf.
  assert (streams_sound c) as Hc.
  { destruct Hf as (us & c0 & E0 & Hus). rewrite Ec in E0. injection E0 as <-. by apply (uses_sound _ _ _ Hus). }
  cbv zeta in E. destruct (FileDescriptor.write _ _ _ _) as [[[n|e] w]|] eqn:Ew; [| |done].
  2: { injection E as <- <-. by apply (follows_same x s). }
  apply write_once in Ew as [Hn _]; [|by apply peek_small]. destruct (rule3_amount c n Hc Hn) as [Hn' Hp]. rewrite Hp in E.
  match type of E with context [to_pipe ?d ?s0] => set (s1 := to_pipe d s0) in * end.
  assert (follows x s1) as Hf1.
  { eapply (follows_use x (Delivered (peek_output n (inbound_stream c))) c s); [done| |done|done]. by apply use_delivered. }
  destruct (_ || _); [|by injection E as <- <-].
  destruct (shutdown _ _ _) as [[?|e] w']; [|injection E as <- <-; by apply (follows_same x s1)].
  eapply debug_follows; [exact E|..]; by apply (follows_same x s1).
Qed.

Lemma rule4_loop_follows x fuel sends s r s' : rule4_loop fuel sends s = Some (r, s') -> follows x s -> follows x s'.
Proof.
  revert sends s. induction fuel as [|fuel IH]; intros sends s; cbn [rule4_loop];
    (destruct (_tcp s) as [c|] eqn:Ec; [|done]); [by intros [= <- <-]|].
  destruct (TCPConnection._segments_out c) as [|front rest] eqn:Eq; [by intros [= <- <-]|].
  destruct sends as [|answers sends]; [done|].
  destruct (da_write _ _ _) as [[[out|e] a]|]; [|intros [= <- <-]; by apply (follows_same x s)|done].
  intros E Hf. eapply IH; [exact E|].
  eapply (follows_use x (Dequeued front) c s); [done| |done|done]. by apply use_dequeued.
Qed.

Lemma rule4_follows x ev s r s' : rule4_callback ev s = Some (r, s') -> follows x s -> follows x s'.
Proof. unfold rule4_callback. destruct (_tcp s); [|done]. apply rule4_loop_follows. Qed.

Lemma turn_tick_follows x answers time base s r s' : turn_tick answers time base s = Some (r, s') -> follows x s -> follows x s'.
Proof.
  unfold turn_tick. destruct (_tcp s) as [c|] eqn:Ec; [|done]. destruct (active c) eqn:Ea; [|by intros [= <- <-]].
  destruct (TCPConnection.tick _ c) as [c'|] eqn:Et; [|done].
  assert (forall a, follows x s -> follows x (set_adapter a (set_tcp (Some c') s))) as Hf.
  { intros a. by eapply (follows_use x (Ticked (u64 (time - base))) c s); [done|apply use_ticked|]. }
  destruct (da_tick _ _ _) as [[[?|?] a]|]; [| |done]; intros [= <- <-]; apply Hf.
Qed.

(** ** The rules together *)

Definition sponge_rules : list (Rule (world (A := A) (Input := Input) (Output := Output))) :=
  [rule1 getnameinfo; rule2 getnameinfo; rule3 getnameinfo; rule4].

Definition following (x : session) (w : world (A := A) (Input := Input) (Output := Output)) : Prop := follows x w.1.

Lemma on_inv f (w w' : world (A := A) (Input := Input) (Output := Output)) r :
  on f w = Some (r, w') -> f w.2 w.1 = Some (r, w'.1).
Proof. unfold on. destruct (f _ _) as [[? ?]|]; [|done]. by intros [= <- <-]. Qed.

Lemma rules_keep x : streams_sound x.1 -> Forall (keeps (following x)) sponge_rules.
Proof.
  intros Hx.
  assert (forall f g (w w' : world (A := A) (Input := Input) (Output := Output)) r,
    (forall ev s r s', f ev s = Some (r, s') -> follows x s -> follows x s') ->
    (forall ev s r s', g ev s = Some (r, s') -> follows x s -> follows x s') ->
    following x w -> on f w = Some (r, w') \/ on g w = Some (r, w') -> following x w') as Hon.
  { intros f g w w' r Hf Hg Hw [E%on_inv|E%on_inv]; unfold following in *; eauto. }
  assert (forall ev s r s', no_cancel (A := A) (Input := Input) (Output := Output) ev s = Some (r, s') -> follows x s -> follows x s') as Hno.
  { intros ev s r s'. unfold no_cancel. by intros [= <- <-]. }
  repeat (apply Forall_cons; split); [..|by apply Forall_nil]; intros w r w' Hw Hc; eapply Hon; try exact Hc; try exact Hw; try exact Hno; cbn.
  - intros. by eapply rule1_follows.
  - intros. by eapply rule2_follows.
  - intros. by eapply rule2_cancel_follows.
  - intros. by eapply rule3_follows.
  - intros. by eapply rule4_follows.
Qed.

Lemma loop_follows x condition turns base rules s p rules' s' :
  streams_sound x.1 -> rules `sublist_of` sponge_rules ->
  _tcp_loop condition turns base rules s = Some (p, rules', s') -> follows x s -> follows x s' /\ rules' `sublist_of` sponge_rules.
Proof.
  intros Hx. revert base rules s. induction turns as [|t turns IH]; intros base rules s Hr; cbn [_tcp_loop];
    (destruct (negb (condition s)); [by intros [= <- <- <-]|]); [by intros [= <- <- <-]|].
  destruct (wait_next_event _ _ _ _ _) as [[[res rules1] [s1 ev1]]|] eqn:Ew; [|done]. intros E Hf.
  apply (wait_next_event_invariant _ (following x)) in Ew as [Hf1 Hs1]; [|eapply Forall_sublist_of; [exact Hr|by apply rules_keep]|done].
  assert (rules1 `sublist_of` sponge_rules) as Hr1 by (by etransitivity). change (follows x s1) in Hf1.
  destruct res as [res|e]; [|by injection E as <- <- <-]. destruct (_ || tu_abort t); [by injection E as <- <- <-|].
  destruct (turn_tick _ _ _ s1) as [[[base1|e] s2]|] eqn:Et; [| |done]; apply (turn_tick_follows x) in Et; try done.
  - by eapply IH.
  - by injection E as <- <- <-.
Qed.

(** ** The life of a socket *)

(** A socket that was opened by [connect] or by [listen_and_accept], whatever
    came of it, and then perhaps run by the thread. *)
Inductive life (c_tcp : TCPConfig) (random_isn : Z) : list (Rule (world (A := A) (Input := Input) (Output := Output))) -> sock -> Prop :=
  | life_connect c_ad turns time s p rules' s' :
      _tcp s = None -> pipe_out s = [] ->
      connect getnameinfo c_tcp c_ad random_isn turns time [] s = Some (p, rules', s') -> life c_tcp random_isn rules' s'
  | life_listen c_ad turns time s p rules' s' :
      _tcp s = None -> pipe_out s = [] ->
      listen_and_accept getnameinfo c_tcp c_ad random_isn turns time [] s = Some (p, rules', s') -> life c_tcp random_isn rules' s'
  | life_main turns time rules s p rules' s' :
      life c_tcp random_isn rules s ->
      _tcp_loop (fun _ => true) turns time rules s = Some (p, rules', s') -> life c_tcp random_isn rules' s'.

Context (c_tcp : TCPConfig) (random_isn : Z).
Context (Hsend : 0 <= send_capacity c_tcp < 2 ^ 64) (Hrecv : 0 <= recv_capacity c_tcp < 2 ^ 64).

Definition fresh : session := (TCPConnection_of c_tcp random_isn, []).

Lemma fresh_sound : streams_sound fresh.1.
Proof. eapply runs_sound; [exact Hsend|exact Hrecv|apply runs_init]. Qed.

(** The loop that follows an opening. *)
Lemma opened_follows condition turns time rules s p rules' s' :
  _tcp_loop condition turns time rules s = Some (p, rules', s') -> rules = sponge_rules -> follows fresh s ->
  follows fresh s' /\ rules' `sublist_of` sponge_rules.
Proof. intros E -> Hf. eapply loop_follows; [exact fresh_sound|done|exact E|done]. Qed.

Lemma connect_follows c_ad turns time s p rules' s' :
  _tcp s = None -> pipe_out s = [] ->
  connect getnameinfo c_tcp c_ad random_isn turns time [] s = Some (p, rules', s') ->
  follows fresh s' /\ rules' `sublist_of` sponge_rules.
Proof.
  intros Ht Hp. unfold connect, connect_start. rewrite Ht. cbn [_initialize_TCP add_rule app].
  assert (forall c us s0, uses us fresh (c, []) -> _tcp s0 = Some c -> pipe_out s0 = [] -> follows fresh s0) as Hf.
  { intros c us s0 Hu E1 E2. exists us, c. by rewrite E2. }
  assert (uses [Connected] fresh (TCPConnection.connect (TCPConnection_of c_tcp random_isn), [])) as Hu by apply uses_one, use_connected.
  destruct (Address_to_string _ _) as [t|e].
  2: { intros [= <- <- <-]. split; [by eapply (Hf _ []); [constructor|done|]|done]. }
  destruct (negb _); [intros [= <- <- <-]; split; [by eapply Hf|done]|].
  destruct (_tcp_loop _ _ _ _ _) as [[[q rules1] s1]|] eqn:El; [|done].
  apply opened_follows in El as [H1 H2]; [|done|by eapply Hf].
  destruct q; by intros [= <- <- <-].
Qed.

Lemma listen_follows c_ad turns time s p rules' s' :
  _tcp s = None -> pipe_out s = [] ->
  listen_and_accept getnameinfo c_tcp c_ad random_isn turns time [] s = Some (p, rules', s') ->
  follows fresh s' /\ rules' `sublist_of` sponge_rules.
Proof.
  intros Ht Hp. unfold listen_and_accept, listen_start. rewrite Ht. cbn [_initialize_TCP add_rule app].
  destruct (_tcp_loop _ _ _ _ _) as [[[q rules1] s1]|] eqn:El; [|done].
  apply opened_follows in El as [H1 H2]; [|done|exists [], (TCPConnection_of c_tcp random_isn); cbn; rewrite Hp; split; [done|constructor]].
  destruct q; try by intros [= <- <- <-]. destruct (Address_to_string _ _); by intros [= <- <- <-].
Qed.

Lemma life_follows rules s : life c_tcp random_isn rules s -> follows fresh s /\ rules `sublist_of` sponge_rules.
Proof.
  induction 1 as [c_ad turns time s p rules' s' Ht Hp E|c_ad turns time s p rules' s' Ht Hp E|turns time rules s p rules' s' _ [IH1 IH2] E].
  - by eapply connect_follows.
  - by eapply listen_follows.
  - eapply loop_follows; [exact fresh_sound|exact IH2|exact E|done].
Qed.

(** ** What the loop throws *)

(** An error from outside: of [poll], the adapter, the pipe, or the resolver. *)
Inductive cause : exn -> Prop :=
  | cause_poll : cause poll_error
  | cause_read_datagram (input : Input) a e a' : da_read input a = Some (Throw e, a') -> cause e
  | cause_write_datagram answers seg a e a' : da_write answers seg a = Some (Throw e, a') -> cause e
  | cause_tick answers ms a e a' : da_tick answers ms a = Some (Throw e, a') -> cause e
  | cause_read_pipe limit r n data w e w' : FileDescriptor.read limit r n data w = (Throw e, w') -> cause e
  | cause_write_pipe answers b all w e w' : FileDescriptor.write answers b all w = Some (Throw e, w') -> cause e
  | cause_shutdown how c w e w' : shutdown how c w = (Throw e, w') -> cause e
  | cause_resolver a e : Address_to_string getnameinfo a = Throw e -> cause e.

Lemma debug_cause (s ok : sock) e s' : debug_destination getnameinfo s ok = Some (Throw e, s') -> cause e.
Proof. unfold debug_destination. destruct (Address_to_string _ _) eqn:E; [done|]. intros [= <- _]. by eapply cause_resolver. Qed.

Lemma rule1_cause ev s e s' : rule1_callback getnameinfo ev s = Some (Throw e, s') -> cause e.
Proof.
  unfold rule1_callback. destruct (da_read _ _) as [[[seg|e0] a]|] eqn:Er; [| |done].
  - destruct (_tcp s) as [c|]; [|done]. destruct (match seg with Some _ => _ | None => _ end); [|done].
    destruct (_ && _ && _); [apply debug_cause|done].
  - destruct (_tcp s); intros [= <- _]; by eapply cause_read_datagram.
Qed.

Lemma rule2_cause x ev s e s' :
  streams_sound x.1 -> follows x s -> rule2_callback getnameinfo ev s = Some (Throw e, s') -> cause e.
Proof.
  intros Hx (us & c & Ec & Hus). apply uses_sound in Hus; [|done]. unfold rule2_callback. rewrite Ec.
  destruct (FileDescriptor.read _ _ _ _ _) as [[data|e0] w] eqn:Er; [|intros [= <- _]; by eapply cause_read_pipe].
  apply read_bound in Er as (Hd & _); [|apply remaining_nonneg]. pose proof (write_accepts data c Hus Hd) as Ha.
  destruct (TCPConnection.write data c) as [n c']. simpl in Ha. subst n. rewrite Z.eqb_refl. cbn [negb].
  destruct (FileDescriptor.eof w); [apply debug_cause|done].
Qed.

Lemma rule3_cause ev s e s' : rule3_callback getnameinfo ev s = Some (Throw e, s') -> cause e.
Proof.
  unfold rule3_callback. destruct (_tcp s) as [c|]; [|done]. cbv zeta.
  destruct (FileDescriptor.write _ _ _ _) as [[[n|e0] w]|] eqn:Ew; [|intros [= <- _]; by eapply cause_write_pipe|done].
  destruct (_ || _); [|done]. destruct (shutdown _ _ _) as [[?|e1] w'] eqn:Es; [apply debug_cause|].
  intros [= <- _]. by eapply cause_shutdown.
Qed.

Lemma rule4_loop_cause fuel sends s e s' : rule4_loop fuel sends s = Some (Throw e, s') -> cause e.
Proof.
  revert sends s. induction fuel as [|fuel IH]; intros sends s; cbn [rule4_loop]; (destruct (_tcp s) as [c|]; [|done]); [done|].
  destruct (TCPConnection._segments_out c); [done|]. destruct sends as [|answers sends]; [done|].
  destruct (da_write _ _ _) as [[[out|e0] a]|] eqn:Ew; [apply IH|intros [= <- _]; by eapply cause_write_datagram|done].
Qed.

(** ** No busy waiting *)

Lemma u32_next n : u32 (n + 1) <> n.
Proof. intros E. pose proof (u32_range (n + 1)) as Hr. rewrite E in Hr. destruct (u32_eq (n + 1)) as [k Hk]. lia. Qed.

Lemma u32_next2 n : u32 (u32 (n + 1) + 1) <> n.
Proof.
  rewrite u32_add_l. intros E. pose proof (u32_range (n + 1 + 1)) as Hr. rewrite E in Hr.
  destruct (u32_eq (n + 1 + 1)) as [k Hk]. lia.
Qed.

Lemma rule1_counts ev s s' :
  rule1_callback getnameinfo ev s = Some (Ok tt, s') ->
  read_count (da_fd (_datagram_adapter s')) = u32 (read_count (da_fd (_datagram_adapter s)) + 1).
Proof.
  unfold rule1_callback. destruct (da_read _ _) as [[[seg|e0] a]|] eqn:Er; [| |done].
  - apply da_read_counts in Er. rewrite <- Er. destruct (_tcp s) as [c|]; [|done].
    destruct (match seg with Some _ => _ | None => _ end); [|done].
    destruct (_ && _ && _); [unfold debug_destination; destruct (Address_to_string _ _); [|done]|]; by intros [= <-].
  - by destruct (_tcp s).
Qed.

Lemma rule2_counts ev s s' :
  rule2_callback getnameinfo ev s = Some (Ok tt, s') -> read_count (_thread_data s') = u32 (read_count (_thread_data s) + 1).
Proof.
  unfold rule2_callback. destruct (_tcp s) as [c|]; [|done].
  destruct (FileDescriptor.read _ _ _ _ _) as [[data|e0] w] eqn:Er; [|done].
  apply read_bound in Er as (_ & Hw & _); [|apply remaining_nonneg]. unfold read_count. rewrite <- Hw.
  destruct (TCPConnection.write data c) as [n c'].
  destruct (negb _); [done|].
  destruct (FileDescriptor.eof w); [unfold debug_destination; destruct (Address_to_string _ _); [|done]|]; by intros [= <-].
Qed.

Lemma rule3_counts x ev s s' :
  streams_sound x.1 -> follows x s -> rule3_callback getnameinfo ev s = Some (Ok tt, s') ->
  write_count (_thread_data s) <> write_count (_thread_data s').
Proof.
  intros Hx (us & c & Ec & Hus). apply uses_sound in Hus; [|done]. unfold rule3_callback. rewrite Ec. cbv zeta.
  destruct (FileDescriptor.write _ _ _ _) as [[[n|e0] w]|] eqn:Ew; [|done|done].
  apply write_once in Ew as [_ ->]; [|by apply peek_small]. destruct (_ || _).
  - unfold shutdown, andthen, lift, modify. cbn [Z.eqb SHUT_WR SHUT_RD Pos.eqb].
    destruct (checked _ _); [|done]. unfold debug_destination. destruct (Address_to_string _ _); [|done]. intros [= <-].
    apply not_eq_sym, u32_next2.
  - intros [= <-]. apply not_eq_sym, u32_next.
Qed.

Lemma rule4_empties fuel sends s c s' :
  _tcp s = Some c -> (length (TCPConnection._segments_out c) <= fuel)%nat -> rule4_loop fuel sends s = Some (Ok tt, s') ->
  rule4_interest s' = false.
Proof.
  revert sends s c. induction fuel as [|fuel IH]; intros sends s c Ec Hl; cbn [rule4_loop]; rewrite Ec; unfold rule4_interest.
  - intros [= <-]. rewrite Ec. destruct (TCPConnection._segments_out c); [done|simpl in Hl; lia].
  - destruct (TCPConnection._segments_out c) as [|front rest] eqn:Eq; [intros [= <-]; by rewrite Ec, Eq|].
    destruct sends as [|answers sends]; [done|]. destruct (da_write _ _ _) as [[[out|e0] a]|]; [|done|done].
    apply (IH _ _ (set_out rest c)); [done|]. simpl in Hl |- *. lia.
Qed.

Lemma rules_progress x : streams_sound x.1 -> Forall (progresses sponge_wrapper (following x)) sponge_rules.
Proof.
  intros Hx. unfold progresses, service_count.
  repeat (apply Forall_cons; split); [..|by apply Forall_nil]; intros w w' Hw E; cbn [rule1 rule2 rule3 rule4 callback interest direction fd] in *;
    apply on_inv in E; cbn [sponge_wrapper].
  - left. rewrite (rule1_counts _ _ _ E). apply not_eq_sym, u32_next.
  - left. rewrite (rule2_counts _ _ _ E). apply not_eq_sym, u32_next.
  - left. by eapply rule3_counts.
  - right. unfold rule4_callback in E. destruct (_tcp w.1) as [c|] eqn:Ec; [|done]. by eapply rule4_empties.
Qed.

Lemma rules_cause x rules e :
  streams_sound x.1 -> rules `sublist_of` sponge_rules -> thrown_by (following x) rules e -> cause e.
Proof.
  intros Hx Hs Ht. apply (thrown_by_sublist _ _ _ _ Hs) in Ht as (r & w & w' & Hr & Hw & E).
  assert (forall w r w', on (A := A) (Input := Input) (Output := Output) no_cancel w = Some (r, w') -> r = Ok tt) as Hno.
  { intros ? ? ? E1%on_inv. by injection E1. }
  unfold sponge_rules in Hr. repeat (apply elem_of_cons in Hr as [->|Hr]); [..|by apply elem_of_nil in Hr];
    cbn [rule1 rule2 rule3 rule4 callback cancel] in E; destruct E as [E|E]; try by apply Hno in E.
  - apply on_inv in E. by eapply rule1_cause.
  - apply on_inv in E. by eapply rule2_cause.
  - apply on_inv in E. unfold rule2_cancel in E. by destruct (_tcp w.1).
  - apply on_inv in E. by eapply rule3_cause.
  - apply on_inv in E. unfold rule4_callback in E. destruct (_tcp w.1); [|done]. by eapply rule4_loop_cause.
Qed.

Lemma loop_cause x condition turns base rules s e rules' s' :
  streams_sound x.1 -> rules `sublist_of` sponge_rules -> follows x s ->
  _tcp_loop condition turns base rules s = Some (Threw e, rules', s') -> cause e.
Proof.
  intros Hx. revert base rules s. induction turns as [|t turns IH]; intros base rules s Hr Hf; cbn [_tcp_loop];
    (destruct (negb (condition s)); [done|]); [done|].
  destruct (wait_next_event _ _ _ _ _) as [[[res rules1] [s1 ev1]]|] eqn:Ew; [|done].
  assert (Forall (keeps (following x)) rules) as Hk by (eapply Forall_sublist_of; [exact Hr|by apply rules_keep]).
  pose proof Ew as Ei. apply (wait_next_event_invariant _ (following x)) in Ei as [Hf1 Hs1]; [|done|done].
  assert (rules1 `sublist_of` sponge_rules) as Hr1 by (by etransitivity). change (follows x s1) in Hf1.
  destruct res as [res|e0].
  2: { intros [= <- <- <-]. apply (wait_next_event_throws _ (following x)) in Ew as [->|Ht].
       - apply cause_poll.
       - by eapply (rules_cause x rules).
       - done.
       - eapply Forall_sublist_of; [exact Hr|by apply rules_progress].
       - done. }
  destruct (_ || tu_abort t); [done|]. destruct (turn_tick _ _ _ s1) as [[[base1|e0] s2]|] eqn:Et; [| |done].
  - apply IH; [done|]. by eapply turn_tick_follows.
  - intros [= <- <- <-]. unfold turn_tick in Et. destruct (_tcp s1) as [c|]; [|done]. destruct (active c); [|done].
    destruct (TCPConnection.tick _ c); [|done]. destruct (da_tick _ _ _) as [[[?|?] a]|] eqn:Ed; [done| |done].
    injection Et as <- _. by eapply cause_tick.
Qed.
End loop.

(** [connect] finds its connection in the state it expects. *)
Lemma connect_state c random_isn :
  TCPState_eq (TCPConnection.state (TCPConnection.connect (TCPConnection_of c random_isn))) (TCPState_of_State SYN_SENT) = true.
Proof. destruct c as [rt rc sc [isn|]]; reflexivity. Qed.

Lemma connect_start_ok `{DatagramAdapter A Input Output} getnameinfo c_tcp c_ad random_isn rules (s : TCPSpongeSocket A Output) text :
  _tcp s = None -> Address_to_string getnameinfo (destination c_ad) = Ok text ->
  exists rules' s', connect_start getnameinfo c_tcp c_ad random_isn rules s = (Ok tt, rules', s') /\
    _tcp s' = Some (TCPConnection.connect (TCPConnection_of c_tcp random_isn)) /\ in_state SYN_SENT s' = true.
Proof.
  intros Ht Ha. unfold connect_start. rewrite Ht. cbn [_initialize_TCP]. rewrite Ha, connect_state. cbn [negb].
  eexists _, _. split; [done|]. split; [done|]. apply connect_state.
Qed.

(** C7: The socket only uses its connection as an owner may.  Whatever datagrams
    arrive, whatever the owner writes and reads, whatever the kernel answers and
    however the loop ends: a socket opened by [connect] or [listen_and_accept], and
    run by its thread for any number of turns, has taken its connection through a
    sequence of uses (segments received, bytes written that fit, the end of the
    input, bytes delivered, segments dequeued, ticks while active), and the bytes
    written to the owner are exactly those taken from the inbound stream, in
    order. *)
Theorem socket_refines_uses `{DatagramAdapter A Input Output} getnameinfo c_tcp random_isn rules (s : TCPSpongeSocket A Output) :
  0 <= send_capacity c_tcp < 2 ^ 64 -> 0 <= recv_capacity c_tcp < 2 ^ 64 ->
  life getnameinfo c_tcp random_isn rules s ->
  exists us c, _tcp s = Some c /\ uses us (TCPConnection_of c_tcp random_isn, []) (c, pipe_out s).
Proof. intros Hs Hr Hl. by apply life_follows in Hl as [Hf _]. Qed.

(** C19: The loop fails only for reasons outside of it: every exception that leaves
    [_tcp_loop] comes from [poll], from the adapter, from the pipe to the owner or
    from the resolver.  The loop's own checks never fire: a connection accepts as
    many bytes as it has advertised, and no callback leaves its descriptor
    untouched while its rule stays interested. *)
Theorem socket_errors `{DatagramAdapter A Input Output} getnameinfo c_tcp random_isn rules (s : TCPSpongeSocket A Output)
    condition turns time e rules' s' :
  0 <= send_capacity c_tcp < 2 ^ 64 -> 0 <= recv_capacity c_tcp < 2 ^ 64 ->
  life getnameinfo c_tcp random_isn rules s ->
  _tcp_loop condition turns time rules s = Some (Threw e, rules', s') -> cause getnameinfo e.
Proof.
  intros Hs Hr Hl. apply life_follows in Hl as [Hf Hsub]; [|done|done]. eapply loop_cause; [|exact Hsub|exact Hf]. by apply fresh_sound.
Qed.

(** ** A socket over UDP *)

Definition no_call : call := mkCall (-1) 11.
Definition quiet_events : Events udp_input := mkEvents (mkUdpInput no_call [] [] 0) no_call [] no_call no_call [].
Definition demo_config : TCPConfig := mkTCPConfig 1000 64000 64000 (Some (mkWrappingInt32 7)).
Definition demo_adapter : FdAdapterConfig := mkFdAdapterConfig (endpoint 1 1000) (endpoint 2 2000) 0 0.
Definition demo_socket : TCPSpongeSocket (FDWrapper * FdAdapterBase) (Address * BufferList) :=
  mkTCPSpongeSocket (mkFDWrapper 3 false false 0 0) (mkFDWrapper 4 false false 0 0)
    (mkFDWrapper 5 false false 0 0, mkFdAdapterBase demo_adapter false) None false false false [] [].

(** The first turn sends the SYN; in the second [poll] reports an error. *)
Definition demo_turns : list (Turn udp_input) :=
  [mkTurn (mkEvents (mkUdpInput no_call [] [] 0) no_call [] no_call no_call [[[mkCall 20 0]]]) (fun _ _ => (1, 0, [0; 0; 0; POLLOUT])) false 10 [];
   mkTurn quiet_events (fun _ _ => (1, 0, [POLLERR; 0; 0; 0])) false 20 []].

Definition demo_world : Type := world (A := FDWrapper * FdAdapterBase) (Input := udp_input) (Output := Address * BufferList).

(** The outcome of a loop, and where it leaves the socket. *)
Definition outcome {R S : Type} (r : option (progress * R * S)) : option progress := match r with Some (p, _, _) => Some p | None => None end.
Definition left_in {R S : Type} (d : R * S) (r : option (progress * R * S)) : R * S := match r with Some (_, rules, s) => (rules, s) | None => d end.

Lemma outcome_inv {R S : Type} d (r : option (progress * R * S)) p :
  outcome r = Some p -> r = Some (p, (left_in d r).1, (left_in d r).2).
Proof. destruct r as [[[q rules] s]|]; [|done]. by intros [= ->]. Qed.

Local Abbreviation demo_connect :=
  (connect name_numeric (H := udp_socket_adapter name_numeric) demo_config demo_adapter 0 (take 1 demo_turns) 0 [] demo_socket).
Definition demo_start : list (Rule demo_world) * TCPSpongeSocket (FDWrapper * FdAdapterBase) (Address * BufferList) :=
  left_in ([], demo_socket) demo_connect.
Local Abbreviation demo_loop :=
  (_tcp_loop (H := udp_socket_adapter name_numeric) (fun _ => true) (drop 1 demo_turns) 10 demo_start.1 demo_start.2).

Lemma demo_life : life name_numeric (H := udp_socket_adapter name_numeric) demo_config 0 demo_start.1 demo_start.2.
Proof.
  assert (outcome demo_connect = Some Waiting) as E by (vm_compute; reflexivity). apply (outcome_inv ([], demo_socket)) in E.
  exact (life_connect name_numeric (H := udp_socket_adapter name_numeric) demo_config 0 demo_adapter (take 1 demo_turns) 0 demo_socket
    Waiting _ _ eq_refl eq_refl E).
Qed.

Lemma socket_refines_uses_witness :
  exists us c, _tcp demo_start.2 = Some c /\ uses us (TCPConnection_of demo_config 0, []) (c, pipe_out demo_start.2).
Proof.
  apply (socket_refines_uses (H := udp_socket_adapter name_numeric) name_numeric demo_config 0 demo_start.1 demo_start.2).
  - by vm_compute.
  - by vm_compute.
  - exact demo_life.
Defined.

Lemma socket_errors_witness : cause (H := udp_socket_adapter name_numeric) name_numeric poll_error.
Proof.
  assert (0 <= 64000 < 2 ^ 64) as Hc by lia.
  assert (outcome demo_loop = Some (Threw poll_error)) as E by (vm_compute; reflexivity). apply (outcome_inv ([], demo_socket)) in E.
  exact (socket_errors (H := udp_socket_adapter name_numeric) name_numeric demo_config 0 demo_start.1 demo_start.2 (fun _ => true)
    (drop 1 demo_turns) 10 poll_error _ _ Hc Hc demo_life E).
Defined.
