(* ===== verification/SocketThread.v ===== *)
(** The thread of a socket and its end: [~TCPSpongeSocket] sets the flag [_abort]
    and waits for the thread, which leaves its loop in the next turn. *)
From S2P Require Import Prelude Text WrappingIntegers Buffer FileDescriptor EventLoop Address Socket ByteStream.
From S2P Require Import StreamReassembler TCPSegment TCPReceiver TCPSender TCPState TCPConnection ConnectionStreams FdAdapter TCPSpongeSocket SocketAdapters Resolver SocketLoop.

Section thread.
Context `{DatagramAdapter A Input Output}.
Context (getnameinfo : list byte -> Z -> Z * list byte * list byte).
Abbreviation sock := (TCPSpongeSocket A Output).

(** With the flag set the loop has one turn. *)
Lemma aborted_loop t turns time rules (s : sock) :
  _tcp_loop (fun _ => true) (aborted t :: turns) time rules s =
  match wait_next_event sponge_wrapper (tu_poll t) TCP_TICK_MS rules (s, tu_events t) with
  | None => None
  | Some (Throw e, rules, (s, _)) => Some (Threw e, rules, s)
  | Some (Ok _, rules, (s, _)) => Some (Left, rules, s)
  end.
Proof.
  cbn [_tcp_loop negb aborted tu_poll tu_events tu_abort].
  destruct (wait_next_event _ _ _ _ _) as [[[[res|e] rules'] [s' ev]]|]; [|done|done]. by rewrite orb_true_r.
Qed.

(** The RST of a connection that is destroyed is the last segment in its queue. *)
Lemma destroy_rst c c' :
  active c = true -> TCPConnection.destroy c = Some c' ->
  exists q seg, TCPConnection._segments_out c' = q ++ [seg] /\ rst (header seg) = true.
Proof.
  intros Ha. unfold TCPConnection.destroy, send_rst. rewrite Ha.
  destruct (read_a_segment _) as [[seg s]|]; [|done]. rewrite segment_received_rst by done. intros [= <-]. by eexists _, _.
Qed.

(** The destructor, by what the last turn of the thread leaves. *)
Lemma destroy_eq t turns time shut rules (s : sock) c :
  _tcp s = Some c ->
  TCPSpongeSocket_destroy true (t :: turns) time shut rules s =
  match wait_next_event sponge_wrapper (tu_poll t) TCP_TICK_MS rules (s, tu_events t) with
  | None => None
  | Some (Throw e, rules, (s, _)) => Some (Threw e, rules, s)
  | Some (Ok _, rules, (s, _)) =>
      match shutdown SHUT_RDWR shut (_owner s) with
      | (Throw e, w) => Some (Threw e, rules, set_owner w s)
      | (Ok _, w) =>
          match _tcp s with
          | None => None
          | Some tcp => match TCPConnection.destroy tcp with None => None | Some _ => Some (Left, rules, set_tcp None (set_owner w s)) end
          end
      end
  end.
Proof.
  intros Hc. unfold TCPSpongeSocket_destroy, _tcp_main. rewrite Hc. cbn [map]. rewrite aborted_loop.
  by destruct (wait_next_event _ _ _ _ _) as [[[[res|e] rules'] [s' ev]]|].
Qed.
End thread.


(** The socket of [demo_start], whose SYN has been sent, is destroyed. *)
Definition demo_last : Turn udp_input := mkTurn quiet_events (fun _ _ => (0, 0, [])) false 20 [].
Local Abbreviation demo_destroyed :=
  (TCPSpongeSocket_destroy (H := udp_socket_adapter name_numeric) true [demo_last; demo_last] 20 (mkCall 0 0) demo_start.1 demo_start.2).

