(* ===== verification/HelperSockets.v ===== *)
(** The sockets with fixed devices of [tcp_helpers/tcp_sponge_socket.cc]:
    [CS144TCPSocket] over the TUN device [tun144] and [FullStackSocket] over the
    TAP device [tap10].  The values of [random_device] are arguments. *)
From S2P Require Import Prelude Text WrappingIntegers Buffer FileDescriptor EventLoop Parser Address Resolver Socket ByteStream.
From S2P Require Import TCPSegment Ethernet TCPReceiver TCPSender TCPState TCPConnection FdAdapter NetworkInterface TunTap TCPSpongeSocket SocketAdapters SocketLoop.

Definition LOCAL_TAP_IP_ADDRESS : list byte := lit "169.254.10.9".
Definition LOCAL_TAP_NEXT_HOP_ADDRESS : list byte := lit "169.254.10.1".

(** Six values of [random_device], each cut to a byte. *)
Definition random_private_ethernet_address (values : list Z) : EthernetAddress :=
  match map z2b (take 6 values) with
  | [] => []
  | first :: rest => z2b (Z.land (Z.lor (b2z first) 0x02) 0xfe) :: rest
  end.

Section helpers.
Context (getaddrinfo : list byte -> list byte -> addrinfo -> Z * option (list byte * Z))
  (getnameinfo : list byte -> Z -> Z * list byte * list byte).

(** The answers to the calls of the constructors: opening the device, and the
    socket pair. *)
Record DeviceAnswers := mkDeviceAnswers {
  dv_open : call; dv_ioctl : call; dv_socketpair : call; dv_fds : Z * Z; dv_pair : PairAnswers }.

Definition CS144TCPSocket_of (answers : DeviceAnswers) : result (TCPSpongeSocket (FDWrapper * FdAdapterBase) BufferList) :=
  let* (tun, _) := TunTapFD_of (lit "tun144") true (dv_open answers) (dv_ioctl answers) in
  let* cfg := FdAdapterConfig_default getaddrinfo in
  TCPSpongeSocket_over (dv_socketpair answers) (dv_fds answers) (dv_pair answers) (tun, mkFdAdapterBase cfg false).

(** The configurations the two sockets connect with; [random] is a value of
    [random_device]. *)
Definition helper_tcp_config : TCPConfig := mkTCPConfig 100 (recv_capacity TCPConfig_default) (send_capacity TCPConfig_default) None.

Definition multiplexer_config (ip_address : list byte) (random : Z) (address : Address) : result FdAdapterConfig :=
  let* c := FdAdapterConfig_default getaddrinfo in
  let* source := Address_of_host getaddrinfo ip_address (to_string (u16 random)) in
  Ok (mkFdAdapterConfig source address (loss_rate_dn c) (loss_rate_up c)).

Definition CS144TCPSocket_connect (address : Address) (random random_isn : Z) (turns : list (Turn tun_input)) (time : Z) rules
    (s : TCPSpongeSocket (FDWrapper * FdAdapterBase) BufferList) :=
  match multiplexer_config (lit "169.254.144.9") random address with
  | Throw e => Some (Threw e, rules, s)
  | Ok c_ad => connect getnameinfo (H := tun_device_adapter getaddrinfo getnameinfo) helper_tcp_config c_ad random_isn turns time rules s
  end.

(** [tap] answers the write of the first frame.  The arguments of the adapter's
    constructor are evaluated in some order; this is the one of the text. *)
Definition FullStackSocket_of (answers : DeviceAnswers) (tap : list call) (random : list Z) :
    option (result (TCPSpongeSocket (FDWrapper * EthernetAdapter) Empty_set)) :=
  match
    (let* (fd, _) := TunTapFD_of (lit "tap10") false (dv_open answers) (dv_ioctl answers) in
     let* ip_address := Address_of_host getaddrinfo LOCAL_TAP_IP_ADDRESS (lit "0") in
     let* next_hop := Address_of_host getaddrinfo LOCAL_TAP_NEXT_HOP_ADDRESS (lit "0") in
     let* cfg := FdAdapterConfig_default getaddrinfo in
     Ok (fd, EthernetAdapter_of (mkFdAdapterBase cfg false) (random_private_ethernet_address random) ip_address next_hop))
  with
  | Throw e => Some (Throw e)
  | Ok (fd, adapter) =>
      match FileDescriptor.write (pairs tap) (BufferViewList_of_BufferList (EthernetFrame_serialize EthernetFrame_default)) true fd with
      | None => None
      | Some (Throw e, _) => Some (Throw e)
      | Some (Ok _, fd) => Some (TCPSpongeSocket_over (dv_socketpair answers) (dv_fds answers) (dv_pair answers) (fd, adapter))
      end
  end.

Definition FullStackSocket_connect (address : Address) (random random_isn : Z) (turns : list (Turn tap_input)) (time : Z) rules
    (s : TCPSpongeSocket (FDWrapper * EthernetAdapter) Empty_set) :=
  match multiplexer_config LOCAL_TAP_IP_ADDRESS random address with
  | Throw e => Some (Threw e, rules, s)
  | Ok c_ad => connect getnameinfo (H := tap_device_adapter getaddrinfo getnameinfo) helper_tcp_config c_ad random_isn turns time rules s
  end.
End helpers.

(** ** Properties *)

(** The Ethernet address is one of an individual, privately assigned: the lowest
    bit of the first byte is clear and the second set.  So it is not the
    broadcast address. *)
Lemma random_address_private values :
  (6 <= length values)%nat ->
  let a := random_private_ethernet_address values in
  length a = 6%nat /\ Z.testbit (b2z (hd Byte.x00 a)) 0 = false /\ Z.testbit (b2z (hd Byte.x00 a)) 1 = true /\
  tail a = map z2b (take 5 (tail values)) /\ a <> ETHERNET_BROADCAST.
Proof.
  intros Hl. destruct values as [|v values]; [simpl in Hl; lia|]. unfold random_private_ethernet_address. cbn [take map hd tail length].
  pose proof (b2z_range (z2b (u8 v))) as Hv. set (x := b2z (z2b v)) in *.
  assert (0 <= Z.land (Z.lor x 2) 0xfe < 256) as Hr.
  { change 0xfe with (Z.land 0xfe (Z.ones 8)). rewrite Z.land_assoc, Z.land_ones by lia. apply Z.mod_pos_bound. lia. }
  rewrite b2z_z2b, u8_small by lia. rewrite !Z.land_spec, !Z.lor_spec.
  split; [rewrite length_map, length_take; simpl in Hl; lia|]. split; [by rewrite andb_false_r|].
  split; [change (Z.testbit 2 1) with true; by rewrite orb_true_r|].
  split; [done|]. intros E. assert (Z.testbit (Z.land (Z.lor x 2) 0xfe) 0 = true) as Hb.
  { apply (f_equal (fun l => b2z (hd Byte.x00 l))) in E. cbn [hd] in E. rewrite b2z_z2b, u8_small in E by lia. by rewrite E. }
  by rewrite Z.land_spec, andb_false_r in Hb.
Qed.

Section connecting.
Context `{NumericResolver getaddrinfo getnameinfo}.
Context (cfg0 : FdAdapterConfig) (Hcfg0 : FdAdapterConfig_default getaddrinfo = Ok cfg0).

Lemma multiplexer_config_eq i random address :
  0 <= i < 2 ^ 32 ->
  multiplexer_config getaddrinfo (inet_ntoa i) random address = Ok (mkFdAdapterConfig (endpoint i (u16 random)) address 0 0).
Proof.
  intros Hi. unfold multiplexer_config. rewrite Hcfg0. cbn [bind].
  rewrite Address_of_host_endpoint by (done || apply u16_range). cbn [bind].
  assert (loss_rate_dn cfg0 = 0 /\ loss_rate_up cfg0 = 0) as [-> ->]; [|done].
  revert Hcfg0. unfold FdAdapterConfig_default. destruct (Address_of_ip _ _ _) as [a|]; [|done]. cbn [bind]. by intros [= <-].
Qed.

Lemma destination_text i p : 0 <= i < 2 ^ 32 -> 0 <= p < 2 ^ 16 ->
  Address_to_string getnameinfo (endpoint i p) = Ok (inet_ntoa i ++ lit ":" ++ to_string p).
Proof. intros Hi Hp. unfold Address_to_string. by rewrite ip_port_endpoint. Qed.
End connecting.

(** [connect] before its first turn. *)
Lemma connect_waits `{DatagramAdapter A Input Output} getnameinfo c_tcp c_ad random_isn time rules (s : TCPSpongeSocket A Output) text :
  _tcp s = None -> Address_to_string getnameinfo (destination c_ad) = Ok text ->
  exists rules' s', connect getnameinfo c_tcp c_ad random_isn [] time rules s = Some (Waiting, rules', s') /\
    _tcp s' = Some (TCPConnection.connect (TCPConnection_of c_tcp random_isn)) /\
    _datagram_adapter s' = da_set_config c_ad (_datagram_adapter s).
Proof.
  intros Ht Ha. destruct (connect_start_ok getnameinfo c_tcp c_ad random_isn rules s text Ht Ha) as (rules' & s' & E & Hc & Hst).
  unfold connect. rewrite E. cbn [_tcp_loop]. rewrite Hst. cbn [negb]. exists rules', s'. split_and!; try done.
  unfold connect_start in E. rewrite Ht in E. cbn [_initialize_TCP] in E. rewrite Ha in E.
  destruct (negb _); [done|]. by injection E as _ <-.
Qed.

(** The sockets with fixed devices connect as they should.  For a resolver that
    understands numeric addresses, [connect] of a fresh [CS144TCPSocket] or
    [FullStackSocket] to a numeric address starts a connection with a
    retransmission timeout of 100 ms in SYN_SENT, from the local address of the
    socket and a random port, to the given address. *)
Theorem helper_sockets_connect `{NumericResolver getaddrinfo getnameinfo} cfg0 i p random random_isn time
    (cs : TCPSpongeSocket (FDWrapper * FdAdapterBase) BufferList) (fs : TCPSpongeSocket (FDWrapper * EthernetAdapter) Empty_set) :
  FdAdapterConfig_default getaddrinfo = Ok cfg0 -> 0 <= i < 2 ^ 32 -> 0 <= p < 2 ^ 16 -> _tcp cs = None -> _tcp fs = None ->
  let tcp := TCPConnection.connect (TCPConnection_of (mkTCPConfig 100 64000 64000 None) random_isn) in
  TCPConnection.state tcp = TCPState_of_State SYN_SENT /\
  (exists rules' cs', CS144TCPSocket_connect getaddrinfo getnameinfo (endpoint i p) random random_isn [] time [] cs = Some (Waiting, rules', cs') /\
     _tcp cs' = Some tcp /\
     config (_datagram_adapter cs').2 = mkFdAdapterConfig (endpoint 0xa9fe9009 (u16 random)) (endpoint i p) 0 0) /\
  (exists rules' fs', FullStackSocket_connect getaddrinfo getnameinfo (endpoint i p) random random_isn [] time [] fs = Some (Waiting, rules', fs') /\
     _tcp fs' = Some tcp /\
     config (eth_base (_datagram_adapter fs').2) = mkFdAdapterConfig (endpoint 0xa9fe0a09 (u16 random)) (endpoint i p) 0 0).
Proof.
  intros H0 Hi Hp Hcs Hfs tcp. split; [done|].
  pose proof (destination_text i p Hi Hp) as Ht. split.
  - unfold CS144TCPSocket_connect. change (lit "169.254.144.9") with (inet_ntoa 0xa9fe9009).
    rewrite (multiplexer_config_eq cfg0 H0) by lia.
    destruct (connect_waits (H := tun_device_adapter getaddrinfo getnameinfo) getnameinfo helper_tcp_config
      (mkFdAdapterConfig (endpoint 0xa9fe9009 (u16 random)) (endpoint i p) 0 0) random_isn time [] cs _ Hcs Ht) as (rules' & s' & E & Hc & Ha).
    exists rules', s'. rewrite E, Hc, Ha. done.
  - unfold FullStackSocket_connect. change LOCAL_TAP_IP_ADDRESS with (inet_ntoa 0xa9fe0a09).
    rewrite (multiplexer_config_eq cfg0 H0) by lia.
    destruct (connect_waits (H := tap_device_adapter getaddrinfo getnameinfo) getnameinfo helper_tcp_config
      (mkFdAdapterConfig (endpoint 0xa9fe0a09 (u16 random)) (endpoint i p) 0 0) random_isn time [] fs _ Hfs Ht) as (rules' & s' & E & Hc & Ha).
    exists rules', s'. rewrite E, Hc, Ha. done.
Qed.

(** Both sockets, made by their constructors with a kernel that grants everything. *)
Definition granted : DeviceAnswers :=
  let ok := mkCall 0 0 in
  let stream := (mkSockopt ok AF_UNIX 4, mkSockopt ok SOCK_STREAM 4) in
  mkDeviceAnswers (mkCall 3 0) ok ok (4, 5) (mkPairAnswers stream stream ok ok).
Definition demo_address_bytes : list Z := [0x1ff; 2; 3; 4; 5; 6].
Definition demo_cs144 : result (TCPSpongeSocket (FDWrapper * FdAdapterBase) BufferList) := CS144TCPSocket_of resolve_numeric granted.
Definition demo_full : option (result (TCPSpongeSocket (FDWrapper * EthernetAdapter) Empty_set)) :=
  FullStackSocket_of resolve_numeric granted [mkCall 14 0] demo_address_bytes.

Lemma helper_sockets_connect_witness :
  exists cs fs rules cs', demo_cs144 = Ok cs /\ demo_full = Some (Ok fs) /\
    CS144TCPSocket_connect resolve_numeric name_numeric (endpoint 0x0a000001 80) 70000 7 [] 0 [] cs = Some (Waiting, rules, cs') /\
    source (config (_datagram_adapter cs').2) = endpoint 0xa9fe9009 4464 /\
    _ethernet_address (_interface (_datagram_adapter fs).2) = map z2b [0xfe; 2; 3; 4; 5; 6].
Proof.
  assert (exists cfg0, FdAdapterConfig_default resolve_numeric = Ok cfg0) as [cfg0 H0] by (eexists; vm_compute; reflexivity).
  destruct demo_cs144 as [cs|] eqn:Ec; [|by vm_compute in Ec]. destruct demo_full as [[fs|]|] eqn:Ef; [|by vm_compute in Ef..].
  assert (_tcp cs = None) as Hc by (by vm_compute in Ec; injection Ec as <-).
  assert (_tcp fs = None) as Hf by (by vm_compute in Ef; injection Ef as <-).
  destruct (helper_sockets_connect (getaddrinfo := resolve_numeric) (getnameinfo := name_numeric) cfg0 0x0a000001 80 70000 7 0 cs fs
    H0 ltac:(lia) ltac:(lia) Hc Hf) as (_ & (rules & cs' & E & _ & Es) & _).
  exists cs, fs, rules, cs'. split; [done|]. split; [done|]. split; [exact E|]. rewrite Es. split; [done|].
  vm_compute in Ef. injection Ef as <-. by vm_compute.
Defined.
