(* ===== verification/StreamCopy.v ===== *)
(** Copying between a socket and the terminal: [bidirectional_stream_copy] of
    [apps/bidirectional_stream_copy.cc], the body of the command line programs.

    An event loop with four rules moves bytes from standard input through the
    byte stream [_outbound] to the socket, and from the socket through [_inbound]
    to standard output.  The answers of the kernel are the [CopyEvents] of a turn;
    what has been read and written so far is part of the state. *)
From S2P Require Import Prelude Text Buffer FileDescriptor EventLoop Address Socket ByteStream ConnectionStreams TCPSpongeSocket.

Definition max_copy_length : Z := 65536.
Definition copy_buffer_size : Z := 1048576.

Record Copy := mkCopy {
  _input : FDWrapper; _output : FDWrapper; _socket : FDWrapper;
  _outbound : ByteStream; _inbound : ByteStream;
  _outbound_shutdown : bool; _inbound_shutdown : bool;
  from_input : list byte; to_socket : list byte; from_socket : list byte; to_output : list byte }.

(** The answers to the calls of a turn: both reads with their bytes, both writes,
    and the ends of the two streams. *)
Record CopyEvents := mkCopyEvents {
  ce_input : call; ce_input_bytes : list byte; ce_socket_write : call; ce_shutdown : call;
  ce_socket : call; ce_socket_bytes : list byte; ce_output_write : call; ce_close : call }.

(** ** Moving bytes *)

(** A read into a stream, which is ended with the descriptor: the bytes read, the
    descriptor and the stream. *)
Definition copy_in (c : call) (bytes : list byte) (w : FDWrapper) (st : ByteStream) : result (list byte) * FDWrapper * ByteStream :=
  match FileDescriptor.read (remaining_capacity st) (ret c) (errno c) bytes w with
  | (Throw e, w) => (Throw e, w, st)
  | (Ok data, w) =>
      let st := (ByteStream.write data st).2 in
      (Ok data, w, if FileDescriptor.eof w then end_input st else st)
  end.

(** A write from a stream: the bytes written, the descriptor and the stream. *)
Definition copy_out (c : call) (w : FDWrapper) (st : ByteStream) : option (result (list byte) * FDWrapper * ByteStream) :=
  let bytes_to_write := Z.min max_copy_length (buffer_size st) in
  let data := peek_output bytes_to_write st in
  match FileDescriptor.write [(ret c, errno c)] (BufferViewList_of_string data) false w with
  | None => None
  | Some (Throw e, w) => Some (Throw e, w, st)
  | Some (Ok bytes_written, w) => Some (Ok (ztake bytes_written data), w, pop_output bytes_written st)
  end.

(** ** The rules *)

Definition outbound_read (ev : CopyEvents) (s : Copy) : option (result unit * Copy) :=
  match copy_in (ce_input ev) (ce_input_bytes ev) (_input s) (_outbound s) with
  | (r, w, st) =>
      let data := match r with Ok d => d | Throw _ => [] end in
      Some (match r with Ok _ => Ok tt | Throw e => Throw e end,
        mkCopy w (_output s) (_socket s) st (_inbound s) (_outbound_shutdown s) (_inbound_shutdown s)
          (from_input s ++ data) (to_socket s) (from_socket s) (to_output s))
  end.

Definition outbound_read_interest (s : Copy) : bool :=
  negb (ByteStream.error (_outbound s)) && (0 <? remaining_capacity (_outbound s)) && negb (ByteStream.error (_inbound s)).

Definition outbound_end (ev : CopyEvents) (s : Copy) : option (result unit * Copy) :=
  Some (Ok tt, mkCopy (_input s) (_output s) (_socket s) (end_input (_outbound s)) (_inbound s) (_outbound_shutdown s) (_inbound_shutdown s)
    (from_input s) (to_socket s) (from_socket s) (to_output s)).

Definition outbound_write (ev : CopyEvents) (s : Copy) : option (result unit * Copy) :=
  match copy_out (ce_socket_write ev) (_socket s) (_outbound s) with
  | None => None
  | Some (Throw e, w, st) =>
      Some (Throw e, mkCopy (_input s) (_output s) w st (_inbound s) (_outbound_shutdown s) (_inbound_shutdown s)
        (from_input s) (to_socket s) (from_socket s) (to_output s))
  | Some (Ok data, w, st) =>
      let after w done := mkCopy (_input s) (_output s) w st (_inbound s) done (_inbound_shutdown s)
        (from_input s) (to_socket s ++ data) (from_socket s) (to_output s) in
      if ByteStream.eof st then
        match shutdown SHUT_WR (ce_shutdown ev) w with
        | (Throw e, w) => Some (Throw e, after w (_outbound_shutdown s))
        | (Ok _, w) => Some (Ok tt, after w true)
        end
      else Some (Ok tt, after w (_outbound_shutdown s))
  end.

Definition outbound_write_interest (s : Copy) : bool :=
  negb (buffer_empty (_outbound s)) || (ByteStream.eof (_outbound s) && negb (_outbound_shutdown s)).

Definition inbound_read (ev : CopyEvents) (s : Copy) : option (result unit * Copy) :=
  match copy_in (ce_socket ev) (ce_socket_bytes ev) (_socket s) (_inbound s) with
  | (r, w, st) =>
      let data := match r with Ok d => d | Throw _ => [] end in
      Some (match r with Ok _ => Ok tt | Throw e => Throw e end,
        mkCopy (_input s) (_output s) w (_outbound s) st (_outbound_shutdown s) (_inbound_shutdown s)
          (from_input s) (to_socket s) (from_socket s ++ data) (to_output s))
  end.

Definition inbound_read_interest (s : Copy) : bool :=
  negb (ByteStream.error (_inbound s)) && (0 <? remaining_capacity (_inbound s)) && negb (ByteStream.error (_outbound s)).

Definition inbound_end (ev : CopyEvents) (s : Copy) : option (result unit * Copy) :=
  Some (Ok tt, mkCopy (_input s) (_output s) (_socket s) (_outbound s) (end_input (_inbound s)) (_outbound_shutdown s) (_inbound_shutdown s)
    (from_input s) (to_socket s) (from_socket s) (to_output s)).

Definition inbound_write (ev : CopyEvents) (s : Copy) : option (result unit * Copy) :=
  match copy_out (ce_output_write ev) (_output s) (_inbound s) with
  | None => None
  | Some (Throw e, w, st) =>
      Some (Throw e, mkCopy (_input s) w (_socket s) (_outbound s) st (_outbound_shutdown s) (_inbound_shutdown s)
        (from_input s) (to_socket s) (from_socket s) (to_output s))
  | Some (Ok data, w, st) =>
      let after w done := mkCopy (_input s) w (_socket s) (_outbound s) st (_outbound_shutdown s) done
        (from_input s) (to_socket s) (from_socket s) (to_output s ++ data) in
      if ByteStream.eof st then
        match FileDescriptor.close (ret (ce_close ev)) (errno (ce_close ev)) w with
        | (Throw e, w) => Some (Throw e, after w (_inbound_shutdown s))
        | (Ok _, w) => Some (Ok tt, after w true)
        end
      else Some (Ok tt, after w (_inbound_shutdown s))
  end.

Definition inbound_write_interest (s : Copy) : bool :=
  negb (buffer_empty (_inbound s)) || (ByteStream.eof (_inbound s) && negb (_inbound_shutdown s)).

(** ** The loop *)

(** The descriptors of the rules: standard input (0), the socket (1), standard
    output (2). *)
Definition copy_world : Type := Copy * CopyEvents.
Definition copy_wrapper (fd : nat) (w : copy_world) : FDWrapper :=
  match fd with O => _input w.1 | 1%nat => _socket w.1 | _ => _output w.1 end.
Definition at_turn (f : CopyEvents -> Copy -> option (result unit * Copy)) : action (S := copy_world) :=
  fun w => match f w.2 w.1 with Some (r, s) => Some (r, (s, w.2)) | None => None end.

Definition outbound_read_rule : Rule copy_world :=
  mkRule 0 In (at_turn outbound_read) (fun w => outbound_read_interest w.1) (at_turn outbound_end).
Definition outbound_write_rule : Rule copy_world :=
  mkRule 1 Out (at_turn outbound_write) (fun w => outbound_write_interest w.1) (at_turn outbound_end).
Definition inbound_read_rule : Rule copy_world :=
  mkRule 1 In (at_turn inbound_read) (fun w => inbound_read_interest w.1) (at_turn inbound_end).
Definition inbound_write_rule : Rule copy_world :=
  mkRule 2 Out (at_turn inbound_write) (fun w => inbound_write_interest w.1) (at_turn inbound_end).

Definition copy_rules : list (Rule copy_world) :=
  let add r rules := add_rule (fd r) (direction r) (callback r) (interest r) (cancel r) rules in
  add inbound_write_rule (add inbound_read_rule (add outbound_write_rule (add outbound_read_rule []))).

(** A turn: the events, and the answer of [poll]. *)
Record CopyTurn := mkCopyTurn { ct_events : CopyEvents; ct_poll : list pollfd -> Z -> Z * Z * list Z }.

Fixpoint copy_loop (turns : list CopyTurn) (rules : list (Rule copy_world)) (s : Copy) :
    option (progress * list (Rule copy_world) * Copy) :=
  match turns with
  | [] => Some (Waiting, rules, s)
  | t :: turns =>
      match wait_next_event copy_wrapper (ct_poll t) (-1) rules (s, ct_events t) with
      | None => None
      | Some (Throw e, rules, (s, _)) => Some (Threw e, rules, s)
      | Some (Ok Exit, rules, (s, _)) => Some (Left, rules, s)
      | Some (Ok _, rules, (s, _)) => copy_loop turns rules s
      end
  end.

(** The state before the loop: descriptors 0 and 1, and the socket; [flags] are
    the answers to [fcntl]. *)
Definition copy_start (flags : list (call * call)) (socket : FDWrapper) : result Copy :=
  let* input := FileDescriptor_of 0 in
  let* output := FileDescriptor_of 1 in
  let set_nonblocking n :=
    let '(get, set) := nth n flags (mkCall 0 0, mkCall 0 0) in set_blocking false (ret get) (errno get) (ret set) (errno set) in
  let* _ := set_nonblocking 0%nat in
  let* _ := set_nonblocking 1%nat in
  let* _ := set_nonblocking 2%nat in
  Ok (mkCopy input output socket (ByteStream_of copy_buffer_size) (ByteStream_of copy_buffer_size) false false [] [] [] []).

Definition bidirectional_stream_copy (flags : list (call * call)) (turns : list CopyTurn) (socket : FDWrapper) :
    result (option (progress * list (Rule copy_world) * Copy)) :=
  let* s := copy_start flags socket in Ok (copy_loop turns copy_rules s).

(** ** Nothing is lost, repeated or reordered *)

Definition sound_buffer (st : ByteStream) : Prop := sound copy_buffer_size st.

Lemma copy_in_ok c bytes w st r w' st' :
  sound_buffer st -> copy_in c bytes w st = (r, w', st') ->
  let data := match r with Ok d => d | Throw _ => [] end in
  sound_buffer st' /\ ByteStream._stream st' = ByteStream._stream st ++ data /\
  (ByteStream.input_ended st = true -> ByteStream.input_ended st' = true) /\ ByteStream.error st' = ByteStream.error st.
Proof.
  intros Hs. unfold copy_in. destruct (FileDescriptor.read _ _ _ _ _) as [[data|e] w1] eqn:Er.
  2: { intros [= <- <- <-]. by rewrite app_nil_r. }
  destruct Hs as [Hw Hc]. rewrite remaining_capacity_eq in Er by done.
  apply read_bound in Er as (Hl & _); [|destruct Hw; lia]. rewrite write_eq by done. cbn [snd].
  assert (accepted data st = data) as -> by (unfold accepted; by rewrite ztake_all).
  pose proof (wf_write data st Hw) as Hw'. rewrite write_eq in Hw' by done. cbn [snd] in Hw'.
  assert (accepted data st = data) as E by (unfold accepted; by rewrite ztake_all). rewrite E in Hw'.
  destruct (FileDescriptor.eof w1); intros [= <- <- <-]; (split; [split; [|done]|done]); [by apply wf_end_input|done].
Qed.

Lemma copy_out_ok c w st r w' st' :
  sound_buffer st -> copy_out c w st = Some (r, w', st') ->
  let data := match r with Ok d => d | Throw _ => [] end in
  sound_buffer st' /\ data ++ ByteStream._stream st' = ByteStream._stream st /\
  ByteStream.input_ended st' = ByteStream.input_ended st /\ ByteStream.error st' = ByteStream.error st.
Proof.
  intros [Hw Hc]. unfold copy_out. cbv zeta. set (n := Z.min max_copy_length (buffer_size st)).
  assert (0 <= n <= len (ByteStream._stream st) /\ n <= 65536) as Hn.
  { unfold n, max_copy_length, buffer_size. rewrite (wf_size _ Hw). lia. }
  assert (peek_output n st = ztake n (ByteStream._stream st)) as Hp by (by apply peek_output_eq).
  assert (len (peek_output n st) = n) as Hpl by (rewrite Hp, len_ztake; lia).
  destruct (FileDescriptor.write _ _ _ _) as [[[k|e] w1]|] eqn:Ew; [| |done].
  2: { by intros [= <- <- <-]. }
  apply write_once in Ew as [Hk _]; [|lia]. intros [= <- <- <-]. rewrite Hpl in Hk.
  rewrite Hp, ztake_ztake by lia. split; [split; [apply wf_pop; [done|lia]|done]|].
  rewrite pop_output_eq by (done || lia). cbn [ByteStream._stream]. split; [apply ztake_zdrop|done].
Qed.

Record flowing (s : Copy) : Prop := {
  fl_outbound : sound_buffer (_outbound s);
  fl_inbound : sound_buffer (_inbound s);
  fl_to_socket : to_socket s ++ ByteStream._stream (_outbound s) = from_input s;
  fl_to_output : to_output s ++ ByteStream._stream (_inbound s) = from_socket s;
  fl_shutdown : _outbound_shutdown s = true -> ByteStream.input_ended (_outbound s) = true;
  fl_closed : _inbound_shutdown s = true -> ByteStream.input_ended (_inbound s) = true }.

Lemma outbound_read_flowing ev s r s' : flowing s -> outbound_read ev s = Some (r, s') -> flowing s'.
Proof.
  intros [H1 H2 H3 H4 H5 H6]. unfold outbound_read. destruct (copy_in _ _ _ _) as [[q w] st] eqn:E.
  apply copy_in_ok in E as (Hs & Hd & He & _); [|done]. intros [= _ <-]. split; simpl; try done; [by rewrite Hd, <- H3, app_assoc|auto].
Qed.

Lemma inbound_read_flowing ev s r s' : flowing s -> inbound_read ev s = Some (r, s') -> flowing s'.
Proof.
  intros [H1 H2 H3 H4 H5 H6]. unfold inbound_read. destruct (copy_in _ _ _ _) as [[q w] st] eqn:E.
  apply copy_in_ok in E as (Hs & Hd & He & _); [|done]. intros [= _ <-]. split; simpl; try done; [by rewrite Hd, <- H4, app_assoc|auto].
Qed.

Lemma eof_ended st : ByteStream.eof st = true -> ByteStream.input_ended st = true.
Proof. unfold ByteStream.eof. intros [H _]%andb_true_iff. exact H. Qed.

Lemma outbound_write_flowing ev s r s' : flowing s -> outbound_write ev s = Some (r, s') -> flowing s'.
Proof.
  intros [H1 H2 H3 H4 H5 H6]. unfold outbound_write. destruct (copy_out _ _ _) as [[[q w] st]|] eqn:E; [|done].
  apply copy_out_ok in E as (Hs & Hd & He & _); [|done].
  assert (forall w done, (done = true -> ByteStream.input_ended st = true) ->
    flowing (mkCopy (_input s) (_output s) w st (_inbound s) done (_inbound_shutdown s)
      (from_input s) (to_socket s ++ match q with Ok d => d | Throw _ => [] end) (from_socket s) (to_output s))) as Hf.
  { intros w0 b Hb. split; simpl; try done. by rewrite <- app_assoc, Hd. }
  rewrite <- He in H5. destruct q as [data|e]; [|intros [= _ <-]; specialize (Hf w _ H5); by rewrite app_nil_r in Hf].
  destruct (ByteStream.eof st) eqn:Ee; [|intros [= _ <-]; by apply Hf]. apply eof_ended in Ee.
  destruct (shutdown _ _ _) as [[?|e] w1]; intros [= _ <-]; by apply Hf.
Qed.

Lemma inbound_write_flowing ev s r s' : flowing s -> inbound_write ev s = Some (r, s') -> flowing s'.
Proof.
  intros [H1 H2 H3 H4 H5 H6]. unfold inbound_write. destruct (copy_out _ _ _) as [[[q w] st]|] eqn:E; [|done].
  apply copy_out_ok in E as (Hs & Hd & He & _); [|done].
  assert (forall w done, (done = true -> ByteStream.input_ended st = true) ->
    flowing (mkCopy (_input s) w (_socket s) (_outbound s) st (_outbound_shutdown s) done
      (from_input s) (to_socket s) (from_socket s) (to_output s ++ match q with Ok d => d | Throw _ => [] end))) as Hf.
  { intros w0 b Hb. split; simpl; try done. by rewrite <- app_assoc, Hd. }
  rewrite <- He in H6. destruct q as [data|e]; [|intros [= _ <-]; specialize (Hf w _ H6); by rewrite app_nil_r in Hf].
  destruct (ByteStream.eof st) eqn:Ee; [|intros [= _ <-]; by apply Hf]. apply eof_ended in Ee.
  destruct (FileDescriptor.close _ _ _) as [[?|e] w1]; intros [= _ <-]; by apply Hf.
Qed.

Lemma outbound_end_flowing ev s r s' : flowing s -> outbound_end ev s = Some (r, s') -> flowing s'.
Proof. intros [[]]. intros [= _ <-]. split; simpl; try done. split; [by apply wf_end_input|done]. Qed.

Lemma inbound_end_flowing ev s r s' : flowing s -> inbound_end ev s = Some (r, s') -> flowing s'.
Proof. intros [? []]. intros [= _ <-]. split; simpl; try done. split; [by apply wf_end_input|done]. Qed.

Lemma copy_rules_keep : Forall (keeps (fun w => flowing w.1)) copy_rules.
Proof.
  assert (forall f, (forall ev s r s', flowing s -> f ev s = Some (r, s') -> flowing s') ->
    forall w r w', flowing w.1 -> at_turn f w = Some (r, w') -> flowing w'.1) as Hat.
  { intros f Hf [s ev] r w' Hs. unfold at_turn. cbn [fst snd] in *. destruct (f ev s) as [[q s1]|] eqn:E; [|done].
    intros [= _ <-]. by eapply Hf. }
  repeat apply Forall_cons_2; [..|apply Forall_nil_2]; intros w r w' Hs [E|E]; revert E; cbn [callback cancel];
    apply Hat; try done; [apply outbound_read_flowing|apply outbound_end_flowing|apply outbound_write_flowing|apply outbound_end_flowing|
      apply inbound_read_flowing|apply inbound_end_flowing|apply inbound_write_flowing|apply inbound_end_flowing].
Qed.

Lemma copy_loop_flowing turns rules s p rules' s' :
  rules `sublist_of` copy_rules -> flowing s -> copy_loop turns rules s = Some (p, rules', s') ->
  flowing s' /\ rules' `sublist_of` copy_rules.
Proof.
  revert rules s. induction turns as [|t turns IH]; intros rules s Hsub Hs; cbn [copy_loop]; [by intros [= _ <- <-]|].
  destruct (wait_next_event _ _ _ _ _) as [[[r rules1] [s1 ev]]|] eqn:E; [|done].
  apply (wait_next_event_invariant _ (fun w => flowing w.1)) in E as [H1 H2];
    [|eapply Forall_sublist_of; [exact Hsub|apply copy_rules_keep]|done].
  cbn [fst] in H1. assert (rules1 `sublist_of` copy_rules) as Hsub1 by (by etrans).
  destruct r as [[]|e]; try (by intros [= _ <- <-]); by apply IH.
Qed.

Lemma copy_start_flowing flags socket s : copy_start flags socket = Ok s -> flowing s.
Proof.
  unfold copy_start. cbn [FileDescriptor_of Z.ltb Z.compare bind].
  repeat (match goal with |- context [let '(get, set) := ?x in _] => destruct x as [? ?] end).
  do 3 (destruct (set_blocking _ _ _ _ _); [|done]; cbn [bind]). intros [= <-].
  assert (sound_buffer (ByteStream_of copy_buffer_size)) as Hb by (split; [by apply wf_init|done]). by split.
Qed.

Lemma copy_flowing flags turns socket p rules s :
  bidirectional_stream_copy flags turns socket = Ok (Some (p, rules, s)) -> flowing s /\ rules `sublist_of` copy_rules.
Proof.
  unfold bidirectional_stream_copy. destruct (copy_start flags socket) as [s0|] eqn:E0; [|done]. intros [= E].
  apply copy_loop_flowing in E; [done|done|by eapply copy_start_flowing].
Qed.

(** C20: The programs copy faithfully.  Whatever the terminal and the socket give and
    accept, in pieces of any size, at every moment the bytes written to the
    socket followed by those still buffered are exactly the bytes read from
    standard input, and likewise from the socket to standard output; and the
    socket is shut down, and standard output closed, only for a stream that has
    ended. *)
Theorem copy_in_order flags turns socket p rules s :
  bidirectional_stream_copy flags turns socket = Ok (Some (p, rules, s)) ->
  to_socket s ++ ByteStream._stream (_outbound s) = from_input s /\
  to_output s ++ ByteStream._stream (_inbound s) = from_socket s /\
  (_outbound_shutdown s = true -> ByteStream.input_ended (_outbound s) = true) /\
  (_inbound_shutdown s = true -> ByteStream.input_ended (_inbound s) = true).
Proof. intros [[] _]%copy_flowing. done. Qed.

(** *** The end *)

Lemma copy_rules_steady : steady copy_rules.
Proof.
  cbn [copy_rules add_rule app steady]. split_and!; try done; repeat apply Forall_cons_2; try apply Forall_nil_2;
    intros [s ev] res w' E; cbn [cancel] in E; by injection E as _ <-.
Qed.

Lemma steady_sublist (l k : list (Rule copy_world)) : l `sublist_of` k -> steady k -> steady l.
Proof.
  induction 1 as [|x l k Hl IH|x l k Hl IH]; cbn [steady]; [done| |]; intros [Hx Hs]; [|auto].
  split; [|auto]. by eapply Forall_sublist_of.
Qed.

(** [poll] is never interrupted by a signal. *)
Definition uninterrupted (t : CopyTurn) : Prop :=
  forall pollfds ret revents, ct_poll t pollfds (-1) = (ret, EINTR, revents) -> 0 <= s32 ret.

Lemma copy_loop_idle turns rules s rules' s' :
  Forall uninterrupted turns -> rules `sublist_of` copy_rules -> copy_loop turns rules s = Some (Left, rules', s') ->
  exists ev, Forall (fun r => interest r (s', ev) = false) rules'.
Proof.
  intros Hu. revert rules s. induction Hu as [|t turns Ht _ IH]; intros rules s Hsub; cbn [copy_loop]; [done|].
  assert (Forall (keeps (fun _ => True)) rules) as Hk by (apply Forall_forall; by intros r _ w q w' _ _).
  destruct (wait_next_event _ _ _ _ _) as [[[r rules1] [s1 ev]]|] eqn:E; [|done].
  pose proof (wait_next_event_invariant _ (fun _ => True) _ _ _ _ _ _ _ Hk I E) as [_ H2].
  assert (rules1 `sublist_of` copy_rules) as Hsub1 by (by etrans).
  destruct r as [[]|e]; try done; [by apply IH|by apply IH|]. intros [= <- <-].
  apply wait_next_event_exit in E as [Hidle|(fds & ret & revents & Ha & Hr)]; [by exists ev| |].
  - apply Ht in Ha. lia.
  - eapply steady_sublist; [exact Hsub|apply copy_rules_steady].
Qed.

Lemma idle_stream st b :
  sound_buffer st -> negb (buffer_empty st) || (ByteStream.eof st && negb b) = false ->
  ByteStream._stream st = [] /\ (ByteStream.input_ended st = true -> b = true).
Proof.
  intros [Hw _] H. apply orb_false_iff in H as [H1 H2]. apply negb_false_iff in H1. unfold ByteStream.eof in H2.
  rewrite H1, andb_true_r in H2. unfold buffer_empty in H1. apply Z.eqb_eq in H1.
  split; [by destruct (ByteStream._stream st)|]. intros He. unfold ByteStream.input_ended in He. rewrite He in H2. by destruct b.
Qed.


(** Two bytes are copied to the socket, and both streams end. *)
Definition copy_turn (input socket : call) (revents : list Z) : CopyTurn :=
  mkCopyTurn (mkCopyEvents input (lit "hi") (mkCall 2 0) (mkCall 0 0) socket [] (mkCall 0 0) (mkCall 0 0))
    (fun _ _ => (1, 0, revents)).
Definition demo_copy_turns : list CopyTurn :=
  [copy_turn (mkCall 2 0) (mkCall 0 0) [POLLIN; 0; 0; 0];
   copy_turn (mkCall 0 0) (mkCall 0 0) [POLLIN; POLLOUT; 0; 0];
   copy_turn (mkCall 0 0) (mkCall 0 0) [0; POLLIN; 0];
   copy_turn (mkCall 0 0) (mkCall 0 0) [0; POLLOUT];
   copy_turn (mkCall 0 0) (mkCall 0 0) []].
Definition demo_copy_socket : FDWrapper := mkFDWrapper 5 false false 0 0.
Definition demo_start : Copy :=
  let st := ByteStream_of copy_buffer_size in
  mkCopy (mkFDWrapper 0 false false 0 0) (mkFDWrapper 1 false false 0 0) demo_copy_socket st st false false [] [] [] [].

(** Whether a run returned, and the rules and the state it left. *)
Definition returned (r : result (option (progress * list (Rule copy_world) * Copy))) : bool :=
  match r with Ok (Some (Left, _, _)) => true | _ => false end.
Definition left_by (r : result (option (progress * list (Rule copy_world) * Copy))) : list (Rule copy_world) * Copy :=
  match r with Ok (Some (_, rules, s)) => (rules, s) | _ => ([], demo_start) end.

Lemma returned_inv r : returned r = true -> r = Ok (Some (Left, (left_by r).1, (left_by r).2)).
Proof. by destruct r as [[[[[] rules] s]|]|]. Qed.

Local Abbreviation demo_copy := (bidirectional_stream_copy [] demo_copy_turns demo_copy_socket).
Definition demo_copy_end : list (Rule copy_world) * Copy := left_by demo_copy.

Lemma demo_copy_returns : demo_copy = Ok (Some (Left, demo_copy_end.1, demo_copy_end.2)).
Proof. apply returned_inv. vm_compute. reflexivity. Qed.

(** The one rule that is left writes to the socket. *)
Definition one_writer (rules : list (Rule copy_world)) : bool :=
  match rules with [r] => Nat.eqb (fd r) 1 && (match direction r with Out => true | In => false end) | _ => false end.

Lemma one_writer_inv rules : one_writer rules = true -> exists r, rules = [r] /\ fd r = 1%nat /\ direction r = Out.
Proof.
  destruct rules as [|r [|]]; [done| |done]. cbn [one_writer]. intros [H1%Nat.eqb_eq H2]%andb_true_iff. exists r.
  by destruct (direction r).
Qed.

Lemma demo_copy_rules : exists r, demo_copy_end.1 = [r] /\ fd r = 1%nat /\ direction r = Out.
Proof. apply one_writer_inv. vm_compute. reflexivity. Qed.

Lemma sublist_one {A} (x : A) k : [x] `sublist_of` k -> x ∈ k.
Proof. intros (k1 & k2 & -> & _)%sublist_cons_l. set_solver. Qed.

Lemma demo_copy_keeps_rule : outbound_write_rule ∈ demo_copy_end.1.
Proof.
  destruct demo_copy_rules as (r & Er & Hf & Hd). rewrite Er.
  assert (r ∈ copy_rules) as Hr.
  { pose proof (copy_flowing _ _ _ _ _ _ demo_copy_returns) as [_ Hs]. rewrite Er in Hs. exact (sublist_one _ _ Hs). }
  assert (r = outbound_write_rule) as ->; [|by left].
  change copy_rules with [outbound_read_rule; outbound_write_rule; inbound_read_rule; inbound_write_rule] in Hr.
  rewrite !elem_of_cons in Hr. destruct Hr as [->|[->|[->|[->|Hr]]]]; [discriminate Hf|reflexivity|discriminate Hd|discriminate Hf|].
  destruct (not_elem_of_nil _ Hr).
Qed.

Lemma copy_in_order_witness :
  to_socket demo_copy_end.2 = lit "hi" /\
  to_socket demo_copy_end.2 ++ ByteStream._stream (_outbound demo_copy_end.2) = from_input demo_copy_end.2.
Proof.
  split; [vm_compute; reflexivity|].
  exact (proj1 (copy_in_order [] demo_copy_turns demo_copy_socket Left demo_copy_end.1 demo_copy_end.2 demo_copy_returns)).
Defined.

Lemma demo_copy_uninterrupted : Forall uninterrupted demo_copy_turns.
Proof. repeat apply Forall_cons_2; [..|apply Forall_nil_2]; intros fds ret revents E; discriminate E. Qed.

