(* ===== verification/Delivery.v ===== *)
(** A sender and a receiver at the two ends of a network that loses, repeats and
    reorders segments: the conditions on segments and acknowledgments in flight
    that stay true while both sides work ([Duplex] puts connections on top).

    [T] is the whole stream of the sender.  A segment in flight carries a piece of
    [T] inside the window the receiver has announced, or one unit (a byte or the
    FIN) to probe an empty window, or nothing; an acknowledgment in flight
    announces no more than the receiver can take. *)
From S2P Require Import Prelude WrappingIntegers Buffer ByteStream StreamReassembler TCPSegment TCPReceiver TCPSender.

(** ** Without FIN the stream does not end *)

Definition endless (s : StreamReassembler) : Prop :=
  input_ended s = false /\ Forall (fun p => eof p = false) (temporarily_descrete_data_storage s).

Lemma overlap_merger_eof a b : eof (overlap_merger a b).1 = eof a.
Proof. unfold overlap_merger. by destruct (_ =? 0). Qed.

Lemma scan_loop_endless fuel pre rest ub dg r :
  Forall (fun p => eof p = false) (pre ++ rest) -> eof dg = false -> scan_loop fuel pre rest ub dg = Some r ->
  match r with
  | Returned l _ => Forall (fun p => eof p = false) l
  | Left l _ dg' => Forall (fun p => eof p = false) l /\ eof dg' = false
  end.
Proof.
  revert pre rest ub dg. induction fuel as [|fuel IH]; intros pre [|ptr rest] ub dg Hl Hd; cbn [scan_loop];
    try (intros [= <-]; rewrite app_nil_r in Hl; done).
  assert (Forall (fun p => eof p = false) (pre ++ rest) /\ eof ptr = false) as [Hl' Hp].
  { rewrite Forall_app, Forall_cons in Hl. rewrite Forall_app. tauto. }
  destruct (_ && _); [by intros [= <-]|]. destruct (_ && _); [by intros [= <-]|]. destruct (_ && _).
  { destruct (_ <=? _); [by intros [= <-]|]. apply (IH [] (pre ++ rest)); [done|]. by rewrite overlap_merger_eof. }
  destruct (_ && _).
  { set (d := if _ <=? _ then dg else _). assert (eof d = false) as Hdd.
    { unfold d. destruct (_ <=? _); [done|]. by rewrite overlap_merger_eof. }
    destruct (pre ++ rest) as [|x l]; [by intros [= <-]|]. by apply (IH [] (x :: l)). }
  destruct (dg_eq _ _).
  { destruct (_ <? _).
    - destruct (pre ++ rest) as [|x l]; [by intros [= <-]|]. by apply (IH [] (x :: l)).
    - destruct (pre ++ ptr :: rest) as [|x l]; [by intros [= <-]|]. by apply (IH [] (x :: l)). }
  apply IH; [by rewrite <- app_assoc|done].
Qed.

Lemma finish_endless again data ex s s' :
  (forall d i t t', endless t -> again d i false t = Some t' -> endless t') ->
  endless s -> finish again data false ex s = Some s' -> endless s'.
Proof.
  intros IH [He Hs]. unfold finish, push_front_of_storage. cbv zeta. cbn [andb].
  destruct (temporarily_descrete_data_storage s) as [|w l] eqn:E; [by intros [= <-]; split; rewrite ?E|].
  destruct (_ && _); [|intros [= <-]; split; by rewrite ?E].
  apply Forall_cons in Hs as [-> Hs]. destruct (again _ _ _ _) as [t|] eqn:Ea; [|done]. intros [= <-].
  eapply IH; [|exact Ea]. by split.
Qed.

Lemma push_endless fuel data idx s s' : endless s -> push_substring fuel data idx false s = Some s' -> endless s'.
Proof.
  revert data idx s s'. induction fuel as [|fuel IH]; intros data idx s s' Hs; [done|]. cbn [push_substring].
  pose proof Hs as [He Hl].
  split_if; [by intros [= <-]|]. split_if; [by intros [= <-]|].
  split_if.
  { apply finish_endless; [exact IH|]. split; [|done]. unfold good_case, input_ended. simpl. by rewrite write_keeps_ended. }
  split_if.
  { unfold missing_middle_handler. destruct (scan_loop _ _ _ _ _) as [[l u|l u dg']|] eqn:Er; [..|done];
      apply scan_loop_endless in Er; try done; intros [= <-]; [by split|].
    split; [done|]. cbn [temporarily_descrete_data_storage]. destruct Er. rewrite (sort_perm (dg' :: l)). by constructor. }
  split_if; [|by apply finish_endless].
  unfold overlap_handler. apply finish_endless; [exact IH|]. split; [|done]. unfold input_ended. simpl. by rewrite write_keeps_ended.
Qed.

Section delivery.
Context (T : list byte) (isn : WrappingInt32) (cap : Z).
Context (Hisn : WrappingIntegers.wf isn) (Hcap : 0 <= cap) (Hbound : len T + cap < 2 ^ 31 - 4).

Let Hb64 : len T + cap < 2 ^ 64 - 1.
Proof. lia. Qed.
Let Hb62 : len T + cap < 2 ^ 62.
Proof. lia. Qed.

(** ** Segments on their way *)

(** [units] of sequence space from stream position [i] on: in the window, or a
    probe of one unit at a position already reached, or nothing. *)
Definition admissible (i units : Z) (r : TCPReceiver) : Prop :=
  i + units <= taken (_reassembler r) + cap \/ (units <= 1 /\ i <= next r) \/ units = 0.

Definition fin_unit (seg : TCPSegment) : Z := if fin (header seg) then 1 else 0.

Record carries (i : Z) (seg : TCPSegment) (r : TCPReceiver) : Prop := {
  ca_payload : str (payload seg) = slice i (len (str (payload seg))) T;
  ca_range : 0 <= i /\ (i + len (str (payload seg)) <= len T \/
    len (str (payload seg)) = 0 /\ fin (header seg) = false /\ i = len T + 1);
  ca_syn : syn (header seg) = true -> i = 0 /\ str (payload seg) = [] /\ fin (header seg) = false;
  ca_seqno : seqno (header seg) = wrap (if syn (header seg) then 0 else i + 1) isn;
  ca_fin : fin (header seg) = true -> i + len (str (payload seg)) = len T;
  ca_window : admissible i (len (str (payload seg)) + fin_unit seg) r }.

(** The receiver only moves forward; what it acknowledges after all of [T] has
    arrived does not matter. *)
Definition later (r r' : TCPReceiver) : Prop :=
  taken (_reassembler r) <= taken (_reassembler r') /\ next r <= next r' /\
  (next r' = len T \/ next r <> len T /\ abs_seqno r <= abs_seqno r').

(** Up to [A] is acknowledged. *)
Definition acknowledges (A : Z) (r : TCPReceiver) : Prop := A <= abs_seqno r \/ next r = len T.

Lemma acknowledges_later A r r' : later r r' -> acknowledges A r -> acknowledges A r'.
Proof. intros (_ & _ & [?|[? ?]]) [?|?]; [by right..|left; lia|done]. Qed.

Lemma later_still r r' : next r' = next r -> abs_seqno r' = abs_seqno r -> taken (_reassembler r) <= taken (_reassembler r') -> later r r'.
Proof. intros En Ea Ht. unfold later. rewrite En, Ea. split_and!; [done..|]. destruct (decide (next r = len T)); [by left|by right]. Qed.

Lemma later_refl r : later r r.
Proof. by apply later_still. Qed.

Lemma carries_later i seg r r' : later r r' -> carries i seg r -> carries i seg r'.
Proof. intros (? & ? & _) [? ? ? ? ? Hw]. split; try done. unfold admissible in *. lia. Qed.

(** ** The receiver *)

(** [n] bounds how often a segment has been received. *)
Record winv (n : Z) (r : TCPReceiver) : Prop := {
  wi_inv : inv T cap (_reassembler r);
  wi_cap : TCPReceiver._capacity r = cap;
  wi_first : first_segment r = true -> abs_seqno r = 0 /\ input_ended (_reassembler r) = false;
  wi_isn : first_segment r = false -> ISN r = isn /\ 1 <= abs_seqno r;
  wi_abs : 0 <= abs_seqno r <= len T + 2 + n;
  wi_safe : input_ended (_reassembler r) = false -> abs_seqno r <= next r + 1 \/ (next r = len T /\ abs_seqno r = len T + 2) }.

Lemma winv_init : winv 0 (TCPReceiver_of cap).
Proof. split; simpl; try done; [by apply inv_init; lia|lia|lia]. Qed.

Lemma winv_mono n m r : n <= m -> winv n r -> winv m r.
Proof. intros ? []. split; try done. lia. Qed.

Lemma winv_pop n k r : winv n r -> 0 <= k -> winv n (update_stream_out (pop_output k) r).
Proof. intros [] Hk. split; simpl; try done. by apply pop_inv. Qed.

Lemma pop_later n k r : winv n r -> 0 <= k -> later r (update_stream_out (pop_output k) r).
Proof.
  intros Hw Hk. apply later_still; [done..|]. pose proof (wi_inv n r Hw) as Hi. pose proof (inv_bounds T cap _ Hi) as Hb.
  pose proof (inv_next T cap _ Hi). pose proof (inv_written T cap _ Hi).
  unfold taken, update_stream_out, update_output in *. cbn [_reassembler _output].
  rewrite pop_output_eq by (done || apply (inv_out T cap _ Hi)). cbn [bytes_read _bytes_read].
  unfold bytes_read in *. rewrite u64_small; lia.
Qed.

Lemma winv_error n r : winv n r -> winv n (update_stream_out ByteStream.set_error r).
Proof. intros [Hi]. split; simpl; try done. destruct Hi. split; simpl; try done. by apply wf_set_error. Qed.

Lemma error_later r : later r (update_stream_out ByteStream.set_error r).
Proof. by apply later_still. Qed.

Lemma carries_consistent i seg r :
  carries i seg r -> consistent T (mkDatagram (str (payload seg)) i (len (str (payload seg))) (fin (header seg))).
Proof. intros [Hp [Hi Hr] _ _ Hf _]. unfold consistent; simpl. split_and!; try done. Qed.

(** A segment outside of the window finds the buffer full and is ignored. *)
Lemma carried_push n i seg r s' :
  winv n r -> carries i seg r -> push (str (payload seg)) i (fin (header seg)) (_reassembler r) = Some s' ->
  grows T cap (_reassembler r) s'.
Proof.
  intros Hw Hc. pose proof (wi_inv n r Hw) as Hi. pose proof (inv_bounds T cap _ Hi) as Hb.
  destruct (decide (0 < len (str (payload seg)) -> i + len (str (payload seg)) <= taken (_reassembler r) + cap)) as [HW|HW].
  - apply push_substring_grows; try done. by eapply carries_consistent.
  - destruct Hc as [_ [Hi0 _] _ _ _ Ha]. unfold push, enough. cbn [push_substring].
    rewrite (inv_remaining T cap _ Hi). unfold admissible, fin_unit in Ha.
    destruct (Z.eqb_spec (taken (_reassembler r) + cap - next r) 0) as [|Hne]; [|exfalso; apply HW; intros; destruct (fin _); lia].
    intros [= <-]. split_and!; done || lia.
Qed.

(** A position that is not near the checkpoint is taken for one far away. *)
Lemma unwrap_far p cp :
  0 <= p < 2 ^ 31 -> 0 <= cp < 2 ^ 63 - 2 ^ 31 ->
  unwrap (wrap p isn) isn cp = p \/ (2 ^ 32 <= unwrap (wrap p isn) isn cp /\ p + 2 ^ 31 < cp).
Proof.
  intros Hp Hcp. destruct (decide (cp - p <= 2 ^ 31)) as [H|H]; [left; apply unwrap_wrap_near; lia|right].
  pose proof (wrap_unwrap (wrap p isn) isn cp (wf_wrap _ _) Hcp) as E. apply wrap_cong in E as [k Hk].
  pose proof (unwrap_range (wrap p isn) isn cp). rewrite unwrap_spec in * by done.
  pose proof (sub_wrapping_range (wrap p isn) (wrap cp isn)).
  destruct (Z.leb_spec 0 (cp + sub_wrapping (wrap p isn) (wrap cp isn))); lia.
Qed.

(** Such a segment is beyond everything the reassembler takes. *)
Lemma push_far data idx e s : inv T cap s -> 2 ^ 32 - 1 <= idx -> push data idx e s = Some s.
Proof.
  intros Hi Hidx. unfold push, enough. cbn [push_substring]. destruct (_ =? 0); [done|].
  match goal with |- context [if ?b then Some s else _] => assert (b = true) as -> end; [|done].
  pose proof (inv_bounds T cap s Hi). pose proof (inv_next T cap s Hi). rewrite (inv_cap T cap s Hi).
  apply Z.leb_le. destruct (Z.leb_spec (_next_assembling_index s) (first_unassemble_byte_index s)); [|rewrite u64_small; lia].
  unfold first_unassemble_byte_index in *. destruct (temporarily_descrete_data_storage s) as [|w l] eqn:E; [rewrite u64_small; lia|].
  pose proof (inv_storage T cap s Hi) as Hst. rewrite E in Hst. apply Forall_cons in Hst as [(? & ? & ? & _) _].
  rewrite u64_small; lia.
Qed.

Lemma carries_position i seg r : carries i seg r -> 0 <= position seg i <= len T + 2.
Proof. intros [_ [? Hr] _ _ _ _]. pose proof (len_nonneg (str (payload seg))). unfold position. destruct (syn (header seg)); lia. Qed.

(** What a receiver makes of a segment whose position is found. *)
Lemma recv_near n i seg r :
  n < 2 ^ 62 -> winv n r -> carries i seg r -> unwrap (seqno (header seg)) isn (abs_seqno r) = position seg i ->
  segment_received seg r =
  if (first_segment r && negb (syn (header seg))) || ((abs_seqno r =? 1) && syn (header seg)) then Some r
  else
    match push (str (payload seg)) i (fin (header seg)) (_reassembler r) with
    | None => None
    | Some s => Some (mkTCPReceiver s cap (acked (position seg i) seg s (abs_seqno r)) isn false)
    end.
Proof.
  intros Hn Hw Hc Eu. pose proof Hw as [Hi Hca Hf Hs Ha Hsafe]. pose proof Hc as [_ [Hi0 _] Hsyn Hseq _ _].
  destruct (position_index seg i Hi0) as [Ei Esyn]; [intros; by apply Hsyn|]. fold (position seg i) in Hseq.
  rewrite (recv_at T isn cap Hisn Hcap Hb62 (position seg i) seg i r); try done; [by rewrite Ei|by intros; apply Hf|by intros; apply Hs|lia|].
  rewrite Ei. intros s' Hpu. by destruct (carried_push _ _ _ _ _ Hw Hc Hpu).
Qed.

(** As long as the stream is open the position is found. *)
Lemma open_unwrap n i seg r :
  n < 2 ^ 62 -> winv n r -> carries i seg r -> input_ended (_reassembler r) = false ->
  unwrap (seqno (header seg)) isn (abs_seqno r) = position seg i.
Proof.
  intros Hn Hw Hc Hopen. pose proof Hw as [Hi _ _ _ Ha Hsafe]. pose proof (carries_position _ _ _ Hc). pose proof (inv_next T cap _ Hi).
  rewrite (ca_seqno _ _ _ Hc). fold (position seg i). destruct (unwrap_far (position seg i) (abs_seqno r)) as [?|[_ ?]]; [lia|lia|done|].
  destruct (Hsafe Hopen); lia.
Qed.

(** What a receiver makes of a segment: nothing, or its bytes are pushed at
    their position, or, after the end, it is taken for a far away one. *)
Lemma recv_cases n i seg r r' :
  n < 2 ^ 62 -> winv n r -> carries i seg r -> segment_received seg r = Some r' ->
  r' = r \/
  exists pos s', r' = mkTCPReceiver s' cap (acked pos seg s' (abs_seqno r)) isn false /\ grows T cap (_reassembler r) s' /\
    (first_segment r = true -> syn (header seg) = true) /\
    (pos = position seg i /\ push (str (payload seg)) i (fin (header seg)) (_reassembler r) = Some s' \/
     2 ^ 32 <= pos /\ s' = _reassembler r /\ input_ended (_reassembler r) = true).
Proof.
  intros Hn Hw Hc. pose proof Hw as [Hi Hca Hf Hs Ha Hsafe]. pose proof (carries_position _ _ _ Hc) as Hp.
  pose proof (inv_next T cap _ Hi) as Hnx. pose proof Hc as [_ [Hi0 _] Hsyn Hseq _ _].
  destruct (position_index seg i Hi0) as [Ei Esyn]; [intros; by apply Hsyn|].
  fold (position seg i) in Hseq.
  destruct (unwrap_far (position seg i) (abs_seqno r)) as [Eu|[Eu1 Eu2]]; [lia..| |]; rewrite <- Hseq in *.
  - rewrite (recv_near n i seg r) by done. destruct (_ || _) eqn:Eg; [intros [= <-]; by left|]. apply orb_false_iff in Eg as [Eg _].
    destruct (push _ _ _ _) as [s'|] eqn:Ep; [|done]. intros [= <-]. right. exists (position seg i), s'.
    split_and!; [done|by eapply carried_push|by destruct (first_segment r), (syn (header seg))|by left].
  - destruct (input_ended (_reassembler r)) eqn:Eend; [|destruct (Hsafe eq_refl); lia].
    remember (unwrap (seqno (header seg)) isn (abs_seqno r)) as pos eqn:Epos.
    assert ((if 0 <? pos then pos - 1 else pos) = pos - 1) as Eidx by (destruct (Z.ltb_spec 0 pos); lia).
    rewrite (recv_at T isn cap Hisn Hcap Hb62 pos seg i r); try done; [|by intros; apply Hf|by intros; apply Hs|lia|lia|].
    2: { rewrite Eidx, push_far by (done || lia). by intros s' [= <-]. }
    rewrite Eidx, push_far by (done || lia). destruct (_ || _) eqn:Eg; [intros [= <-]; by left|].
    apply orb_false_iff in Eg as [Eg _]. intros [= <-]. right. exists pos, (_reassembler r).
    split_and!; [done|by split|by destruct (first_segment r), (syn (header seg))|by right].
Qed.

(** How far the acknowledgment goes. *)
Lemma acked_range pos seg s abs n :
  inv T cap s -> 0 <= abs <= len T + 2 + n -> 0 <= n -> (abs = 0 -> pos = 0) ->
  1 <= acked pos seg s abs <= len T + 2 + (n + 1).
Proof.
  intros Hi Ha Hn Hz. pose proof (inv_bounds T cap _ Hi). pose proof (inv_next T cap _ Hi).
  unfold acked. destruct (fin _ || _); repeat zcase; simpl; lia.
Qed.

(** It never goes back. *)
Lemma acked_later n i seg r s' :
  winv n r -> carries i seg r -> push (str (payload seg)) i (fin (header seg)) (_reassembler r) = Some s' ->
  abs_seqno r <= acked (position seg i) seg s' (abs_seqno r).
Proof.
  intros Hw Hc Hp. pose proof Hw as [Hi _ _ _ Ha Hsafe]. destruct (carried_push _ _ _ _ _ Hw Hc Hp) as (Hi' & _ & Hnx).
  pose proof (inv_next T cap _ Hi') as Hn'. pose proof (inv_bounds T cap _ Hi'). pose proof (inv_ended T cap _ Hi) as Hend.
  pose proof Hc as [_ [Hi0 Hr] Hsyn _ _ _]. pose proof (len_nonneg (str (payload seg))).
  unfold acked. destruct (Z.eqb_spec (position seg i) (abs_seqno r)) as [Epos|]; [|lia].
  destruct (Z.eqb_spec (len (str (payload seg))) 0); cbn [negb]; [destruct (_ || _), (_ =? 0); lia|].
  assert (abs_seqno r <= _next_assembling_index s' + 1); [|destruct (_ || _); lia].
  unfold position in Epos. destruct (syn (header seg)); [lia|].
  destruct (input_ended (_reassembler r)); [specialize (Hend eq_refl); lia|]. specialize (Hsafe eq_refl). lia.
Qed.

(** A FIN at its place ends the stream, unless the buffer is full. *)
Lemma carried_fin n i seg r s' :
  winv n r -> carries i seg r -> fin (header seg) = true -> i <= next r ->
  push (str (payload seg)) i true (_reassembler r) = Some s' ->
  input_ended s' = true \/ len (str (payload seg)) = 0.
Proof.
  intros Hw Hc Hf Hle Hp. pose proof (wi_inv n r Hw) as Hi. pose proof (carries_consistent i seg r Hc) as Hcons.
  pose proof (ca_window _ _ _ Hc) as Ha. unfold admissible, fin_unit in Ha. rewrite Hf in *.
  destruct (decide (i + len (str (payload seg)) + 1 <= taken (_reassembler r) + cap)).
  - left. by eapply (push_eof_ends T cap Hcap Hb62).
  - right. pose proof (len_nonneg (str (payload seg))). lia.
Qed.

Lemma acked_safe n i seg r s' :
  winv n r -> carries i seg r -> (first_segment r = true -> syn (header seg) = true) ->
  push (str (payload seg)) i (fin (header seg)) (_reassembler r) = Some s' -> input_ended s' = false ->
  let abs := acked (position seg i) seg s' (abs_seqno r) in
  (abs <= _next_assembling_index s' + 1 \/ (_next_assembling_index s' = len T /\ abs = len T + 2)) /\
  (fin (header seg) = false -> abs_seqno r <= next r + 1 -> abs <= _next_assembling_index s' + 1).
Proof.
  intros Hw Hc Hfirst Hp He. pose proof Hw as [Hi _ Hf Hs Ha Hsafe].
  destruct (carried_push _ _ _ _ _ Hw Hc Hp) as (Hi' & _ & Hnx).
  pose proof (inv_next T cap _ Hi'). pose proof (inv_next T cap _ Hi). pose proof (inv_bounds T cap _ Hi').
  assert (input_ended (_reassembler r) = false) as Her.
  { destruct (input_ended (_reassembler r)) eqn:Her; [|done]. by rewrite (push_keeps_ended _ _ _ _ _ _ Hp Her) in He. }
  specialize (Hsafe Her). pose proof Hc as [_ [Hi0 Hr] Hsyn _ Hfin _]. pose proof (len_nonneg (str (payload seg))).
  unfold acked. rewrite He, orb_false_r.
  destruct (Z.eqb_spec (position seg i) (abs_seqno r)) as [Epos|]; [|split; lia].
  destruct (fin (header seg)) eqn:Efin.
  - split; [|done]. assert (syn (header seg) = false) as Esyn.
    { destruct (syn (header seg)); [|done]. by destruct (Hsyn eq_refl) as (_ & _ & ?). }
    unfold position in *. rewrite Esyn in *. specialize (Hfin eq_refl).
    destruct (carried_fin n i seg r s' Hw Hc Efin) as [Hend|Hz]; [lia|done|by rewrite Hend in He|].
    rewrite Hz. simpl. destruct (Z.eqb_spec (i + 1) 0); lia.
  - destruct (Z.eqb_spec (len (str (payload seg))) 0); simpl; [|split; lia].
    destruct (Z.eqb_spec (position seg i) 0); split; lia.
Qed.

Lemma winv_recv n i seg r r' :
  0 <= n < 2 ^ 62 -> winv n r -> carries i seg r -> segment_received seg r = Some r' ->
  winv (n + 1) r' /\ taken (_reassembler r') = taken (_reassembler r) /\ later r r' /\
  (fin (header seg) = false -> endless (_reassembler r) /\ abs_seqno r <= next r + 1 ->
   endless (_reassembler r') /\ abs_seqno r' <= next r' + 1).
Proof.
  intros Hn Hw Hc Hr. destruct (recv_cases n i seg r r' ltac:(lia) Hw Hc Hr) as [->|(pos & s' & -> & Hg & Hfirst & Hcase)].
  { split; [eapply winv_mono; [|done]; lia|]. split_and!; done || apply later_refl. }
  destruct Hg as (Hi' & Ht & Hnx). pose proof Hw as [Hi _ Hf Hs Ha _].
  assert (1 <= acked pos seg s' (abs_seqno r) <= len T + 2 + (n + 1)) as Hrange.
  { apply acked_range; [done|lia..|]. intros Hz. destruct (first_segment r); [|destruct (Hs eq_refl); lia].
    destruct Hcase as [[-> _]|(_ & _ & He)]; [unfold position; by rewrite Hfirst|].
    destruct (Hf eq_refl) as [_ Hne]. by rewrite He in Hne. }
  split; [|cbn [_reassembler abs_seqno]; split_and!; [done..| |]].
  - split; cbn [_reassembler TCPReceiver._capacity abs_seqno ISN first_segment]; try done; [split; [done|lia]|lia|].
    intros He. destruct Hcase as [[-> Hp]|(_ & -> & He')]; [|by rewrite He in He']. by apply (acked_safe n i seg r s').
  - split; cbn [_reassembler abs_seqno]; [lia|]. split; [done|].
    destruct Hcase as [[-> Hp]|(_ & -> & He)]; [|left; by apply (inv_ended T cap _ Hi)].
    destruct (decide (_next_assembling_index s' = len T)); [by left|right]. pose proof (inv_next T cap _ Hi'). split; [lia|by eapply acked_later].
  - intros Efin [Hend Habs]. destruct Hcase as [[-> Hp]|(_ & -> & He')]; [|by destruct Hend as [Hend _]; rewrite Hend in He'].
    rewrite Efin in Hp. pose proof (push_endless _ _ _ _ _ Hend Hp) as Hend'. split; [done|].
    apply (acked_safe n i seg r s'); try done; [by rewrite Efin|apply Hend'].
Qed.

(** ** Both ends *)

(** Up to which sequence number the receiver has room. *)
Definition limit (r : TCPReceiver) : Z := 1 + taken (_reassembler r) + cap.

Definition on_way (s : TCPSender) (r : TCPReceiver) (seg : TCPSegment) : Prop :=
  rst (header seg) = true \/
  (exists i, carries i seg r) /\ (fin (header seg) = true -> fin_sent s = true).

(** In the sender's own queues the acknowledgment is not yet filled in. *)
Definition waiting (s : TCPSender) (r : TCPReceiver) (seg : TCPSegment) : Prop :=
  on_way s r seg /\ ack (header seg) = false.

(** An acknowledgment is not of more than what the receiver acknowledges now; until
    the FIN is sent it is of what has been written, and its window ends where the
    receiver's does. *)
Definition valid_ack (s : TCPSender) (r : TCPReceiver) (seg : TCPSegment) : Prop :=
  rst (header seg) = true \/ ack (header seg) = false \/
  0 <= win (header seg) < 2 ^ 16 /\
  exists A, TCPSegment.ackno (header seg) = wrap A isn /\ 0 <= A /\ acknowledges A r /\
    (fin_sent s = true \/ A <= next r + 1 /\ A + win (header seg) <= limit r).

(** The retransmission timer runs while something is outstanding. *)
Record timed (s : TCPSender) : Prop := {
  tm_runs : _outstanding_segments s <> [] -> _timing_begins s = true;
  tm_initial : 0 <= _initial_retransmission_timeout s < 2 ^ 32;
  tm_applying : 0 <= _applying_retransmission_timeout s < 2 ^ 32;
  tm_count : 0 <= consecutive_retransmissions s }.

(** The sender [s], the receiver [r] of its stream, all segments [out] that
    left the sender's side and [back] that left the receiver's. *)
Record direction (s : TCPSender) (r : TCPReceiver) (n : Z) (out back : list TCPSegment) : Prop := {
  di_sinv : sinv T isn s;
  di_winv : winv n r;
  di_edge : fin_sent s = false ->
    _confirmed_seqno s <= next r + 1 /\ _confirmed_seqno s + _receiver_window_size s <= limit r;
  di_acked : acknowledges (_confirmed_seqno s) r;
  di_timed : timed s;
  di_fresh : fin_sent s = false -> endless (_reassembler r) /\ abs_seqno r <= next r + 1;
  di_outstanding : Forall (waiting s r) (_outstanding_segments s);
  di_queue : Forall (waiting s r) (TCPSender._segments_out s);
  di_out : Forall (on_way s r) out;
  di_back : Forall (valid_ack s r) back }.

(** What the sender and the receiver do only confirms what is on its way. *)
Lemma on_way_mono s s' r r' seg :
  (fin_sent s = true -> fin_sent s' = true) -> later r r' -> on_way s r seg -> on_way s' r' seg.
Proof.
  intros Hf Hl [?|[[i Hc] Hfin]]; [by left|right]. split; [|auto]. exists i. by eapply carries_later.
Qed.

Lemma valid_ack_mono s s' r r' seg :
  (fin_sent s = true -> fin_sent s' = true) -> later r r' -> valid_ack s r seg -> valid_ack s' r' seg.
Proof.
  intros Hf Hl [?|[?|[Hw (A & HA & HA0 & HA1 & HA2)]]]; [by left|by right; left|right; right].
  split; [done|]. exists A. split_and!; [done|done|by eapply acknowledges_later|]. destruct Hl as (? & ? & _). unfold limit in *.
  destruct HA2; [auto|right; lia].
Qed.

Lemma waiting_sender s s' r l :
  (fin_sent s = true -> fin_sent s' = true) -> Forall (waiting s r) l -> Forall (waiting s' r) l.
Proof.
  intros Hf Hl. eapply Forall_impl; [exact Hl|]. intros x [Hx Ha]. split; [|done].
  apply (on_way_mono s s' r); [done|apply later_refl|done].
Qed.

(** A step of the sender. *)
Lemma direction_sender s s' r n out back :
  direction s r n out back -> sinv T isn s' -> timed s' -> acknowledges (_confirmed_seqno s') r -> (fin_sent s = true -> fin_sent s' = true) ->
  (fin_sent s' = false -> _confirmed_seqno s' <= next r + 1 /\ _confirmed_seqno s' + _receiver_window_size s' <= limit r) ->
  Forall (waiting s' r) (_outstanding_segments s') -> Forall (waiting s' r) (TCPSender._segments_out s') ->
  direction s' r n out back.
Proof.
  intros [] Hs Htm Hac Hf He Ho Hq. split; try done.
  - intros E. apply di_fresh0. destruct (fin_sent s); [by rewrite Hf in E|done].
  - eapply Forall_impl; [done|]. intros x. apply on_way_mono; [done|apply later_refl].
  - eapply Forall_impl; [done|]. intros x. apply valid_ack_mono; [done|apply later_refl].
Qed.

(** A step of the sender that leaves what concerns its segments. *)
Lemma direction_same s s' r n out back :
  direction s r n out back -> sinv T isn s' -> timed s' -> fin_sent s' = fin_sent s ->
  _confirmed_seqno s' = _confirmed_seqno s -> _receiver_window_size s' = _receiver_window_size s ->
  _outstanding_segments s' = _outstanding_segments s -> Forall (waiting s' r) (TCPSender._segments_out s') ->
  direction s' r n out back.
Proof.
  intros Hd Hs Htm Hf Hc Hw Ho Hq. apply (direction_sender s s'); try done; [rewrite Hc; apply (di_acked _ _ _ _ _ Hd)|by rewrite Hf| |].
  - rewrite Hf, Hc, Hw. apply (di_edge _ _ _ _ _ Hd).
  - rewrite Ho. apply (waiting_sender s); [by rewrite Hf|]. apply (di_outstanding _ _ _ _ _ Hd).
Qed.

(** A step of the receiver. *)
Lemma direction_receiver s r r' n m out back :
  direction s r n out back -> winv m r' -> later r r' ->
  (fin_sent s = false -> endless (_reassembler r') /\ abs_seqno r' <= next r' + 1) ->
  direction s r' m out back.
Proof.
  intros [] Hw Hl Hfr. split; try done.
  - intros E. destruct (di_edge0 E), Hl as (? & ? & _). unfold limit in *. lia.
  - by eapply acknowledges_later.
  - eapply Forall_impl; [exact di_outstanding0|]. intros x [Hx Ha]. split; [by eapply on_way_mono|done].
  - eapply Forall_impl; [exact di_queue0|]. intros x [Hx Ha]. split; [by eapply on_way_mono|done].
  - eapply Forall_impl; [exact di_out0|]. intros x. by apply on_way_mono.
  - eapply Forall_impl; [exact di_back0|]. intros x. by apply valid_ack_mono.
Qed.

Lemma direction_init capacity rto x :
  0 <= capacity < 2 ^ 64 -> 0 <= rto < 2 ^ 32 -> direction (TCPSender_of capacity rto (Some isn) x) (TCPReceiver_of cap) 0 [] [].
Proof.
  intros Hc Hr. split; try constructor; simpl; try done; unfold limit, taken; simpl; try lia.
  - by apply init_sinv.
  - apply winv_init.
Qed.

(** ** The sender's operations *)

Lemma timed_fills s s' : fills T isn s s' -> timed s -> timed s'.
Proof.
  intros Hf [Hr Hi Ha Hc]. destruct (fs_timeouts _ _ _ _ Hf) as (E1 & E2 & E3). unfold consecutive_retransmissions in *.
  split; unfold consecutive_retransmissions; rewrite ?E1, ?E2, ?E3; try done. by destruct (fs_timer _ _ _ _ Hf) as [[-> Hne]|[-> ->]].
Qed.

Lemma timed_acks A w s s1 popped :
  acks T isn A false (set_confirmed A w s) s1 popped -> timed s -> timed s1.
Proof.
  intros Hk [Hr Hi Ha Hc]. pose proof (ak_initial _ _ _ _ _ _ _ Hk) as E1. pose proof (ak_timers _ _ _ _ _ _ _ Hk) as E2.
  pose proof (ak_timing _ _ _ _ _ _ _ Hk) as E3. pose proof (ak_popped _ _ _ _ _ _ _ Hk) as E4.
  cbn [set_confirmed _initial_retransmission_timeout _timing_begins _outstanding_segments] in *.
  assert (0 <= _applying_retransmission_timeout s1 < 2 ^ 32 /\ 0 <= consecutive_retransmissions s1) as [Ha1 Hc1].
  { unfold consecutive_retransmissions. destruct (negb false && nonempty popped); injection E2 as -> -> _; done. }
  split; [|by rewrite E1|done|done]. intros Hne. rewrite E3. apply Hr. rewrite E4. intros [_ E]%app_eq_nil. done.
Qed.

(** Only a sender with something outstanding holds bytes back. *)
Definition idle (s : TCPSender) : Prop := _outstanding_segments s = [] -> ByteStream._stream (_stream s) = [].

Lemma fill_idle s : sinv T isn s -> idle (fill_window s).
Proof.
  intros Hs Ho. destruct (fill_window_fills T isn ltac:(lia) s Hs) as (Hf & _ & Hmax).
  destruct (fs_new _ _ _ _ Hf) as (new & _ & En & Hc). rewrite En in Ho. apply app_eq_nil in Ho as [Ho ->]. cbn [chain] in Hc.
  pose proof (fs_sinv _ _ _ _ Hf) as [_ Hfd]. pose proof (si_flight _ _ _ Hs) as [_ _ Hch Hcf _ _ Hw]. rewrite Ho in Hch. cbn [chain] in Hch.
  assert (buffer_empty (_stream (fill_window s)) = true -> ByteStream._stream (_stream (fill_window s)) = []) as Hb.
  { unfold buffer_empty. intros E%Z.eqb_eq. by destruct (ByteStream._stream _). }
  destruct (Z.eqb_spec (_next_seqno s) 0); [lia|]. destruct Hmax as [Hfin|[He|[He _]]]; [|unfold edge in He; lia|auto].
  apply Hb. apply (fd_fin _ _ Hfd) in Hfin. by apply andb_true_iff in Hfin as [_ ?].
Qed.

Lemma ack_idle an w s : sinv T isn s -> 0 <= w < 2 ^ 16 -> idle s -> idle (ack_received an w s).
Proof.
  intros Hs Hw Hidle. pose proof (fl_isn _ _ _ (si_flight _ _ _ Hs)) as Hi.
  destruct (decide (_confirmed_seqno s <= unwrap an isn (_next_seqno s) <= _next_seqno s)) as [HA|HA].
  2: { unfold ack_received. rewrite Hi. destruct (Z.ltb_spec (unwrap an isn (_next_seqno s)) (_confirmed_seqno s)); [done|].
       destruct (Z.ltb_spec (_next_seqno s) (unwrap an isn (_next_seqno s))); [done|]. lia. }
  destruct (ack_received_ok T isn ltac:(lia) an w s Hs Hw HA) as (s1 & popped & Hak & Hs1 & Hres).
  destruct (nonempty (_outstanding_segments s1)) eqn:En; [rewrite Hres; intros E; by rewrite E in En|].
  destruct Hres as (s2 & _ & H1 & H2 & ->). unfold idle. cbn [set_timing _outstanding_segments _stream].
  destruct popped as [|x popped]; [|rewrite H2 by done; by apply fill_idle].
  rewrite H1 by done. rewrite (ak_stream _ _ _ _ _ _ _ Hak). intros E. apply Hidle.
  pose proof (ak_popped _ _ _ _ _ _ _ Hak) as Hp. by rewrite E in Hp.
Qed.

Lemma timed_tick ms s : timed s -> timed (TCPSender.tick ms s).
Proof.
  intros [Hr Hi Ha Hc]. destruct (tick_fields ms s) as (_ & Eo & _ & _ & _ & _ & _ & _ & Et & _). split; [by rewrite Et, Eo|..].
  all: unfold TCPSender.tick; destruct (negb _); [done|]; destruct (_outstanding_segments s); [done|]; destruct (_ <=? _); [|done]; try done.
  all: unfold consecutive_retransmissions; cbn; destruct (_ || _); [|done]; apply u32_range || apply u16_range.
Qed.

(** A segment the sender emits carries its piece, if there is room for it or it
    is a probe. *)
Lemma emitted_carries a seg r :
  emitted T isn a seg -> 0 <= next r ->
  a + length_in_sequence_space seg <= limit r \/ length_in_sequence_space seg <= 1 /\ a <= next r + 1 ->
  exists i, carries i seg r.
Proof.
  intros He Hn Hroom. rewrite (emitted_length T isn a seg He) in Hroom. destruct He as [_ Hs Hsyn Hd Hf _ _].
  unfold limit in Hroom. destruct (syn (header seg)) eqn:Es.
  - destruct (Hsyn eq_refl) as (-> & Hp & Hnf). exists 0.
    assert (fin_unit seg = 0) as Hu by (unfold fin_unit; by rewrite Hnf).
    split; rewrite ?Es, ?Hp, ?Hnf; try done; [split; [done|]; left; simpl; lia|]. unfold admissible. rewrite Hu. by right; right.
  - destruct (Hd eq_refl) as (Ha & Hp & Hl). exists (a - 1).
    split; rewrite ?Es; try done; [split; [lia|by left]| |].
    + rewrite Hs. f_equal. lia.
    + unfold admissible, fin_unit. lia.
Qed.

(** The FIN is at the end of the stream, so that who has sent it has sent all. *)
Lemma emitted_fin a seg s :
  sinv T isn s -> emitted T isn a seg -> a + length_in_sequence_space seg <= _next_seqno s ->
  fin (header seg) = true -> fin_sent s = true.
Proof.
  intros [_ Hfd] He Hle Hfin. pose proof (feeds_read_range T s Hfd) as Hr. pose proof (fd_next _ _ Hfd) as Hnx.
  rewrite (emitted_length T isn a seg He), Hfin in Hle. destruct He as [_ _ Hsyn _ Hf _ _]. specialize (Hf Hfin).
  destruct (syn (header seg)); [destruct (Hsyn eq_refl) as (_ & _ & ?); congruence|].
  destruct (fin_sent s); [done|]. destruct (Z.eqb_spec (_next_seqno s) 0); lia.
Qed.

Lemma chain_waiting a new s r :
  sinv T isn s -> 0 <= next r -> chain T isn a new (_next_seqno s) ->
  _next_seqno s <= limit r \/ _next_seqno s <= a \/ _next_seqno s <= a + 1 /\ a <= next r + 1 ->
  Forall (waiting s r) new.
Proof.
  intros Hs Hn. revert a. induction new as [|seg new IH]; intros a; [constructor|]. cbn [chain].
  intros (He & HL & Hc) Hroom. pose proof (chain_le _ _ _ _ _ Hc) as Hle. constructor.
  - split; [right|by destruct He as [_ _ _ _ _ _ [? _]]]. split; [|by apply (emitted_fin a)]. apply (emitted_carries a); [done..|]. lia.
  - apply (IH _ Hc). lia.
Qed.

Lemma winv_next n r : winv n r -> 0 <= taken (_reassembler r) <= next r /\ next r <= len T.
Proof. intros [Hi _ _ _ _ _]. pose proof (inv_bounds T cap _ Hi). pose proof (inv_next T cap _ Hi). lia. Qed.

Lemma direction_fill s r n out back : direction s r n out back -> direction (fill_window s) r n out back.
Proof.
  intros Hd. destruct (fin_sent s) eqn:Hf; [unfold fill_window; by rewrite Hf|].
  destruct (fill_window_fills T isn ltac:(lia) s (di_sinv _ _ _ _ _ Hd)) as (Hfs & Hn & _).
  destruct (di_edge _ _ _ _ _ Hd Hf) as [He1 He2]. destruct (winv_next n r (di_winv _ _ _ _ _ Hd)) as [Ht Hnx].
  pose proof (fl_confirmed _ _ _ (si_flight _ _ _ (di_sinv _ _ _ _ _ Hd))) as Hcf.
  destruct Hfs as [Hs (new & Hq & Ho & Hc) _ Ec Ew _ _ _].
  assert (Forall (waiting (fill_window s) r) new) as Hnew.
  { apply (chain_waiting (_next_seqno s)); [done|lia|done|]. unfold edge in Hn. lia. }
  assert (fin_sent s = true -> fin_sent (fill_window s) = true) as Hm by congruence.
  apply (direction_sender s); try done.
  - eapply timed_fills; [|apply (di_timed _ _ _ _ _ Hd)]. by apply fill_window_fills; [lia|apply (di_sinv _ _ _ _ _ Hd)].
  - rewrite Ec. apply (di_acked _ _ _ _ _ Hd).
  - by rewrite Ec, Ew.
  - rewrite Ho. apply Forall_app. split; [|done]. apply (waiting_sender s), (di_outstanding _ _ _ _ _ Hd). done.
  - rewrite Hq. apply Forall_app. split; [|done]. apply (waiting_sender s), (di_queue _ _ _ _ _ Hd). done.
Qed.

Lemma direction_timing b s r n out back :
  (_outstanding_segments s <> [] -> b = true) -> direction s r n out back -> direction (set_timing b s) r n out back.
Proof.
  intros Hb Hd. apply (direction_same s); try done; [by apply set_timing_sinv, (di_sinv _ _ _ _ _ Hd)|by destruct (di_timed _ _ _ _ _ Hd); split|].
  exact (di_queue _ _ _ _ _ Hd).
Qed.

(** The number of a valid acknowledgment is found. *)
Lemma valid_ack_unwrap s r n A :
  sinv T isn s -> winv n r -> 0 <= A <= next r + 1 -> unwrap (wrap A isn) isn (_next_seqno s) = A.
Proof.
  intros [Hfl Hfd] Hw HA. pose proof (feeds_next_bound T s Hfd). pose proof (fl_base _ _ _ Hfl). pose proof (fl_confirmed _ _ _ Hfl).
  destruct (winv_next n r Hw). apply unwrap_wrap_near; lia.
Qed.

Lemma ack_unwrap_le s A :
  sinv T isn s -> 0 <= A -> unwrap (wrap A isn) isn (_next_seqno s) <= _next_seqno s -> unwrap (wrap A isn) isn (_next_seqno s) <= A.
Proof.
  intros [Hfl Hfd] HA Hle. pose proof (feeds_next_bound T s Hfd). pose proof (fl_base _ _ _ Hfl). pose proof (fl_confirmed _ _ _ Hfl).
  pose proof (wrap_unwrap (wrap A isn) isn (_next_seqno s) (wf_wrap _ _) ltac:(lia)) as E. apply wrap_cong in E as [k Hk]. lia.
Qed.

Lemma direction_ack s r n out back seg :
  direction s r n out back -> rst (header seg) = false -> ack (header seg) = true -> valid_ack s r seg ->
  direction (ack_received (TCPSegment.ackno (header seg)) (win (header seg)) s) r n out back.
Proof.
  intros Hd Hr Ha [?|[?|[Hw Hv]]]; [congruence..|]. set (an := TCPSegment.ackno (header seg)) in *. set (w := win (header seg)) in *.
  pose proof (di_sinv _ _ _ _ _ Hd) as Hs. apply (ack_received_preserves T isn ltac:(lia) (fun s => direction s r n out back)); try done;
    [|by intros; apply direction_fill|by intros; apply direction_timing].
  intros s1 popped HA Hak Hs1. pose proof Hak as [_ Hp _ _ Ec Eq _ Ef Ew _ _ _].
  cbn [set_confirmed _outstanding_segments TCPSender._segments_out fin_sent _receiver_window_size] in *.
  assert (fin_sent s = true -> fin_sent s1 = true) as Hm by (by rewrite Ef). destruct Hv as (A & E & HA0 & HA1 & HA2).
  apply (direction_sender s); try done.
  - eapply timed_acks; [exact Hak|apply (di_timed _ _ _ _ _ Hd)].
  - rewrite Ec. destruct HA1 as [HA1|HA1]; [left|by right]. rewrite E in *. pose proof (ack_unwrap_le s A Hs HA0 ltac:(lia)). lia.
  - rewrite Ec, Ew, Ef. intros Hf. destruct HA2 as [HA2|[HA2 HA3]]; [congruence|].
    rewrite E, (valid_ack_unwrap s r n A Hs (di_winv _ _ _ _ _ Hd) ltac:(lia)). lia.
  - apply (waiting_sender s); [done|]. pose proof (di_outstanding _ _ _ _ _ Hd) as Ho. rewrite Hp in Ho.
    by apply Forall_app in Ho as [_ Ho].
  - rewrite Eq. apply (waiting_sender s), (di_queue _ _ _ _ _ Hd). done.
Qed.

Lemma direction_tick ms s r n out back : direction s r n out back -> direction (TCPSender.tick ms s) r n out back.
Proof.
  intros Hd. destruct (tick_fields ms s) as (_ & Eo & _ & _ & Ec & Ew & _ & Ef & _ & re & Eq & Hre).
  apply (direction_same s); try done; [by apply tick_sinv, (di_sinv _ _ _ _ _ Hd)|by apply timed_tick, (di_timed _ _ _ _ _ Hd)|].
  apply (waiting_sender s); [by rewrite Ef|]. rewrite Eq. apply Forall_app. split; [apply (di_queue _ _ _ _ _ Hd)|].
  apply Forall_forall. intros x Hx. pose proof (di_outstanding _ _ _ _ _ Hd) as Ho. rewrite Forall_forall in Ho. auto.
Qed.

Lemma direction_empty s r n out back :
  direction s r n out back -> 1 <= _next_seqno s -> direction (send_empty_segment s) r n out back.
Proof.
  intros Hd Hn. pose proof (di_sinv _ _ _ _ _ Hd) as [Hfl Hfd]. pose proof (feeds_next_bound T s Hfd) as Hb.
  apply (direction_same s); try done; [split; [by apply (flight_ext T isn s)|by apply (feeds_ext T s)]|by destruct (di_timed _ _ _ _ _ Hd); split|].
  unfold send_empty_segment. cbn [set_segments_out TCPSender._segments_out]. apply Forall_app.
  split; [apply (waiting_sender s), (di_queue _ _ _ _ _ Hd); done|]. constructor; [|constructor]. split; [right|done].
  split; [|done]. exists (_next_seqno s - 1). rewrite (fl_isn _ _ _ Hfl).
  split; cbn; try done; [split; [lia|]|rewrite Z.sub_add; done|by right; right].
  destruct (decide (_next_seqno s = len T + 2)); [right|left]; lia.
Qed.

(** The application's writes, and the error flag. *)
Lemma direction_stream st s r n out back :
  direction s r n out back -> sinv T isn (update_stream st s) -> direction (update_stream st s) r n out back.
Proof. intros Hd Hs. apply (direction_same s); try done; [by destruct (di_timed _ _ _ _ _ Hd); split|exact (di_queue _ _ _ _ _ Hd)]. Qed.

Lemma set_error_sinv s : sinv T isn s -> sinv T isn (update_stream (set_error (_stream s)) s).
Proof.
  intros [Hfl Hfd]. split; [by apply (flight_ext T isn s)|]. destruct Hfd. split; try done. by apply wf_set_error.
Qed.

(** ** The receiver's operations *)

Lemma direction_recv s r r' n out back seg :
  direction s r n out back -> 0 <= n < 2 ^ 62 -> rst (header seg) = false -> on_way s r seg ->
  TCPReceiver.segment_received seg r = Some r' -> direction s r' (n + 1) out back.
Proof.
  intros Hd Hn Hr [?|[[i Hc] Hfin]] Hrecv; [congruence|]. pose proof (di_winv _ _ _ _ _ Hd) as Hw.
  destruct (winv_recv n i seg r r' Hn Hw Hc Hrecv) as (Hw' & Ht & Hl & Hend).
  apply (direction_receiver s r r' n); try done.
  intros Hf. apply Hend; [|by apply (di_fresh _ _ _ _ _ Hd)]. destruct (fin (header seg)); [|done]. by rewrite Hfin in Hf.
Qed.

Lemma direction_pop k s r n out back :
  direction s r n out back -> 0 <= k -> direction s (update_stream_out (pop_output k) r) n out back.
Proof.
  intros Hd Hk. pose proof (di_winv _ _ _ _ _ Hd) as Hw.
  apply (direction_receiver s r _ n); [done|by apply winv_pop|by eapply pop_later|]. exact (di_fresh _ _ _ _ _ Hd).
Qed.

Lemma direction_error s r n out back :
  direction s r n out back -> direction s (update_stream_out set_error r) n out back.
Proof.
  intros Hd. pose proof (di_winv _ _ _ _ _ Hd) as Hw.
  apply (direction_receiver s r _ n); [done|by apply winv_error|apply error_later|]. exact (di_fresh _ _ _ _ _ Hd).
Qed.

Lemma direction_count s r n m out back : n <= m -> direction s r n out back -> direction s r m out back.
Proof. intros Hn []. split; try done. by eapply winv_mono. Qed.

(** What the receiver announces is valid. *)
Lemma announced s r n out back seg an :
  direction s r n out back -> ackno r = Some an ->
  TCPSegment.ackno (header seg) = an -> win (header seg) = u16 (window_size r) -> valid_ack s r seg.
Proof.
  intros Hd Ha Es Ew. right; right. unfold valid_ack. rewrite Es, Ew. split; [apply u16_range|].
  pose proof (di_winv _ _ _ _ _ Hd) as [Hi Hc _ Hs Hr _]. unfold ackno in Ha. destruct (first_segment r); [done|].
  destruct (Hs eq_refl) as [Hisn' _]. rewrite Hisn' in Ha. injection Ha as <-. exists (abs_seqno r).
  split; [done|]. split; [lia|]. split; [by left|]. destruct (fin_sent s) eqn:Hf; [by left|right].
  destruct (di_fresh _ _ _ _ _ Hd Hf) as [_ Habs]. split; [lia|]. pose proof (inv_bounds T cap _ Hi). pose proof (inv_next T cap _ Hi). pose proof (inv_written T cap _ Hi) as Hwr.
  unfold window_size, stream_out, buffer_size, limit. rewrite Hc, (wf_size _ (inv_out T cap _ Hi)).
  rewrite u64_small by lia. unfold u16.
  pose proof (Z.mod_le (cap - len (ByteStream._stream (_output (_reassembler r)))) (2 ^ 16) ltac:(lia) ltac:(lia)). lia.
Qed.

(** ** Segments that change their owner *)

(** What the data of a segment depends on. *)
Lemma on_way_data s r seg seg' :
  seqno (header seg') = seqno (header seg) -> syn (header seg') = syn (header seg) -> fin (header seg') = fin (header seg) ->
  rst (header seg') = rst (header seg) -> str (payload seg') = str (payload seg) -> on_way s r seg -> on_way s r seg'.
Proof.
  intros E1 E2 E3 E4 E5 [?|[[i []] Hf]]; [left; congruence|right]. split; [|by rewrite E3]. exists i.
  assert (fin_unit seg' = fin_unit seg) as E6 by (unfold fin_unit; by rewrite E3).
  split; rewrite ?E1, ?E2, ?E3, ?E5, ?E6; done.
Qed.

Lemma direction_lists s r n out out' back back' :
  direction s r n out back -> Forall (on_way s r) out' -> Forall (valid_ack s r) back' -> direction s r n out' back'.
Proof. intros [] ? ?. by split. Qed.

(** The sender's queue is emptied. *)
Lemma direction_flush s r n out back :
  direction s r n out back -> direction (set_segments_out [] s) r n out back.
Proof.
  intros Hd. pose proof (di_sinv _ _ _ _ _ Hd) as [Hfl Hfd].
  apply (direction_same s); try done; [split; [by apply (flight_ext T isn s)|by apply (feeds_ext T s)]|by destruct (di_timed _ _ _ _ _ Hd); split].
Qed.
End delivery.
