(* ===== verification/Duplex.v ===== *)
(** Two connections and the network between them.

    Each side is used as [use] of [SocketLoop] allows; the network delivers what
    the other side has sent, any number of times and in any order, or not at
    all.  [streams_delivered] is what the two applications get. *)
From S2P Require Import Prelude WrappingIntegers Buffer ByteStream StreamReassembler TCPSegment TCPReceiver TCPSender.
From S2P Require Import TCPState TCPConnection ConnectionStreams SocketLoop Delivery ReassemblerProgress.

(** ** One side *)

(** Header fields that survive the way through the network, and the payload:
    ports and checksum are the adapters' business. *)
Record same_wire (seg seg' : TCPSegment) : Prop := {
  sw_seqno : seqno (header seg') = seqno (header seg);
  sw_ackno : TCPSegment.ackno (header seg') = TCPSegment.ackno (header seg);
  sw_win : win (header seg') = win (header seg);
  sw_ack : ack (header seg') = ack (header seg);
  sw_rst : rst (header seg') = rst (header seg);
  sw_syn : syn (header seg') = syn (header seg);
  sw_fin : fin (header seg') = fin (header seg);
  sw_payload : str (payload seg') = str (payload seg) }.

Lemma same_wire_refl seg : same_wire seg seg.
Proof. by split. Qed.

(** ** A connection with its history *)

(** The bytes delivered to the reader and those written by the writer, whether the
    writer has ended its stream, and the segments taken to the network. *)
Record endpoint := mkEndpoint {
  conn : TCPConnection; delivered : list byte; written : list byte; ended : bool; sent_segments : list TCPSegment }.

Definition endpoint_of (cfg : TCPConfig) (random_isn : Z) : endpoint :=
  mkEndpoint (TCPConnection_of cfg random_isn) [] [] false [].

(** Segments come from the peer; the writer does not write after the end. *)
Definition allowed (peer : list TCPSegment) (u : usage) (x : endpoint) : Prop :=
  match u with
  | Received seg => exists seg0, seg0 ∈ peer /\ same_wire seg0 seg
  | Written _ => ended x = false
  | _ => True
  end.

Definition record (u : usage) (c : TCPConnection) (p : list byte) (x : endpoint) : endpoint :=
  mkEndpoint c p
    (match u with Written data => written x ++ data | _ => written x end)
    (match u with Ended => true | _ => ended x end)
    (match u with Dequeued seg => seg :: sent_segments x | _ => sent_segments x end).

(** Time also passes for a connection that is not active any more. *)
Inductive act (peer : list TCPSegment) : endpoint -> endpoint -> Prop :=
  | act_intro u x c p : use u (conn x, delivered x) (c, p) -> allowed peer u x ->
      act peer x (record u c p x)
  | act_ticked ms x c : TCPConnection.tick ms (conn x) = Some c -> act peer x (record (Ticked ms) c (delivered x) x).

(** Steps of either side, counted. *)
Inductive exchange (a0 b0 : endpoint) : nat -> endpoint -> endpoint -> Prop :=
  | ex_start : exchange a0 b0 0 a0 b0
  | ex_left k a a' b : exchange a0 b0 k a b -> act (sent_segments b) a a' -> exchange a0 b0 (S k) a' b
  | ex_right k a b b' : exchange a0 b0 k a b -> act (sent_segments a) b b' -> exchange a0 b0 (S k) a b'.

Definition isn_of (cfg : TCPConfig) (random_isn : Z) : WrappingInt32 := default (WrappingInt32_of random_isn) (fixed_isn cfg).

Lemma act_monotone peer x y :
  act peer x y -> written x `prefix_of` written y /\ (ended x = true -> ended y = true /\ written y = written x).
Proof.
  destruct 1 as [u x c p Hu Ha|ms x c _]; [|by split]. cbn [written ended]. destruct u; simpl in Ha; try done.
  split; [by apply prefix_app_r|congruence].
Qed.

(** What the sender has been given: bytes, and whether that was all. *)
Definition given (s : TCPSender) : Z * bool := (bytes_written (stream_in s), ByteStream.input_ended (stream_in s)).

Section Side.
(** The stream to the peer, and the stream from it. *)
Context (T : list byte) (isn : WrappingInt32) (cap : Z) (T' : list byte) (isn' : WrappingInt32) (cap' : Z).
Context (Hisn : WrappingIntegers.wf isn) (Hcap : 0 <= cap) (Hbound : len T + cap < 2 ^ 31 - 4).
Context (Hisn' : WrappingIntegers.wf isn') (Hcap' : 0 <= cap') (Hbound' : len T' + cap' < 2 ^ 31 - 4).

(** A connection that has sent [net], and its peer: sender, receiver, and
    what it has sent. *)
Record view (c : TCPConnection) (net : list TCPSegment) (s' : TCPSender) (r' : TCPReceiver) (net' : list TCPSegment) (n : Z) : Prop := {
  vw_there : direction T isn cap (_sender c) r' n (TCPConnection._segments_out c ++ net) net';
  vw_here : direction T' isn' cap' s' (_receiver c) n net' (TCPConnection._segments_out c ++ net);
  vw_quiet : quiet c;
  vw_idle : idle (_sender c) }.

Context (s' : TCPSender) (r' : TCPReceiver) (net' : list TCPSegment).

(** Segments get the receiver's acknowledgment and leave. *)
Lemma view_send s c net n :
  direction T isn cap s r' n (TCPConnection._segments_out c ++ net) net' ->
  direction T' isn' cap' s' (_receiver c) n net' (TCPConnection._segments_out c ++ net) -> idle s ->
  view (send_segments_out (set_sender s c)).2 net s' r' net' n.
Proof.
  intros Ht Hh Hidle. rewrite send_segments_out_eq. cbn [snd set_sender _sender _receiver TCPConnection._segments_out].
  set (q := TCPSender._segments_out s). pose proof (di_queue _ _ _ _ _ _ _ _ Ht) as Hq. fold q in Hq.
  assert (Forall (on_way T isn cap (set_segments_out [] s) r') (map (stamp (_receiver c)) q)) as Hq1.
  { apply Forall_map. eapply Forall_impl; [exact Hq|]. intros seg [Hseg _]. unfold compose.
    apply (on_way_data T isn cap (set_segments_out [] s) r' seg); unfold stamp; destruct (TCPReceiver.ackno (_receiver c)); done. }
  assert (Forall (valid_ack T' isn' cap' s' (_receiver c)) (map (stamp (_receiver c)) q)) as Hq2.
  { apply Forall_map. eapply Forall_impl; [exact Hq|]. intros seg [_ Hack]. unfold compose.
    destruct (TCPReceiver.ackno (_receiver c)) as [an|] eqn:Ea.
    - eapply announced; [..|exact Hh|exact Ea| |]; try done; unfold stamp; by rewrite Ea.
    - right; left. unfold stamp. by rewrite Ea. }
  split; [| |done|done]; cbn [set_out set_sender _sender _receiver TCPConnection._segments_out].
  - apply direction_flush in Ht; try done. eapply direction_lists; [exact Ht| |apply (di_back _ _ _ _ _ _ _ _ Ht)].
    pose proof (di_out _ _ _ _ _ _ _ _ Ht) as Ho. apply Forall_app in Ho as [Ho1 Ho2]. by repeat apply Forall_app_2.
  - eapply direction_lists; [exact Hh|apply (di_out _ _ _ _ _ _ _ _ Hh)|].
    pose proof (di_back _ _ _ _ _ _ _ _ Hh) as Ho. apply Forall_app in Ho as [Ho1 Ho2]. by repeat apply Forall_app_2.
Qed.

(** *** What the sender has been given is the writer's business *)

Lemma given_fill s : sinv T isn s -> given (fill_window s) = given s.
Proof.
  intros Hs. destruct (fill_window_fills T isn ltac:(lia) s Hs) as ([_ _ _ _ _ _ [E1 E2] _] & _).
  unfold given, stream_in. by rewrite E1, E2.
Qed.

Lemma given_ack an w s : sinv T isn s -> 0 <= w < 2 ^ 16 -> given (ack_received an w s) = given s.
Proof.
  intros Hs Hw. apply (ack_received_preserves T isn ltac:(lia) (fun s' => given s' = given s)); try done.
  - intros s1 popped _ Hak _. unfold given, stream_in. by rewrite (ak_stream _ _ _ _ _ _ _ Hak).
  - intros s1 Hs1 <-. by apply given_fill.
Qed.

Lemma sent_given s c : given (_sender (send_segments_out (set_sender s c)).2) = given s.
Proof. by rewrite send_segments_out_eq. Qed.

Lemma sent_receiver s c : _receiver (send_segments_out (set_sender s c)).2 = _receiver c.
Proof. by rewrite send_segments_out_eq. Qed.

(** *** The operations of a connection *)

Lemma view_fill s c net n :
  direction T isn cap s r' n (TCPConnection._segments_out c ++ net) net' ->
  direction T' isn' cap' s' (_receiver c) n net' (TCPConnection._segments_out c ++ net) ->
  view (send_segments_out (set_sender (fill_window s) c)).2 net s' r' net' n /\
  given (_sender (send_segments_out (set_sender (fill_window s) c)).2) = given s.
Proof.
  intros Ht Hh. pose proof (di_sinv _ _ _ _ _ _ _ _ Ht) as Hs.
  split; [apply view_send; [by apply direction_fill|done|by apply (fill_idle T isn cap)]|]. rewrite sent_given. by apply given_fill.
Qed.

Lemma view_connect c net n :
  view c net s' r' net' n -> view (connect c) net s' r' net' n /\ given (_sender (connect c)) = given (_sender c).
Proof. intros [Ht Hh _]. by apply view_fill. Qed.

(** The next piece of [T] is written, the stream being open and having room. *)
Lemma write_next_sinv data s :
  sinv T isn s -> ByteStream.input_ended (stream_in s) = false -> len data <= remaining_capacity (stream_in s) ->
  data = slice (bytes_written (stream_in s)) (len data) T -> bytes_written (stream_in s) + len data <= len T ->
  sinv T isn (update_stream (ByteStream.write data (stream_in s)).2 s).
Proof.
  intros Hs He Hroom Hd Hl. unfold stream_in in *. pose proof (feeds_written T ltac:(lia) _ (si_feeds _ _ _ Hs)) as Hbw.
  pose proof (fd_wf _ _ (si_feeds _ _ _ Hs)) as Hw. rewrite remaining_capacity_eq in Hroom by done.
  apply write_sinv; [done|done|by rewrite <- Hbw|lia].
Qed.

Lemma view_write data c net n :
  view c net s' r' net' n -> ByteStream.input_ended (stream_in (_sender c)) = false ->
  len data <= remaining_outbound_capacity c ->
  data = slice (bytes_written (stream_in (_sender c))) (len data) T -> bytes_written (stream_in (_sender c)) + len data <= len T ->
  let c' := (TCPConnection.write data c).2 in
  view c' net s' r' net' n /\ given (_sender c') = (bytes_written (stream_in (_sender c)) + len data, false).
Proof.
  intros Hv He Hroom Hd Hl. pose proof Hv as [Ht Hh _]. pose proof (di_sinv _ _ _ _ _ _ _ _ Ht) as Hs.
  pose proof (write_next_sinv data _ Hs He Hroom Hd Hl) as Hs1.
  unfold remaining_outbound_capacity, stream_in in *. unfold TCPConnection.write.
  pose proof (feeds_written T ltac:(lia) _ (si_feeds _ _ _ Hs)) as Hbw. pose proof (feeds_read_range T _ (si_feeds _ _ _ Hs)) as Hrr.
  destruct (Z.eqb_spec (len data) 0) as [Hz|Hz].
  { split; [done|]. cbn [snd]. unfold given, stream_in. rewrite He, Hz. f_equal. lia. }
  pose proof (fd_wf _ _ (si_feeds _ _ _ Hs)) as Hw. rewrite remaining_capacity_eq in Hroom by done.
  unfold stream_in. rewrite write_eq in * by done. cbn [snd] in *.
  destruct (view_fill _ c net n (direction_stream _ _ _ _ _ _ _ _ _ Ht Hs1) Hh) as [H1 H2]. split; [exact H1|].
  rewrite H2. unfold given, stream_in. cbn [update_stream TCPSender._stream]. unfold ByteStream.input_ended in *. cbn.
  rewrite He. f_equal. unfold accepted. rewrite ztake_all by lia. unfold bytes_written, bytes_read in *. rewrite u64_small; lia.
Qed.

Lemma view_end c net n :
  view c net s' r' net' n -> bytes_written (stream_in (_sender c)) = len T ->
  view (end_input_stream c) net s' r' net' n /\
  given (_sender (end_input_stream c)) = (bytes_written (stream_in (_sender c)), true).
Proof.
  intros Hv HT. pose proof Hv as [Ht Hh _]. pose proof (di_sinv _ _ _ _ _ _ _ _ Ht) as Hs.
  unfold stream_in in HT. rewrite (feeds_written T ltac:(lia) _ (si_feeds _ _ _ Hs)) in HT.
  destruct (view_fill _ c net n (direction_stream _ _ _ _ _ _ _ _ _ Ht (end_input_sinv T isn _ Hs HT)) Hh) as [H1 H2].
  split; [exact H1|]. unfold end_input_stream. exact H2.
Qed.

Lemma fill_next_pos s : sinv T isn s -> 1 <= _next_seqno (fill_window s).
Proof.
  intros Hs. destruct (fill_window_fills T isn ltac:(lia) s Hs) as (Hf & _ & Hn).
  destruct (Z.eqb_spec (_next_seqno s) 0); [lia|]. destruct (fs_new _ _ _ _ Hf) as (new & _ & _ & Hc). apply chain_le in Hc.
  pose proof (fl_base _ _ _ (si_flight _ _ _ Hs)). pose proof (fl_confirmed _ _ _ (si_flight _ _ _ Hs)). lia.
Qed.

Lemma view_acked seg c net n :
  view c net s' r' net' n -> rst (header seg) = false -> valid_ack T isn cap (_sender c) r' seg ->
  let c1 := if ack (header seg)
            then (send_segments_out (set_sender (ack_received (TCPSegment.ackno (header seg)) (win (header seg)) (_sender c)) c)).2
            else c in
  view c1 net s' r' net' n /\ given (_sender c1) = given (_sender c) /\ _receiver c1 = _receiver c.
Proof.
  intros Hv Hr Ha c1. pose proof Hv as [Ht Hh _ Hid]. subst c1. destruct (ack (header seg)) eqn:Ea; [|done].
  pose proof (di_sinv _ _ _ _ _ _ _ _ Ht) as Hs. assert (0 <= win (header seg) < 2 ^ 16) as Hw by (destruct Ha as [?|[?|[? _]]]; [congruence..|done]). split.
  - apply view_send; [by apply direction_ack|done|by apply (ack_idle T isn cap)].
  - rewrite sent_given, sent_receiver. split; [|done]. by apply given_ack.
Qed.

Lemma view_respond seg c net n :
  view c net s' r' net' n -> rst (header seg) = false -> valid_ack T isn cap (_sender c) r' seg ->
  view (respond seg c) net s' r' net' n /\ given (_sender (respond seg c)) = given (_sender c) /\
  _receiver (respond seg c) = _receiver c.
Proof.
  intros Hv Hr Ha. destruct (view_acked seg c net n Hv Hr Ha) as (Hv1 & Hg1 & Hr1). unfold respond.
  set (c1 := if ack (header seg) then _ else c) in *. destruct (0 <? _); [|done].
  pose proof Hv1 as [Ht1 Hh1 _]. destruct (view_fill (_sender c1) c1 net n Ht1 Hh1) as [Hv2 Hg2].
  pose proof (sent_receiver (fill_window (_sender c1)) c1) as Hr2.
  pose proof (send_segments_out_emits (fill_window (_sender c1)) c1) as Hs.
  destruct (send_segments_out (set_sender (fill_window (_sender c1)) c1)) as [b c2]. cbn [snd] in *. destruct Hs as (_ & _ & Es).
  destruct b; cbn [negb]; [split_and!; congruence || done|]. pose proof Hv2 as [Ht2 Hh2 _]. split.
  - apply view_send; [|done|exact (vw_idle _ _ _ _ _ _ Hv2)]. apply direction_empty; [done..|]. rewrite Es.
    change (1 <= _next_seqno (fill_window (_sender c1))). apply fill_next_pos, (di_sinv _ _ _ _ _ _ _ _ Ht1).
  - rewrite sent_given, sent_receiver. split; [|congruence]. rewrite <- Hg1, <- Hg2. done.
Qed.

Lemma view_failed c net n :
  view c net s' r' net' n -> view (failed c) net s' r' net' n /\ given (_sender (failed c)) = given (_sender c).
Proof.
  intros [Ht Hh Hq Hid]. split; [|done]. split; [| |done|done].
  - apply direction_stream; [done|]. apply set_error_sinv, (di_sinv _ _ _ _ _ _ _ _ Ht).
  - by apply direction_error.
Qed.

Lemma view_count c net n m : n <= m -> view c net s' r' net' n -> view c net s' r' net' m.
Proof. intros Hn [? ? ? ?]. split; [by eapply direction_count..|done|done]. Qed.

(** A segment of the peer arrives. *)
Lemma arrives seg seg0 c net n :
  view c net s' r' net' n -> seg0 ∈ net' -> same_wire seg0 seg ->
  on_way T' isn' cap' s' (_receiver c) seg /\ valid_ack T isn cap (_sender c) r' seg.
Proof.
  intros [Ht Hh _] Hin [E1 E2 E3 E4 E5 E6 E7 E8].
  pose proof (di_out _ _ _ _ _ _ _ _ Hh) as Hout. rewrite Forall_forall in Hout. specialize (Hout _ Hin).
  pose proof (di_back _ _ _ _ _ _ _ _ Ht) as Hback. rewrite Forall_forall in Hback. specialize (Hback _ Hin).
  split; [by apply (on_way_data _ _ _ _ _ seg0)|]. unfold valid_ack in *. by rewrite E2, E3, E4, E5.
Qed.

Lemma after_receiver_fields r c : _sender (after_receiver r c) = _sender c /\ _receiver (after_receiver r c) = r /\
  TCPConnection._segments_out (after_receiver r c) = TCPConnection._segments_out c.
Proof. unfold after_receiver. by destruct (_ && _). Qed.

Lemma view_after seg seg0 c r net n :
  view c net s' r' net' n -> 0 <= n < 2 ^ 62 -> seg0 ∈ net' -> same_wire seg0 seg -> rst (header seg) = false ->
  TCPReceiver.segment_received seg (_receiver c) = Some r -> view (after_receiver r c) net s' r' net' (n + 1).
Proof.
  intros Hv Hn Hin Hsame Hr Er. destruct (arrives seg seg0 c net n Hv Hin Hsame) as [Hway _]. pose proof Hv as [Ht Hh Hq Hid].
  unfold after_receiver. set (b := check_inbound_ended _ && _). clearbody b.
  assert (direction T' isn' cap' s' r (n + 1) net' (TCPConnection._segments_out c ++ net)) as Hh1 by (by eapply direction_recv).
  destruct b; (split; [eapply direction_count; [|exact Ht]; lia|exact Hh1|exact Hq|exact Hid]).
Qed.

Lemma view_recv seg seg0 c c' net n :
  view c net s' r' net' n -> 0 <= n < 2 ^ 62 -> seg0 ∈ net' -> same_wire seg0 seg -> segment_received seg c = Some c' ->
  view c' net s' r' net' (n + 1) /\ given (_sender c') = given (_sender c) /\
  taken (_reassembler (_receiver c')) = taken (_reassembler (_receiver c)).
Proof.
  intros Hv Hn Hin Hsame E. destruct (rst (header seg)) eqn:Hr.
  - rewrite segment_received_rst in E by done. injection E as <-. destruct (view_failed c net n Hv) as [Hv' Hg].
    split_and!; [eapply view_count; [|exact Hv']; lia|done|done].
  - rewrite segment_received_eq in E by done.
    destruct (TCPReceiver.segment_received seg (_receiver c)) as [r|] eqn:Er; [|done]. injection E as <-.
    destruct (arrives seg seg0 c net n Hv Hin Hsame) as [Hway Hack]. destruct (after_receiver_fields r c) as (Es & Ec & _).
    destruct (view_respond seg (after_receiver r c) net (n + 1) (view_after _ _ _ _ _ _ Hv Hn Hin Hsame Hr Er) Hr) as (Hv2 & Hg & Hre).
    { by rewrite Es. }
    split_and!; [done|by rewrite Hg, Es|]. rewrite Hre, Ec.
    destruct Hway as [?|[[i Hc] _]]; [congruence|]. pose proof Hv as [_ Hh _].
    by destruct (winv_recv T' isn' cap' Hisn' Hcap' Hbound' n i seg (_receiver c) r Hn (di_winv _ _ _ _ _ _ _ _ Hh) Hc Er) as (_ & ? & _).
Qed.

Lemma view_pop k c net n :
  view c net s' r' net' n -> 0 <= k -> view (set_receiver (update_stream_out (pop_output k) (_receiver c)) c) net s' r' net' n.
Proof. intros [Ht Hh Hq Hid] Hk. split; [done|by apply direction_pop|done|done]. Qed.

Lemma view_dequeue seg q c net n :
  view c net s' r' net' n -> TCPConnection._segments_out c = seg :: q -> view (set_out q c) (seg :: net) s' r' net' n.
Proof.
  intros [Ht Hh Hq Hid] E. split; [| |done|done]; (eapply direction_lists; [eassumption|..]);
    [|apply (di_back _ _ _ _ _ _ _ _ Ht)|apply (di_out _ _ _ _ _ _ _ _ Hh)|]; cbn [set_out TCPConnection._segments_out].
  - pose proof (di_out _ _ _ _ _ _ _ _ Ht) as H. rewrite E in H. by rewrite <- Permutation_middle.
  - pose proof (di_back _ _ _ _ _ _ _ _ Hh) as H. rewrite E in H. by rewrite <- Permutation_middle.
Qed.

Lemma view_settle c net n :
  view c net s' r' net' n ->
  view (settle c) net s' r' net' n /\ _sender (settle c) = _sender c /\ _receiver (settle c) = _receiver c.
Proof. intros [? ? ? ?]. unfold settle. by destruct (_ && _). Qed.

(** The queue is replaced by a RST. *)
Lemma view_rst seg c net n : view c net s' r' net' n -> rst (header seg) = true -> view (set_out [seg] c) net s' r' net' n.
Proof.
  intros [Ht Hh Hq Hid] Hr. split; [| |done|done]; (eapply direction_lists; [eassumption|..]).
  2: apply (di_back _ _ _ _ _ _ _ _ Ht). 2: apply (di_out _ _ _ _ _ _ _ _ Hh).
  - pose proof (di_out _ _ _ _ _ _ _ _ Ht) as H. apply Forall_app in H as [_ H]. constructor; [by left|done].
  - pose proof (di_back _ _ _ _ _ _ _ _ Hh) as H. apply Forall_app in H as [_ H]. constructor; [by left|done].
Qed.

Lemma view_ticked ms c net n :
  view c net s' r' net' n -> view (ticked ms c) net s' r' net' n /\ given (_sender (ticked ms c)) = given (_sender c).
Proof.
  intros [Ht Hh Hq Hid]. split.
  - destruct (tick_fields ms (_sender c)) as (_ & Eo & _ & _ & _ & _ & Est & _).
    pose proof (view_send (TCPSender.tick ms (_sender c)) c net n (direction_tick _ _ _ _ _ _ _ _ _ Ht) Hh) as H.
    rewrite send_segments_out_eq in H. destruct H as [? ? ? ?]; [unfold idle; by rewrite Eo, Est|]. by split.
  - unfold given, ticked, stream_in. cbn. by rewrite tick_stream.
Qed.

Lemma view_tick ms c c' net n :
  view c net s' r' net' n -> TCPConnection.tick ms c = Some c' ->
  view c' net s' r' net' n /\ given (_sender c') = given (_sender c) /\
  taken (_reassembler (_receiver c')) = taken (_reassembler (_receiver c)).
Proof.
  intros Hv. rewrite tick_eq. intros [= <-]. destruct (view_ticked ms c net n Hv) as [Hv1 Hg].
  destruct (MAX_RETX_ATTEMPTS <? _).
  - destruct (view_failed (set_out [set_rst (set_seqno (next_seqno (TCPSender.tick ms (_sender c))) TCPSegment_default)] (ticked ms c)) net n)
      as [Hv2 _]; [by apply view_rst|]. destruct (view_settle _ net n Hv2) as (H1 & -> & ->). split; [exact H1|]. by split.
  - destruct (view_settle _ net n Hv1) as (H1 & -> & ->). by split.
Qed.

(** A received segment counts. *)
Definition arrivals (u : usage) : Z := match u with Received _ => 1 | _ => 0 end.

(** The history agrees with the state. *)
Definition recorded (x : endpoint) : Prop :=
  given (_sender (conn x)) = (len (written x), ended x) /\
  delivered x = ztake (taken (_reassembler (_receiver (conn x)))) T'.

Abbreviation viewed x n := (view (conn x) (sent_segments x) s' r' net' n).

(** Reading takes the next bytes. *)
Lemma recorded_pop k c n out back :
  direction T' isn' cap' s' (_receiver c) n out back -> 0 <= k <= buffer_size (inbound_stream c) ->
  ztake (taken (_reassembler (_receiver c))) T' ++ peek_output k (inbound_stream c) =
  ztake (taken (_reassembler (update_stream_out (pop_output k) (_receiver c)))) T'.
Proof.
  intros Hd Hk. pose proof (wi_inv _ _ _ _ _ (di_winv _ _ _ _ _ _ _ _ Hd)) as Hi. pose proof (inv_bounds T' cap' _ Hi) as Hb.
  pose proof (inv_out T' cap' _ Hi) as Hw. pose proof (inv_next T' cap' _ Hi). pose proof (inv_written T' cap' _ Hi) as Hwr.
  unfold inbound_stream, receiver_stream_out, stream_out, buffer_size in *. rewrite (wf_size _ Hw) in Hk.
  rewrite peek_output_eq by (done || lia). rewrite (inv_content T' cap' _ Hi), ztake_slice_le by lia.
  unfold taken, update_stream_out, update_output in *. cbn [_reassembler _output].
  rewrite pop_output_eq by (done || lia). cbn [bytes_read _bytes_read]. unfold bytes_read in *.
  rewrite Z.min_l, u64_small by lia. by rewrite ztake_slice by lia.
Qed.

(** What is written next is the next piece of [T]. *)
Lemma next_piece w data : w ++ data `prefix_of` T -> data = slice (len w) (len data) T /\ len w + len data <= len T.
Proof.
  intros [k ->]. rewrite <- app_assoc. split; [|rewrite !len_app; lia].
  unfold slice. by rewrite zdrop_app_exact, ztake_app_exact.
Qed.

Lemma tick_viewed ms x c n :
  viewed x n -> recorded x -> TCPConnection.tick ms (conn x) = Some c ->
  let y := record (Ticked ms) c (delivered x) x in
  viewed y n /\ recorded y.
Proof. intros Hv Hr E. destruct (view_tick ms _ _ _ _ Hv E) as (H1 & Hg & Ht). unfold recorded. cbn. by rewrite Hg, Ht. Qed.

Lemma use_viewed u x c p n :
  viewed x n -> recorded x -> 0 <= n < 2 ^ 62 ->
  use u (conn x, delivered x) (c, p) -> allowed net' u x ->
  (match u with Written data => written x ++ data `prefix_of` T | Ended => written x = T | _ => True end) ->
  let y := record u c p x in
  viewed y (n + arrivals u) /\ recorded y.
Proof.
  intros Hv [Hg Hd] Hn Hu Ha HT y. unfold recorded. subst y. cbn [record conn delivered written ended sent_segments].
  assert (bytes_written (stream_in (_sender (conn x))) = len (written x) /\ ByteStream.input_ended (stream_in (_sender (conn x))) = ended x)
    as [Hw He] by (by injection Hg).
  destruct u as [|seg|data| |data|seg|ms]; simpl in Ha, HT; cbn [arrivals]; rewrite ?Z.add_0_r;
    inversion Hu as [|? ? ? ? E|? ? ? Hr| |k ? ? Hk|? ? ? ? E|? ? ? ? ? E]; subst.
  - destruct (view_connect _ _ _ Hv) as [H1 H2]. split; [done|]. split; [congruence|]. unfold connect. by rewrite sent_receiver.
  - destruct Ha as (seg0 & Hin & Hsame). destruct (view_recv seg seg0 _ _ _ _ Hv Hn Hin Hsame E) as (H1 & -> & ->). done.
  - destruct (next_piece _ _ HT) as [Hp Hl]. rewrite <- Hw in Hp, Hl.
    destruct (view_write data _ _ _ Hv) as [H1 H2]; try done; [congruence|]. split; [done|]. rewrite H2, len_app, Hw, Ha.
    split; [done|]. unfold TCPConnection.write. destruct (len data =? 0); [done|]. destruct (ByteStream.write _ _) as [m st].
    cbn [snd]. by rewrite sent_receiver.
  - destruct (view_end _ _ _ Hv) as [H1 H2]; [congruence|]. split; [done|]. rewrite H2, Hw. split; [done|].
    unfold end_input_stream. by rewrite sent_receiver.
  - split; [apply view_pop; [done|lia]|]. split; [done|]. rewrite Hd. eapply recorded_pop; [apply (vw_here _ _ _ _ _ _ Hv)|done].
  - split; [by apply view_dequeue|done].
  - by apply (tick_viewed ms).
Qed.
End Side.

(** ** Both sides *)

Definition config_ok (cfg : TCPConfig) : Prop :=
  0 <= send_capacity cfg < 2 ^ 64 /\ 0 <= recv_capacity cfg /\ 0 <= rt_timeout cfg < 2 ^ 16 /\ from_option WrappingIntegers.wf True (fixed_isn cfg).

Lemma isn_of_wf cfg random_isn : config_ok cfg -> WrappingIntegers.wf (isn_of cfg random_isn).
Proof. intros (_ & _ & _ & H). unfold isn_of. destruct (fixed_isn cfg); [exact H|]. apply u32_range. Qed.

(** The same seen from the other side. *)
Lemma view_swap T isn cap T' isn' cap' c net d net' n :
  view T isn cap T' isn' cap' c net (_sender d) (_receiver d) (TCPConnection._segments_out d ++ net') n -> quiet d /\ idle (_sender d) ->
  view T' isn' cap' T isn cap d net' (_sender c) (_receiver c) (TCPConnection._segments_out c ++ net) n.
Proof. intros [Ht Hh _] [Hq Hid]. by split. Qed.

(** [T] is the stream [x] writes, as far as one can tell. *)
Definition stream_of (x : endpoint) (T : list byte) : Prop := written x `prefix_of` T /\ (ended x = true -> written x = T).

Lemma stream_of_act peer x y T : act peer x y -> stream_of y T -> stream_of x T.
Proof.
  intros Ha [Hp He]. destruct (act_monotone _ _ _ Ha) as [Hm Hend]. split; [by etrans|].
  intros E. destruct (Hend E) as [E' <-]. auto.
Qed.

Lemma stream_of_act_next peer u x c p T :
  allowed peer u x -> stream_of (record u c p x) T ->
  match u with Written data => written x ++ data `prefix_of` T | Ended => written x = T | _ => True end.
Proof. intros _ [Hp He]. destruct u; try done. by apply He. Qed.

Section Pair.
Context (ca cb : TCPConfig) (ra rb : Z).
Context (Ha : config_ok ca) (Hb : config_ok cb).

Abbreviation isnA := (isn_of ca ra).
Abbreviation isnB := (isn_of cb rb).

(** The invariant of an exchange, for any streams that continue what has been
    written so far. *)
Record paired (a b : endpoint) (TA TB : list byte) (n : Z) : Prop := {
  pr_view : view TA isnA (recv_capacity cb) TB isnB (recv_capacity ca) (conn a) (sent_segments a)
    (_sender (conn b)) (_receiver (conn b)) (TCPConnection._segments_out (conn b) ++ sent_segments b) n;
  pr_quiet : quiet (conn b) /\ idle (_sender (conn b));
  pr_left : recorded TB a;
  pr_right : recorded TA b }.

Lemma paired_start TA TB :
  len TA + recv_capacity cb < 2 ^ 31 - 4 -> len TB + recv_capacity ca < 2 ^ 31 - 4 ->
  paired (endpoint_of ca ra) (endpoint_of cb rb) TA TB 0.
Proof.
  intros HA HB. destruct Ha as (? & ? & ? & _), Hb as (? & ? & ? & _).
  split; [|done|split; [done|by vm_compute]..].
  assert (forall cfg r, TCPSender_of (send_capacity cfg) (rt_timeout cfg) (fixed_isn cfg) r =
    TCPSender_of (send_capacity cfg) (rt_timeout cfg) (Some (isn_of cfg r)) r) as Es.
  { intros cfg r. unfold isn_of. by destruct (fixed_isn cfg). }
  split; [..|done|done]; cbn [endpoint_of conn TCPConnection_of _sender _receiver TCPConnection._segments_out sent_segments app];
    rewrite Es; apply direction_init; done || lia.
Qed.

Lemma paired_count a b TA TB n m : n <= m -> paired a b TA TB n -> paired a b TA TB m.
Proof. intros Hn []. split; try done. by eapply view_count. Qed.

Lemma paired_use a b TA TB u c p n :
  len TA + recv_capacity cb < 2 ^ 31 - 4 -> len TB + recv_capacity ca < 2 ^ 31 - 4 -> 0 <= n < 2 ^ 62 ->
  paired a b TA TB n -> use u (conn a, delivered a) (c, p) -> allowed (sent_segments b) u a -> stream_of (record u c p a) TA ->
  paired (record u c p a) b TA TB (n + arrivals u).
Proof.
  intros HA HB Hn [Hv Hq Hl Hr] Hu Hal HT.
  destruct (use_viewed TA isnA (recv_capacity cb) TB isnB (recv_capacity ca)) with (u := u) (x := a) (c := c) (p := p) (n := n)
    (s' := _sender (conn b)) (r' := _receiver (conn b)) (net' := TCPConnection._segments_out (conn b) ++ sent_segments b)
    as [H1 H2]; try done; try apply Ha; try apply Hb; try (by apply isn_of_wf).
  - destruct u; try done. destruct Hal as (seg0 & Hin & Hs). exists seg0. split; [|done]. apply elem_of_app. by right.
  - by eapply stream_of_act_next.
Qed.

Lemma paired_tick a b TA TB ms c n :
  len TA + recv_capacity cb < 2 ^ 31 - 4 -> len TB + recv_capacity ca < 2 ^ 31 - 4 ->
  paired a b TA TB n -> TCPConnection.tick ms (conn a) = Some c -> paired (record (Ticked ms) c (delivered a) a) b TA TB n.
Proof.
  intros HA HB [Hv Hq Hl Hr] E.
  destruct (tick_viewed TA isnA (recv_capacity cb) TB isnB (recv_capacity ca)) with (ms := ms) (x := a) (c := c) (n := n)
    (s' := _sender (conn b)) (r' := _receiver (conn b)) (net' := TCPConnection._segments_out (conn b) ++ sent_segments b)
    as [H1 H2]; try done; try apply Ha; try apply Hb; by apply isn_of_wf.
Qed.

Lemma paired_left a a' b TA TB n :
  len TA + recv_capacity cb < 2 ^ 31 - 4 -> len TB + recv_capacity ca < 2 ^ 31 - 4 -> 0 <= n < 2 ^ 62 ->
  paired a b TA TB n -> act (sent_segments b) a a' -> stream_of a' TA -> paired a' b TA TB (n + 1).
Proof.
  intros HA HB Hn Hp Hact HT. destruct Hact as [u a c p Hu Hal|ms a c E].
  - apply (paired_count _ _ _ _ (n + arrivals u)); [destruct u; simpl; lia|]. by apply paired_use.
  - apply (paired_count _ _ _ _ n); [lia|]. by apply paired_tick.
Qed.
End Pair.

Lemma paired_swap ca cb ra rb a b TA TB n : paired ca cb ra rb a b TA TB n -> paired cb ca rb ra b a TB TA n.
Proof.
  intros [Hv Hq Hl Hr]. split; [by apply view_swap| |done..]. by destruct Hv.
Qed.

Lemma exchange_paired ca cb ra rb k a b TA TB :
  config_ok ca -> config_ok cb -> Z.of_nat k < 2 ^ 62 ->
  len TA + recv_capacity cb < 2 ^ 31 - 4 -> len TB + recv_capacity ca < 2 ^ 31 - 4 ->
  exchange (endpoint_of ca ra) (endpoint_of cb rb) k a b -> stream_of a TA -> stream_of b TB ->
  paired ca cb ra rb a b TA TB (Z.of_nat k).
Proof.
  intros Ha Hb Hk HA HB Hex. revert Hk. induction Hex as [|k a a' b _ IH Hact|k a b b' _ IH Hact]; intros Hk H1 H2.
  - by apply paired_start.
  - replace (Z.of_nat (S k)) with (Z.of_nat k + 1) by lia. apply (paired_left _ _ _ _ Ha Hb a); try done; [lia|].
    apply IH; [lia|by eapply stream_of_act|done].
  - replace (Z.of_nat (S k)) with (Z.of_nat k + 1) by lia. apply paired_swap.
    apply (paired_left _ _ _ _ Hb Ha b); try done; [lia|]. apply paired_swap, IH; [lia|done|by eapply stream_of_act].
Qed.

(** ** What arrives *)

(** From [x] to [y]: what [y] has got, read or not, is the beginning of what [x]
    wrote; if its stream has ended, it is all of it, and [x] has ended it too; and
    until [x] has sent its FIN it takes nothing for acknowledged that [y] has not. *)
Definition reliable (x y : endpoint) : Prop :=
  let arrived := delivered y ++ ByteStream._stream (inbound_stream (conn y)) in
  arrived `prefix_of` written x /\
  (ByteStream.input_ended (inbound_stream (conn y)) = true -> arrived = written x /\ ended x = true) /\
  (fin_sent (_sender (conn x)) = false ->
   _confirmed_seqno (_sender (conn x)) <= 1 + bytes_written (inbound_stream (conn y))).

(** The bytes that have arrived, by position. *)
Lemma paired_arrived ca cb ra rb a b TA TB n :
  0 <= recv_capacity cb -> len TA + recv_capacity cb < 2 ^ 31 - 4 -> paired ca cb ra rb a b TA TB n ->
  delivered b ++ ByteStream._stream (inbound_stream (conn b)) = ztake (bytes_written (inbound_stream (conn b))) TA /\
  0 <= bytes_written (inbound_stream (conn b)) /\
  (ByteStream.input_ended (inbound_stream (conn b)) = true -> bytes_written (inbound_stream (conn b)) = len TA) /\
  (fin_sent (_sender (conn a)) = false ->
   _confirmed_seqno (_sender (conn a)) <= 1 + bytes_written (inbound_stream (conn b))).
Proof.
  intros Hc HA [[Ht _ _] _ _ [_ Hd]]. pose proof (wi_inv _ _ _ _ _ (di_winv _ _ _ _ _ _ _ _ Ht)) as Hi.
  pose proof (inv_bounds _ _ _ Hi) as Hb.
  unfold inbound_stream, receiver_stream_out, stream_out. rewrite (inv_bytes_written TA _ Hc ltac:(lia) _ Hi).
  split_and!.
  - rewrite Hd, (inv_content _ _ _ Hi), ztake_slice by lia. f_equal. lia.
  - lia.
  - exact (inv_ended _ _ _ Hi).
  - intros Hf. destruct (di_edge _ _ _ _ _ _ _ _ Ht Hf). lia.
Qed.

Lemma exchange_reliable ca cb ra rb k a b :
  config_ok ca -> config_ok cb -> Z.of_nat k < 2 ^ 62 ->
  len (written a) + recv_capacity cb < 2 ^ 31 - 5 -> len (written b) + recv_capacity ca < 2 ^ 31 - 5 ->
  exchange (endpoint_of ca ra) (endpoint_of cb rb) k a b -> reliable a b.
Proof.
  intros Ha Hb Hk HA HB Hex. pose proof (proj1 (proj2 Hb)) as Hcb.
  assert (forall T, stream_of a T -> len T <= len (written a) + 1 -> paired ca cb ra rb a b T (written b) (Z.of_nat k)) as Hpair.
  { intros T HT Hl. apply exchange_paired; try done; lia. }
  assert (stream_of a (written a)) as Hself by (by split).
  destruct (paired_arrived ca cb ra rb a b (written a) (written b) _ Hcb ltac:(lia) (Hpair _ Hself ltac:(lia))) as (E & H0 & Hend & Hcf).
  unfold reliable. rewrite E. split_and!; [apply prefix_take| |done].
  intros He. specialize (Hend He). split; [by rewrite Hend, ztake_all|]. destruct (ended a) eqn:Hended; [done|exfalso].
  assert (stream_of a (written a ++ [Byte.x00])) as Hmore. { split; [by apply prefix_app_r|congruence]. }
  assert (len (written a ++ [Byte.x00]) = len (written a) + 1) as Hl by (by rewrite len_app).
  destruct (paired_arrived ca cb ra rb a b (written a ++ [Byte.x00]) (written b) _ Hcb ltac:(lia) (Hpair _ Hmore ltac:(lia))) as (_ & _ & Hend' & _).
  specialize (Hend' He). lia.
Qed.

Lemma exchange_swap a0 b0 k a b : exchange a0 b0 k a b -> exchange b0 a0 k b a.
Proof. induction 1; [constructor|by eapply ex_right|by eapply ex_left]. Qed.

(** ** Running an exchange *)

Inductive command :=
  | Connect
  | Receive (i : nat)
  | Write (data : list byte)
  | End
  | Read (n : Z)
  | Send
  | Tick (ms : Z).

Definition perform (cmd : command) (peer : list TCPSegment) (x : endpoint) : option endpoint :=
  let c := conn x in
  match cmd with
  | Connect => Some (record Connected (connect c) (delivered x) x)
  | Receive i =>
      match peer !! i with
      | None => None
      | Some seg => option_map (fun c' => record (Received seg) c' (delivered x) x) (segment_received seg c)
      end
  | Write data =>
      if ended x || negb (len data <=? remaining_outbound_capacity c) then None
      else Some (record (Written data) (TCPConnection.write data c).2 (delivered x) x)
  | End => Some (record Ended (end_input_stream c) (delivered x) x)
  | Read n =>
      if (0 <=? n) && (n <=? buffer_size (inbound_stream c)) then
        let data := peek_output n (inbound_stream c) in
        Some (record (Delivered data) (set_receiver (update_stream_out (pop_output n) (_receiver c)) c) (delivered x ++ data) x)
      else None
  | Send =>
      match TCPConnection._segments_out c with
      | [] => None
      | seg :: q => Some (record (Dequeued seg) (set_out q c) (delivered x) x)
      end
  | Tick ms => option_map (fun c' => record (Ticked ms) c' (delivered x) x) (TCPConnection.tick ms c)
  end.

Lemma perform_act cmd peer x y : perform cmd peer x = Some y -> act peer x y.
Proof.
  unfold perform. destruct cmd as [|i|data| |n| |ms].
  - intros [= <-]. by apply act_intro; [constructor|].
  - destruct (peer !! i) as [seg|] eqn:Ei; [|done]. destruct (segment_received seg (conn x)) as [c'|] eqn:E; [|done].
    intros [= <-]. apply act_intro; [by constructor|]. exists seg. split; [by eapply list_elem_of_lookup_2|apply same_wire_refl].
  - destruct (ended x) eqn:He; [done|]. destruct (Z.leb_spec (len data) (remaining_outbound_capacity (conn x))); [|done].
    intros [= <-]. by apply act_intro; [constructor|].
  - intros [= <-]. by apply act_intro; [constructor|].
  - destruct (_ && _) eqn:E; [|done]. apply andb_true_iff in E as [?%Z.leb_le ?%Z.leb_le]. intros [= <-].
    by apply act_intro; [constructor|].
  - destruct (TCPConnection._segments_out (conn x)) as [|seg q] eqn:E; [done|]. intros [= <-]. by apply act_intro; [constructor|].
  - destruct (TCPConnection.tick ms (conn x)) as [c'|] eqn:E; [|done]. intros [= <-]. by apply act_ticked.
Qed.

(** A script: who ([true] for the first side) does what. *)
Fixpoint play (script : list (bool * command)) (a b : endpoint) : option (endpoint * endpoint) :=
  match script with
  | [] => Some (a, b)
  | (true, cmd) :: script => match perform cmd (sent_segments b) a with Some a' => play script a' b | None => None end
  | (false, cmd) :: script => match perform cmd (sent_segments a) b with Some b' => play script a b' | None => None end
  end.

Lemma play_exchange script a0 b0 k a b a' b' :
  exchange a0 b0 k a b -> play script a b = Some (a', b') -> exchange a0 b0 (k + length script) a' b'.
Proof.
  revert k a b. induction script as [|[[] cmd] script IH]; intros k a b Hex; cbn [play length].
  - intros [= <- <-]. by rewrite Nat.add_0_r.
  - destruct (perform _ _ _) as [x|] eqn:E; [|done]. rewrite <- Nat.add_succ_comm. apply IH. eapply ex_left; [done|by eapply perform_act].
  - destruct (perform _ _ _) as [x|] eqn:E; [|done]. rewrite <- Nat.add_succ_comm. apply IH. eapply ex_right; [done|by eapply perform_act].
Qed.


(** The first side writes and ends; its first segment of data is lost and sent
    again, and the second arrives first and twice. *)
Definition demo_config : TCPConfig := mkTCPConfig 1000 8 64 None.
Definition demo_script : list (bool * command) :=
  [(true, Connect); (true, Send); (false, Receive 0); (false, Send); (true, Receive 0); (true, Send); (false, Receive 0);
   (true, Write (lit "hello")); (true, Send); (true, Write (lit "!!")); (true, End); (true, Send);
   (false, Receive 0); (false, Receive 0); (false, Send);
   (true, Tick 1000); (true, Send); (false, Receive 0); (true, Send); (false, Receive 0); (false, Read 4)].

Definition demo_end : endpoint * endpoint :=
  let start := (endpoint_of demo_config 77, endpoint_of demo_config 4294967295) in
  default start (play demo_script start.1 start.2).

Lemma demo_exchange :
  exchange (endpoint_of demo_config 77) (endpoint_of demo_config 4294967295) (length demo_script) demo_end.1 demo_end.2.
Proof.
  apply (play_exchange demo_script _ _ 0 (endpoint_of demo_config 77) (endpoint_of demo_config 4294967295)); [constructor|].
  vm_compute. reflexivity.
Qed.

Lemma demo_config_ok : config_ok demo_config.
Proof. unfold config_ok; simpl. lia. Qed.


(** ** A hang between two correct connections *)

(** The first side writes twice and acknowledges a byte of the second side in between.
    Its first segment of data is lost and its acknowledgment is overtaken by
    its second segment. *)
Definition overtaken_script : list (bool * command) :=
  [(true, Connect); (true, Send); (false, Receive 0); (false, Send); (true, Receive 0); (true, Send); (false, Receive 0);
   (true, Write (lit "abc")); (true, Send); (false, Write (lit "x")); (false, Send); (true, Receive 0); (true, Send);
   (true, Write (lit "de")); (true, Send); (false, Receive 0)].

Definition overtaken_end : endpoint * endpoint :=
  let start := (endpoint_of demo_config 77, endpoint_of demo_config 4294967295) in
  default start (play overtaken_script start.1 start.2).

Definition overtaken_ack : TCPSegment := default TCPSegment_default (sent_segments overtaken_end.1 !! 1%nat).

