(* ===== verification/Ordered.v ===== *)
(** Two connections over a network that loses segments but keeps their order.

    [overtaken_ack_hangs] of [Duplex] needs a segment that overtakes another one.
    Here it is shown that nothing else hangs a connection: if what arrives is, in
    order, a part of what was sent, every segment is received
    ([ordered_received]).  The reassembler then holds only whole pieces of the
    stream as the sender cut it, and empty datagrams that were sent before any piece
    with the same index. *)
From S2P Require Import Prelude WrappingIntegers Buffer ByteStream StreamReassembler ReassemblerProgress TCPSegment TCPReceiver TCPSender.
From S2P Require Import TCPState TCPConnection ConnectionStreams SocketLoop Delivery Duplex.

(** ** What the reassembler holds *)

(** The pieces a stream is cut into: non-empty, equal or disjoint. *)
Record pieces (cut : Z -> Z -> Prop) : Prop := {
  pc_range : forall i n, cut i n -> 0 <= i /\ 0 < n /\ i + n < 2 ^ 62;
  pc_disjoint : forall i n j m, cut i n -> cut j m -> (i = j /\ n = m) \/ i + n <= j \/ j + m <= i }.

Lemma cut_at_boundary cut i n k : pieces cut -> boundary cut k -> cut i n -> i + n <= k \/ k <= i.
Proof.
  intros [Hr Hd] [->|(j & m & Hj & <-)] Hi; [apply Hr in Hi; lia|].
  destruct (Hd i n j m Hi Hj) as [[-> ->]|[?|?]]; [lia| |lia]. apply Hr in Hi, Hj. lia.
Qed.

Lemma boundary_cut (cut cut' : Z -> Z -> Prop) k : (forall i n, cut i n -> cut' i n) -> boundary cut k -> boundary cut' k.
Proof. intros Hc [->|(i & n & Hi & E)]; [by left|right]. exists i, n. auto. Qed.

Section Tidy.
Context (cut : Z -> Z -> Prop) (Hcut : pieces cut).

(** A piece, or empty. *)
Definition neat (p : datagram) : Prop := sized p /\ (0 < size p -> cut (index p) (size p)).

Abbreviation storage := temporarily_descrete_data_storage.

(** [D] is the end of what has arrived, of everything that is not empty. *)
Record tidy (D : Z) (l : list datagram) : Prop := {
  td_neat : Forall neat l;
  td_sorted : StronglySorted index_le l;
  td_yields : StronglySorted yields l;
  td_end : Forall (fun p => 0 < size p -> tail p <= D) l }.

Lemma tidy_nil D : tidy D [].
Proof. split; constructor. Qed.

Lemma tidy_cons D w l : tidy D (w :: l) -> tidy D l /\ neat w /\ Forall (yields w) l /\ (0 < size w -> tail w <= D).
Proof.
  intros [Hn Hs Hy He]. apply Forall_cons in Hn as [Hw Hn], He as [Hwe He].
  apply StronglySorted_inv in Hs as [Hs _], Hy as [Hy Hyw]. split_and!; try done.
Qed.

Lemma tidy_mono D D' l : D <= D' -> tidy D l -> tidy D' l.
Proof. intros HD [? ? ? He]. split; try done. eapply Forall_impl; [exact He|]. simpl. intros p Hp ?. specialize (Hp ltac:(done)). lia. Qed.

Lemma sublist_sorted {A} (R : A -> A -> Prop) l k : sublist l k -> StronglySorted R k -> StronglySorted R l.
Proof.
  induction 1 as [|x l k Hs IH|x l k Hs IH]; intros HS; [constructor| |]; apply StronglySorted_inv in HS as [HS Hx]; auto.
  constructor; [auto|]. by eapply Forall_sublist_of.
Qed.

Lemma tidy_sublist D l k : sublist l k -> tidy D k -> tidy D l.
Proof. intros Hs [? ? ? ?]. split; try (by eapply Forall_sublist_of); by eapply sublist_sorted. Qed.

(** The loop merges nothing: it removes some of what is stored, at most, and
    leaves with the datagram as it is. *)
Definition scanned (l : list datagram) (dg : datagram) (r : scan) : Prop :=
  match r with
  | Returned l' _ => sublist l' l
  | StreamReassembler.Left l' _ dg' => sublist l' l /\ dg' = dg
  end.

Lemma scan_loop_neat fuel pre rest ub dg r :
  Forall neat (pre ++ rest) -> neat dg -> scan_loop fuel pre rest ub dg = Some r -> scanned (pre ++ rest) dg r.
Proof.
  revert pre rest ub r. induction fuel as [|fuel IH]; intros pre [|ptr rest] ub r Hl Hdg; try done.
  1,2: intros [= <-]; simpl; by rewrite app_nil_r.
  assert (neat ptr) as Hptr by (rewrite Forall_app, Forall_cons in Hl; tauto).
  pose proof Hptr as [[Hnw _] Hpc]. pose proof Hdg as [[Hnd _] Hdc]. rewrite scan_loop_turn by done.
  assert (forall u r, scan_loop fuel [] (pre ++ ptr :: rest) u dg = Some r -> scanned (pre ++ ptr :: rest) dg r) as Hsame.
  { intros u r' E. by apply (IH [] (pre ++ ptr :: rest)) in E. }
  assert (forall u r, scan_loop fuel [] (pre ++ rest) u dg = Some r -> scanned (pre ++ ptr :: rest) dg r) as Herase.
  { assert (sublist (pre ++ rest) (pre ++ ptr :: rest)) as Hsub by (apply sublist_app; [done|by constructor]).
    intros u r' E. apply (IH [] (pre ++ rest)) in E; [|by eapply Forall_sublist_of|done].
    destruct r'; simpl in *; [by etrans|]. destruct E as [E ->]. split; [by etrans|done]. }
  assert (forall u r, scan_loop fuel (pre ++ [ptr]) rest u dg = Some r -> scanned (pre ++ ptr :: rest) dg r) as Hnext.
  { intros u r' E. apply IH in E; rewrite <- ?app_assoc in *; done. }
  assert (forall u, scanned (pre ++ ptr :: rest) dg (Returned (pre ++ ptr :: rest) u)) as Hkeep by (intros u; simpl; reflexivity).
  destruct (_ =? index ptr) eqn:E1.
  { destruct (tail ptr =? tail dg); [by intros [= <-]; apply Hkeep|]. destruct (tail ptr <? tail dg); [apply Herase|apply Hsame]. }
  apply Z.eqb_neq in E1. destruct (Z.ltb_spec (index ptr) (index dg)).
  { destruct (tail ptr <? tail dg); [intros [= <-]; split; [reflexivity|done]|]. destruct (index dg <? tail ptr); [by intros [= <-]; apply Hkeep|apply Hnext]. }
  destruct (Z.ltb_spec (index ptr) (tail dg)) as [Hin|]; [|apply Hnext].
  destruct (Z.leb_spec (tail ptr) (tail dg)) as [|Hout]; [apply Herase|exfalso].
  unfold no_wrap, tail in *. destruct (pc_disjoint _ Hcut _ _ _ _ (Hdc ltac:(lia)) (Hpc ltac:(lia))); lia.
Qed.

Lemma insert_yields dg l :
  StronglySorted yields l -> Forall (yields dg) l -> StronglySorted yields (insert_sorted dg l).
Proof.
  induction 1 as [|h t Hs IH Hh]; intros Hdg; simpl; [by repeat constructor|]. apply Forall_cons in Hdg as [Hdh Hdt].
  destruct (Z.ltb_spec (index h) (index dg)); [|by repeat constructor].
  constructor; [auto|]. rewrite insert_sorted_perm. constructor; [unfold yields; lia|done].
Qed.

Lemma handler_tidy D fuel dg s s' :
  tidy D (storage s) -> neat dg -> Forall (yields dg) (storage s) -> (0 < size dg -> tail dg <= D) ->
  missing_middle_handler fuel dg s = Some s' -> tidy D (storage s').
Proof.
  intros Ht Hdg Hy He. unfold missing_middle_handler.
  destruct (scan_loop fuel [] (storage s) (_unassembled_bytes s) dg) as [r|] eqn:E; [|done].
  apply scan_loop_neat in E; [|apply (td_neat _ _ Ht)|done]. destruct r as [l u|l u dg']; cbn [scanned app] in E; intros [= <-]; cbn [storage].
  - by eapply tidy_sublist.
  - destruct E as [E ->]. pose proof (tidy_sublist _ _ _ E Ht) as [Hn Hs Hys Hend].
    assert (Forall (yields dg) l) as Hy' by (by eapply Forall_sublist_of).
    cbn [sort foldr]. fold (sort l). rewrite sort_id by done.
    split; [rewrite insert_sorted_perm; by constructor|by apply insert_sorted_sorted|by apply insert_yields|].
    rewrite insert_sorted_perm. by constructor.
Qed.

Lemma push_tidy D fuel data idx e s s' :
  let dg := mkDatagram data idx (len data) e in
  tidy D (storage s) -> neat dg -> Forall (yields dg) (storage s) -> (0 < len data -> idx + len data <= D) ->
  push_substring fuel data idx e s = Some s' -> tidy D (storage s').
Proof.
  revert data idx e s s'. induction fuel as [|fuel IH]; intros data idx e s s' dg Ht Hdg Hy He; [done|]. cbn [push_substring].
  assert (forall ex s1, storage s1 = storage s -> finish (push_substring fuel) data e ex s1 = Some s' -> tidy D (storage s')) as Hfin.
  { intros ex s1 Es. unfold finish, push_front_of_storage. rewrite Es.
    destruct (storage s) as [|w l] eqn:El; [intros [= <-]; destruct (_ && _); cbn [update_output storage]; by rewrite Es|].
    destruct (_ && _); [|intros [= <-]; destruct (_ && _); cbn [update_output storage]; by rewrite Es].
    destruct (push_substring fuel (_data w) _ _ _) as [s2|] eqn:E2; [|done].
    destruct (tidy_cons _ _ _ Ht) as (Hl & [[Hw1 Hw2] Hw3] & Hwy & Hwe).
    intros [= <-]. apply IH in E2; cbn [storage]; try done; [by destruct (_ && _)| | |].
    - by rewrite <- Hw2; destruct w.
    - eapply Forall_impl; [exact Hwy|]. unfold yields. cbn [index size]. by rewrite Hw2.
    - rewrite <- Hw2. exact Hwe. }
  split_if; [by intros [= <-]|]. split_if; [by intros [= <-]|]. split_if; [by apply Hfin|]. split_if; [by apply handler_tidy|].
  split_if; [|by apply Hfin]. unfold overlap_handler. by apply Hfin.
Qed.

(** A piece yields to nothing that is stored, and nor does an empty datagram behind
    everything that has arrived. *)
Lemma tidy_yields D l dg :
  tidy D l -> neat dg -> (size dg = 0 -> D <= index dg) -> Forall (yields dg) l.
Proof.
  intros [Hn _ _ He] [[(_ & Hd & _) _] Hdc] HD. apply Forall_forall. intros p Hp. rewrite Forall_forall in Hn, He.
  destruct (Hn p Hp) as [[(_ & Hs & _) _] Hpc]. specialize (He p Hp). unfold yields, tail in *. intros Ei.
  destruct (decide (0 < size p)); [|lia]. destruct (decide (size dg = 0)); [lia|].
  rewrite Ei in Hdc. destruct (pc_disjoint _ Hcut _ _ _ _ (Hdc ltac:(lia)) (Hpc ltac:(lia))); lia.
Qed.

Lemma push_ordered D data idx e s :
  tidy D (storage s) -> 0 <= idx -> idx + len data < 2 ^ 64 -> (0 < len data -> cut idx (len data) /\ idx + len data <= D) ->
  (len data = 0 -> D <= idx) ->
  exists s', push data idx e s = Some s' /\ tidy D (storage s').
Proof.
  intros Ht Hi Hl Hc HD. pose proof Ht as [Hn _ Hys _]. set (dg := mkDatagram data idx (len data) e).
  assert (neat dg) as Hdg. { split; [|by intros ?; apply Hc]. split; [|done]. unfold no_wrap, tail; simpl. lia. }
  assert (Forall (yields dg) (storage s)) as Hy by (by eapply tidy_yields).
  destruct (push_substring_terminates (enough s) data idx e s) as [s' E]; try done.
  - eapply Forall_impl; [exact Hn|]. by intros p [? _].
  - unfold enough. lia.
  - exists s'. split; [exact E|]. by eapply push_tidy; [| | |apply Hc|exact E].
Qed.

(** Nothing happens to an empty datagram at the start. *)
Lemma push_empty_tidy e s : 0 <= _next_assembling_index s -> exists s', push [] 0 e s = Some s' /\ storage s' = storage s.
Proof.
  intros Hn. unfold push, enough. cbn [push_substring].
  assert (forall again ex s1, storage s1 = storage s -> exists s', finish again [] e ex s1 = Some s' /\ storage s' = storage s) as Hfin.
  { intros again ex s1 Es. unfold finish, push_front_of_storage. rewrite Es.
    destruct (storage s); rewrite ?andb_false_r; eexists; (split; [done|]); by destruct (_ && _). }
  destruct (remaining_capacity _ =? 0); [by eexists|]. destruct (_ <=? 0); [by eexists|]. destruct (0 =? _); [by apply Hfin|].
  destruct (Z.ltb_spec (_next_assembling_index s) 0); [lia|]. destruct (_ <? u64 _); [|by apply Hfin]. unfold overlap_handler. by apply Hfin.
Qed.
End Tidy.

(** ** The receiver *)

Section Order.
Context (T : list byte) (isn : WrappingInt32) (cap : Z).
Context (Hisn : WrappingIntegers.wf isn) (Hcap : 0 <= cap) (Hbound : len T + cap < 2 ^ 31 - 4).

Let Hb62 : len T + cap < 2 ^ 62.
Proof. lia. Qed.

Abbreviation size_of seg := (len (str (payload seg))).
Abbreviation held r := (temporarily_descrete_data_storage (_reassembler r)).

Lemma push_carried cut D i seg r :
  pieces cut -> inv T cap (_reassembler r) -> carries T isn cap i seg r -> tidy cut D (held r) ->
  (0 < size_of seg -> cut i (size_of seg) /\ i + size_of seg <= D) -> (size_of seg = 0 -> syn (header seg) = true \/ D <= i) ->
  exists s', push (str (payload seg)) i (fin (header seg)) (_reassembler r) = Some s' /\
    tidy cut D (temporarily_descrete_data_storage s').
Proof.
  intros Hp Hi Hc Ht Hpos Hzero. pose proof (ca_range _ _ _ _ _ _ Hc) as [Hi0 Hr]. pose proof (ca_syn _ _ _ _ _ _ Hc) as Hs.
  destruct (syn (header seg)).
  - destruct (Hs eq_refl) as (-> & -> & _). destruct (push_empty_tidy (fin (header seg)) (_reassembler r)) as (s' & E & Es).
    { pose proof (inv_bounds T cap _ Hi). lia. }
    exists s'. split; [exact E|]. by rewrite Es.
  - apply push_ordered; try done; [lia|]. intros Hz. by destruct (Hzero Hz).
Qed.

Lemma recv_ordered cut D n i seg r :
  pieces cut -> n < 2 ^ 62 -> winv T isn cap n r -> carries T isn cap i seg r -> tidy cut D (held r) ->
  (0 < size_of seg -> cut i (size_of seg) /\ i + size_of seg <= D) -> (size_of seg = 0 -> syn (header seg) = true \/ D <= i) ->
  exists r', TCPReceiver.segment_received seg r = Some r' /\ tidy cut D (held r').
Proof.
  intros Hp Hn Hw Hc Ht Hpos Hzero. pose proof Hw as [Hi Hca Hf Hs Ha Hsafe].
  destruct (push_carried cut D i seg r) as (s1 & E1 & Ht1); try done.
  pose proof (carries_position T isn cap _ _ _ Hc) as Hpn. pose proof (ca_seqno _ _ _ _ _ _ Hc) as Hseq. fold (position seg i) in Hseq.
  destruct (unwrap_far T isn (position seg i) (abs_seqno r)) as [Eu|[Eu1 Eu2]]; [lia..| |]; rewrite <- Hseq in *.
  - rewrite (recv_near T isn cap Hisn Hcap Hbound n i seg r), E1 by done. destruct (_ || _); by eexists.
  - destruct (input_ended (_reassembler r)) eqn:Eend; [|pose proof (inv_next T cap _ Hi); destruct (Hsafe eq_refl); lia].
    remember (unwrap (seqno (header seg)) isn (abs_seqno r)) as pos eqn:Epos.
    assert ((if 0 <? pos then pos - 1 else pos) = pos - 1) as Eidx by (destruct (Z.ltb_spec 0 pos); lia).
    rewrite (recv_at T isn cap Hisn Hcap Hb62 pos seg i r); try done; [|by intros; apply Hf|by intros; apply Hs|lia|lia|].
    2: { rewrite Eidx, (push_far T cap Hcap Hbound) by (done || lia). by intros s' [= <-]. }
    rewrite Eidx, (push_far T cap Hcap Hbound) by (done || lia). destruct (_ || _); by eexists.
Qed.

(** *** Everything ends where a piece does *)

Let Hb64 : len T + cap < 2 ^ 64 - 1.
Proof. lia. Qed.

Lemma push_boundary cut fuel data idx e s s' :
  pieces cut -> inv T cap s -> consistent T (mkDatagram data idx (len data) e) -> (0 < len data -> idx + len data <= taken s + cap) ->
  Forall (neat cut) (temporarily_descrete_data_storage s) -> (0 < len data -> cut idx (len data)) ->
  boundary cut (_next_assembling_index s) -> push_substring fuel data idx e s = Some s' -> boundary cut (_next_assembling_index s').
Proof.
  intros Hp. revert data idx e s s'. induction fuel as [|fuel IH]; intros data idx e s s' Hi Hc HW Hn Hcut Hb; [done|]. cbn [push_substring].
  assert (forall ex s1, inv T cap s1 -> taken s1 = taken s -> temporarily_descrete_data_storage s1 = temporarily_descrete_data_storage s ->
    boundary cut (_next_assembling_index s1) -> finish (push_substring fuel) data e ex s1 = Some s' ->
    boundary cut (_next_assembling_index s')) as Hfin.
  { intros ex s1 Hi1 Et Es Hb1. unfold finish, push_front_of_storage. rewrite Es.
    destruct (temporarily_descrete_data_storage s) as [|w l] eqn:El; [intros [= <-]; by destruct (_ && _)|].
    destruct (_ && _); [|intros [= <-]; by destruct (_ && _)].
    destruct (push_substring fuel (_data w) _ _ _) as [s2|] eqn:E2; [|done].
    destruct (pop_front_inv T cap s1 w l Hi1 Es) as (Hi2 & Hcw & Hww). apply Forall_cons in Hn as [[[_ Hw2] Hw3] Hl].
    intros [= <-]. apply IH in E2; cbn [temporarily_descrete_data_storage _next_assembling_index]; try done;
      [by destruct (_ && _)|by apply consistent_eta|rewrite <- Hw2; exact Hww|by rewrite <- Hw2]. }
  split_if; [by intros [= <-]|]. split_if; [by intros [= <-]|].
  destruct (Z.eqb_spec idx (_next_assembling_index s)) as [Hx|Hx].
  { destruct (good_case_inv T cap Hcap Hb64 s data idx e Hi Hc HW Hx) as (Hi1 & Ht1 & Hn1). apply Hfin; try done. rewrite Hn1.
    destruct (decide (0 < len data)) as [Hpos|Hz]; [right; by exists idx, (len data); auto|].
    pose proof (len_nonneg data). replace (idx + len data) with (_next_assembling_index s) by lia. done. }
  destruct (Z.ltb_spec (_next_assembling_index s) idx).
  { intros Hm. by apply (handler_inv T cap Hcap Hb64) in Hm as (_ & _ & ->). }
  pose proof Hc as (Hc1 & _ & Hc3 & _). simpl in Hc1, Hc3. rewrite (u64_small (idx + len data)) by lia.
  destruct (Z.ltb_spec (_next_assembling_index s) (idx + len data)); [exfalso|by apply Hfin].
  destruct (cut_at_boundary cut idx (len data) (_next_assembling_index s) Hp Hb (Hcut ltac:(lia))); lia.
Qed.

(** The receiver's position and its acknowledgment; the latter may pass the end
    of the stream when all of it has arrived. *)
Record in_step (cut : Z -> Z -> Prop) (r : TCPReceiver) : Prop := {
  is_next : boundary cut (next r);
  is_ack : first_segment r = false -> boundary cut (abs_seqno r - 1) \/ next r = len T }.

Lemma carried_boundary cut n i seg r s' :
  pieces cut -> winv T isn cap n r -> carries T isn cap i seg r -> Forall (neat cut) (held r) -> (0 < size_of seg -> cut i (size_of seg)) ->
  boundary cut (next r) -> push (str (payload seg)) i (fin (header seg)) (_reassembler r) = Some s' -> boundary cut (_next_assembling_index s').
Proof.
  intros Hp Hw Hc Hn Hcut Hb Hpush. pose proof (wi_inv _ _ _ _ _ Hw) as Hi.
  destruct (decide (0 < size_of seg -> i + size_of seg <= taken (_reassembler r) + cap)) as [HW|HW].
  - eapply push_boundary; try done. by eapply carries_consistent.
  - destruct Hc as [_ [Hi0 _] _ _ _ Ha]. revert Hpush. unfold push, enough. cbn [push_substring].
    rewrite (inv_remaining T cap _ Hi). pose proof (inv_bounds T cap _ Hi). unfold admissible, fin_unit in Ha.
    destruct (Z.eqb_spec (taken (_reassembler r) + cap - next r) 0) as [|Hne]; [by intros [= <-]|exfalso; apply HW; intros; destruct (fin _); lia].
Qed.

(** The acknowledgment after a segment that was pushed. *)
Lemma acked_in_step cut n i seg r s' :
  winv T isn cap n r -> carries T isn cap i seg r -> (first_segment r = true -> syn (header seg) = true) -> in_step cut r ->
  push (str (payload seg)) i (fin (header seg)) (_reassembler r) = Some s' -> boundary cut (_next_assembling_index s') ->
  boundary cut (acked (position seg i) seg s' (abs_seqno r) - 1) \/ _next_assembling_index s' = len T.
Proof.
  intros Hw Hc Hfirst [_ Hack] Hp Hb. pose proof Hw as [Hi _ Hf Hs Ha Hsafe].
  destruct (carried_push T isn cap Hcap Hbound _ _ _ _ _ Hw Hc Hp) as (Hi' & _ & Hnx).
  pose proof (inv_next T cap _ Hi') as Hn'. pose proof (inv_next T cap _ Hi). pose proof (inv_ended T cap _ Hi') as Hend'.
  destruct (decide (_next_assembling_index s' = len T)) as [|Hopen]; [by right|left].
  destruct (input_ended s') eqn:He; [by specialize (Hend' eq_refl)|].
  assert (input_ended (_reassembler r) = false) as Her.
  { destruct (input_ended (_reassembler r)) eqn:Her; [|done]. by rewrite (push_keeps_ended _ _ _ _ _ _ Hp Her) in He. }
  specialize (Hsafe Her). pose proof Hc as [_ [Hi0 Hr] Hsyn _ Hfin _]. pose proof (len_nonneg (str (payload seg))).
  unfold acked. rewrite He, orb_false_r.
  assert (first_segment r = false -> boundary cut (abs_seqno r - 1)) as Hold by (intros E; destruct (Hack E); [done|lia]).
  assert (first_segment r = true -> abs_seqno r = 0 /\ position seg i = 0) as Hnew.
  { intros E. destruct (Hf E) as [-> _]. unfold position. by rewrite Hfirst. }
  assert (position seg i = 0 -> str (payload seg) = [] /\ fin (header seg) = false) as Hz.
  { unfold position. destruct (syn (header seg)); [by intros _; destruct (Hsyn eq_refl) as (_ & ? & ?)|lia]. }
  destruct (Z.eqb_spec (position seg i) (abs_seqno r)) as [Epos|Epos].
  2: { destruct (first_segment r); [destruct (Hnew eq_refl); lia|auto]. }
  destruct (fin (header seg)) eqn:Efin.
  { exfalso. assert (syn (header seg) = false) as Es by (destruct (syn (header seg)); [by destruct (Hsyn eq_refl) as (_ & _ & ?)|done]).
    specialize (Hfin eq_refl). unfold position in Epos. rewrite Es in Epos.
    destruct (carried_fin T isn cap Hcap Hbound n i seg r s' Hw Hc Efin) as [Hend|Hz0]; [lia|done|by rewrite Hend in He|lia]. }
  rewrite Z.add_0_r. destruct (Z.eqb_spec (size_of seg) 0); cbn [negb]; [|by rewrite Z.add_simpl_r].
  destruct (Z.eqb_spec (position seg i) 0) as [E0|]; [|destruct (first_segment r); [destruct (Hnew eq_refl); lia|auto]].
  left. rewrite <- Epos, E0. done.
Qed.

Lemma in_step_cut (cut cut' : Z -> Z -> Prop) r : (forall i n, cut i n -> cut' i n) -> in_step cut r -> in_step cut' r.
Proof. intros Hc [? Ha]. split; [by eapply boundary_cut|]. intros E. destruct (Ha E); [left; by eapply boundary_cut|by right]. Qed.

Lemma recv_in_step cut n i seg r r' :
  pieces cut -> n < 2 ^ 62 -> winv T isn cap n r -> carries T isn cap i seg r -> Forall (neat cut) (held r) ->
  (0 < size_of seg -> cut i (size_of seg)) -> in_step cut r -> TCPReceiver.segment_received seg r = Some r' -> in_step cut r'.
Proof.
  intros Hp Hn Hw Hc Hne Hcut Hs E.
  destruct (recv_cases T isn cap Hisn Hcap Hbound n i seg r r' Hn Hw Hc E) as [->|(pos & s' & -> & Hg & Hfirst & Hcase)]; [done|].
  destruct Hcase as [[-> Hpush]|(_ & -> & He)].
  - pose proof (carried_boundary cut n i seg r s' Hp Hw Hc Hne Hcut (is_next _ _ Hs) Hpush) as Hb. split; [done|].
    intros _. by apply (acked_in_step cut n i seg r s').
  - split; [apply (is_next _ _ Hs)|]. intros _. right. apply (inv_ended T cap _ (wi_inv _ _ _ _ _ Hw) He).
Qed.

(** ** Segments in their order *)

(** Where a segment of the stream belongs. *)
Record located (i : Z) (seg : TCPSegment) : Prop := {
  lo_seqno : seqno (header seg) = wrap (position seg i) isn;
  lo_range : 0 <= i <= len T + 1;
  lo_syn : syn (header seg) = true -> i = 0 /\ str (payload seg) = [] }.

(** From [D] on, the end of what was sent before, up to [E]: pieces anywhere, but
    an empty segment (other than a SYN) only behind all pieces before it. *)
Inductive in_order (cut : Z -> Z -> Prop) : Z -> list TCPSegment -> Z -> Prop :=
  | io_nil D : in_order cut D [] D
  | io_rst D seg l E : rst (header seg) = true -> in_order cut D l E -> in_order cut D (seg :: l) E
  | io_empty D i seg l E :
      located i seg -> size_of seg = 0 -> syn (header seg) = true \/ D <= i -> in_order cut D l E -> in_order cut D (seg :: l) E
  | io_piece D i seg l E :
      located i seg -> 0 < size_of seg -> cut i (size_of seg) -> in_order cut (Z.max D (i + size_of seg)) l E ->
      in_order cut D (seg :: l) E.

Lemma in_order_le cut D l E : in_order cut D l E -> D <= E.
Proof. induction 1; lia. Qed.

Lemma in_order_app cut D l M k E : in_order cut D l M -> in_order cut M k E -> in_order cut D (l ++ k) E.
Proof. induction 1; intros Hk; simpl; [done|by apply io_rst; auto|by eapply io_empty; eauto|by eapply io_piece; eauto]. Qed.

Lemma in_order_cut (cut cut' : Z -> Z -> Prop) D l E : (forall i n, cut i n -> cut' i n) -> in_order cut D l E -> in_order cut' D l E.
Proof. intros Hc. induction 1; [constructor|by apply io_rst|by eapply io_empty|by eapply io_piece; eauto]. Qed.

(** A part of the segments, from an earlier start. *)
Lemma in_order_sublist cut D D' l l' E :
  sublist l' l -> D' <= D -> in_order cut D l E -> exists E', E' <= E /\ in_order cut D' l' E'.
Proof.
  intros Hs HD Hl. revert D' l' Hs HD. induction Hl as [D|D seg l E Hr _ IH|D i seg l E Hl Hz Hd _ IH|D i seg l E Hl Hz Hc _ IH]; intros D' l' Hs HD.
  - apply sublist_nil_r in Hs as ->. exists D'. split; [done|constructor].
  - apply sublist_cons_r in Hs as [Hs|(k & -> & Hs)]; [by apply IH|].
    destruct (IH D' k Hs HD) as (E' & ? & ?). exists E'. split; [done|by apply io_rst].
  - apply sublist_cons_r in Hs as [Hs|(k & -> & Hs)]; [by apply IH|].
    destruct (IH D' k Hs HD) as (E' & ? & ?). exists E'. split; [done|]. eapply io_empty; eauto. destruct Hd; [by left|right; lia].
  - apply sublist_cons_r in Hs as [Hs|(k & -> & Hs)]; [apply IH; [done|lia]|].
    destruct (IH (Z.max D' (i + size_of seg)) k Hs ltac:(lia)) as (E' & ? & ?). exists E'. split; [done|by eapply io_piece].
Qed.

(** Only the place and the data of the segments matter. *)
Definition same_data (seg seg' : TCPSegment) : Prop :=
  seqno (header seg') = seqno (header seg) /\ syn (header seg') = syn (header seg) /\ rst (header seg') = rst (header seg) /\
  str (payload seg') = str (payload seg).

Lemma in_order_same cut D l l' E : Forall2 same_data l l' -> in_order cut D l E -> in_order cut D l' E.
Proof.
  intros Hs Hl. revert l' Hs. induction Hl as [D|D seg l E Hr _ IH|D i seg l E [L1 L2 L3] Hz Hd _ IH|D i seg l E [L1 L2 L3] Hz Hc _ IH];
    intros l' Hs; inversion Hs as [|? seg' ? k (S1 & S2 & S3 & S4)]; subst; [constructor|..].
  - apply io_rst; [congruence|auto].
  - apply (io_empty _ _ i); rewrite ?S2, ?S4; auto. split; rewrite ?S1, ?S2, ?S4; try done. unfold position. by rewrite S2.
  - apply (io_piece _ _ i); rewrite ?S4; auto. split; rewrite ?S1, ?S2, ?S4; try done. unfold position. by rewrite S2.
Qed.

(** ** The sender *)

(** How far the stream has been sent before sequence number [a]. *)
Definition reach (a : Z) : Z := Z.min (len T) (Z.max 0 (a - 1)).

(** A segment that may have to be sent again. *)
Definition again_ok (cut : Z -> Z -> Prop) (seg : TCPSegment) : Prop :=
  exists i, located i seg /\ (0 < size_of seg -> cut i (size_of seg)) /\ (size_of seg = 0 -> syn (header seg) = true \/ i = len T).

(** A cut of what was sent before [a]. *)
Record cut_before (cut : Z -> Z -> Prop) (a : Z) : Prop := {
  cb_pieces : pieces cut;
  cb_reach : forall i n, cut i n -> i + n <= reach a }.

Lemma emitted_again cut a seg :
  emitted T isn a seg -> 0 < length_in_sequence_space seg -> (0 < size_of seg -> cut (a - 1) (size_of seg)) -> again_ok cut seg.
Proof.
  intros He Hl Hc. rewrite (emitted_length T isn a seg He) in Hl. destruct He as [_ Hs Hsyn Hd Hf _ _].
  destruct (syn (header seg)) eqn:Es.
  - destruct (Hsyn eq_refl) as (-> & Hp & _). exists 0. split_and!; [|by rewrite Hp|auto].
    split; [unfold position; by rewrite Es|lia|done].
  - destruct (Hd eq_refl) as (Ha & _ & Hl'). exists (a - 1). split_and!; [|done|].
    + split; [unfold position; rewrite Es, Hs; f_equal; lia|lia|by rewrite Es].
    + intros Hz. right. destruct (fin (header seg)); [|lia]. specialize (Hf eq_refl). lia.
Qed.

(** One more piece. *)
Lemma cut_add cut a n :
  cut_before cut a -> 1 <= a -> 0 < n -> a - 1 + n <= len T ->
  cut_before (fun i m => cut i m \/ i = a - 1 /\ m = n) (a + n).
Proof.
  intros [[Hr Hd] Hreach] Ha Hn Hl. unfold reach in *. split; [split|].
  - intros i m [Hi|[-> ->]]; [by apply Hr|lia].
  - intros i m j k [Hi|[-> ->]] [Hj|[-> ->]]; [by apply Hd|right|right|by left].
    + specialize (Hreach _ _ Hi). specialize (Hr _ _ Hi). lia.
    + specialize (Hreach _ _ Hj). specialize (Hr _ _ Hj). lia.
  - intros i m [Hi|[-> ->]]; [specialize (Hreach _ _ Hi)|]; unfold reach; lia.
Qed.

Lemma cut_before_mono cut a b : a <= b -> cut_before cut a -> cut_before cut b.
Proof. intros Hab [Hp Hr]. split; [done|]. intros i n Hi. specialize (Hr i n Hi). unfold reach in *. lia. Qed.

(** New segments continue the cut. *)
Lemma chain_in_order cut a new b E :
  chain T isn a new b -> 0 <= a -> cut_before cut a -> E <= reach a ->
  exists cut' E', (forall i n, cut i n -> cut' i n) /\ cut_before cut' b /\ in_order cut' E new E' /\ E' <= reach b /\
    Forall (again_ok cut') new.
Proof.
  revert cut a E. induction new as [|seg new IH]; intros cut a E; cbn [chain].
  { intros ->. exists cut, E. split_and!; try done; constructor. }
  intros (He & Hl & Hc) Ha Hcut HE. pose proof (emitted_length T isn a seg He) as El. pose proof He as [_ Hs Hsyn Hd Hf _ _].
  destruct (decide (size_of seg = 0)) as [Hz|Hz].
  - destruct (IH cut _ E Hc ltac:(lia)) as (cut' & E' & Hm & Hc' & Ho & HE' & Hag); [by eapply cut_before_mono; [|done]; lia| |].
    { unfold reach in *. lia. }
    destruct (emitted_again cut a seg He Hl ltac:(lia)) as (i & Hi & _ & Hi0).
    exists cut', E'. split_and!; try done.
    + eapply io_empty; [done|done| |done]. destruct (Hi0 Hz) as [?| ->]; [by left|right]. unfold reach in HE. lia.
    + constructor; [|done]. exists i. split_and!; [done|lia|done].
  - assert (syn (header seg) = false) as Es by (destruct (syn (header seg)); [by destruct (Hsyn eq_refl) as (_ & Hp & _); rewrite Hp in Hz|done]).
    destruct (Hd Es) as (Ha1 & _ & Hle). rewrite Es in El.
    pose proof (cut_add cut a (size_of seg) Hcut Ha1 ltac:(lia) Hle) as Hcut1.
    set (cut1 := fun i m => cut i m \/ i = a - 1 /\ m = size_of seg) in *.
    destruct (IH cut1 _ (Z.max E (a - 1 + size_of seg)) Hc ltac:(lia)) as (cut' & E' & Hm & Hc' & Ho & HE' & Hag).
    { eapply cut_before_mono; [|done]. destruct (fin (header seg)); lia. }
    { unfold reach in *. destruct (fin (header seg)); lia. }
    assert (cut' (a - 1) (size_of seg)) as Hnew by (apply Hm; by right).
    exists cut', E'. split_and!; try done.
    + intros i n Hi. apply Hm. by left.
    + apply (io_piece _ _ (a - 1)); try done; [|lia]. split; [unfold position; rewrite Es, Hs; f_equal; lia|lia|by rewrite Es].
    + constructor; [|done]. by eapply emitted_again.
Qed.

(** ** A stream on its way *)

Lemma tidy_cut (cut cut' : Z -> Z -> Prop) D l : (forall i n, cut i n -> cut' i n) -> tidy cut D l -> tidy cut' D l.
Proof. intros Hc [Hn ? ? ?]. split; try done. eapply Forall_impl; [exact Hn|]. intros p [? ?]. split; auto. Qed.

Lemma again_cut (cut cut' : Z -> Z -> Prop) l : (forall i n, cut i n -> cut' i n) -> Forall (again_ok cut) l -> Forall (again_ok cut') l.
Proof. intros Hc Hl. eapply Forall_impl; [exact Hl|]. intros seg (i & ? & ? & ?). exists i. split_and!; auto. Qed.

(** The sender [s], the receiver [r], and between them the segments [l], the
    oldest first. *)
Record flowing (cut : Z -> Z -> Prop) (D E : Z) (s : TCPSender) (l : list TCPSegment) (r : TCPReceiver) : Prop := {
  fw_cut : cut_before cut (_next_seqno s);
  fw_tidy : tidy cut D (held r);
  fw_order : in_order cut D l E;
  fw_end : E <= reach (_next_seqno s);
  fw_again : Forall (again_ok cut) (_outstanding_segments s);
  fw_step : in_step cut r }.

(** [q] is on its way, and the sender's own queue is behind it. *)
Definition flow (s : TCPSender) (q : list TCPSegment) (r : TCPReceiver) : Prop :=
  exists cut D E, flowing cut D E s (q ++ TCPSender._segments_out s) r.

Lemma flow_ext s s' q r :
  _next_seqno s' = _next_seqno s -> TCPSender._segments_out s' = TCPSender._segments_out s ->
  (forall x, x ∈ _outstanding_segments s' -> x ∈ _outstanding_segments s) -> flow s q r -> flow s' q r.
Proof.
  intros En Eq Ho (cut & D & E & [Hc Ht Hl He Ha Hst]). exists cut, D, E. split; rewrite ?En, ?Eq; try done.
  rewrite Forall_forall in *. auto.
Qed.

(** What of a receiver counts here. *)
Definition stance (r : TCPReceiver) : list datagram * Z * Z * bool := (held r, next r, abs_seqno r, first_segment r).

Lemma flow_receiver s q r r' : stance r' = stance r -> flow s q r -> flow s q r'.
Proof.
  intros [= E1 E2 E3 E4] (cut & D & E & [? ? ? ? ? [? ?]]). exists cut, D, E. split; try done; [by rewrite E1|]. split; by rewrite E2, ?E3, ?E4.
Qed.

Lemma next_nonneg s : sinv T isn s -> 0 <= _next_seqno s <= len T + 2.
Proof.
  intros [Hfl Hfd]. pose proof (fl_base _ _ _ Hfl). pose proof (fl_confirmed _ _ _ Hfl). pose proof (feeds_next_bound T s Hfd). lia.
Qed.

Lemma flow_fill s q r : sinv T isn s -> flow s q r -> flow (fill_window s) q r.
Proof.
  intros Hs (cut & D & E & [Hc Ht Hl He Ha Hst]). destruct (fill_window_fills T isn ltac:(lia) s Hs) as ([_ (new & Eq & Eo & Hch) _ _ _ _ _ _] & _).
  destruct (chain_in_order cut _ new _ E Hch) as (cut' & E' & Hm & Hc' & Ho & HE' & Hag); [apply next_nonneg, Hs|done|done|].
  exists cut', D, E'. split; rewrite ?Eq, ?Eo; try done.
  - by eapply tidy_cut.
  - rewrite app_assoc. eapply in_order_app; [|exact Ho]. by eapply in_order_cut.
  - apply Forall_app. split; [by eapply again_cut|done].
  - by eapply in_step_cut.
Qed.

Lemma flow_ack an w s q r : sinv T isn s -> 0 <= w < 2 ^ 16 -> flow s q r -> flow (ack_received an w s) q r.
Proof.
  intros Hs Hw Hf. apply (ack_received_preserves T isn ltac:(lia) (fun s => flow s q r)); try done;
    [|by intros; apply flow_fill|by intros b s2 _; apply flow_ext].
  intros s1 popped _ Hak _. apply (flow_ext s); [apply (ak_next _ _ _ _ _ _ _ Hak)|apply (ak_out _ _ _ _ _ _ _ Hak)| |done].
  intros x Hx. change (_outstanding_segments s) with (_outstanding_segments (set_confirmed (unwrap an isn (_next_seqno s)) w s)).
  rewrite (ak_popped _ _ _ _ _ _ _ Hak). apply elem_of_app. by right.
Qed.

Lemma again_in_order cut a re E :
  Forall (again_ok cut) re -> cut_before cut a -> E <= reach a -> exists E', in_order cut E re E' /\ E' <= reach a.
Proof.
  intros Hre Hc. revert E. induction Hre as [|seg re (i & Hi & Hp & Hz) _ IH]; intros E HE; [exists E; split; [constructor|done]|].
  destruct (decide (size_of seg = 0)) as [Es|Es].
  - destruct (IH E HE) as (E' & Ho & HE'). exists E'. split; [|done]. eapply io_empty; [done|done| |done].
    destruct (Hz Es) as [?| ->]; [by left|right]. unfold reach in HE. lia.
  - specialize (Hp ltac:(lia)). pose proof (cb_reach _ _ Hc _ _ Hp).
    destruct (IH (Z.max E (i + size_of seg)) ltac:(lia)) as (E' & Ho & HE'). exists E'. split; [|done]. by eapply io_piece; [|lia|..].
Qed.

Lemma flow_tick ms s q r : flow s q r -> flow (TCPSender.tick ms s) q r.
Proof.
  intros (cut & D & E & [Hc Ht Hl He Ha Hst]). destruct (tick_fields ms s) as (_ & Eo & En & _ & _ & _ & _ & _ & _ & re & Eq & Hre).
  destruct (again_in_order cut (_next_seqno s) re E) as (E' & Ho & HE'); [|done|done|].
  { rewrite Forall_forall in *. auto. }
  exists cut, D, E'. split; rewrite ?Eq, ?Eo, ?En; try done. rewrite app_assoc. by eapply in_order_app.
Qed.

Lemma flow_empty s q r : sinv T isn s -> 1 <= _next_seqno s -> flow s q r -> flow (send_empty_segment s) q r.
Proof.
  intros Hs Hn (cut & D & E & [Hc Ht Hl He Ha Hst]). pose proof (next_nonneg s Hs) as Hb. pose proof (fl_isn _ _ _ (si_flight _ _ _ Hs)) as Hi.
  exists cut, D, E. split; try done. unfold send_empty_segment. cbn [set_segments_out TCPSender._segments_out]. rewrite app_assoc.
  eapply in_order_app; [exact Hl|]. apply (io_empty _ _ (_next_seqno s - 1)); [|done| |constructor].
  - split; [|lia|done]. cbn. unfold position. cbn. rewrite Hi. by rewrite Z.sub_add.
  - right. unfold reach in He. lia.
Qed.

(** Segments are lost, before they leave or on their way. *)
Lemma flow_sublist s q q' r : sublist q' q -> flow s q r -> flow s q' r.
Proof.
  intros Hq (cut & D & E & [Hc Ht Hl He Ha Hst]).
  destruct (in_order_sublist cut D D _ (q' ++ TCPSender._segments_out s) E (sublist_app _ _ _ _ Hq (reflexivity _)) ltac:(lia) Hl) as (E' & HE & Ho).
  exists cut, D, E'. split; try done. lia.
Qed.

Lemma flow_rst s q seg r :
  TCPSender._segments_out s = [] -> rst (header seg) = true -> flow s q r -> flow s (q ++ [seg]) r.
Proof.
  intros Eq Hr (cut & D & E & [Hc Ht Hl He Ha Hst]). exists cut, D, E. split; rewrite ?Eq, ?app_nil_r in *; try done.
  eapply in_order_app; [done|]. apply io_rst; [done|constructor].
Qed.

Lemma same_data_refl l : Forall2 same_data l l.
Proof. induction l; constructor; done. Qed.

Lemma same_data_stamp r l : Forall2 same_data l (map (stamp r) l).
Proof. induction l as [|seg l IH]; constructor; [|done]. unfold stamp. by destruct (ackno r). Qed.

(** The sender's queue goes to the connection's, behind [q]. *)
Lemma flow_send s c q r' :
  flow s (q ++ TCPConnection._segments_out c) r' ->
  let c' := (send_segments_out (set_sender s c)).2 in flow (_sender c') (q ++ TCPConnection._segments_out c') r'.
Proof.
  intros (cut & D & E & [Hc Ht Hl He Ha Hst]). rewrite send_segments_out_eq.
  cbn [snd set_sender _sender _receiver TCPConnection._segments_out set_out]. exists cut, D, E. split; try done.
  cbn [set_segments_out TCPSender._segments_out]. rewrite app_nil_r, app_assoc. eapply in_order_same; [|exact Hl].
  apply Forall2_app; [apply same_data_refl|apply same_data_stamp].
Qed.

(** A position is found from the sequence number. *)
Lemma located_unique i j seg r : located i seg -> carries T isn cap j seg r -> i = j.
Proof.
  intros [Li Lr Ls] Hc. pose proof (carries_position T isn cap _ _ _ Hc) as Hp. destruct Hc as [_ [Hj _] Hsyn Hseq _ _].
  fold (position seg j) in Hseq. rewrite Hseq in Li. apply wrap_cong in Li as [k Hk]. unfold position in *.
  destruct (syn (header seg)); [destruct (Ls eq_refl), (Hsyn eq_refl); lia|]. lia.
Qed.

(** The oldest segment arrives. *)
Lemma flow_recv s q r n i seg0 seg :
  flow s (seg0 :: q) r -> same_data seg0 seg -> rst (header seg) = false -> n < 2 ^ 62 -> winv T isn cap n r -> carries T isn cap i seg r ->
  exists r', TCPReceiver.segment_received seg r = Some r' /\ flow s q r'.
Proof.
  intros (cut & D & E & [Hc Ht Hl He Ha Hst]) Hsame Hr Hn Hw Hca. cbn [app] in Hl.
  eapply (in_order_same _ _ _ (seg :: q ++ TCPSender._segments_out s)) in Hl; [|constructor; [exact Hsame|apply same_data_refl]].
  assert (exists D', D <= D' /\ in_order cut D' (q ++ TCPSender._segments_out s) E /\
    (0 < size_of seg -> cut i (size_of seg) /\ i + size_of seg <= D') /\ (size_of seg = 0 -> syn (header seg) = true \/ D' <= i))
    as (D' & HD & Ho & Hpos & Hzero).
  { inversion Hl as [|? ? ? ? Hrst|? j ? ? ? Hj Hz Hd Ho|? j ? ? ? Hj Hz Hcj Ho]; subst; [congruence|..].
    - rewrite (located_unique _ _ _ _ Hj Hca) in *. exists D. split_and!; [lia|done|lia|auto].
    - rewrite (located_unique _ _ _ _ Hj Hca) in *. exists (Z.max D (i + size_of seg)). split_and!; [lia|done|split; [done|lia]|lia]. }
  destruct (recv_ordered cut D' n i seg r) as (r' & Er & Ht'); try done; [apply Hc|by eapply tidy_mono|].
  exists r'. split; [done|]. exists cut, D', E. split; try done.
  apply (recv_in_step cut n i seg r r'); try done; [apply Hc|apply (td_neat _ _ _ Ht)|]. intros. by apply Hpos.
Qed.
End Order.

(** ** The connection *)

Section Side.
Context (T : list byte) (isn : WrappingInt32) (cap : Z) (T' : list byte) (isn' : WrappingInt32) (cap' : Z).
Context (Hisn : WrappingIntegers.wf isn) (Hcap : 0 <= cap) (Hbound : len T + cap < 2 ^ 31 - 4).
Context (Hisn' : WrappingIntegers.wf isn') (Hcap' : 0 <= cap') (Hbound' : len T' + cap' < 2 ^ 31 - 4).
Context (s' : TCPSender) (r' : TCPReceiver) (net' : list TCPSegment).

Abbreviation viewed c net n := (view T isn cap T' isn' cap' c net s' r' net' n).

(** The stream from [c] to the peer, [q] being on its way. *)
Definition there (c : TCPConnection) (q : list TCPSegment) : Prop := flow T isn (_sender c) (q ++ TCPConnection._segments_out c) r'.

Lemma viewed_sinv c net n : viewed c net n -> sinv T isn (_sender c).
Proof. intros [Ht _ _]. apply (di_sinv _ _ _ _ _ _ _ _ Ht). Qed.

Lemma there_fill s c q :
  sinv T isn s -> flow T isn s (q ++ TCPConnection._segments_out c) r' -> there (send_segments_out (set_sender (fill_window s) c)).2 q.
Proof. intros Hs Hf. apply flow_send. by apply (flow_fill T isn cap). Qed.

Lemma there_write data c net q n :
  viewed c net n -> ByteStream.input_ended (stream_in (_sender c)) = false -> len data <= remaining_outbound_capacity c ->
  data = slice (bytes_written (stream_in (_sender c))) (len data) T -> bytes_written (stream_in (_sender c)) + len data <= len T ->
  there c q -> there (TCPConnection.write data c).2 q.
Proof.
  intros Hv He Hroom Hd Hl Hf. unfold TCPConnection.write. destruct (len data =? 0); [done|].
  pose proof (write_next_sinv T isn cap T' Hcap Hbound data _ (viewed_sinv _ _ _ Hv) He Hroom Hd Hl) as Hs1.
  unfold stream_in in Hs1. unfold stream_in. destruct (ByteStream.write data (TCPSender._stream (_sender c))) as [m st].
  apply there_fill; [done|]. by apply (flow_ext T isn (_sender c)).
Qed.

Lemma there_end c net q n :
  viewed c net n -> bytes_written (stream_in (_sender c)) = len T -> there c q -> there (end_input_stream c) q.
Proof.
  intros Hv HT Hf. pose proof (viewed_sinv _ _ _ Hv) as Hs.
  unfold stream_in in HT. rewrite (feeds_written T ltac:(lia) _ (si_feeds _ _ _ Hs)) in HT.
  apply there_fill; [by apply (end_input_sinv T isn)|]. by apply (flow_ext T isn (_sender c)).
Qed.

Lemma there_respond seg c net q n :
  viewed c net n -> rst (header seg) = false -> valid_ack T isn cap (_sender c) r' seg -> there c q -> there (respond seg c) q.
Proof.
  intros Hv Hr Ha Hf.
  destruct (view_acked T isn cap T' isn' cap' Hcap Hbound Hbound' s' r' net' seg c net n Hv Hr Ha) as (Hv1 & _ & _).
  unfold respond. set (c1 := if ack (header seg) then _ else c) in *.
  assert (there c1 q) as Hf1.
  { subst c1. destruct (ack (header seg)) eqn:Ea; [|done]. apply flow_send, (flow_ack T isn cap); try done; [by eapply viewed_sinv|].
    destruct Ha as [?|[?|[? _]]]; [congruence..|done]. }
  destruct (0 <? _); [|done]. pose proof (viewed_sinv _ _ _ Hv1) as Hs1. pose proof (there_fill _ c1 q Hs1 Hf1) as Hf2.
  pose proof Hv1 as [Ht1 Hh1 _].
  destruct (view_fill T isn cap T' isn' cap' Hcap Hbound Hbound' s' r' net' (_sender c1) c1 net n Ht1 Hh1) as [Hv2 _].
  pose proof (send_segments_out_emits (fill_window (_sender c1)) c1) as He.
  destruct (send_segments_out (set_sender (fill_window (_sender c1)) c1)) as [b c2]. cbn [snd] in *. destruct He as (_ & _ & Es).
  destruct b; cbn [negb]; [done|]. apply flow_send, flow_empty; [by eapply viewed_sinv| |done]. rewrite Es.
  change (1 <= _next_seqno (fill_window (_sender c1))). by apply (fill_next_pos T isn cap T').
Qed.

Lemma there_tick ms c c' q : there c q -> TCPConnection.tick ms c = Some c' -> there c' q.
Proof.
  intros Hf. rewrite tick_eq. intros [= <-].
  assert (there (ticked ms c) q) as Hf1.
  { pose proof (flow_send T isn (TCPSender.tick ms (_sender c)) c q r' (flow_tick T isn ms _ _ _ Hf)) as H. by rewrite send_segments_out_eq in H. }
  assert (forall d, there d q -> there (settle d) q) as Hset by (intros d Hd; unfold settle; by destruct (_ && _)).
  apply Hset. destruct (MAX_RETX_ATTEMPTS <? _); [|done].
  apply (flow_ext T isn (_sender (ticked ms c))); try done. apply flow_rst; [done|done|]. eapply flow_sublist; [|exact Hf1].
  by apply sublist_inserts_r.
Qed.

(** The stream from the peer, [q] being on its way, and its oldest segment. *)
Lemma here_received seg0 seg c net q n :
  viewed c net n -> n < 2 ^ 62 -> seg0 ∈ net' -> same_wire seg0 seg -> rst (header seg) = false ->
  flow T' isn' s' (seg0 :: q) (_receiver c) ->
  exists r, TCPReceiver.segment_received seg (_receiver c) = Some r /\ flow T' isn' s' q r.
Proof.
  intros Hv Hn Hin Hsame Hr Hf. destruct (arrives T isn cap T' isn' cap' s' r' net' seg seg0 c net n Hv Hin Hsame) as [[?|[[i Hc] _]] _]; [congruence|].
  eapply (flow_recv T' isn' cap'); try done; [by destruct Hsame|]. destruct Hv as [_ Hh _]. exact (di_winv _ _ _ _ _ _ _ _ Hh).
Qed.

Lemma there_received seg0 seg c c' net q n :
  viewed c net n -> 0 <= n < 2 ^ 62 -> seg0 ∈ net' -> same_wire seg0 seg -> there c q ->
  segment_received seg c = Some c' -> there c' q.
Proof.
  intros Hv Hn Hin Hsame Hf E. destruct (rst (header seg)) eqn:Hr.
  - rewrite segment_received_rst in E by done. injection E as <-. by apply (flow_ext T isn (_sender c)).
  - rewrite segment_received_eq in E by done.
    destruct (TCPReceiver.segment_received seg (_receiver c)) as [r|] eqn:Er; [|done]. injection E as <-.
    destruct (arrives T isn cap T' isn' cap' s' r' net' seg seg0 c net n Hv Hin Hsame) as [_ Hack].
    destruct (after_receiver_fields r c) as (Es & _ & Eo).
    eapply (there_respond _ _ net q (n + 1)); [by eapply view_after|done|by rewrite Es|].
    unfold there. by rewrite Es, Eo.
Qed.
End Side.

(** What else the owner does leaves this of the receiver. *)
Definition own (u : usage) : Prop := match u with Received _ | Dequeued _ => False | _ => True end.

Lemma tick_stance ms c c' : TCPConnection.tick ms c = Some c' -> stance (_receiver c') = stance (_receiver c).
Proof.
  rewrite tick_eq. intros [= <-]. assert (forall d, _receiver (settle d) = _receiver d) as Es by (intros d; unfold settle; by destruct (_ && _)).
  rewrite Es. by destruct (MAX_RETX_ATTEMPTS <? _).
Qed.

Lemma own_stance u c p c' p' : own u -> use u (c, p) (c', p') -> stance (_receiver c') = stance (_receiver c).
Proof.
  intros Ho Hu. inversion Hu as [|? ? ? ? E|data ? ? Hr| |k ? ? Hk|? ? ? ? E|? ? ? ? ? E]; subst; try done; [..|by eapply tick_stance].
  - unfold connect. by rewrite sent_receiver.
  - unfold TCPConnection.write. destruct (len data =? 0); [done|]. destruct (ByteStream.write _ _) as [m st]. cbn [snd]. by rewrite sent_receiver.
  - unfold end_input_stream. by rewrite sent_receiver.
Qed.

(** ** A network that keeps the order *)

(** One side acts, with [out] on its way to the other side and [inn] on its way
    back, the oldest first: it sends, it receives what is oldest, its owner uses
    it, time passes; or something on its way is lost. *)
Inductive hop : endpoint -> list TCPSegment -> list TCPSegment -> endpoint -> list TCPSegment -> list TCPSegment -> Prop :=
  | hop_send seg rest x out inn :
      TCPConnection._segments_out (conn x) = seg :: rest ->
      hop x out inn (record (Dequeued seg) (set_out rest (conn x)) (delivered x) x) (out ++ [seg]) inn
  | hop_receive seg0 seg c x out inn :
      same_wire seg0 seg -> segment_received seg (conn x) = Some c ->
      hop x out (seg0 :: inn) (record (Received seg) c (delivered x) x) out inn
  | hop_use u c p x out inn :
      own u -> use u (conn x, delivered x) (c, p) -> allowed [] u x -> hop x out inn (record u c p x) out inn
  | hop_tick ms c x out inn :
      TCPConnection.tick ms (conn x) = Some c -> hop x out inn (record (Ticked ms) c (delivered x) x) out inn
  | hop_lose l seg l' x inn : hop x (l ++ seg :: l') inn x (l ++ l') inn.

Inductive ordered_exchange (a0 b0 : endpoint) : nat -> endpoint -> endpoint -> list TCPSegment -> list TCPSegment -> Prop :=
  | oe_start : ordered_exchange a0 b0 0 a0 b0 [] []
  | oe_left k a b qa qb a' qa' qb' :
      ordered_exchange a0 b0 k a b qa qb -> hop a qa qb a' qa' qb' -> ordered_exchange a0 b0 (S k) a' b qa' qb'
  | oe_right k a b qa qb b' qa' qb' :
      ordered_exchange a0 b0 k a b qa qb -> hop b qb qa b' qb' qa' -> ordered_exchange a0 b0 (S k) a b' qa' qb'.

(** It is one of the exchanges of [Duplex]. *)
Lemma hop_act x out inn y out' inn' peer :
  hop x out inn y out' inn' -> inn ⊆ peer -> (x = y \/ act peer x y) /\ inn' ⊆ inn /\ (out ⊆ sent_segments x -> out' ⊆ sent_segments y).
Proof.
  destruct 1 as [seg rest x out inn E|seg0 seg c x out inn Hs E|u c p x out inn Ho Hu Ha|ms c x out inn E|l seg l' x inn]; intros Hin.
  - split_and!; [right|done|]; [by apply act_intro; [constructor|]|]. intros Hout z. cbn [sent_segments record].
    rewrite elem_of_app, list_elem_of_singleton, elem_of_cons. intros [?| ->]; auto.
  - split_and!; [right| |done]; [|intros z Hz; by right]. apply act_intro; [by constructor|]. exists seg0. split; [apply Hin; by left|done].
  - split_and!; [right|done|by destruct u]. apply act_intro; [done|]. destruct u; done.
  - split_and!; [right; by apply act_ticked|done|done].
  - split_and!; [by left|done|]. intros Hout z Hz. apply Hout. rewrite elem_of_app in *. destruct Hz; [by left|right; by right].
Qed.

Lemma ordered_is_exchange a0 b0 k a b qa qb :
  ordered_exchange a0 b0 k a b qa qb ->
  (exists k', (k' <= k)%nat /\ exchange a0 b0 k' a b) /\ qa ⊆ sent_segments a /\ qb ⊆ sent_segments b.
Proof.
  induction 1 as [|k a b qa qb a' qa' qb' _ IH Hh|k a b qa qb b' qa' qb' _ IH Hh].
  - split_and!; [exists 0%nat; split; [done|constructor]|(intros z Hz; by apply not_elem_of_nil in Hz)..].
  - destruct IH as ((k' & Hk & Hex) & Ha & Hb). destruct (hop_act _ _ _ _ _ _ _ Hh Hb) as ([<-|Hact] & Hi & Ho); (split_and!; [|auto|by etrans]).
    + exists k'. split; [lia|done].
    + exists (S k'). split; [lia|by eapply ex_left].
  - destruct IH as ((k' & Hk & Hex) & Ha & Hb). destruct (hop_act _ _ _ _ _ _ _ Hh Ha) as ([<-|Hact] & Hi & Ho); (split_and!; [|by etrans|auto]).
    + exists k'. split; [lia|done].
    + exists (S k'). split; [lia|by eapply ex_right].
Qed.

Section Pair.
Context (ca cb : TCPConfig) (ra rb : Z).
Context (Ha : config_ok ca) (Hb : config_ok cb).

Abbreviation isnA := (isn_of ca ra).
Abbreviation isnB := (isn_of cb rb).

Record flows (a b : endpoint) (TA TB : list byte) (qa qb : list TCPSegment) : Prop := {
  fs_left : flow TA isnA (_sender (conn a)) (qa ++ TCPConnection._segments_out (conn a)) (_receiver (conn b));
  fs_right : flow TB isnB (_sender (conn b)) (qb ++ TCPConnection._segments_out (conn b)) (_receiver (conn a)) }.

Lemma flow_start T isn cfg r cap : flow T isn (TCPSender_of (send_capacity cfg) (rt_timeout cfg) (fixed_isn cfg) r) [] (TCPReceiver_of cap).
Proof.
  exists (fun _ _ => False), 0, 0. split; [by split; [split|]|apply tidy_nil|constructor|unfold reach; simpl; lia|constructor|].
  split; [by left|done].
Qed.

Lemma flows_start TA TB : flows (endpoint_of ca ra) (endpoint_of cb rb) TA TB [] [].
Proof. split; apply flow_start. Qed.
End Pair.

Lemma flows_swap ca cb ra rb a b TA TB qa qb : flows ca cb ra rb a b TA TB qa qb -> flows cb ca rb ra b a TB TA qb qa.
Proof. intros [? ?]. by split. Qed.

Lemma respond_receiver seg c : _receiver (respond seg c) = _receiver c.
Proof.
  unfold respond. destruct (ack (header seg)), (0 <? length_in_sequence_space seg); rewrite ?send_segments_out_eq; cbn [fst snd]; try done.
  all: destruct (negb _); by rewrite ?send_segments_out_eq.
Qed.

(** What arrives at one side. *)
Lemma received_flow T isn cap T' isn' cap' s' r' net' seg0 seg c c' net q n :
  WrappingIntegers.wf isn' -> 0 <= cap' -> len T' + cap' < 2 ^ 31 - 4 -> n < 2 ^ 62 ->
  view T isn cap T' isn' cap' c net s' r' net' n -> seg0 ∈ net' -> same_wire seg0 seg ->
  flow T' isn' s' (seg0 :: q) (_receiver c) -> segment_received seg c = Some c' -> flow T' isn' s' q (_receiver c').
Proof.
  intros Hi Hc Hl Hn Hv Hin Hsame Hf E. destruct (rst (header seg)) eqn:Hr.
  - rewrite segment_received_rst in E by done. injection E as <-. apply (flow_receiver _ _ _ _ (_receiver c)); [done|].
    eapply flow_sublist; [|exact Hf]. by apply sublist_cons.
  - destruct (here_received T isn cap T' isn' cap') with (s' := s') (r' := r') (net' := net') (seg0 := seg0) (seg := seg) (c := c) (net := net) (q := q) (n := n)
      as (r & Er & Hfr); try done.
    rewrite segment_received_eq, Er in E by done. injection E as <-. rewrite respond_receiver.
    by destruct (after_receiver_fields r c) as (_ & -> & _).
Qed.

(** What a side does of its own. *)
Lemma own_flow ca cb ra rb a b TA TB q u c p n :
  config_ok ca -> config_ok cb -> len TA + recv_capacity cb < 2 ^ 31 - 4 -> len TB + recv_capacity ca < 2 ^ 31 - 4 ->
  paired ca cb ra rb a b TA TB n -> own u -> use u (conn a, delivered a) (c, p) -> allowed [] u a -> stream_of (record u c p a) TA ->
  flow TA (isn_of ca ra) (_sender (conn a)) (q ++ TCPConnection._segments_out (conn a)) (_receiver (conn b)) ->
  flow TA (isn_of ca ra) (_sender c) (q ++ TCPConnection._segments_out c) (_receiver (conn b)).
Proof.
  intros Ha Hb HA HB [Hv Hq [Hg _] _] Ho Hu Hal HT Hf. pose proof Ha as (_ & Hca & _). pose proof Hb as (_ & Hcb & _).
  pose proof (isn_of_wf ca ra Ha) as HiA. pose proof (isn_of_wf cb rb Hb) as HiB.
  pose proof (stream_of_act_next _ _ _ _ _ _ Hal HT) as Hnext.
  assert (bytes_written (stream_in (_sender (conn a))) = len (written a) /\ ByteStream.input_ended (stream_in (_sender (conn a))) = ended a)
    as [Hw He] by (by injection Hg).
  destruct u as [|seg|data| |data|seg|ms]; simpl in Hal, Hnext; try done;
    inversion Hu as [|? ? ? ? E|? ? ? Hr| |k ? ? Hk|? ? ? ? E|? ? ? ? ? E]; subst.
  - by eapply there_fill; [..|eapply viewed_sinv; exact Hv|exact Hf].
  - destruct (next_piece TA _ TB HA _ _ Hnext) as [Hp Hl]. rewrite <- Hw in Hp, Hl.
    by eapply there_write; [..|exact Hv|congruence| | | |exact Hf].
  - by eapply there_end; [..|exact Hv|congruence|exact Hf].
  - done.
  - by eapply there_tick.
Qed.

Lemma hop_flows ca cb ra rb a b TA TB qa qb a' qa' qb' n :
  config_ok ca -> config_ok cb -> len TA + recv_capacity cb < 2 ^ 31 - 4 -> len TB + recv_capacity ca < 2 ^ 31 - 4 -> 0 <= n < 2 ^ 62 ->
  paired ca cb ra rb a b TA TB n -> qb ⊆ sent_segments b -> flows ca cb ra rb a b TA TB qa qb ->
  hop a qa qb a' qa' qb' -> stream_of a' TA -> flows ca cb ra rb a' b TA TB qa' qb'.
Proof.
  intros Ha Hb HA HB Hn Hpair Hqb [Hl Hr] Hh HT. pose proof (pr_view _ _ _ _ _ _ _ _ _ Hpair) as Hv. pose proof Ha as (_ & Hca & _). pose proof Hb as (_ & Hcb & _).
  pose proof (isn_of_wf ca ra Ha) as HiA. pose proof (isn_of_wf cb rb Hb) as HiB.
  destruct Hh as [seg rest a qa qb E|seg0 seg c a qa qb Hs E|u c p a qa qb Ho Hu Hal|ms c a qa qb E|l seg l' a qb].
  - split; [|done]. cbn [record conn set_out TCPConnection._segments_out _sender]. rewrite E in Hl. by rewrite <- app_assoc.
  - assert (seg0 ∈ TCPConnection._segments_out (conn b) ++ sent_segments b) as Hin by (apply elem_of_app; right; apply Hqb; by left).
    split; cbn [record conn]; [|by eapply (received_flow TA _ _ TB _ (recv_capacity ca)); [..|exact Hv|exact Hin|exact Hs|exact Hr|exact E]; try lia].
    by eapply (there_received TA (isn_of ca ra) (recv_capacity cb) TB (isn_of cb rb) (recv_capacity ca)); [..|exact Hl|exact E].
  - split; cbn [record conn].
    + by eapply (own_flow ca cb ra rb a b TA TB qa u c p n).
    + by apply (flow_receiver _ _ _ _ (_receiver (conn a))); [eapply own_stance|].
  - split; cbn [record conn].
    + by eapply there_tick.
    + by apply (flow_receiver _ _ _ _ (_receiver (conn a))); [eapply tick_stance|].
  - split; [|done]. eapply flow_sublist; [|exact Hl]. apply sublist_app; [|done]. apply sublist_app; [done|by apply sublist_cons].
Qed.

Lemma stream_of_hop x out inn y out' inn' T : hop x out inn y out' inn' -> stream_of y T -> stream_of x T.
Proof. intros Hh HT. destruct (hop_act _ _ _ _ _ _ inn Hh) as ([->|Hact] & _); try done. by eapply stream_of_act. Qed.

Lemma ordered_paired ca cb ra rb k a b TA TB qa qb :
  config_ok ca -> config_ok cb -> Z.of_nat k < 2 ^ 62 ->
  len TA + recv_capacity cb < 2 ^ 31 - 4 -> len TB + recv_capacity ca < 2 ^ 31 - 4 ->
  ordered_exchange (endpoint_of ca ra) (endpoint_of cb rb) k a b qa qb -> stream_of a TA -> stream_of b TB ->
  exists n, 0 <= n < 2 ^ 62 /\ paired ca cb ra rb a b TA TB n /\ qa ⊆ sent_segments a /\ qb ⊆ sent_segments b.
Proof.
  intros Ha Hb Hk HA HB Hex HTA HTB. destruct (ordered_is_exchange _ _ _ _ _ _ _ Hex) as ((k' & Hk' & He) & Hqa & Hqb).
  exists (Z.of_nat k'). split; [lia|]. split; [|done]. apply exchange_paired; try done. lia.
Qed.

Lemma ordered_flows ca cb ra rb k a b TA TB qa qb :
  config_ok ca -> config_ok cb -> Z.of_nat k < 2 ^ 62 ->
  len TA + recv_capacity cb < 2 ^ 31 - 4 -> len TB + recv_capacity ca < 2 ^ 31 - 4 ->
  ordered_exchange (endpoint_of ca ra) (endpoint_of cb rb) k a b qa qb -> stream_of a TA -> stream_of b TB ->
  flows ca cb ra rb a b TA TB qa qb.
Proof.
  intros Ha Hb Hk HA HB Hex. revert Hk. induction Hex as [|k a b qa qb a' qa' qb' Hex IH Hh|k a b qa qb b' qa' qb' Hex IH Hh]; intros Hk HTA HTB.
  - by apply flows_start.
  - pose proof (stream_of_hop _ _ _ _ _ _ _ Hh HTA) as HTA0.
    destruct (ordered_paired ca cb ra rb k a b TA TB qa qb) as (n & Hn & Hp & _ & Hqb); try done; [lia|].
    apply (hop_flows ca cb ra rb a b TA TB qa qb _ _ _ n); try done. apply IH; [lia|done..].
  - pose proof (stream_of_hop _ _ _ _ _ _ _ Hh HTB) as HTB0.
    destruct (ordered_paired ca cb ra rb k a b TA TB qa qb) as (n & Hn & Hp & Hqa & _); try done; [lia|].
    apply flows_swap, (hop_flows cb ca rb ra b a TB TA qb qa _ _ _ n); try done; [by apply paired_swap|].
    apply flows_swap, IH; [lia|done..].
Qed.

(** The segment at the front of what is on its way, or any later one if the
    network loses those before it, is received. *)
Lemma next_received ca cb ra rb a b TA TB qa l seg0 l' seg n :
  config_ok ca -> config_ok cb -> len TA + recv_capacity cb < 2 ^ 31 - 4 -> len TB + recv_capacity ca < 2 ^ 31 - 4 -> 0 <= n < 2 ^ 62 ->
  paired ca cb ra rb a b TA TB n -> l ++ seg0 :: l' ⊆ sent_segments b -> flows ca cb ra rb a b TA TB qa (l ++ seg0 :: l') ->
  same_wire seg0 seg -> exists c, segment_received seg (conn a) = Some c.
Proof.
  intros Ha Hb HA HB Hn Hpair Hqb [_ Hr] Hs. pose proof Ha as (_ & Hca & _). pose proof Hb as (_ & Hcb & _).
  destruct (rst (header seg)) eqn:Hrst; [rewrite segment_received_rst by done; by eexists|].
  destruct (here_received TA (isn_of ca ra) (recv_capacity cb) TB (isn_of cb rb) (recv_capacity ca)) with
    (s' := _sender (conn b)) (r' := _receiver (conn b)) (net' := TCPConnection._segments_out (conn b) ++ sent_segments b)
    (seg0 := seg0) (seg := seg) (c := conn a) (net := sent_segments a) (q := l' ++ TCPConnection._segments_out (conn b)) (n := n)
    as (r & Er & _); try done; try lia; try (by apply isn_of_wf).
  - apply (pr_view _ _ _ _ _ _ _ _ _ Hpair).
  - apply elem_of_app. right. apply Hqb, elem_of_app. right. by left.
  - eapply flow_sublist; [|exact Hr]. rewrite <- app_assoc. by apply sublist_inserts_l.
  - rewrite segment_received_eq, Er by done. by eexists.
Qed.

Lemma ordered_swap a0 b0 k a b qa qb : ordered_exchange a0 b0 k a b qa qb -> ordered_exchange b0 a0 k b a qb qa.
Proof. induction 1; [constructor|by eapply oe_right|by eapply oe_left]. Qed.

Lemma ordered_receives ca cb ra rb k a b qa qb seg0 seg :
  config_ok ca -> config_ok cb -> Z.of_nat k < 2 ^ 62 ->
  ordered_exchange (endpoint_of ca ra) (endpoint_of cb rb) k a b qa qb ->
  len (written a) + recv_capacity cb < 2 ^ 31 - 4 -> len (written b) + recv_capacity ca < 2 ^ 31 - 4 ->
  seg0 ∈ qb -> same_wire seg0 seg -> exists c, segment_received seg (conn a) = Some c.
Proof.
  intros Ha Hb Hk Hex HA HB (l & l' & ->)%list_elem_of_split Hs.
  assert (stream_of a (written a) /\ stream_of b (written b)) as [HTA HTB] by done.
  destruct (ordered_paired ca cb ra rb k a b (written a) (written b) qa (l ++ seg0 :: l')) as (n & Hn & Hp & Hqa & Hqb); try done.
  eapply (next_received ca cb ra rb a b (written a) (written b) qa l seg0 l'); try done. by apply (ordered_flows ca cb ra rb k).
Qed.

(** ** Running an ordered exchange *)

Inductive order :=
  | Does (cmd : command)
  | Loses (i : nat).

Definition on_wire : Type := endpoint * list TCPSegment * list TCPSegment.

(** [Receive] takes the oldest segment, whatever its argument. *)
Definition obey (o : order) (x : endpoint) (out inn : list TCPSegment) : option on_wire :=
  match o with
  | Loses i => if (i <? length out)%nat then Some (x, take i out ++ drop (S i) out, inn) else None
  | Does (Receive _) =>
      match inn with
      | [] => None
      | seg :: inn => option_map (fun y => (y, out, inn)) (perform (Receive 0) [seg] x)
      end
  | Does Send => option_map (fun y => (y, out ++ take 1 (TCPConnection._segments_out (conn x)), inn)) (perform Send [] x)
  | Does cmd => option_map (fun y => (y, out, inn)) (perform cmd [] x)
  end.

Lemma obey_hop o x out inn y out' inn' : obey o x out inn = Some (y, out', inn') -> hop x out inn y out' inn'.
Proof.
  destruct o as [[|i|data| |n| |ms]|i]; cbn [obey perform option_map].
  - intros [= <- <- <-]. by apply hop_use; [|constructor|].
  - destruct inn as [|seg inn]; [done|]. cbn [lookup list_lookup]. destruct (segment_received seg (conn x)) as [c|] eqn:E; [|done].
    intros [= <- <- <-]. apply hop_receive; [apply same_wire_refl|done].
  - destruct (ended x) eqn:He; [done|]. destruct (Z.leb_spec (len data) (remaining_outbound_capacity (conn x))); [|done].
    intros [= <- <- <-]. by apply hop_use; [|constructor|].
  - intros [= <- <- <-]. by apply hop_use; [|constructor|].
  - destruct (_ && _) eqn:E; [|done]. apply andb_true_iff in E as [?%Z.leb_le ?%Z.leb_le]. intros [= <- <- <-].
    by apply hop_use; [|constructor|].
  - destruct (TCPConnection._segments_out (conn x)) as [|seg q] eqn:E; [done|]. intros [= <- <- <-]. by apply hop_send.
  - destruct (TCPConnection.tick ms (conn x)) as [c|] eqn:E; [|done]. intros [= <- <- <-]. by apply hop_tick.
  - destruct (Nat.ltb_spec i (length out)) as [Hi|]; [|done]. intros [= <- <- <-].
    destruct (lookup_lt_is_Some_2 _ _ Hi) as [seg Es]. rewrite <- (take_drop_middle out i seg Es) at 1. apply hop_lose.
Qed.

Fixpoint replay (script : list (bool * order)) (a b : endpoint) (qa qb : list TCPSegment) :
    option (endpoint * endpoint * list TCPSegment * list TCPSegment) :=
  match script with
  | [] => Some (a, b, qa, qb)
  | (true, o) :: script => match obey o a qa qb with Some (a, qa, qb) => replay script a b qa qb | None => None end
  | (false, o) :: script => match obey o b qb qa with Some (b, qb, qa) => replay script a b qa qb | None => None end
  end.

Lemma replay_ordered script a0 b0 k a b qa qb a' b' qa' qb' :
  ordered_exchange a0 b0 k a b qa qb -> replay script a b qa qb = Some (a', b', qa', qb') ->
  ordered_exchange a0 b0 (k + length script) a' b' qa' qb'.
Proof.
  revert k a b qa qb. induction script as [|[[] o] script IH]; intros k a b qa qb Hex; cbn [replay length].
  - intros [= <- <- <- <-]. by rewrite Nat.add_0_r.
  - destruct (obey _ _ _ _) as [[[x out] inn]|] eqn:E; [|done]. rewrite <- Nat.add_succ_comm. apply IH. eapply oe_left; [done|by apply obey_hop in E].
  - destruct (obey _ _ _ _) as [[[x out] inn]|] eqn:E; [|done]. rewrite <- Nat.add_succ_comm. apply IH. eapply oe_right; [done|by apply obey_hop in E].
Qed.

(** C9: Only overtaking hangs a connection.  Two connections, each used by its
    owner in any order, over a network that loses segments as it likes but keeps
    their order: at every moment each segment on its way is received by the
    other side if it arrives next, that is, [segment_received] returns.  Each
    retransmission, acknowledgment, window probe and answer to an unacceptable segment
    that the connections send is among them. *)
Theorem ordered_received ca cb ra rb k a b qa qb :
  config_ok ca -> config_ok cb -> Z.of_nat k < 2 ^ 62 ->
  ordered_exchange (endpoint_of ca ra) (endpoint_of cb rb) k a b qa qb ->
  len (written a) + recv_capacity cb < 2 ^ 31 - 4 -> len (written b) + recv_capacity ca < 2 ^ 31 - 4 ->
  (forall seg0 seg, seg0 ∈ qa -> same_wire seg0 seg -> exists c, segment_received seg (conn b) = Some c) /\
  (forall seg0 seg, seg0 ∈ qb -> same_wire seg0 seg -> exists c, segment_received seg (conn a) = Some c).
Proof.
  intros Ha Hb Hk Hex HA HB. split; intros seg0 seg Hin Hs.
  - by eapply (ordered_receives cb ca rb ra k b a qb qa); [..|apply ordered_swap| | | |].
  - by eapply (ordered_receives ca cb ra rb k a b qa qb).
Qed.

(** The first segment of data is lost; an acknowledgment and more data follow. *)
Definition ordered_script : list (bool * order) :=
  [(true, Does Connect); (true, Does Send); (false, Does (Receive 0)); (false, Does Send); (true, Does (Receive 0)); (true, Does Send);
   (false, Does (Receive 0)); (true, Does (Write (lit "abc"))); (true, Does Send); (true, Loses 0);
   (false, Does (Write (lit "x"))); (false, Does Send); (true, Does (Receive 0)); (true, Does Send);
   (true, Does (Write (lit "de"))); (true, Does Send); (true, Does (Tick 1000)); (true, Does Send); (false, Does (Write (lit "y"))); (false, Does Send)].

Definition ordered_end : endpoint * endpoint * list TCPSegment * list TCPSegment :=
  let a := endpoint_of demo_config 77 in
  let b := endpoint_of demo_config 4294967295 in
  default (a, b, [], []) (replay ordered_script a b [] []).

Lemma ordered_received_witness :
  let '(a, b, qa, qb) := ordered_end in
  map (fun seg => str (payload seg)) qa = [[]; lit "de"; lit "abc"] /\ map (fun seg => str (payload seg)) qb = [lit "y"] /\
  (forall seg, seg ∈ qa -> exists c, segment_received seg (conn b) = Some c) /\
  (forall seg, seg ∈ qb -> exists c, segment_received seg (conn a) = Some c).
Proof.
  pose proof (ordered_received demo_config demo_config 77 4294967295 (length ordered_script) ordered_end.1.1.1 ordered_end.1.1.2 ordered_end.1.2
    ordered_end.2 demo_config_ok demo_config_ok) as H.
  destruct H as [H1 H2]; [vm_compute; reflexivity| |vm_compute; reflexivity..|].
  { apply (replay_ordered ordered_script _ _ 0 (endpoint_of demo_config 77) (endpoint_of demo_config 4294967295) [] []); [constructor|].
    vm_compute. reflexivity. }
  assert (map (fun seg => str (payload seg)) ordered_end.1.2 = [[]; lit "de"; lit "abc"] /\
    map (fun seg => str (payload seg)) ordered_end.2 = [lit "y"]) as [H3 H4] by (vm_compute; split; reflexivity).
  assert (forall p : endpoint * endpoint * list TCPSegment * list TCPSegment, p = (p.1.1.1, p.1.1.2, p.1.2, p.2)) as Ep by (by intros [[[? ?] ?] ?]).
  rewrite (Ep ordered_end). split_and!; [exact H3|exact H4|..]; intros seg Hin; eauto using same_wire_refl.
Defined.
