(* ===== verification/Recovery.v ===== *)
(** Two connections can always finish.

    Over a network that keeps the order of segments ([Ordered]) every state two
    connections reach, after whatever losses, can be continued so that all bytes
    written so far are delivered ([delivery_possible]): nothing is ever lost for
    good, no wait is mutual, and no lost acknowledgment or window update stops a
    stream.  The continuation is the one retransmission is made for: the oldest
    outstanding segment is sent again, arrives, and is acknowledged. *)
From stdpp Require Import relations.
From S2P Require Import Prelude WrappingIntegers Buffer ByteStream StreamReassembler ReassemblerProgress TCPSegment TCPReceiver TCPSender.
From S2P Require Import TCPState TCPConnection ConnectionStreams SocketLoop Delivery Duplex Ordered.

(** ** The sender *)

(** The time after which the timer expires. *)
Definition due (s : TCPSender) : Z := u64 (_applying_retransmission_timeout s - TCPSender._last_tick_time s).

Lemma tick_resends s front q :
  timed s -> _outstanding_segments s = front :: q ->
  TCPSender._segments_out (TCPSender.tick (due s) s) = TCPSender._segments_out s ++ [front] /\
  (consecutive_retransmissions s < MAX_RETX_ATTEMPTS -> consecutive_retransmissions (TCPSender.tick (due s) s) <= MAX_RETX_ATTEMPTS).
Proof.
  intros [Hr _ Ha Hc] Ho. unfold TCPSender.tick, due, consecutive_retransmissions in *. rewrite Hr by (by rewrite Ho). cbn [negb]. rewrite Ho.
  rewrite u64_add_r, Zplus_minus, (u64_small (_applying_retransmission_timeout s)) by lia.
  rewrite Z.leb_refl. cbn. split; [done|]. unfold MAX_RETX_ATTEMPTS. intros Hm. destruct (_ || _); [|lia]. rewrite u16_small by lia. lia.
Qed.

Section Sender.
Context (T : list byte) (isn : WrappingInt32).
Context (Hbound : len T < 2 ^ 61).

(** An acknowledgment of the oldest segment removes it and restarts the timer. *)
Lemma ack_progress an w s A front q :
  sinv T isn s -> 0 <= w < 2 ^ 16 -> unwrap an isn (_next_seqno s) = A -> _confirmed_seqno s <= A <= _next_seqno s ->
  _outstanding_segments s = front :: q -> base s + length_in_sequence_space front <= A ->
  let s' := ack_received an w s in base s < base s' /\ consecutive_retransmissions s' = 0.
Proof.
  intros Hs Hw <- HA Ho Hfront. destruct (ack_received_ok T isn Hbound an w s Hs Hw HA) as (s1 & popped & Hak & Hs1 & Hres).
  pose proof (ak_popped _ _ _ _ _ _ _ Hak) as Hp. pose proof (ak_chain _ _ _ _ _ _ _ Hak) as Hch. cbn [set_confirmed _outstanding_segments] in Hp.
  change (base (set_confirmed _ w s)) with (base s) in Hch. rewrite Ho in Hp.
  destruct popped as [|x popped]; cbn [app] in Hp.
  { exfalso. pose proof (fl_partial _ _ _ (ak_flight _ _ _ _ _ _ _ Hak)) as Hpart. rewrite <- Hp, (ak_confirmed _ _ _ _ _ _ _ Hak) in Hpart.
    cbn [chain] in Hch. lia. }
  injection Hp as <- _. cbn [chain] in Hch. destruct Hch as (_ & Hl & Hch). apply chain_le in Hch.
  pose proof (ak_timers _ _ _ _ _ _ _ Hak) as Htm. injection Htm as _ Hz _.
  assert (base s < base s1 /\ consecutive_retransmissions s1 = 0) as [H1 H2] by (split; [lia|exact Hz]).
  destruct (nonempty (_outstanding_segments s1)); [by rewrite Hres|]. destruct Hres as (s2 & Hf & _ & _ & ->).
  destruct (fs_timeouts _ _ _ _ Hf) as (_ & _ & E). unfold consecutive_retransmissions in *. cbn [set_timing consecutive_retransmissions_].
  change (base (set_timing _ s2)) with (base s2). by rewrite E, (fs_base _ _ _ _ Hf).
Qed.

(** No acknowledgment makes the sender less patient. *)
Lemma ack_patient an w s :
  sinv T isn s -> 0 <= w < 2 ^ 16 ->
  consecutive_retransmissions (ack_received an w s) = consecutive_retransmissions s \/ consecutive_retransmissions (ack_received an w s) = 0.
Proof.
  intros Hs Hw.
  apply (ack_received_preserves T isn Hbound (fun s' => consecutive_retransmissions s' = consecutive_retransmissions s \/ consecutive_retransmissions s' = 0));
    unfold consecutive_retransmissions; try done; [by left|..].
  - intros s1 popped _ Hak _. pose proof (ak_timers _ _ _ _ _ _ _ Hak) as Htm. destruct popped; injection Htm as _ -> _; auto.
  - intros s1 Hs1. destruct (fill_window_fills T isn Hbound s1 Hs1) as (Hf & _). by destruct (fs_timeouts _ _ _ _ Hf) as (_ & _ & ->).
Qed.

(** The sender queues no RST. *)
Definition no_rst (l : list TCPSegment) : Prop := Forall (fun seg => rst (header seg) = false) l.

Lemma chain_no_rst a l n : chain T isn a l n -> no_rst l.
Proof.
  revert a. induction l as [|seg l IH]; intros a; [constructor|]. cbn [chain]. intros (He & _ & Hc). constructor; [apply He|by eapply IH].
Qed.

Lemma fills_no_rst s s' : fills T isn s s' -> no_rst (TCPSender._segments_out s) -> no_rst (TCPSender._segments_out s').
Proof. intros Hf H. destruct (fs_new _ _ _ _ Hf) as (new & -> & _ & Hc). apply Forall_app. split; [done|by eapply chain_no_rst]. Qed.

Lemma ack_no_rst an w s :
  sinv T isn s -> 0 <= w < 2 ^ 16 -> no_rst (TCPSender._segments_out s) -> no_rst (TCPSender._segments_out (ack_received an w s)).
Proof.
  intros Hs Hw Hq. apply (ack_received_preserves T isn Hbound (fun s => no_rst (TCPSender._segments_out s))); try done.
  - intros s1 popped _ Hak _. by rewrite (ak_out _ _ _ _ _ _ _ Hak).
  - intros s1 Hs1. destruct (fill_window_fills T isn Hbound s1 Hs1) as (Hf & _). by apply fills_no_rst.
Qed.
End Sender.

(** ** The receiver *)

Section Receiver.
Context (T : list byte) (isn : WrappingInt32) (cap : Z).
Context (Hisn : WrappingIntegers.wf isn) (Hcap : 0 < cap) (Hbound : len T + cap < 2 ^ 31 - 4).

Lemma emitted_position a i seg r : emitted T isn a seg -> carries T isn cap i seg r -> position seg i = a.
Proof.
  intros He Hc. pose proof (carries_position T isn cap _ _ _ Hc) as Hp. pose proof (ca_seqno _ _ _ _ _ _ Hc) as Hseq. fold (position seg i) in Hseq.
  rewrite (em_seqno _ _ _ _ He) in Hseq. apply wrap_cong in Hseq as [k Hk]. pose proof (len_nonneg (str (payload seg))).
  destruct (syn (header seg)) eqn:Es; [destruct (em_syn _ _ _ _ He Es)|destruct (em_data _ _ _ _ He Es)]; lia.
Qed.

(** The acknowledgment is of pieces that have arrived. *)
Lemma open_ack n r : winv T isn cap n r -> next r < len T -> input_ended (_reassembler r) = false /\ abs_seqno r <= next r + 1.
Proof.
  intros [Hi _ _ _ _ Hsafe] Hn. destruct (input_ended (_reassembler r)) eqn:E; [pose proof (inv_ended T cap _ Hi E); lia|].
  split; [done|]. destruct (Hsafe eq_refl); lia.
Qed.

(** A segment below the acknowledgment is below it whole. *)
Lemma covered_acked cut a seg i r :
  pieces cut -> emitted T isn a seg -> 0 < length_in_sequence_space seg -> position seg i = a -> 0 <= i ->
  (0 < len (str (payload seg)) -> cut i (len (str (payload seg)))) -> boundary cut (abs_seqno r - 1) ->
  a < abs_seqno r -> abs_seqno r <= len T -> a + length_in_sequence_space seg <= abs_seqno r.
Proof.
  intros Hp He Hl Epos Hi Hcut Hb Ha Habs. rewrite (emitted_length T isn a seg He) in *. pose proof (em_fin _ _ _ _ He) as Hfin.
  destruct (syn (header seg)) eqn:Es; [destruct (em_syn _ _ _ _ He Es) as (-> & -> & ->); simpl; lia|].
  unfold position in Epos. rewrite Es in Epos. pose proof (len_nonneg (str (payload seg))).
  assert (a + len (str (payload seg)) <= abs_seqno r).
  { destruct (decide (0 < len (str (payload seg)))) as [Hpos|]; [|lia].
    destruct (cut_at_boundary cut i (len (str (payload seg))) (abs_seqno r - 1) Hp Hb (Hcut Hpos)); lia. }
  destruct (fin (header seg)); [specialize (Hfin eq_refl)|]; lia.
Qed.

(** The segment at the acknowledged position is written and acknowledged. *)
Lemma next_acked n a seg i r s' :
  winv T isn cap n r -> emitted T isn a seg -> 0 < length_in_sequence_space seg -> carries T isn cap i seg r -> position seg i = a ->
  next r < len T -> taken (_reassembler r) = next r -> a = abs_seqno r -> abs_seqno r <= next r + 1 ->
  push (str (payload seg)) i (fin (header seg)) (_reassembler r) = Some s' -> _next_assembling_index s' <> len T ->
  a + length_in_sequence_space seg <= acked a seg s' (abs_seqno r).
Proof.
  intros Hw He Hl Hc Epos Hopen Hread -> Habs Ep Hn'. rewrite (emitted_length T isn _ seg He) in *. pose proof (em_fin _ _ _ _ He) as Hfin.
  unfold acked. rewrite Z.eqb_refl. pose proof (ca_window _ _ _ _ _ _ Hc) as Hadm. pose proof (len_nonneg (str (payload seg))).
  destruct (syn (header seg)) eqn:Es.
  { destruct (em_syn _ _ _ _ He Es) as (E0 & E1 & E2). rewrite E0, E1, E2. simpl. destruct (input_ended s'); lia. }
  unfold position in Epos. rewrite Es in Epos. unfold admissible, fin_unit in Hadm.
  assert (i + len (str (payload seg)) <= _next_assembling_index s') as Hadv.
  { pose proof (wi_inv _ _ _ _ _ Hw) as Hi.
    eapply (push_advances T cap ltac:(lia) ltac:(lia)); [done|by eapply carries_consistent|lia|destruct (fin _); lia|lia|exact Ep]. }
  destruct (carried_push T isn cap ltac:(lia) Hbound _ _ _ _ _ Hw Hc Ep) as (Hi' & _). pose proof (inv_next T cap _ Hi').
  destruct (fin (header seg)); [specialize (Hfin eq_refl); lia|].
  destruct (Z.eqb_spec (len (str (payload seg))) 0); cbn [negb]; destruct (_ || _); lia.
Qed.

(** A segment at the acknowledged position or before it, everything having been
    read: its end is acknowledged then, or the whole stream has arrived. *)
Lemma front_acked cut n a seg i r r' :
  pieces cut -> n < 2 ^ 62 -> winv T isn cap n r -> emitted T isn a seg -> 0 < length_in_sequence_space seg ->
  carries T isn cap i seg r -> (0 < len (str (payload seg)) -> cut i (len (str (payload seg)))) -> in_step T cut r ->
  next r < len T -> taken (_reassembler r) = next r -> a <= abs_seqno r ->
  TCPReceiver.segment_received seg r = Some r' ->
  next r' = len T \/ a + length_in_sequence_space seg <= abs_seqno r' /\ first_segment r' = false.
Proof.
  intros Hp Hn Hw He Hl Hc Hcut Hst Hopen Hread Ha E. destruct (open_ack n r Hw Hopen) as [Hend Habs].
  pose proof (emitted_position a i seg r He Hc) as Epos. pose proof (emitted_length T isn a seg He) as El.
  pose proof Hw as [Hi Hca Hf Hs _ _]. pose proof (ca_range _ _ _ _ _ _ Hc) as [Hi0 _]. pose proof (carries_position T isn cap _ _ _ Hc) as Hz.
  assert (abs_seqno r <> 0 -> first_segment r = false) as Hfirst by (destruct (first_segment r); [by destruct (Hf eq_refl)|done]).
  assert (syn (header seg) = true -> a = 0 /\ length_in_sequence_space seg = 1) as Hsyn.
  { intros Es. destruct (em_syn _ _ _ _ He Es) as (-> & Ep & Efin). rewrite El, Es, Ep, Efin. done. }
  rewrite (recv_near T isn cap Hisn ltac:(lia) Hbound n i seg r) in E; try done; [|by eapply (open_unwrap T isn cap ltac:(lia) Hbound)].
  destruct (_ || _) eqn:Eg.
  { injection E as <-. right. apply orb_true_iff in Eg as [[Eg1 Eg2%negb_true_iff]%andb_true_iff|[Eg1%Z.eqb_eq Eg2]%andb_true_iff].
    - destruct (Hf Eg1). destruct (em_data _ _ _ _ He Eg2). lia.
    - destruct (Hsyn Eg2). split; [lia|apply Hfirst; lia]. }
  destruct (push _ _ _ _) as [s'|] eqn:Ep; [|done]. injection E as <-. cbn [_reassembler abs_seqno first_segment].
  destruct (decide (_next_assembling_index s' = len T)) as [|Hn']; [by left|right; split; [|done]]. rewrite Epos.
  destruct (Z.eqb_spec a (abs_seqno r)) as [Ea|Ea].
  - by eapply next_acked.
  - unfold acked. destruct (Z.eqb_spec a (abs_seqno r)); [done|]. destruct (is_ack _ _ _ Hst (Hfirst ltac:(lia))) as [Hb|?]; [|lia].
    eapply covered_acked; done || lia.
Qed.
End Receiver.

(** ** The connection *)

Section Connection.
Context (T : list byte) (isn : WrappingInt32).
Context (Hbound : len T < 2 ^ 61).

Lemma flush_sinv q s : sinv T isn s -> sinv T isn (set_segments_out q s).
Proof. intros [Hfl Hfd]. split; [by apply (flight_ext T isn s)|by apply (feeds_ext T s)]. Qed.

(** What the sender's part of [respond] preserves. *)
Lemma respond_sender (P : TCPSender -> Prop) seg c :
  sinv T isn (_sender c) -> (ack (header seg) = true -> 0 <= win (header seg) < 2 ^ 16) ->
  P (if ack (header seg) then ack_received (TCPSegment.ackno (header seg)) (win (header seg)) (_sender c) else _sender c) ->
  (forall q s, P s -> P (set_segments_out q s)) -> (forall s, sinv T isn s -> P s -> P (fill_window s)) -> P (_sender (respond seg c)).
Proof.
  intros Hs Hw HP Hflush Hfill. unfold respond. set (c1 := if ack (header seg) then _ else c).
  assert (sinv T isn (_sender c1) /\ P (_sender c1)) as [Hs1 H1].
  { subst c1. destruct (ack (header seg)); [|done]. rewrite send_segments_out_eq. cbn [snd set_out set_sender _sender].
    split; [by apply flush_sinv, ack_received_sinv; auto|by apply Hflush]. }
  destruct (0 <? _); [|done]. rewrite send_segments_out_eq. cbn [fst snd]. destruct (negb _); [rewrite send_segments_out_eq|];
    cbn [snd set_out set_sender _sender]; repeat apply Hflush; auto.
Qed.

Lemma respond_patient seg c :
  sinv T isn (_sender c) -> (ack (header seg) = true -> 0 <= win (header seg) < 2 ^ 16) ->
  consecutive_retransmissions (_sender (respond seg c)) = consecutive_retransmissions (_sender c) \/
  consecutive_retransmissions (_sender (respond seg c)) = 0.
Proof.
  intros Hs Hw. apply (respond_sender (fun s => consecutive_retransmissions s = consecutive_retransmissions (_sender c) \/ consecutive_retransmissions s = 0));
    try done.
  - destruct (ack (header seg)); [|by left]. by apply (ack_patient T isn); auto.
  - intros s Hs1. unfold consecutive_retransmissions. destruct (fill_window_fills T isn Hbound s Hs1) as (Hf & _).
    by destruct (fs_timeouts _ _ _ _ Hf) as (_ & _ & ->).
Qed.

Lemma respond_progress seg c A front q :
  sinv T isn (_sender c) -> ack (header seg) = true -> 0 <= win (header seg) < 2 ^ 16 ->
  unwrap (TCPSegment.ackno (header seg)) isn (_next_seqno (_sender c)) = A -> _confirmed_seqno (_sender c) <= A <= _next_seqno (_sender c) ->
  _outstanding_segments (_sender c) = front :: q -> base (_sender c) + length_in_sequence_space front <= A ->
  base (_sender c) < base (_sender (respond seg c)) /\ consecutive_retransmissions (_sender (respond seg c)) = 0.
Proof.
  intros Hs Ha Hw Hu HA Ho Hf. apply (respond_sender (fun s => base (_sender c) < base s /\ consecutive_retransmissions s = 0)); try done.
  - rewrite Ha. by eapply (ack_progress T isn).
  - intros s Hs1 [H1 H2]. destruct (fill_window_fills T isn Hbound s Hs1) as (Hfs & _). unfold consecutive_retransmissions in *.
    destruct (fs_timeouts _ _ _ _ Hfs) as (_ & _ & ->). by rewrite (fs_base _ _ _ _ Hfs).
Qed.

(** *** The reply *)

Lemma send_no_rst s c :
  no_rst (TCPSender._segments_out s) -> no_rst (TCPConnection._segments_out c) ->
  no_rst (TCPConnection._segments_out (send_segments_out (set_sender s c)).2).
Proof.
  intros Hs Hc. rewrite send_segments_out_eq. cbn. apply Forall_app. split; [done|]. apply Forall_map.
  eapply Forall_impl; [exact Hs|]. intros seg Hr. unfold compose, stamp. by destruct (ackno _).
Qed.

Lemma respond_no_rst seg c :
  sinv T isn (_sender c) -> (ack (header seg) = true -> 0 <= win (header seg) < 2 ^ 16) -> quiet c ->
  no_rst (TCPConnection._segments_out c) -> no_rst (TCPConnection._segments_out (respond seg c)).
Proof.
  intros Hs Hw Hq Hc. unfold respond. set (c1 := if ack (header seg) then _ else c).
  assert (sinv T isn (_sender c1) /\ no_rst (TCPConnection._segments_out c1) /\ quiet c1) as (Hs1 & H1 & Hq1).
  { subst c1. destruct (ack (header seg)); [|done].
    pose proof (ack_received_sinv T isn Hbound (TCPSegment.ackno (header seg)) (win (header seg)) _ Hs (Hw eq_refl)) as Ha.
    split_and!; [|apply send_no_rst; [|done]; apply (ack_no_rst T isn); auto; rewrite Hq; constructor|]; rewrite send_segments_out_eq; [by apply flush_sinv|done]. }
  destruct (0 <? _); [|done]. destruct (fill_window_fills T isn Hbound _ Hs1) as (Hf & _).
  assert (no_rst (TCPSender._segments_out (fill_window (_sender c1)))) as H2 by (eapply fills_no_rst; [exact Hf|]; rewrite Hq1; constructor).
  pose proof (send_no_rst _ c1 H2 H1) as H3. pose proof (send_segments_out_emits (fill_window (_sender c1)) c1) as He.
  destruct (send_segments_out (set_sender (fill_window (_sender c1)) c1)) as [b c2]. cbn [snd] in *. destruct He as ([Hq2 _ _ _] & _).
  destruct b; [done|]. cbn [negb]. apply send_no_rst; [|done]. unfold send_empty_segment. cbn. rewrite Hq2. by repeat constructor.
Qed.

Lemma respond_reply seg c :
  sinv T isn (_sender c) -> (ack (header seg) = true -> 0 <= win (header seg) < 2 ^ 16) -> quiet c ->
  TCPConnection._segments_out c = [] -> 0 < length_in_sequence_space seg ->
  exists x rest, TCPConnection._segments_out (respond seg c) = stamp (_receiver c) x :: rest /\ rst (header x) = false.
Proof.
  intros Hs Hw Hq Ho Hl. pose proof (respond_no_rst seg c Hs Hw Hq) as Hr. rewrite Ho in Hr. specialize (Hr ltac:(constructor)).
  destruct (respond_emits seg c Hq) as (new & [_ Eo Er _] & Hne & _). rewrite Ho, Er in Eo. cbn [app] in Eo. rewrite Eo in *.
  destruct new as [|x new]; [by specialize (Hne Hl)|]. exists x, (map (stamp (_receiver c)) new). split; [done|].
  apply Forall_cons in Hr as [Hr _]. unfold stamp in Hr. by destruct (ackno _).
Qed.
End Connection.

(** ** Going on *)

(** Both sides, and what is on its way from the first to the second and back. *)
Definition system : Type := endpoint * endpoint * list TCPSegment * list TCPSegment.

(** The network, the clocks and the readers go on, the writers do not. *)
Inductive goes_on : system -> system -> Prop :=
  | goes_left a b qa qb a' qa' qb' :
      hop a qa qb a' qa' qb' -> written a' = written a -> ended a' = ended a -> goes_on (a, b, qa, qb) (a', b, qa', qb')
  | goes_right a b qa qb b' qa' qb' :
      hop b qb qa b' qb' qa' -> written b' = written b -> ended b' = ended b -> goes_on (a, b, qa, qb) (a, b', qa', qb').

Definition swap (st : system) : system := let '(a, b, qa, qb) := st in (b, a, qb, qa).

Lemma swap_goes_on st st' : goes_on st st' -> goes_on (swap st) (swap st').
Proof. destruct 1; by constructor. Qed.

Lemma swap_runs st st' : rtc goes_on st st' -> rtc goes_on (swap st) (swap st').
Proof. apply rtc_congruence, swap_goes_on. Qed.

Lemma swap_swap st : swap (swap st) = st.
Proof. by destruct st as [[[? ?] ?] ?]. Qed.

(** How many segments have arrived. *)
Definition arrived_in (inn inn' : list TCPSegment) : Z := Z.of_nat (length inn - length inn').

Lemma hop_paired ca cb ra rb a b TA TB qa qb a' qa' qb' n :
  config_ok ca -> config_ok cb -> len TA + recv_capacity cb < 2 ^ 31 - 4 -> len TB + recv_capacity ca < 2 ^ 31 - 4 -> 0 <= n < 2 ^ 62 ->
  paired ca cb ra rb a b TA TB n -> qb ⊆ sent_segments b -> hop a qa qb a' qa' qb' -> stream_of a' TA ->
  paired ca cb ra rb a' b TA TB (n + arrived_in qb qb').
Proof.
  intros Ha Hb HA HB Hn Hp Hqb Hh HT. unfold arrived_in.
  destruct Hh as [seg rest a qa qb E|seg0 seg c a qa qb Hs E|u c p a qa qb Ho Hu Hal|ms c a qa qb E|l seg l' a qb]; rewrite ?Nat.sub_diag, ?Z.add_0_r.
  - pose proof (paired_use ca cb ra rb Ha Hb a b TA TB (Dequeued seg) (set_out rest (conn a)) (delivered a) n) as H.
    cbn [arrivals] in H. rewrite Z.add_0_r in H. apply H; try done. by constructor.
  - cbn [length]. replace (Z.of_nat _) with (arrivals (Received seg)) by (cbn [arrivals]; lia).
    apply paired_use; try done; [by constructor|]. exists seg0. split; [apply Hqb; by left|done].
  - pose proof (paired_use ca cb ra rb Ha Hb a b TA TB u c p n) as H.
    replace (arrivals u) with 0 in H by (by destruct u). rewrite Z.add_0_r in H. apply H; try done. by destruct u.
  - by apply paired_tick.
  - done.
Qed.

Section Link.
Context (ca cb : TCPConfig) (ra rb : Z) (TA TB : list byte).
Context (Ha : config_ok ca) (Hb : config_ok cb).
Context (HA : len TA + recv_capacity cb < 2 ^ 31 - 4) (HB : len TB + recv_capacity ca < 2 ^ 31 - 4).

(** What is true of a system after [n] arrivals, when [TA] and [TB] have been written. *)
Record link (n : Z) (a b : endpoint) (qa qb : list TCPSegment) : Prop := {
  lk_paired : paired ca cb ra rb a b TA TB n;
  lk_flows : flows ca cb ra rb a b TA TB qa qb;
  lk_qa : qa ⊆ sent_segments a;
  lk_qb : qb ⊆ sent_segments b;
  lk_left : written a = TA;
  lk_right : written b = TB }.

Lemma link_left n a b qa qb a' qa' qb' :
  0 <= n < 2 ^ 62 -> link n a b qa qb -> hop a qa qb a' qa' qb' -> written a' = written a -> link (n + arrived_in qb qb') a' b qa' qb'.
Proof.
  intros Hn [Hp Hf Hqa Hqb Hl Hr] Hh Hw. assert (stream_of a' TA) as HT by (rewrite <- Hl, <- Hw; by split).
  destruct (hop_act _ _ _ _ _ _ _ Hh Hqb) as (_ & Hin & Hout). split; try congruence; auto.
  - by eapply hop_paired.
  - by apply (hop_flows ca cb ra rb a b TA TB qa qb _ _ _ n).
  - by etrans.
Qed.
End Link.

Lemma link_swap ca cb ra rb TA TB n a b qa qb : link ca cb ra rb TA TB n a b qa qb -> link cb ca rb ra TB TA n b a qb qa.
Proof. intros []. split; try done; [by apply paired_swap|by apply flows_swap]. Qed.

Arguments lk_paired {ca cb ra rb TA TB n a b qa qb}.
Arguments lk_flows {ca cb ra rb TA TB n a b qa qb}.
Arguments lk_qa {ca cb ra rb TA TB n a b qa qb}.
Arguments lk_qb {ca cb ra rb TA TB n a b qa qb}.
Arguments lk_left {ca cb ra rb TA TB n a b qa qb}.
Arguments lk_right {ca cb ra rb TA TB n a b qa qb}.

Section Steps.
Context (ca cb : TCPConfig) (ra rb : Z) (TA TB : list byte).
Context (Ha : config_ok ca) (Hb : config_ok cb).
Context (HA : len TA + recv_capacity cb < 2 ^ 31 - 4) (HB : len TB + recv_capacity ca < 2 ^ 31 - 4).

Abbreviation linked := (link ca cb ra rb TA TB).

(** *** Steps that are always possible *)

Lemma still_left n a b qa qb a' qa' :
  0 <= n < 2 ^ 62 -> linked n a b qa qb -> hop a qa qb a' qa' qb -> written a' = written a -> ended a' = ended a ->
  goes_on (a, b, qa, qb) (a', b, qa', qb) /\ linked n a' b qa' qb.
Proof.
  intros Hn Hl Hh Hw He. split; [by constructor|]. pose proof (link_left ca cb ra rb TA TB Ha Hb HA HB n a b qa qb a' qa' qb Hn Hl Hh Hw) as H.
  unfold arrived_in in H. by rewrite Nat.sub_diag, Z.add_0_r in H.
Qed.

(** All queued segments leave, and all that are on their way are lost. *)
Lemma drain n a b qa qb :
  0 <= n < 2 ^ 62 -> linked n a b qa qb ->
  exists a', rtc goes_on (a, b, qa, qb) (a', b, [], qb) /\ linked n a' b [] qb /\ conn a' = set_out [] (conn a) /\ delivered a' = delivered a.
Proof.
  intros Hn. remember (TCPConnection._segments_out (conn a)) as q eqn:Eq. revert a qa Eq.
  induction q as [|seg q IH]; intros a qa Eq Hl.
  - assert (conn a = set_out [] (conn a)) as Ec by (rewrite Eq; by destruct (conn a)).
    induction qa as [|seg qa IHq]; [exists a; by split_and!|].
    destruct (still_left n a b (seg :: qa) qb a qa Hn Hl (hop_lose [] seg qa a qb) eq_refl eq_refl) as [Hg Hl'].
    destruct (IHq Hl') as (a' & Hr & H). exists a'. split; [by eapply rtc_l|done].
  - pose (a1 := record (Dequeued seg) (set_out q (conn a)) (delivered a) a).
    destruct (still_left n a b qa qb a1 (qa ++ [seg]) Hn Hl) as [Hg Hl']; [by apply hop_send|done..|].
    destruct (IH a1 (qa ++ [seg]) eq_refl Hl') as (a' & Hr & Hl2 & Hc & Hd). exists a'. split_and!; [by eapply rtc_l|done..].
Qed.

(** The reader takes everything. *)
Lemma read_all n a b qa qb :
  0 <= n < 2 ^ 62 -> linked n a b qa qb ->
  exists a', goes_on (a, b, qa, qb) (a', b, qa, qb) /\ linked n a' b qa qb /\
    _sender (conn a') = _sender (conn a) /\ TCPConnection._segments_out (conn a') = TCPConnection._segments_out (conn a) /\
    stance (_receiver (conn a')) = stance (_receiver (conn a)) /\
    taken (_reassembler (_receiver (conn a'))) = next (_receiver (conn a')) /\ delivered a' = ztake (next (_receiver (conn a'))) TB.
Proof.
  intros Hn Hl. pose proof (pr_view _ _ _ _ _ _ _ _ _ (lk_paired Hl)) as [_ Hh _].
  pose proof (wi_inv _ _ _ _ _ (di_winv _ _ _ _ _ _ _ _ Hh)) as Hi. pose proof (inv_bounds _ _ _ Hi) as Hbd. pose proof (inv_written _ _ _ Hi) as Hw.
  pose proof (inv_out _ _ _ Hi) as Hwf. pose proof (inv_next _ _ _ Hi) as Hnx.
  set (st := inbound_stream (conn a)) in *.
  pose (k := buffer_size st). assert (k = len (ByteStream._stream (_output (_reassembler (_receiver (conn a)))))) as Ek by exact (wf_size _ Hwf).
  assert (0 <= k <= buffer_size st) as Hk by (fold k; lia).
  pose (a' := record (Delivered (peek_output k st)) (set_receiver (update_stream_out (pop_output k) (_receiver (conn a))) (conn a))
    (delivered a ++ peek_output k st) a).
  destruct (still_left n a b qa qb a' qa Hn Hl) as [Hg Hl']; [by apply hop_use; [|by apply use_delivered|]|done..|].
  assert (taken (_reassembler (_receiver (conn a'))) = next (_receiver (conn a'))) as Ht.
  { change (ByteStream._bytes_read (pop_output k (_output (_reassembler (_receiver (conn a))))) = next (_receiver (conn a))).
    unfold taken in *. rewrite pop_output_eq by (done || lia). cbn [ByteStream._bytes_read]. rewrite <- Ek, Z.min_id, u64_small; lia. }
  exists a'. split_and!; try done. destruct (pr_left _ _ _ _ _ _ _ _ _ (lk_paired Hl')) as [_ ->]. by rewrite Ht.
Qed.
End Steps.

Arguments still_left {ca cb ra rb TA TB}.
Arguments drain {ca cb ra rb TA TB}.
Arguments read_all {ca cb ra rb TA TB}.

Abbreviation sender_of x := (_sender (conn x)).
Abbreviation receiver_of x := (_receiver (conn x)).

Lemma link_there ca cb ra rb TA TB n a b qa qb :
  link ca cb ra rb TA TB n a b qa qb ->
  direction TA (isn_of ca ra) (recv_capacity cb) (sender_of a) (receiver_of b) n
    (TCPConnection._segments_out (conn a) ++ sent_segments a) (TCPConnection._segments_out (conn b) ++ sent_segments b).
Proof. intros [Hp _ _ _ _ _]. by destruct (pr_view _ _ _ _ _ _ _ _ _ Hp). Qed.

Section Rounds.
Context (ca cb : TCPConfig) (ra rb : Z) (TA TB : list byte).
Context (Ha : config_ok ca) (Hb : config_ok cb).
Context (HA : len TA + recv_capacity cb < 2 ^ 31 - 4) (HB : len TB + recv_capacity ca < 2 ^ 31 - 4).

Abbreviation linked := (link ca cb ra rb TA TB).

(** *** What is missing is outstanding *)

Lemma all_arrived n a b qa qb :
  linked n a b qa qb -> _outstanding_segments (sender_of a) = [] -> next (receiver_of b) = len TA.
Proof.
  intros Hl Ho. pose proof (link_there _ _ _ _ _ _ _ _ _ _ _ Hl) as Hd. pose proof (di_winv _ _ _ _ _ _ _ _ Hd) as Hw. pose proof Hw as [Hi _ Hf _ _ _].
  destruct (pr_left _ _ _ _ _ _ _ _ _ (lk_paired Hl)) as [Hg _]. injection Hg as Hg _. rewrite (lk_left Hl) in Hg.
  pose proof (vw_idle _ _ _ _ _ _ _ _ _ _ _ _ (pr_view _ _ _ _ _ _ _ _ _ (lk_paired Hl)) Ho) as Hid.
  pose proof (di_sinv _ _ _ _ _ _ _ _ Hd) as [[_ _ Hch Hcf _ _ _] Hfd]. rewrite Ho in Hch. cbn [chain] in Hch.
  unfold stream_in in Hg. destruct Ha as (_ & Hca & _), Hb as (_ & Hcb & _).
  pose proof (feeds_written TA ltac:(lia) _ Hfd) as Hwr. rewrite Hid in Hwr. pose proof (fd_next _ _ Hfd) as Hnx.
  pose proof (inv_next _ _ _ Hi). pose proof (inv_bounds _ _ _ Hi). simpl in Hwr.
  destruct (Z.eqb_spec (_next_seqno (sender_of a)) 0); [lia|].
  destruct (di_acked _ _ _ _ _ _ _ _ Hd) as [Hac|?]; [|done].
  destruct (decide (next (receiver_of b) = len TA)); [done|exfalso].
  destruct (open_ack TA (isn_of ca ra) (recv_capacity cb) n _ Hw ltac:(lia)). destruct (fin_sent _); lia.
Qed.

(** No more has arrived than was sent. *)
Lemma flow_sent T isn s q r : flow T isn s q r -> 1 <= _next_seqno s -> next r + 1 <= _next_seqno s.
Proof.
  intros (cut & D & E & Hf) Hn. pose proof (fw_cut _ _ _ _ _ _ _ _ Hf) as Hc.
  destruct (is_next _ _ _ (fw_step _ _ _ _ _ _ _ _ Hf)) as [->|(i & k & Hi & <-)]; [lia|].
  pose proof (cb_reach _ _ _ Hc _ _ Hi) as Hr. unfold reach in Hr. lia.
Qed.

(** *** A round *)

(** The timer expires and the oldest segment is sent again. *)
Lemma resend n a b qb front q :
  0 <= n < 2 ^ 62 -> linked n a b [] qb -> TCPConnection._segments_out (conn a) = [] -> _outstanding_segments (sender_of a) = front :: q ->
  consecutive_retransmissions (sender_of a) < MAX_RETX_ATTEMPTS ->
  exists a', rtc goes_on (a, b, [], qb) (a', b, [stamp (receiver_of a) front], qb) /\ linked n a' b [stamp (receiver_of a) front] qb /\
    TCPConnection._segments_out (conn a') = [] /\ _outstanding_segments (sender_of a') = front :: q /\ base (sender_of a') = base (sender_of a) /\
    receiver_of a' = receiver_of a.
Proof.
  intros Hn Hl Ho Hout Hm. pose proof (link_there _ _ _ _ _ _ _ _ _ _ _ Hl) as Hd.
  destruct (tick_resends (sender_of a) front q (di_timed _ _ _ _ _ _ _ _ Hd) Hout) as [Eq Hc]. specialize (Hc Hm).
  assert (quiet (conn a)) as Hq by (by destruct (pr_view _ _ _ _ _ _ _ _ _ (lk_paired Hl))). rewrite Hq in Eq. cbn [app] in Eq.
  set (ms := due (sender_of a)) in *. pose (a1 := record (Ticked ms) (settle (ticked ms (conn a))) (delivered a) a).
  assert (TCPConnection.tick ms (conn a) = Some (settle (ticked ms (conn a)))) as Et.
  { rewrite tick_eq. destruct (Z.ltb_spec MAX_RETX_ATTEMPTS (consecutive_retransmissions (TCPSender.tick ms (sender_of a)))); [lia|done]. }
  destruct (still_left Ha Hb HA HB n a b [] qb a1 [] Hn Hl (hop_tick _ _ _ _ _ Et) eq_refl eq_refl) as [Hg1 Hl1].
  assert (_sender (settle (ticked ms (conn a))) = set_segments_out [] (TCPSender.tick ms (sender_of a)) /\
    _receiver (settle (ticked ms (conn a))) = receiver_of a /\
    TCPConnection._segments_out (settle (ticked ms (conn a))) = [stamp (receiver_of a) front]) as (Es & Er & Eo).
  { unfold settle. destruct (_ && _); cbn; by rewrite Ho, Eq. }
  pose (a2 := record (Dequeued (stamp (receiver_of a) front)) (set_out [] (conn a1)) (delivered a1) a1).
  destruct (still_left Ha Hb HA HB n a1 b [] qb a2 [stamp (receiver_of a) front] Hn Hl1) as [Hg2 Hl2]; [by apply (hop_send _ [] a1 [])|done..|].
  destruct (tick_fields ms (sender_of a)) as (_ & E2 & E3 & E4 & _).
  exists a2. split_and!; try done; [by eapply rtc_l, rtc_once|..].
  - cbn. rewrite Es. by rewrite <- Hout, <- E2.
  - unfold base. cbn. rewrite Es. cbn. by rewrite E3, E4.
Qed.
(** The front of the outstanding segments and the receiver it goes to. *)
Lemma front_arrives n a b qb front q r0 r' :
  0 <= n < 2 ^ 62 -> 0 < recv_capacity cb -> linked n a b [stamp r0 front] qb -> _outstanding_segments (sender_of a) = front :: q ->
  next (receiver_of b) < len TA -> taken (_reassembler (receiver_of b)) = next (receiver_of b) ->
  TCPReceiver.segment_received (stamp r0 front) (receiver_of b) = Some r' ->
  next r' = len TA \/ base (sender_of a) + length_in_sequence_space front <= abs_seqno r' /\ first_segment r' = false.
Proof.
  intros Hn Hcap Hl Hout Hopen Hread Er. pose proof (link_there _ _ _ _ _ _ _ _ _ _ _ Hl) as Hd. pose proof (isn_of_wf ca ra Ha) as Hisn.
  assert (TCPReceiver.segment_received (stamp r0 front) (receiver_of b) = TCPReceiver.segment_received front (receiver_of b)) as Es.
  { unfold stamp. by destruct (ackno r0). }
  rewrite Es in Er. pose proof (di_sinv _ _ _ _ _ _ _ _ Hd) as [[_ _ Hch Hcf _ _ _] _]. rewrite Hout in Hch. destruct Hch as (He & Hlen & _).
  destruct (fs_left _ _ _ _ _ _ _ _ _ _ (lk_flows Hl)) as (cut & D & E & Hf).
  pose proof (fw_again _ _ _ _ _ _ _ _ Hf) as Hag. rewrite Hout in Hag. apply Forall_cons in Hag as [(i' & Hloc & Hcut & _) _].
  pose proof (di_outstanding _ _ _ _ _ _ _ _ Hd) as Hw. rewrite Hout in Hw. apply Forall_cons in Hw as [[[Hr|[[i Hc] _]] _] _].
  { destruct (em_plain _ _ _ _ He). congruence. }
  rewrite (located_unique TA (isn_of ca ra) (recv_capacity cb) ltac:(lia) HA i' i front (receiver_of b) Hloc Hc) in Hcut.
  eapply (front_acked TA (isn_of ca ra) (recv_capacity cb) Hisn Hcap HA cut n); try done; [apply (fw_cut _ _ _ _ _ _ _ _ Hf)|lia
    |apply (di_winv _ _ _ _ _ _ _ _ Hd)|apply (fw_step _ _ _ _ _ _ _ _ Hf)|].
  destruct (di_acked _ _ _ _ _ _ _ _ Hd); lia.
Qed.

Lemma stamp_length r seg : length_in_sequence_space (stamp r seg) = length_in_sequence_space seg.
Proof. unfold stamp. by destruct (ackno r). Qed.

(** It arrives; the receiver has everything, or replies. *)
Lemma deliver_front n a b qb front q r0 :
  0 <= n < 2 ^ 62 -> 0 < recv_capacity cb -> linked n a b [stamp r0 front] qb -> _outstanding_segments (sender_of a) = front :: q ->
  TCPConnection._segments_out (conn b) = [] ->
  next (receiver_of b) < len TA -> taken (_reassembler (receiver_of b)) = next (receiver_of b) ->
  exists b', goes_on (a, b, [stamp r0 front], qb) (a, b', [], qb) /\ linked (n + 1) a b' [] qb /\
    (consecutive_retransmissions (sender_of b') = consecutive_retransmissions (sender_of b) \/ consecutive_retransmissions (sender_of b') = 0) /\
    (next (receiver_of b') = len TA \/
     base (sender_of a) + length_in_sequence_space front <= abs_seqno (receiver_of b') /\ first_segment (receiver_of b') = false /\
     exists x rest, TCPConnection._segments_out (conn b') = stamp (receiver_of b') x :: rest /\ rst (header x) = false).
Proof.
  intros Hn Hcap Hl Hout Ho Hopen Hread. pose proof (link_there _ _ _ _ _ _ _ _ _ _ _ Hl) as Hd. set (f := stamp r0 front) in *.
  pose proof (link_swap _ _ _ _ _ _ _ _ _ _ _ Hl) as Hl'.
  destruct (next_received cb ca rb ra b a TB TA qb [] f [] f n) as [c Ec]; try done;
    [apply (lk_paired Hl')|apply (lk_qa Hl)|apply (lk_flows Hl')|].
  pose (b' := record (Received f) c (delivered b) b).
  assert (hop b qb [f] b' qb []) as Hh by (apply hop_receive; [apply same_wire_refl|done]).
  pose proof (link_left cb ca rb ra TB TA Hb Ha HB HA n b a qb [f] b' qb [] Hn Hl' Hh eq_refl) as Hl1. apply link_swap in Hl1.
  pose proof (di_sinv _ _ _ _ _ _ _ _ Hd) as [[_ _ Hch _ _ _ _] _]. rewrite Hout in Hch. destruct Hch as (He & Hlen & _).
  assert (rst (header f) = false) as Hr by (unfold f, stamp; destruct (ackno r0); apply He).
  exists b'. split; [by constructor|]. split; [exact Hl1|]. change (sender_of b') with (_sender c). change (receiver_of b') with (_receiver c).
  change (conn b') with c. clearbody b'. rewrite segment_received_eq in Ec by done.
  destruct (TCPReceiver.segment_received f (receiver_of b)) as [r'|] eqn:Er; [|done]. injection Ec as <-.
  destruct (after_receiver_fields r' (conn b)) as (Es & Erc & Eo). rewrite respond_receiver, Erc.
  pose proof (link_there cb ca rb ra TB TA _ _ _ _ _ Hl') as Hdb. destruct Ha as (_ & Hca & _), Hb as (_ & Hcb & _).
  assert (sinv TB (isn_of cb rb) (_sender (after_receiver r' (conn b)))) as Hsb by (rewrite Es; apply (di_sinv _ _ _ _ _ _ _ _ Hdb)).
  assert (ack (header f) = true -> 0 <= win (header f) < 2 ^ 16) as Hwin.
  { intros _. unfold f, stamp. destruct (ackno r0); cbn; apply u16_range. }
  split; [rewrite <- Es; by apply (respond_patient TB (isn_of cb rb) ltac:(lia))|].
  destruct (front_arrives n a b qb front q r0 r') as [?|[H1 H2]]; try done; [by left|right]. split_and!; try done.
  destruct (respond_reply TB (isn_of cb rb) ltac:(lia) f (after_receiver r' (conn b))) as (x & rest & Ex & Hx); try done.
  - unfold quiet. rewrite Es. by destruct (pr_quiet _ _ _ _ _ _ _ _ _ (lk_paired Hl)).
  - by rewrite Eo.
  - unfold f. by rewrite stamp_length.
  - rewrite Erc in Ex. by exists x, rest.
Qed.
(** The acknowledgment in a reply is of the oldest segment. *)
Lemma reply_progress n a b qa qb front q x c :
  linked n a b qa qb -> _outstanding_segments (sender_of a) = front :: q -> first_segment (receiver_of b) = false ->
  next (receiver_of b) < len TA -> base (sender_of a) + length_in_sequence_space front <= abs_seqno (receiver_of b) ->
  _sender c = sender_of a ->
  let c' := respond (stamp (receiver_of b) x) c in
  base (sender_of a) < base (_sender c') /\ consecutive_retransmissions (_sender c') = 0.
Proof.
  intros Hl Hout Hfirst Hopen Hack Ec c'. pose proof (link_there _ _ _ _ _ _ _ _ _ _ _ Hl) as Hd. pose proof (di_winv _ _ _ _ _ _ _ _ Hd) as Hw.
  pose proof (di_sinv _ _ _ _ _ _ _ _ Hd) as Hs. destruct (wi_isn _ _ _ _ _ Hw Hfirst) as [Eisn _]. destruct Ha as (_ & Hca & _), Hb as (_ & Hcb & _).
  destruct (open_ack TA (isn_of ca ra) (recv_capacity cb) n _ Hw Hopen) as [_ Habs].
  pose proof (fl_chain _ _ _ (si_flight _ _ _ Hs)) as Hch. rewrite Hout in Hch. destruct Hch as (_ & Hlen & Hch). apply chain_le in Hch.
  pose proof (fl_base _ _ _ (si_flight _ _ _ Hs)) as Hb0.
  pose proof (flow_sent _ _ _ _ _ (fs_left _ _ _ _ _ _ _ _ _ _ (lk_flows Hl)) ltac:(lia)) as Hsent.
  subst c'. rewrite <- Ec in *. apply (respond_progress TA (isn_of ca ra) ltac:(lia) _ c (abs_seqno (receiver_of b)) front q); try done.
  - unfold stamp, ackno. by rewrite Hfirst.
  - unfold stamp, ackno. rewrite Hfirst. apply u16_range.
  - unfold stamp, ackno. rewrite Hfirst, Eisn. apply (valid_ack_unwrap TA (isn_of ca ra) (recv_capacity cb) Hcb HA _ (receiver_of b) n); [done|done|lia].
  - destruct (di_acked _ _ _ _ _ _ _ _ Hd); lia.
Qed.

(** The first segment of the reply comes back. *)
Lemma ack_back n a b front q x rest :
  0 <= n < 2 ^ 62 - 1 -> linked n a b [] [] -> _outstanding_segments (sender_of a) = front :: q ->
  TCPConnection._segments_out (conn b) = stamp (receiver_of b) x :: rest -> rst (header x) = false ->
  first_segment (receiver_of b) = false -> next (receiver_of b) < len TA ->
  base (sender_of a) + length_in_sequence_space front <= abs_seqno (receiver_of b) ->
  exists a' b', rtc goes_on (a, b, [], []) (a', b', [], []) /\ linked (n + 1) a' b' [] [] /\
    sender_of b' = sender_of b /\ base (sender_of a) < base (sender_of a') /\ consecutive_retransmissions (sender_of a') = 0.
Proof.
  intros Hn Hl Hout Ho Hx Hfirst Hopen Hack. set (f := stamp (receiver_of b) x) in *.
  pose (b' := record (Dequeued f) (set_out rest (conn b)) (delivered b) b).
  destruct (still_left Hb Ha HB HA n b a [] [] b' [f] ltac:(lia) (link_swap _ _ _ _ _ _ _ _ _ _ _ Hl)) as [Hg1 Hl1];
    [by apply (hop_send f rest b [])|done..|].
  apply swap_goes_on in Hg1. apply link_swap in Hl1.
  destruct (next_received ca cb ra rb a b' TA TB [] [] f [] f n) as [c Ec]; try done; [lia|apply (lk_paired Hl1)|apply (lk_qb Hl1)|apply (lk_flows Hl1)|].
  pose (a' := record (Received f) c (delivered a) a).
  assert (hop a [] [f] a' [] []) as Hh by (apply hop_receive; [apply same_wire_refl|done]).
  pose proof (link_left ca cb ra rb TA TB Ha Hb HA HB n a b' [] [f] a' [] [] ltac:(lia) Hl1 Hh eq_refl) as Hl2.
  exists a', b'. split_and!; [by eapply rtc_l; [exact Hg1|]; apply rtc_once; constructor|exact Hl2|done|..];
    change (sender_of a') with (_sender c).
  all: assert (rst (header f) = false) as Hr by (unfold f, stamp; by destruct (ackno _)).
  all: rewrite segment_received_eq in Ec by done.
  all: destruct (TCPReceiver.segment_received f (receiver_of a)) as [r'|] eqn:Er; [|done]; injection Ec as <-.
  all: destruct (after_receiver_fields r' (conn a)) as (Es & _).
  all: by destruct (reply_progress n a b [] [] front q x (after_receiver r' (conn a)) Hl Hout Hfirst Hopen Hack Es).
Qed.
Definition patient (x : endpoint) : Prop := consecutive_retransmissions (sender_of x) < MAX_RETX_ATTEMPTS.

(** The network is cleared and everything is read. *)
Lemma clear n a b qa qb :
  0 <= n < 2 ^ 62 -> linked n a b qa qb ->
  exists a' b', rtc goes_on (a, b, qa, qb) (a', b', [], []) /\ linked n a' b' [] [] /\
    sender_of a' = sender_of a /\ sender_of b' = sender_of b /\ TCPConnection._segments_out (conn a') = [] /\ TCPConnection._segments_out (conn b') = [] /\
    next (receiver_of b') = next (receiver_of b) /\ taken (_reassembler (receiver_of b')) = next (receiver_of b') /\
    delivered b' = ztake (next (receiver_of b')) TA.
Proof.
  intros Hn Hl. destruct (drain Ha Hb HA HB n a b qa qb Hn Hl) as (a1 & R1 & L1 & C1 & _).
  destruct (drain Hb Ha HB HA n b a1 qb [] Hn (link_swap _ _ _ _ _ _ _ _ _ _ _ L1)) as (b1 & R2 & L2 & C2 & _).
  destruct (read_all Hb Ha HB HA n b1 a1 [] [] Hn L2) as (b2 & G3 & L3 & S3 & O3 & [= _ N3 _ _] & T3 & D3).
  apply swap_runs in R2. apply swap_goes_on in G3. apply link_swap in L3.
  exists a1, b2. rewrite O3, S3, C1, C2. split_and!; try done; [|by rewrite N3, C2].
  etrans; [exact R1|]. etrans; [exact R2|]. by apply rtc_once.
Qed.

Lemma round n a b qa qb :
  0 <= n < 2 ^ 62 - 2 -> 0 < recv_capacity cb -> linked n a b qa qb -> next (receiver_of b) < len TA -> patient a ->
  exists a' b' m, rtc goes_on (a, b, qa, qb) (a', b', [], []) /\ n <= m <= n + 2 /\ linked m a' b' [] [] /\ (patient b -> patient b') /\
    (next (receiver_of b') = len TA \/ base (sender_of a) < base (sender_of a') /\ patient a').
Proof.
  intros Hn Hcap Hl Hopen Hpa. destruct (clear n a b qa qb ltac:(lia) Hl) as (a1 & b1 & R1 & L1 & Sa & Sb & Oa & Ob & N1 & T1 & _).
  rewrite <- N1 in Hopen. destruct (_outstanding_segments (sender_of a1)) as [|front q] eqn:Hout; [pose proof (all_arrived _ _ _ _ _ L1 Hout); lia|].
  destruct (resend n a1 b1 [] front q) as (a2 & R2 & L2 & _ & H2 & B2 & _); try done; [lia|by rewrite Sa|].
  destruct (deliver_front n a2 b1 [] front q (receiver_of a1)) as (b2 & G3 & L3 & P3 & H3); try done; [lia|].
  assert (rtc goes_on (a, b, qa, qb) (a2, b2, [], [])) as R3 by (etrans; [exact R1|]; etrans; [exact R2|]; by apply rtc_once).
  assert (patient b -> patient b2) as Hpb by (unfold patient; rewrite <- Sb; destruct P3 as [->| ->]; [done|by intros]).
  destruct H3 as [H3|(H3 & H4 & x & rest & Hx & Hr)]; [exists a2, b2, (n + 1); split_and!; try done; [lia..|by left]|].
  destruct (decide (next (receiver_of b2) = len TA)) as [|Hne]; [exists a2, b2, (n + 1); split_and!; try done; [lia..|by left]|].
  pose proof (inv_next _ _ _ (wi_inv _ _ _ _ _ (di_winv _ _ _ _ _ _ _ _ (link_there _ _ _ _ _ _ _ _ _ _ _ L3)))) as Hle.
  destruct (ack_back (n + 1) a2 b2 front q x rest) as (a3 & b3 & R4 & L4 & S4 & B4 & P4); try done; [lia..|].
  exists a3, b3, (n + 2). replace (n + 2) with (n + 1 + 1) by lia. split_and!; try done; [by etrans|lia..|by unfold patient; rewrite S4|right].
  rewrite B2, Sa in B4. split; [done|]. unfold patient. by rewrite P4.
Qed.

Lemma complete d n a b qa qb :
  0 <= n -> n + 2 * Z.of_nat (S d) < 2 ^ 62 - 2 -> 0 < recv_capacity cb -> linked n a b qa qb -> patient a ->
  len TA + 2 - base (sender_of a) <= Z.of_nat d ->
  exists a' b' qa' qb' m, rtc goes_on (a, b, qa, qb) (a', b', qa', qb') /\ n <= m <= n + 2 * Z.of_nat (S d) /\ linked m a' b' qa' qb' /\
    (patient b -> patient b') /\ next (receiver_of b') = len TA.
Proof.
  revert n a b qa qb. induction d as [|d IH]; intros n a b qa qb Hn Hm Hcap Hl Hp Hd.
  all: destruct (decide (next (receiver_of b) = len TA)) as [|Hne]; [exists a, b, qa, qb, n; split_and!; try done; lia|].
  all: pose proof (inv_next _ _ _ (wi_inv _ _ _ _ _ (di_winv _ _ _ _ _ _ _ _ (link_there _ _ _ _ _ _ _ _ _ _ _ Hl)))) as Hle.
  all: destruct (round n a b qa qb) as (a1 & b1 & m & R1 & Hm1 & L1 & Hpb & H1); try done; [lia..|].
  all: destruct H1 as [H1|[H1 Hp1]]; [exists a1, b1, [], [], m; split_and!; try done; lia|].
  - exfalso. pose proof (di_sinv _ _ _ _ _ _ _ _ (link_there _ _ _ _ _ _ _ _ _ _ _ L1)) as [[_ ? _ ? _ _ _] Hfd].
    pose proof (feeds_next_bound TA _ Hfd). lia.
  - destruct (IH m a1 b1 [] []) as (a2 & b2 & qa2 & qb2 & m2 & R2 & Hm2 & L2 & Hpb2 & H2); try done; [lia..|].
    exists a2, b2, qa2, qb2, m2. split_and!; try done; [by etrans|lia..|by auto].
Qed.
End Rounds.

(** ** Both streams *)

Lemma hop_delivered x out inn y out' inn' : hop x out inn y out' inn' -> delivered x `prefix_of` delivered y.
Proof.
  destruct 1 as [| |u c p x out inn Ho Hu Hal| |]; try done. cbn. inversion Hu; subst; try done. by apply prefix_app_r.
Qed.

Lemma goes_on_delivered st st' : rtc goes_on st st' -> delivered st.1.1.2 `prefix_of` delivered st'.1.1.2.
Proof.
  induction 1 as [|st1 st2 st3 Hg _ IH]; [done|]. etrans; [|exact IH].
  destruct Hg as [|a b qa qb b' qa' qb' Hh]; [done|]. by eapply hop_delivered.
Qed.

Lemma link_delivered ca cb ra rb TA TB n a b qa qb : link ca cb ra rb TA TB n a b qa qb -> delivered b `prefix_of` TA.
Proof. intros Hl. destruct (pr_right _ _ _ _ _ _ _ _ _ (lk_paired Hl)) as [_ ->]. apply prefix_take. Qed.

(** One stream is completed, the other keeps its patience. *)
Lemma complete_read ca cb ra rb TA TB n a b qa qb :
  config_ok ca -> config_ok cb -> len TA + recv_capacity cb < 2 ^ 31 - 4 -> len TB + recv_capacity ca < 2 ^ 31 - 4 -> 0 < recv_capacity cb ->
  0 <= n < 2 ^ 61 + 2 ^ 33 -> link ca cb ra rb TA TB n a b qa qb -> patient a ->
  exists a' b' m, rtc goes_on (a, b, qa, qb) (a', b', [], []) /\ n <= m <= n + 2 ^ 33 /\ link ca cb ra rb TA TB m a' b' [] [] /\
    (patient b -> patient b') /\ delivered b' = TA.
Proof.
  intros Ha Hb HA HB Hcap Hn Hl Hp. pose proof (fl_base _ _ _ (si_flight _ _ _ (di_sinv _ _ _ _ _ _ _ _ (link_there _ _ _ _ _ _ _ _ _ _ _ Hl)))) as Hbase.
  destruct (complete ca cb ra rb TA TB Ha Hb HA HB (Z.to_nat (len TA + 2)) n a b qa qb) as (a1 & b1 & qa1 & qb1 & m & R1 & Hm & L1 & P1 & N1); try done; [lia..|].
  destruct (clear ca cb ra rb TA TB Ha Hb HA HB m a1 b1 qa1 qb1) as (a2 & b2 & R2 & L2 & _ & S2 & _ & _ & N2 & _ & D2); [lia|done|].
  exists a2, b2, m. split_and!; try done; [by etrans|lia..|unfold patient; rewrite S2; done|]. rewrite D2, N2, N1. by apply ztake_all.
Qed.

(** An ordered exchange is a link. *)
Lemma ordered_link ca cb ra rb k a b qa qb :
  config_ok ca -> config_ok cb -> Z.of_nat k < 2 ^ 61 ->
  len (written a) + recv_capacity cb < 2 ^ 31 - 4 -> len (written b) + recv_capacity ca < 2 ^ 31 - 4 ->
  ordered_exchange (endpoint_of ca ra) (endpoint_of cb rb) k a b qa qb ->
  exists n, 0 <= n < 2 ^ 61 /\ link ca cb ra rb (written a) (written b) n a b qa qb.
Proof.
  intros Ha Hb Hk HA HB Hex. destruct (ordered_is_exchange _ _ _ _ _ _ _ Hex) as ((k' & Hk' & He) & Hqa & Hqb).
  exists (Z.of_nat k'). split; [lia|]. split; try done.
  - apply exchange_paired; try done. lia.
  - apply (ordered_flows _ _ _ _ k); try done. lia.
Qed.

(** C2: Nothing is lost for good.  Whatever state two connections have reached over a
    network that keeps the order of segments, after any losses and in any phase
    of the connection, and as long as neither is about to give up: the
    network, the clocks and the readers can go on, without another write, so
    that both readers get every byte written so far.  No loss of a segment, an
    acknowledgment or a window update leads to a deadlock. *)
Theorem delivery_possible ca cb ra rb k a b qa qb :
  config_ok ca -> config_ok cb -> 0 < recv_capacity ca -> 0 < recv_capacity cb -> Z.of_nat k < 2 ^ 61 ->
  ordered_exchange (endpoint_of ca ra) (endpoint_of cb rb) k a b qa qb ->
  len (written a) + recv_capacity cb < 2 ^ 31 - 4 -> len (written b) + recv_capacity ca < 2 ^ 31 - 4 ->
  patient a -> patient b ->
  exists a' b', rtc goes_on (a, b, qa, qb) (a', b', [], []) /\ delivered b' = written a /\ delivered a' = written b.
Proof.
  intros Ha Hb Hca Hcb Hk Hex HA HB Hpa Hpb. destruct (ordered_link ca cb ra rb k a b qa qb) as (n & Hn & Hl); try done.
  destruct (complete_read ca cb ra rb (written a) (written b) n a b qa qb) as (a1 & b1 & m & R1 & Hm & L1 & P1 & D1); try done; [lia|].
  destruct (complete_read cb ca rb ra (written b) (written a) m b1 a1 [] []) as (b2 & a2 & m2 & R2 & _ & L2 & _ & D2); try done; [lia|by apply link_swap|auto|].
  pose proof (swap_runs _ _ R2) as R3. exists a2, b2. split_and!; [by etrans|..|done].
  apply (anti_symm prefix); [by eapply link_delivered, link_swap|]. rewrite <- D1. apply (goes_on_delivered _ _ R3).
Qed.

(** The lost segment of [ordered_script] is made up for. *)
Lemma delivery_possible_witness :
  let '(a, b, qa, qb) := ordered_end in
  delivered a = [] /\ delivered b = [] /\
  exists a' b', rtc goes_on (a, b, qa, qb) (a', b', [], []) /\ delivered b' = lit "abcde" /\ delivered a' = lit "xy".
Proof.
  pose proof (delivery_possible demo_config demo_config 77 4294967295 (length ordered_script) ordered_end.1.1.1 ordered_end.1.1.2 ordered_end.1.2
    ordered_end.2 demo_config_ok demo_config_ok) as H.
  destruct H as (a' & b' & Hr & Hb & Ha); [vm_compute; reflexivity|vm_compute; reflexivity|vm_compute; reflexivity| |vm_compute; reflexivity..|].
  { apply (replay_ordered ordered_script _ _ 0 (endpoint_of demo_config 77) (endpoint_of demo_config 4294967295) [] []); [constructor|].
    vm_compute. reflexivity. }
  assert (delivered ordered_end.1.1.1 = [] /\ delivered ordered_end.1.1.2 = [] /\ written ordered_end.1.1.1 = lit "abcde" /\
    written ordered_end.1.1.2 = lit "xy") as (H1 & H2 & H3 & H4) by (vm_compute; split_and!; reflexivity).
  rewrite H3 in Hb. rewrite H4 in Ha. destruct ordered_end as [[[a b] qa] qb]. split_and!; [exact H1|exact H2|]. by exists a', b'.
Defined.
