(* ===== verification/Benchmark.v ===== *)
(** The benchmark: [apps/tcp_benchmark.cc], two connections in one process that
    hand their segments to each other, in order or each batch reversed, while one
    sends a long string.  The program checks that every write is accepted whole
    and that what was received is what was sent; [benchmark_checks] shows that
    neither check fails, and that a turn without reordering returns.

    The bytes of the string (the program fills it from [rand()]) and the initial
    sequence numbers are arguments.  The measuring of time is left out.  [calls]
    and [exchange_calls] count the operations on the two connections and have no
    counterpart in the program. *)
From S2P Require Import Prelude Text WrappingIntegers Buffer ByteStream StreamReassembler TCPSegment TCPReceiver TCPSender.
From S2P Require Import TCPState TCPConnection ConnectionStreams SocketLoop Delivery Duplex Ordered.

(** The length of the string. *)
Definition bench_len : Z := 100 * 1024 * 1024.

(** ** Moving segments *)

Fixpoint receive_all (segments : list TCPSegment) (y : TCPConnection) : option TCPConnection :=
  match segments with
  | [] => Some y
  | seg :: segments => match segment_received seg y with Some y => receive_all segments y | None => None end
  end.

(** Both connections, and the vector [segments], which is cleared at the end. *)
Definition move_segments (x y : TCPConnection) (segments : list TCPSegment) (reorder : bool) :
    option (TCPConnection * TCPConnection * list TCPSegment) :=
  let segments := segments ++ TCPConnection._segments_out x in
  let x := set_out [] x in
  match receive_all (if reorder then rev segments else segments) y with
  | Some y => Some (x, y, [])
  | None => None
  end.

(** ** The loop *)

Record Bench := mkBench {
  bx : TCPConnection;
  by_ : TCPConnection;
  bytes_to_send : Buffer;
  x_closed : bool;
  string_received : list byte;
  calls : nat }.

Definition want_error (want written : Z) : exn :=
  runtime_error (String.string_of_list_byte (lit "want = " ++ to_string want ++ lit ", written = " ++ to_string written)).

(** Writing input into [x]. *)
Fixpoint write_input (fuel : nat) (b : Bench) : option (result unit * Bench) :=
  if negb (Buffer.size (bytes_to_send b) =? 0) && negb (remaining_outbound_capacity (bx b) =? 0) then
    match fuel with
    | O => None
    | S fuel =>
        let want := Z.min (remaining_outbound_capacity (bx b)) (Buffer.size (bytes_to_send b)) in
        let '(written, x) := TCPConnection.write (ztake want (str (bytes_to_send b))) (bx b) in
        let after buf := mkBench x (by_ b) buf (x_closed b) (string_received b) (S (calls b)) in
        if negb (want =? written) then Some (Throw (want_error want written), after (bytes_to_send b))
        else
          match remove_prefix written (bytes_to_send b) with
          | Throw e => Some (Throw e, after (bytes_to_send b))
          | Ok buf => write_input fuel (after buf)
          end
    end
  else Some (Ok tt, b).

(** Ending [x]'s stream once everything is written. *)
Definition close_input (b : Bench) : Bench :=
  if (Buffer.size (bytes_to_send b) =? 0) && negb (x_closed b)
  then mkBench (end_input_stream (bx b)) (by_ b) (bytes_to_send b) true (string_received b) (S (calls b))
  else b.

(** Exchanging segments. *)
Definition exchange_segments (reorder : bool) (b : Bench) : option Bench :=
  match move_segments (bx b) (by_ b) [] reorder with
  | None => None
  | Some (x, y, segments) =>
      match move_segments y x segments false with
      | None => None
      | Some (y', x', _) =>
          Some (mkBench x' y' (bytes_to_send b) (x_closed b) (string_received b)
            (calls b + 2 * length (TCPConnection._segments_out (bx b)) + 2 * length (TCPConnection._segments_out y)))
      end
  end.

(** The calls after an exchange in order. *)
Definition exchange_calls (b : Bench) : nat :=
  calls b + 2 * length (TCPConnection._segments_out (bx b)) +
  match move_segments (bx b) (by_ b) [] false with Some (_, y, _) => 2 * length (TCPConnection._segments_out y) | None => 0 end.

(** Reading what [y] has got. *)
Definition read_output (b : Bench) : Bench :=
  let available_output := buffer_size (inbound_stream (by_ b)) in
  if 0 <? available_output then
    let data := (ByteStream.read available_output (inbound_stream (by_ b))).1 in
    let y := set_receiver (update_stream_out (fun st => (ByteStream.read available_output st).2) (_receiver (by_ b))) (by_ b) in
    mkBench (bx b) y (bytes_to_send b) (x_closed b) (string_received b ++ data) (S (calls b))
  else b.

(** Time passes for both. *)
Definition pass_time (b : Bench) : option Bench :=
  match TCPConnection.tick 1000 (bx b), TCPConnection.tick 1000 (by_ b) with
  | Some x, Some y => Some (mkBench x y (bytes_to_send b) (x_closed b) (string_received b) (S (S (calls b))))
  | _, _ => None
  end.

(** [loop]; the string shrinks with every turn of its first loop, so the
    number of bytes left bounds the turns. *)
Definition bench_loop (reorder : bool) (b : Bench) : option (result unit * Bench) :=
  match write_input (length (str (bytes_to_send b))) b with
  | None => None
  | Some (Throw e, b) => Some (Throw e, b)
  | Some (Ok _, b) =>
      match exchange_segments reorder (close_input b) with
      | None => None
      | Some b => match pass_time (read_output b) with Some b => Some (Ok tt, b) | None => None end
      end
  end.

(** [while (condition) loop();] *)
Fixpoint bench_while (fuel : nat) (condition : Bench -> bool) (reorder : bool) (b : Bench) : option (result unit * Bench) :=
  if condition b then
    match fuel with
    | O => None
    | S fuel =>
        match bench_loop reorder b with
        | Some (Ok _, b) => bench_while fuel condition reorder b
        | r => r
        end
    end
  else Some (Ok tt, b).

Definition bench_start (string_to_send : list byte) (isn_x isn_y : Z) : Bench :=
  let config := TCPConfig_default in
  let x := TCPConnection_of config isn_x in
  let y := TCPConnection_of config isn_y in
  mkBench (TCPConnection.connect x) (end_input_stream y) (Buffer_of string_to_send) false [] 2.

Definition main_loop (fuel : nat) (reorder : bool) (string_to_send : list byte) (isn_x isn_y : Z) : option (result unit * Bench) :=
  match bench_while fuel (fun b => negb (ByteStream.eof (inbound_stream (by_ b)))) reorder (bench_start string_to_send isn_x isn_y) with
  | Some (Ok _, b) =>
      if negb (bool_decide (string_received b = string_to_send))
      then Some (Throw (runtime_error "strings sent vs. received don't match"), b)
      else bench_while fuel (fun b => active (bx b) || active (by_ b)) reorder b
  | r => r
  end.

(** [main]: in order first, then with each batch reversed; the exit status. *)
Definition benchmark_main (fuel : nat) (first second : list byte * Z * Z) : option Z :=
  let '(s1, x1, y1) := first in
  let '(s2, x2, y2) := second in
  match main_loop fuel false s1 x1 y1 with
  | None => None
  | Some (Throw _, _) => Some 1
  | Some (Ok _, _) =>
      match main_loop fuel true s2 x2 y2 with
      | None => None
      | Some (Throw _, _) => Some 1
      | Some (Ok _, _) => Some 0
      end
  end.

(** ** The benchmark as an exchange *)

(** The streams of both connections of an exchange are in order. *)
Lemma act_sound peer x y : act peer x y -> streams_sound (conn x) -> streams_sound (conn y).
Proof.
  destruct 1 as [u x c p Hu _|ms x c E]; cbn [conn record]; intros Hs.
  - exact (use_sound u _ _ Hu Hs).
  - by eapply tick_sound.
Qed.

Lemma exchange_sound a0 b0 k a b :
  exchange a0 b0 k a b -> streams_sound (conn a0) -> streams_sound (conn b0) -> streams_sound (conn a) /\ streams_sound (conn b).
Proof.
  intros Hex Ha Hb. induction Hex as [|k a a' b _ [IHa IHb] Hact|k a b b' _ [IHa IHb] Hact]; [done| |];
    (split; [|]); try done; by eapply act_sound.
Qed.

(** What the two sides have read and written stays the same. *)
Record same_history (x y : endpoint) : Prop := {
  sy_delivered : delivered y = delivered x;
  sy_written : written y = written x;
  sy_ended : ended y = ended x }.

#[export] Instance same_history_preorder : PreOrder same_history.
Proof. split; [by split|]. intros x y z [] []. split; congruence. Qed.

(** All queued segments leave. *)
Lemma dequeue_all a0 b0 k a b q :
  exchange a0 b0 k a b -> TCPConnection._segments_out (conn a) = q ->
  exists a', exchange a0 b0 (k + length q) a' b /\ conn a' = set_out [] (conn a) /\ same_history a a' /\
    sent_segments a' = rev q ++ sent_segments a /\
    (forall qa qb, ordered_exchange a0 b0 k a b qa qb -> ordered_exchange a0 b0 (k + length q) a' b (qa ++ q) qb).
Proof.
  revert k a. induction q as [|seg q IH]; intros k a Hex Hq.
  - exists a. rewrite Nat.add_0_r. split_and!; try done; [rewrite <- Hq; by destruct (conn a)|]. intros. by rewrite app_nil_r.
  - pose (a1 := record (Dequeued seg) (set_out q (conn a)) (delivered a) a).
    assert (exchange a0 b0 (S k) a1 b) as H1. { eapply ex_left; [done|]. apply act_intro; [by constructor|done]. }
    destruct (IH (S k) a1 H1 eq_refl) as (a' & H2 & Hc & Hh & Hs & Ho). exists a'. cbn [length rev]. rewrite <- Nat.add_succ_comm.
    split; [done|]. split; [exact Hc|]. split; [etrans; [|exact Hh]; by split|]. split; [by rewrite Hs, <- app_assoc|].
    intros qa qb Hq1. replace (qa ++ seg :: q) with ((qa ++ [seg]) ++ q) by (by rewrite <- app_assoc). apply Ho.
    eapply oe_left; [exact Hq1|by apply hop_send].
Qed.

(** And segments the peer has sent arrive. *)
Lemma receive_all_exchange a0 b0 k a b segs y :
  exchange a0 b0 k a b -> (forall seg, seg ∈ segs -> seg ∈ sent_segments a) -> receive_all segs (conn b) = Some y ->
  exists b', exchange a0 b0 (k + length segs) a b' /\ conn b' = y /\ same_history b b' /\
    (forall qa qb, ordered_exchange a0 b0 k a b (segs ++ qa) qb -> ordered_exchange a0 b0 (k + length segs) a b' qa qb).
Proof.
  revert k b. induction segs as [|seg segs IH]; intros k b Hex Hin; cbn [receive_all].
  - intros [= <-]. exists b. by rewrite Nat.add_0_r.
  - destruct (segment_received seg (conn b)) as [c|] eqn:E; [|done]. intros Er.
    pose (b1 := record (Received seg) c (delivered b) b).
    assert (exchange a0 b0 (S k) a b1) as H1.
    { eapply ex_right; [done|]. apply act_intro; [by constructor|]. exists seg. split; [apply Hin; left|apply same_wire_refl]. }
    destruct (IH (S k) b1 H1) as (b' & H2 & Hc & Hh & Ho); [intros; apply Hin; by right|done|].
    exists b'. cbn [length]. rewrite <- Nat.add_succ_comm. split; [done|]. split; [done|]. split; [etrans; [|exact Hh]; by split|].
    intros qa qb Hq. apply Ho. eapply oe_right; [exact Hq|]. apply hop_receive; [apply same_wire_refl|done].
Qed.

Lemma move_exchange reorder a0 b0 k a b x y segs :
  exchange a0 b0 k a b -> move_segments (conn a) (conn b) [] reorder = Some (x, y, segs) ->
  segs = [] /\ exists a' b', exchange a0 b0 (k + 2 * length (TCPConnection._segments_out (conn a))) a' b' /\
    conn a' = x /\ conn b' = y /\ same_history a a' /\ same_history b b' /\
    (reorder = false -> ordered_exchange a0 b0 k a b [] [] ->
     ordered_exchange a0 b0 (k + 2 * length (TCPConnection._segments_out (conn a))) a' b' [] []).
Proof.
  intros Hex. unfold move_segments. cbn [app]. set (q := TCPConnection._segments_out (conn a)).
  destruct (dequeue_all a0 b0 k a b q Hex eq_refl) as (a' & H1 & Ha & Hh & Hs & Ho).
  destruct (receive_all _ _) as [y'|] eqn:Er; [|done]. intros [= <- <- <-]. split; [done|].
  destruct (receive_all_exchange a0 b0 _ a' b (if reorder then rev q else q) y' H1) as (b' & H2 & Hb & Hh' & Ho'); [|exact Er|].
  { intros seg Hin. rewrite Hs, elem_of_app. left. apply list_elem_of_In, in_rev. rewrite rev_involutive. apply list_elem_of_In in Hin.
    destruct reorder; [by apply in_rev|done]. }
  replace (k + 2 * _)%nat with (k + length q + length (if reorder then rev q else q))%nat by (destruct reorder; rewrite ?length_rev; lia).
  exists a', b'. split_and!; try done. intros -> Hord. apply Ho'. rewrite app_nil_r. by apply (Ho []).
Qed.

(** In order, everything that is on its way is received. *)
Lemma receive_all_returns ca cb ra rb segs k a b qa qb :
  config_ok ca -> config_ok cb -> Z.of_nat (k + length segs) < 2 ^ 62 ->
  len (written a) + recv_capacity cb < 2 ^ 31 - 4 -> len (written b) + recv_capacity ca < 2 ^ 31 - 4 ->
  ordered_exchange (endpoint_of ca ra) (endpoint_of cb rb) k a b (segs ++ qa) qb -> exists y, receive_all segs (conn b) = Some y.
Proof.
  intros Ha Hb Hk HA HB. revert k b Hk HB. induction segs as [|seg segs IH]; intros k b Hk HB Hex; cbn [receive_all]; [by eexists|].
  cbn [length] in Hk.
  destruct (ordered_receives cb ca rb ra k b a qb ((seg :: segs) ++ qa) seg seg) as [c E];
    [done|done|lia|by apply ordered_swap|done|done|by left|apply same_wire_refl|].
  rewrite E. apply (IH (S k) (record (Received seg) c (delivered b) b)); [lia|done|].
  eapply oe_right; [exact Hex|]. apply hop_receive; [apply same_wire_refl|done].
Qed.

Lemma move_returns ca cb ra rb k a b :
  config_ok ca -> config_ok cb -> Z.of_nat (k + 2 * length (TCPConnection._segments_out (conn a))) < 2 ^ 62 ->
  len (written a) + recv_capacity cb < 2 ^ 31 - 4 -> len (written b) + recv_capacity ca < 2 ^ 31 - 4 ->
  exchange (endpoint_of ca ra) (endpoint_of cb rb) k a b -> ordered_exchange (endpoint_of ca ra) (endpoint_of cb rb) k a b [] [] ->
  exists y, move_segments (conn a) (conn b) [] false = Some (set_out [] (conn a), y, []).
Proof.
  intros Ha Hb Hk HA HB Hex Hord. set (q := TCPConnection._segments_out (conn a)) in *.
  destruct (dequeue_all _ _ k a b q Hex eq_refl) as (a' & _ & _ & Hh & _ & Ho). apply Ho in Hord. cbn [app] in Hord.
  destruct (receive_all_returns ca cb ra rb q (k + length q) a' b [] []) as [y E]; try done.
  - lia.
  - by rewrite (sy_written _ _ Hh).
  - by rewrite app_nil_r.
  - exists y. unfold move_segments. cbn [app]. fold q. by rewrite E.
Qed.

Section Checks.
Context (string_to_send : list byte) (isn_x isn_y : Z) (reorder : bool).
Context (Hlen : len string_to_send < 2 ^ 31 - 5 - 64000).

(** The two connections of the benchmark with their histories. *)
Record shadow (b : Bench) (X Y : endpoint) : Prop := {
  sh_exchange : exchange (endpoint_of TCPConfig_default isn_x) (endpoint_of TCPConfig_default isn_y) (calls b) X Y;
  sh_ordered : reorder = false ->
    ordered_exchange (endpoint_of TCPConfig_default isn_x) (endpoint_of TCPConfig_default isn_y) (calls b) X Y [] [];
  sh_x : conn X = bx b;
  sh_y : conn Y = by_ b;
  sh_received : delivered Y = string_received b;
  sh_written : written X ++ str (bytes_to_send b) = string_to_send;
  sh_silent : written Y = [];
  sh_ended : ended X = x_closed b;
  sh_closed : x_closed b = true -> str (bytes_to_send b) = [];
  sh_buffer : Buffer.wf (bytes_to_send b) }.

Definition shadowed (b : Bench) : Prop := exists X Y, shadow b X Y.

Lemma default_config_ok : config_ok TCPConfig_default.
Proof. by split; [|split]. Qed.

Lemma shadow_sound b X Y : shadow b X Y -> streams_sound (bx b) /\ streams_sound (by_ b).
Proof.
  intros H. rewrite <- (sh_x _ _ _ H), <- (sh_y _ _ _ H).
  eapply exchange_sound; [apply (sh_exchange _ _ _ H)|..]; (split; (split; [by apply wf_init|done])).
Qed.

(** What was received is a prefix of what was sent, and the whole of it at the end. *)
Lemma shadowed_received b :
  shadowed b -> Z.of_nat (calls b) < 2 ^ 62 ->
  string_received b `prefix_of` string_to_send /\
  (ByteStream.eof (inbound_stream (by_ b)) = true -> string_received b = string_to_send).
Proof.
  intros (X & Y & H) Hk. destruct (exchange_reliable _ _ isn_x isn_y _ X Y default_config_ok default_config_ok Hk) as (Hp & He & _).
  - pose proof (f_equal (fun l => len l) (sh_written _ _ _ H)) as E. cbn beta in E. rewrite len_app in E.
    change (recv_capacity TCPConfig_default) with 64000. lia.
  - by rewrite (sh_silent _ _ _ H).
  - apply (sh_exchange _ _ _ H).
  - rewrite (sh_received _ _ _ H), (sh_y _ _ _ H) in Hp, He. split.
    + rewrite <- (sh_written _ _ _ H). apply prefix_app_r. eapply prefix_app_l. exact Hp.
    + unfold ByteStream.eof, ByteStream.buffer_empty. intros [Hend Hemp%Z.eqb_eq]%andb_true_iff.
      destruct (He Hend) as [E Hx]. rewrite (sh_ended _ _ _ H) in Hx. rewrite <- (sh_written _ _ _ H), (sh_closed _ _ _ H Hx), app_nil_r, <- E.
      destruct (ByteStream._stream _); [by rewrite app_nil_r|simpl in Hemp; lia].
Qed.

(** *** Every part of the loop *)

Lemma write_input_shadowed fuel b :
  (length (str (bytes_to_send b)) <= fuel)%nat -> shadowed b -> exists b', write_input fuel b = Some (Ok tt, b') /\ shadowed b'.
Proof.
  revert b. induction fuel as [|fuel IH]; intros b Hf Hb; cbn [write_input].
  { destruct (str (bytes_to_send b)) eqn:E; [|simpl in Hf; lia]. unfold Buffer.size. rewrite E. by exists b. }
  destruct (_ && _) eqn:Ec; [|by exists b]. apply andb_true_iff in Ec as [Hn%negb_true_iff%Z.eqb_neq Hr%negb_true_iff%Z.eqb_neq].
  destruct Hb as (X & Y & H). destruct (shadow_sound _ _ _ H) as [Hs _]. pose proof (proj1 (proj1 Hs)) as Hw.
  pose proof (size_range _ (sh_buffer _ _ _ H)) as Hsize. unfold Buffer.size in *.
  assert (x_closed b = false) as Hx. { destruct (x_closed b) eqn:E; [|done]. by rewrite (sh_closed _ _ _ H E) in Hn. }
  pose proof (remaining_capacity_eq _ Hw) as Hc. pose proof (wf_fits _ Hw) as Hfit. unfold remaining_outbound_capacity in *.
  set (want := Z.min _ _). set (data := ztake want (str (bytes_to_send b))).
  assert (0 < want) as Hwant by lia. assert (len data = want) as Hdata by (unfold data; rewrite len_ztake; lia).
  destruct (TCPConnection.write data (bx b)) as [n x] eqn:E.
  assert (n = want) as ->.
  { unfold TCPConnection.write in E. destruct (Z.eqb_spec (len data) 0); [lia|]. rewrite write_eq in E by done.
    injection E as <- _. unfold accepted. rewrite ztake_all; [done|]. lia. }
  rewrite Z.eqb_refl. cbn [negb]. destruct (remove_prefix_ok want (bytes_to_send b) (sh_buffer _ _ _ H)) as (buf & -> & Hbuf & Es).
  { unfold Buffer.size. lia. }
  apply IH; cbn [bytes_to_send].
  - rewrite Es. unfold zdrop. rewrite length_drop. lia.
  - eexists (record (Written data) x (delivered X) X), Y. split; cbn; try apply H; try done.
    + eapply ex_left; [apply (sh_exchange _ _ _ H)|]. apply act_intro; [|simpl; by rewrite (sh_ended _ _ _ H)].
      rewrite (sh_x _ _ _ H). replace x with (TCPConnection.write data (bx b)).2 by (by rewrite E). apply use_written.
      unfold remaining_outbound_capacity. lia.
    + intros Hr'. eapply oe_left; [by apply (sh_ordered _ _ _ H)|]. apply hop_use; [done| |simpl; by rewrite (sh_ended _ _ _ H)].
      rewrite (sh_x _ _ _ H). replace x with (TCPConnection.write data (bx b)).2 by (by rewrite E). apply use_written.
      unfold remaining_outbound_capacity. lia.
    + rewrite Es, <- app_assoc. unfold data. rewrite ztake_zdrop. apply (sh_written _ _ _ H).
    + by rewrite Hx.
Qed.

Lemma close_input_shadowed b : shadowed b -> shadowed (close_input b).
Proof.
  intros (X & Y & H). unfold close_input. destruct (_ && _) eqn:E; [|by exists X, Y].
  apply andb_true_iff in E as [Hn%Z.eqb_eq Hx%negb_true_iff].
  assert (str (bytes_to_send b) = []) as Hs. { unfold Buffer.size in Hn. by destruct (str _). }
  exists (record Ended (end_input_stream (bx b)) (delivered X) X), Y. split; cbn; try apply H; try done.
  - eapply ex_left; [apply (sh_exchange _ _ _ H)|]. apply act_intro; [|done]. rewrite (sh_x _ _ _ H). constructor.
  - intros Hr. eapply oe_left; [by apply (sh_ordered _ _ _ H)|]. apply hop_use; [done| |done]. rewrite (sh_x _ _ _ H). constructor.
Qed.

Lemma exchange_segments_shadowed b b' :
  shadowed b -> exchange_segments reorder b = Some b' -> shadowed b'.
Proof.
  intros (X & Y & H). unfold exchange_segments. rewrite <- (sh_x _ _ _ H), <- (sh_y _ _ _ H).
  destruct (move_segments (conn X) (conn Y) [] reorder) as [[[x y] segs]|] eqn:E1; [|done].
  destruct (move_exchange _ _ _ _ _ _ _ _ _ (sh_exchange _ _ _ H) E1) as (-> & X1 & Y1 & H1 & <- & <- & HX1 & HY1 & HO1).
  destruct (move_segments (conn Y1) (conn X1) [] false) as [[[y x] segs]|] eqn:E2; [|done].
  apply exchange_swap in H1.
  destruct (move_exchange _ _ _ _ _ _ _ _ _ H1 E2) as (_ & Y2 & X2 & H2 & <- & <- & HY2 & HX2 & HO2).
  intros [= <-]. assert (same_history X X2) as [] by (by etrans). assert (same_history Y Y2) as [] by (by etrans).
  exists X2, Y2. split; cbn; try congruence; try apply H; try (rewrite ?sy_written0, ?sy_written1; apply H).
  - by apply exchange_swap.
  - intros Hr. apply ordered_swap, HO2; [done|]. apply ordered_swap, HO1; [done|]. by apply (sh_ordered _ _ _ H).
  - rewrite sy_delivered1. apply H.
  - rewrite sy_ended0. apply H.
Qed.

Lemma read_output_shadowed b : shadowed b -> shadowed (read_output b).
Proof.
  intros (X & Y & H). unfold read_output. destruct (Z.ltb_spec 0 (buffer_size (inbound_stream (by_ b)))) as [Hn|]; [|by exists X, Y].
  unfold ByteStream.read. destruct (Z.eqb_spec (buffer_size (inbound_stream (by_ b))) 0) as [|_]; [lia|]. cbn [fst snd].
  set (n := buffer_size _) in *. set (y := set_receiver _ _).
  exists X, (record (Delivered (peek_output n (inbound_stream (by_ b)))) y (delivered Y ++ peek_output n (inbound_stream (by_ b))) Y).
  split; cbn; try apply H; [| |done|by rewrite (sh_received _ _ _ H)].
  - eapply ex_right; [apply (sh_exchange _ _ _ H)|]. apply act_intro; [|done]. rewrite (sh_y _ _ _ H). apply use_delivered. lia.
  - intros Hr. eapply oe_right; [by apply (sh_ordered _ _ _ H)|]. apply hop_use; [done| |done]. rewrite (sh_y _ _ _ H). apply use_delivered. lia.
Qed.

Lemma pass_time_shadowed b b' : shadowed b -> pass_time b = Some b' -> shadowed b'.
Proof.
  intros (X & Y & H). unfold pass_time. destruct (TCPConnection.tick 1000 (bx b)) as [x|] eqn:Ex; [|done].
  destruct (TCPConnection.tick 1000 (by_ b)) as [y|] eqn:Ey; [|done]. intros [= <-].
  exists (record (Ticked 1000) x (delivered X) X), (record (Ticked 1000) y (delivered Y) Y). split; cbn; try apply H; try done.
  all: pose proof (sh_x _ _ _ H) as HX; pose proof (sh_y _ _ _ H) as HY.
  - by eapply ex_right; [eapply ex_left; [apply (sh_exchange _ _ _ H)|]|]; apply act_ticked; rewrite ?HX, ?HY.
  - intros Hr. by eapply oe_right; [eapply oe_left; [apply (sh_ordered _ _ _ H Hr)|]|]; apply hop_tick; rewrite ?HX, ?HY.
Qed.

Lemma bench_loop_shadowed b r b' : shadowed b -> bench_loop reorder b = Some (r, b') -> r = Ok tt /\ shadowed b'.
Proof.
  intros Hb. unfold bench_loop. destruct (write_input_shadowed _ b (le_n _) Hb) as (b1 & -> & H1).
  destruct (exchange_segments reorder (close_input b1)) as [b2|] eqn:E2; [|done].
  apply exchange_segments_shadowed in E2; [|by apply close_input_shadowed].
  destruct (pass_time (read_output b2)) as [b3|] eqn:E3; [|done]. intros [= <- <-]. split; [done|].
  eapply pass_time_shadowed; [|exact E3]. by apply read_output_shadowed.
Qed.

Lemma bench_while_shadowed fuel condition b r b' :
  shadowed b -> bench_while fuel condition reorder b = Some (r, b') -> r = Ok tt /\ shadowed b' /\ condition b' = false.
Proof.
  revert b. induction fuel as [|fuel IH]; intros b Hb; cbn [bench_while]; destruct (condition b) eqn:Ec; try done.
  1, 3: by intros [= <- <-].
  destruct (bench_loop reorder b) as [[r1 b1]|] eqn:E; [|done]. destruct (bench_loop_shadowed _ _ _ Hb E) as [-> H1].
  by apply IH.
Qed.

(** In order, every turn returns. *)
Lemma exchange_segments_returns b :
  reorder = false -> shadowed b -> Z.of_nat (exchange_calls b) < 2 ^ 62 -> exists b', exchange_segments false b = Some b'.
Proof.
  intros Hr (X & Y & H) Hk. pose proof (sh_ordered _ _ _ H Hr) as Hord. pose proof (sh_exchange _ _ _ H) as Hex.
  assert (len (written X) + recv_capacity TCPConfig_default < 2 ^ 31 - 4) as HX.
  { pose proof (f_equal (fun l => len l) (sh_written _ _ _ H)) as E. cbn beta in E. rewrite len_app in E.
    change (recv_capacity TCPConfig_default) with 64000. lia. }
  assert (len (written Y) + recv_capacity TCPConfig_default < 2 ^ 31 - 4) as HY by (by rewrite (sh_silent _ _ _ H)).
  unfold exchange_calls, exchange_segments in *. rewrite <- (sh_x _ _ _ H), <- (sh_y _ _ _ H) in *.
  destruct (move_returns _ _ isn_x isn_y (calls b) X Y default_config_ok default_config_ok) as [y E]; try done; [lia|].
  destruct (move_exchange _ _ _ _ _ _ _ _ _ Hex E) as (_ & X1 & Y1 & H1 & Ex & Ey & HX1 & HY1 & HO1). rewrite E, <- Ex, <- Ey in *.
  destruct (move_returns TCPConfig_default TCPConfig_default isn_y isn_x
    (calls b + 2 * length (TCPConnection._segments_out (conn X))) Y1 X1) as [x ->]; try apply default_config_ok; try done; [..|by eexists].
  - by rewrite (sy_written _ _ HY1).
  - by rewrite (sy_written _ _ HX1).
  - by apply exchange_swap.
  - by apply ordered_swap, HO1.
Qed.

Lemma bench_loop_returns b :
  reorder = false -> shadowed b ->
  exists b1, write_input (length (str (bytes_to_send b))) b = Some (Ok tt, b1) /\
    (Z.of_nat (exchange_calls (close_input b1)) < 2 ^ 62 -> exists b', bench_loop false b = Some (Ok tt, b')).
Proof.
  intros Hr Hb. unfold bench_loop. destruct (write_input_shadowed _ b (le_n _) Hb) as (b1 & -> & H1). exists b1. split; [done|]. intros Hk.
  destruct (exchange_segments_returns (close_input b1) Hr) as [b2 ->]; [by apply close_input_shadowed|done|].
  unfold pass_time. rewrite !tick_eq. by eexists.
Qed.

Lemma bench_start_shadowed : shadowed (bench_start string_to_send isn_x isn_y).
Proof.
  pose (X := endpoint_of TCPConfig_default isn_x). pose (Y := endpoint_of TCPConfig_default isn_y).
  exists (record Connected (TCPConnection.connect (conn X)) [] X), (record Ended (end_input_stream (conn Y)) [] Y).
  split; try done.
  - apply (ex_right _ _ 1 _ Y); [apply (ex_left _ _ 0 X); [constructor|]|]; (apply act_intro; [constructor|done]).
  - intros _. apply (oe_right _ _ 1 _ Y [] []); [apply (oe_left _ _ 0 X _ [] []); [constructor|]|]; (apply hop_use; [done|constructor|done]).
  - cbn [bench_start bytes_to_send]. rewrite str_Buffer_of by lia. done.
  - cbn [bench_start bytes_to_send]. apply wf_Buffer_of. lia.
Qed.
End Checks.

(** [n] turns of the loop. *)
Fixpoint bench_turns (n : nat) (reorder : bool) (b : Bench) : option (result unit * Bench) :=
  match n with
  | O => Some (Ok tt, b)
  | S n => match bench_loop reorder b with Some (Ok _, b) => bench_turns n reorder b | r => r end
  end.

Lemma bench_turns_shadowed string_to_send isn_x isn_y reorder n b0 r b :
  shadowed string_to_send isn_x isn_y reorder b0 -> bench_turns n reorder b0 = Some (r, b) ->
  r = Ok tt /\ shadowed string_to_send isn_x isn_y reorder b.
Proof.
  revert b0. induction n as [|n IH]; intros b0 H0; cbn [bench_turns]; [by intros [= <- <-]|].
  destruct (bench_loop reorder b0) as [[r1 b1]|] eqn:E; [|done].
  destruct (bench_loop_shadowed _ _ _ _ _ _ _ H0 E) as [-> H1]. by apply IH.
Qed.

(** C22: The checks of the benchmark do not fail.  For a string of any length up to
    about [2^31] (the program's has [bench_len] bytes), any initial sequence
    numbers, with or without reordering: no turn of the loop throws; after any
    number of turns what has been received is the beginning of the string, and the
    whole of it when the receiving stream has ended; so [main_loop] ends without an
    exception.  Without reordering every turn of the loop returns.  (As long as
    fewer than [2^62] operations have been performed.) *)
Theorem benchmark_checks string_to_send isn_x isn_y reorder :
  len string_to_send < 2 ^ 31 - 5 - 64000 ->
  (forall n r b, bench_turns n reorder (bench_start string_to_send isn_x isn_y) = Some (r, b) ->
     r = Ok tt /\
     (Z.of_nat (calls b) < 2 ^ 62 ->
      string_received b `prefix_of` string_to_send /\
      (ByteStream.eof (inbound_stream (by_ b)) = true -> string_received b = string_to_send))) /\
  (forall fuel r b, main_loop fuel reorder string_to_send isn_x isn_y = Some (r, b) -> Z.of_nat (calls b) < 2 ^ 62 -> r = Ok tt) /\
  (reorder = false ->
   forall n r b, bench_turns n false (bench_start string_to_send isn_x isn_y) = Some (r, b) ->
   exists b1, write_input (length (str (bytes_to_send b))) b = Some (Ok tt, b1) /\
     (Z.of_nat (exchange_calls (close_input b1)) < 2 ^ 62 -> exists b', bench_loop false b = Some (Ok tt, b'))).
Proof.
  intros Hlen. pose proof (bench_start_shadowed string_to_send isn_x isn_y reorder Hlen) as H0. split_and!.
  - intros n r b E. destruct (bench_turns_shadowed _ _ _ _ _ _ _ _ H0 E) as [-> Hb]. split; [done|].
    by apply (shadowed_received _ isn_x isn_y reorder).
  - intros fuel r b. unfold main_loop. destruct (bench_while _ _ _ _) as [[r1 b1]|] eqn:E1; [|done].
    destruct (bench_while_shadowed _ _ _ _ _ _ _ _ _ H0 E1) as (-> & H1 & Heof%negb_false_iff).
    destruct (bool_decide_reflect (string_received b1 = string_to_send)) as [Heq|Hneq]; cbn [negb].
    + intros E2 _. by destruct (bench_while_shadowed _ _ _ _ _ _ _ _ _ H1 E2).
    + intros [= <- <-] Hk. destruct (shadowed_received _ _ _ _ Hlen _ H1 Hk) as [_ H2]. by apply H2 in Heof.
  - intros -> n r b E. destruct (bench_turns_shadowed _ _ _ _ _ _ _ _ H0 E) as [-> Hb]. by apply (bench_loop_returns string_to_send isn_x isn_y false).
Qed.

(** Two segments, in the wrong order; both connections close. *)
Definition demo_string : list byte := map (fun i => z2b (Z.of_nat i)) (seq 0 1500).

Definition finished (r : option (result unit * Bench)) : bool :=
  match r with Some (_, b) => (length (string_received b) =? 1500)%nat && (calls b <? 100)%nat | None => false end.

Lemma finished_inv r : finished r = true ->
  exists res b, r = Some (res, b) /\ length (string_received b) = 1500%nat /\ Z.of_nat (calls b) < 2 ^ 62.
Proof.
  destruct r as [[res b]|]; [|done]. intros [H1%Nat.eqb_eq H2%Nat.ltb_lt]%andb_true_iff. exists res, b. split_and!; [done..|lia].
Qed.

Lemma benchmark_checks_witness :
  exists b, main_loop 30 true demo_string 5 4294967295 = Some (Ok tt, b) /\ length (string_received b) = 1500%nat.
Proof.
  assert (finished (main_loop 30 true demo_string 5 4294967295) = true) as (r & b & E & Hl & Hk)%finished_inv by (vm_compute; reflexivity).
  assert (len demo_string < 2 ^ 31 - 5 - 64000) as Hd by (vm_compute; reflexivity).
  rewrite (proj1 (proj2 (benchmark_checks demo_string 5 4294967295 true Hd)) 30%nat r b E Hk) in E. exists b. exact (conj E Hl).
Defined.
