(* ===== verification/CommandLine.v ===== *)
(** What the programs under [apps/] share: C strings and the conversions of the C
    library they call ([strncmp], [strtol], [strtof]), the ways a program can end,
    and the cast of a loss rate.

    An argument is a C string: a list of bytes without a zero byte.  [argv] is a
    list; a loop over [argv] with an index is a recursion over what is left of
    it. *)
From S2P Require Import Prelude Text.
From Stdlib Require Import Floats.SpecFloat.

(** ** The end of a program *)

(** A part of a program goes on with a value, ends the program ([exit], after
    having printed a text), throws, or does what the language does not define. *)
Inductive outcome (A : Type) :=
  | Continues (a : A)
  | Exits (status : Z) (printed : list byte)
  | Raises (e : exn)
  | Undefined.
Arguments Continues {A} a.
Arguments Exits {A} status printed.
Arguments Raises {A} e.
Arguments Undefined {A}.

Definition and_then {A B} (m : outcome A) (k : A -> outcome B) : outcome B :=
  match m with
  | Continues a => k a
  | Exits status printed => Exits status printed
  | Raises e => Raises e
  | Undefined => Undefined
  end.

Definition of_result {A} (r : result A) : outcome A := match r with Ok a => Continues a | Throw e => Raises e end.

(** A value without definition where there is none. *)
Definition defined {A} (o : option A) : outcome A := match o with Some a => Continues a | None => Undefined end.

Notation "'then*' x := m 'in' k" := (and_then m (fun x => k))
  (at level 10, x pattern, m at level 100, k at level 200) : sponge_scope.

(** ** C strings *)

(** [strncmp(s1, s2, n) == 0] *)
Definition strncmp_eq (s1 s2 : list byte) (n : nat) : bool :=
  bool_decide (take n (s1 ++ [Byte.x00]) = take n (s2 ++ [Byte.x00])).

Definition c_string (s : list byte) : Prop := Byte.x00 ∉ s.

(** With one more than the length of the first string it is equality. *)
Lemma strncmp_eq_spec s1 s2 : c_string s1 -> c_string s2 -> strncmp_eq s1 s2 (S (length s1)) = bool_decide (s1 = s2).
Proof.
  intros H1 H2. unfold strncmp_eq. apply bool_decide_ext. split; [|by intros ->].
  rewrite (take_ge (s1 ++ _)) by (rewrite length_app; simpl; lia).
  revert s2 H2. induction s1 as [|a s1 IH]; intros [|b s2] H2 E; try done.
  - cbn in E. injection E as <-. destruct H2. left.
  - cbn in E. injection E as -> _. destruct H1. left.
  - cbn [length app take] in E. injection E as -> E. f_equal. apply IH; [intros ?; apply H1; by right|intros ?; apply H2; by right|done].
Qed.

(** ** Numbers *)

(** The value of a digit in a base up to 16. *)
Definition digit_value (base : Z) (b : byte) : option Z :=
  let z := b2z b in
  let v := if is_digit b then z - 48 else if (97 <=? z) && (z <=? 102) then z - 87
           else if (65 <=? z) && (z <=? 70) then z - 55 else base in
  if v <? base then Some v else None.

(** The digits at the front: their value, their number and what follows. *)
Fixpoint read_base (base : Z) (s : list byte) (acc : Z) (count : nat) : Z * nat * list byte :=
  match s with
  | b :: s' => match digit_value base b with Some v => read_base base s' (acc * base + v) (S count) | None => (acc, count, s) end
  | [] => (acc, count, [])
  end.

Definition read_sign (s : list byte) : bool * list byte :=
  match s with
  | b :: s' => if b2z b =? 45 then (true, s') else if b2z b =? 43 then (false, s') else (false, s)
  | [] => (false, [])
  end.

(** A prefix [0x] that a hexadecimal digit follows. *)
Definition hex_prefix (s : list byte) : option (list byte) :=
  match s with
  | z :: x :: d :: s =>
      if (b2z z =? 48) && ((b2z x =? 120) || (b2z x =? 88)) && bool_decide (is_Some (digit_value 16 d)) then Some (d :: s) else None
  | _ => None
  end.

Definition LONG_MAX : Z := 2 ^ 63 - 1.
Definition LONG_MIN : Z := - 2 ^ 63.

(** [strtol(s, nullptr, 0)] *)
Definition strtol (s : list byte) : Z :=
  let '(neg, s) := read_sign (skip_spaces s) in
  let '(v, _, _) :=
    match hex_prefix s with
    | Some digits => read_base 16 digits 0 0
    | None => match s with b :: _ => read_base (if b2z b =? 48 then 8 else 10) s 0 0 | [] => (0, 0%nat, []) end
    end in
  Z.max LONG_MIN (Z.min LONG_MAX (if neg then - v else v)).

(** ** Single precision *)

Definition float_prec : Z := 24.
Definition float_emax : Z := 128.

(** [m * 10^e] and [m * 2^e], correctly rounded. *)
Definition float_of_decimal (m e : Z) : spec_float :=
  if 0 <=? e then binary_normalize float_prec float_emax (m * 10 ^ e) 0 false
  else match m with
       | Zpos p => SFdiv float_prec float_emax (S754_finite false p 0) (S754_finite false (Z.to_pos (10 ^ (- e))) 0)
       | _ => S754_zero false
       end.
Definition float_of_binary (m e : Z) : spec_float := binary_normalize float_prec float_emax m e false.

(** The letters of [word] at the front, in either case. *)
Fixpoint starts_with (word s : list byte) : bool :=
  match word, s with
  | [], _ => true
  | w :: word, b :: s => ((b2z b =? b2z w) || (b2z b =? b2z w - 32)) && starts_with word s
  | _, [] => false
  end.

(** An exponent after the given letter, if there is one. *)
Definition read_exponent (letter : list byte) (s : list byte) : Z :=
  if starts_with letter s then
    let '(neg, s) := read_sign (drop 1 s) in
    let '(v, _, _) := read_base 10 s 0 0 in
    if neg then - v else v
  else 0.

(** The digits before and after the point: their value together, and how many
    are after it. *)
Definition read_mantissa (base : Z) (s : list byte) : Z * nat * list byte :=
  let '(v, _, s) := read_base base s 0 0 in
  match s with
  | b :: s' => if b2z b =? 46 then read_base base s' v 0 else (v, 0%nat, s)
  | [] => (v, 0%nat, [])
  end.

(** For a number with a point the digit may come after it. *)
Definition hex_float_prefix (s : list byte) : option (list byte) :=
  match hex_prefix s, s with
  | Some digits, _ => Some digits
  | None, z :: x :: p :: d :: s =>
      if b2z p =? 46 then option_map (fun _ => p :: d :: s) (hex_prefix (z :: x :: d :: s)) else None
  | None, _ => None
  end.

(** [strtof(s, nullptr)]; a text without digits has the value zero. *)
Definition strtof (s : list byte) : spec_float :=
  let '(neg, s) := read_sign (skip_spaces s) in
  let f :=
    if starts_with (lit "inf") s then S754_infinity false
    else if starts_with (lit "nan") s then S754_nan
    else match hex_float_prefix s with
         | Some digits =>
             let '(m, fraction, rest) := read_mantissa 16 digits in
             float_of_binary m (read_exponent (lit "p") rest - 4 * Z.of_nat fraction)
         | None =>
             let '(m, fraction, rest) := read_mantissa 10 s in
             float_of_decimal m (read_exponent (lit "e") rest - Z.of_nat fraction)
         end in
  if neg then SFopp f else f.

(** The cast to [uint16_t]: towards zero, and defined when the result fits. *)
Definition float_to_u16 (f : spec_float) : option Z :=
  match f with
  | S754_zero _ => Some 0
  | S754_finite neg m e =>
      let t := if 0 <=? e then Zpos m * 2 ^ e else Zpos m / 2 ^ (- e) in
      let t := if neg then - t else t in
      if (0 <=? t) && (t <? 2 ^ 16) then Some t else None
  | _ => None
  end.

(** [static_cast<uint16_t>(static_cast<float>(65535) * strtof(text, nullptr))] *)
Definition loss_rate (text : list byte) : option Z :=
  float_to_u16 (SFmul float_prec float_emax (float_of_binary 65535 0) (strtof text)).

Example loss_rates :
  map (fun s => loss_rate (lit s)) ["0"; "0.5"; ".1"; "1"; "25e-2"; "0x.8p0"; "1.1"; "-1"; "nan"]%string =
  [Some 0; Some 32767; Some 6553; Some 65535; Some 16383; Some 32767; None; None; None].
Proof. vm_compute. reflexivity. Qed.
