(* ===== verification/Programs.v ===== *)
(** The command lines of the programs that connect the terminal to a TCP
    connection: [apps/tcp_udp.cc], [tcp_ipv4.cc] and [tcp_ip_ethernet.cc], each
    with its usage text, its options and its configuration. *)
From S2P Require Import Prelude Text WrappingIntegers Buffer Address Resolver Texts TCPSender FdAdapter CommandLine.

(** A line of text. *)
Definition line (s : string) : list byte := lit s ++ [newline].
Arguments line s%_string.

(** The message of [show_usage], which may be missing, and the end of the text. *)
Definition usage_message (msg : option (list byte)) : list byte := default [] msg ++ [newline].

Definition unrecognized (opt : list byte) : list byte := lit "ERROR: unrecognized option " ++ opt.

(** ** The loop over the options

    The three programs have the same loop with different options.  [handler] is
    what a branch of its body does: set something, take the next argument as a
    value, or end the program; [recognize] is the chain of comparisons. *)

Inductive handler (S : Type) :=
  | Flag (set : S -> S)
  | Valued (err : string) (set : list byte -> S -> outcome S)
  | Help
  | Unknown.
Arguments Flag {S} set.
Arguments Valued {S} err set.
Arguments Help {S}.
Arguments Unknown {S}.

Section options.
Context {S : Type} (show_usage : option (list byte) -> list byte) (recognize : list byte -> handler S).

(** [check_argc], with [args] the arguments from [curr] on: an option needs its
    value and two more arguments. *)
Definition check_argc (args : list (list byte)) (err : string) : outcome unit :=
  if len args <=? 3 then Exits 1 (show_usage (Some (lit err))) else Continues tt.

(** The settings and the arguments that are left. *)
Fixpoint options (args : list (list byte)) (s : S) : outcome (S * list (list byte)) :=
  match args with
  | opt :: ((arg :: rest') as rest) =>
      if len args <=? 2 then Continues (s, args)
      else
        match recognize opt with
        | Flag set => options rest (set s)
        | Valued err set =>
            then* _ := check_argc args err in
            then* s := set arg s in
            options rest' s
        | Help => Exits 0 (show_usage None)
        | Unknown => Exits 1 (show_usage (Some (unrecognized opt)))
        end
  | _ => Continues (s, args)
  end.

(** An option on the command line: its word, and its value if it has one. *)
Definition given : Type := list byte * option (list byte).
Definition words (o : given) : list (list byte) := o.1 :: option_list o.2.

(** What a list of options does, if they are options of the program. *)
Fixpoint settings (opts : list given) (s : S) : option S :=
  match opts with
  | [] => Some s
  | (word, value) :: opts =>
      match recognize word, value with
      | Flag set, None => settings opts (set s)
      | Valued _ set, Some arg => match set arg s with Continues s => settings opts s | _ => None end
      | _, _ => None
      end
  end.

Lemma options_settings opts s s' x y :
  settings opts s = Some s' -> options (flat_map words opts ++ [x; y]) s = Continues (s', [x; y]).
Proof.
  revert s. induction opts as [|[word [arg|]] opts IH]; intros s; cbn [settings].
  - by intros [= <-].
  - change (flat_map words ((word, Some arg) :: opts) ++ [x; y]) with (word :: arg :: flat_map words opts ++ [x; y]).
    destruct (recognize word) as [set|err set| |] eqn:Er; try done. destruct (set arg s) as [s1| | |] eqn:Es; try done. intros H.
    cbn [options]. assert (3 < len (word :: arg :: flat_map words opts ++ [x; y])) as Hl.
    { cbn [length]. rewrite length_app. simpl. lia. }
    unfold check_argc. destruct (Z.leb_spec (len (word :: arg :: flat_map words opts ++ [x; y])) 2); [lia|]. rewrite Er.
    destruct (Z.leb_spec (len (word :: arg :: flat_map words opts ++ [x; y])) 3); [lia|]. cbn [and_then]. rewrite Es. by apply IH.
  - change (flat_map words ((word, None) :: opts) ++ [x; y]) with (word :: flat_map words opts ++ [x; y]).
    destruct (recognize word) as [set|err set| |] eqn:Er; try done. intros H%IH.
    destruct (flat_map words opts ++ [x; y]) as [|b rest] eqn:Ef; [by apply (f_equal length) in Ef; rewrite length_app in Ef; simpl in Ef; lia|].
    cbn [options]. assert (2 <= len (b :: rest)) as Hl. { rewrite <- Ef, length_app. simpl. lia. }
    destruct (Z.leb_spec (len (word :: b :: rest)) 2) as [Hc|_]; [simpl in Hc, Hl; lia|]. rewrite Er. exact H.
Qed.

Lemma settings_options n args s s' rest :
  (length args <= n)%nat -> (2 <= length args)%nat -> options args s = Continues (s', rest) ->
  exists opts, args = flat_map words opts ++ rest /\ settings opts s = Some s' /\ length rest = 2%nat.
Proof.
  revert args s. induction n as [|n IH]; intros args s Hn H2; [lia|].
  destruct args as [|opt [|arg args]]; [simpl in H2; lia..|]. cbn [options].
  destruct (Z.leb_spec (len (opt :: arg :: args)) 2) as [Hl|Hl]; cbn [length] in *.
  { intros [= <- <-]. exists []. split_and!; [done..|]. simpl. lia. }
  destruct (recognize opt) as [set|err set| |] eqn:Er; try done.
  - intros H. destruct (IH (arg :: args) (set s)) as (opts & -> & Hs & Hr); [simpl; lia..|done|].
    exists ((opt, None) :: opts). cbn. by rewrite Er.
  - unfold check_argc. destruct (Z.leb_spec (len (opt :: arg :: args)) 3) as [|Hl3]; [done|]. cbn [and_then].
    destruct (set arg s) as [s1| | |] eqn:Es; try done. cbn [and_then]. intros H. cbn [length] in Hl3.
    destruct (IH args s1) as (opts & -> & Hs & Hr); [lia..|done|]. exists ((opt, Some arg) :: opts). cbn. by rewrite Er, Es.
Qed.
End options.

(** ** What the options set *)

Definition set_recv_capacity (arg : list byte) (c : TCPConfig) : TCPConfig :=
  mkTCPConfig (rt_timeout c) (u64 (strtol arg)) (send_capacity c) (fixed_isn c).
Definition set_rt_timeout (arg : list byte) (c : TCPConfig) : TCPConfig :=
  mkTCPConfig (u16 (strtol arg)) (recv_capacity c) (send_capacity c) (fixed_isn c).
Definition set_loss_up (arg : list byte) (c : FdAdapterConfig) : outcome FdAdapterConfig :=
  then* rate := defined (loss_rate arg) in Continues (mkFdAdapterConfig (source c) (destination c) (loss_rate_dn c) rate).
Definition set_loss_dn (arg : list byte) (c : FdAdapterConfig) : outcome FdAdapterConfig :=
  then* rate := defined (loss_rate arg) in Continues (mkFdAdapterConfig (source c) (destination c) rate (loss_rate_up c)).

(** ** tcp_udp *)

Definition udp_show_usage (argv0 : list byte) (msg : option (list byte)) : list byte :=
  lit "Usage: " ++ argv0 ++ line " [options] <host> <port>" ++ [newline] ++
  line "   Option                                                          Default" ++
  line "   --                                                              --" ++ [newline] ++
  line "   -l              Server (listen) mode.                           (client mode)" ++
  line "                   In server mode, <host>:<port> is the address to bind." ++ [newline] ++
  lit "   -w <winsz>      Use a window of <winsz> bytes                   " ++ to_string MAX_PAYLOAD_SIZE ++ [newline; newline] ++
  lit "   -t <tmout>      Set rt_timeout to tmout                         " ++ to_string TIMEOUT_DFLT ++ [newline; newline] ++
  line "   -Lu <loss>      Set uplink loss to <rate> (float in 0..1)       (no loss)" ++
  line "   -Ld <loss>      Set downlink loss to <rate> (float in 0..1)     (no loss)" ++ [newline] ++
  line "   -h              Show this message and quit." ++ [newline] ++
  usage_message msg.

Section config.
Context (getaddrinfo : list byte -> list byte -> addrinfo -> Z * option (list byte * Z)).

(** [c_fsm], [c_filt] and [listen] *)
Definition UdpSettings : Type := TCPConfig * FdAdapterConfig * bool.

Definition udp_recognize (opt : list byte) : handler UdpSettings :=
  if strncmp_eq (lit "-l") opt 3 then Flag (fun '(c_fsm, c_filt, _) => (c_fsm, c_filt, true))
  else if strncmp_eq (lit "-w") opt 3 then
    Valued "ERROR: -w requires one argument." (fun arg '(c_fsm, c_filt, l) => Continues (set_recv_capacity arg c_fsm, c_filt, l))
  else if strncmp_eq (lit "-t") opt 3 then
    Valued "ERROR: -t requires one argument." (fun arg '(c_fsm, c_filt, l) => Continues (set_rt_timeout arg c_fsm, c_filt, l))
  else if strncmp_eq (lit "-Lu") opt 3 then
    Valued "ERROR: -Lu requires one argument."
      (fun arg '(c_fsm, c_filt, l) => then* c_filt := set_loss_up arg c_filt in Continues (c_fsm, c_filt, l))
  else if strncmp_eq (lit "-Ld") opt 3 then
    Valued "ERROR: -Lu requires one argument."
      (fun arg '(c_fsm, c_filt, l) => then* c_filt := set_loss_dn arg c_filt in Continues (c_fsm, c_filt, l))
  else if strncmp_eq (lit "-h") opt 3 then Help
  else Unknown.

(** The last two arguments are the host and the port. *)
Definition udp_get_config (argv : list (list byte)) : outcome UdpSettings :=
  let argv0 := nth 0 argv [] in
  then* c_filt := of_result (FdAdapterConfig_default getaddrinfo) in
  then* (s, _) := options (udp_show_usage argv0) udp_recognize (tail argv) (TCPConfig_default, c_filt, false) in
  let '(c_fsm, c_filt, listen) := s in
  let host := nth (length argv - 2) argv [] in
  let port := nth (length argv - 1) argv [] in
  if listen then
    then* a := of_result (Address_of_host getaddrinfo (lit "0") port) in Continues (c_fsm, set_source a c_filt, listen)
  else
    then* a := of_result (Address_of_host getaddrinfo host port) in Continues (c_fsm, set_destination a c_filt, listen).
End config.

(** ** tcp_ipv4 *)

Definition TUN_DFLT : list byte := lit "tun144".
Definition ipv4_LOCAL_ADDRESS_DFLT : list byte := lit "169.254.144.9".

Definition ipv4_show_usage (argv0 : list byte) (msg : option (list byte)) : list byte :=
  lit "Usage: " ++ argv0 ++ line " [options] <host> <port>" ++ [newline] ++
  line "   Option                                                          Default" ++
  line "   --                                                              --" ++ [newline] ++
  line "   -l              Server (listen) mode.                           (client mode)" ++
  line "                   In server mode, <host>:<port> is the address to bind." ++ [newline] ++
  lit "   -a <addr>       Set source address (client mode only)           " ++ ipv4_LOCAL_ADDRESS_DFLT ++ [newline] ++
  line "   -s <port>       Set source port (client mode only)              (random)" ++ [newline] ++
  lit "   -w <winsz>      Use a window of <winsz> bytes                   " ++ to_string MAX_PAYLOAD_SIZE ++ [newline; newline] ++
  lit "   -t <tmout>      Set rt_timeout to tmout                         " ++ to_string TIMEOUT_DFLT ++ [newline; newline] ++
  lit "   -d <tundev>     Connect to tun <tundev>                         " ++ TUN_DFLT ++ [newline; newline] ++
  line "   -Lu <loss>      Set uplink loss to <rate> (float in 0..1)       (no loss)" ++
  line "   -Ld <loss>      Set downlink loss to <rate> (float in 0..1)     (no loss)" ++ [newline] ++
  line "   -h              Show this message." ++ [newline] ++
  usage_message msg.

(** The variables of [get_config] that options set. *)
Record Ipv4Settings := mkIpv4Settings {
  ipv4_c_fsm : TCPConfig; ipv4_c_filt : FdAdapterConfig; ipv4_tundev : option (list byte); ipv4_listen : bool;
  ipv4_source_address : list byte; ipv4_source_port : list byte }.

Definition ipv4_recognize (opt : list byte) : handler Ipv4Settings :=
  if strncmp_eq (lit "-l") opt 3 then
    Flag (fun s => mkIpv4Settings (ipv4_c_fsm s) (ipv4_c_filt s) (ipv4_tundev s) true (ipv4_source_address s) (ipv4_source_port s))
  else if strncmp_eq (lit "-a") opt 3 then
    Valued "ERROR: -a requires one argument."
      (fun arg s => Continues (mkIpv4Settings (ipv4_c_fsm s) (ipv4_c_filt s) (ipv4_tundev s) (ipv4_listen s) arg (ipv4_source_port s)))
  else if strncmp_eq (lit "-s") opt 3 then
    Valued "ERROR: -s requires one argument."
      (fun arg s => Continues (mkIpv4Settings (ipv4_c_fsm s) (ipv4_c_filt s) (ipv4_tundev s) (ipv4_listen s) (ipv4_source_address s) arg))
  else if strncmp_eq (lit "-w") opt 3 then
    Valued "ERROR: -w requires one argument."
      (fun arg s => Continues (mkIpv4Settings (set_recv_capacity arg (ipv4_c_fsm s)) (ipv4_c_filt s) (ipv4_tundev s) (ipv4_listen s) (ipv4_source_address s) (ipv4_source_port s)))
  else if strncmp_eq (lit "-t") opt 3 then
    Valued "ERROR: -t requires one argument."
      (fun arg s => Continues (mkIpv4Settings (set_rt_timeout arg (ipv4_c_fsm s)) (ipv4_c_filt s) (ipv4_tundev s) (ipv4_listen s) (ipv4_source_address s) (ipv4_source_port s)))
  else if strncmp_eq (lit "-d") opt 3 then
    Valued "ERROR: -t requires one argument."
      (fun arg s => Continues (mkIpv4Settings (ipv4_c_fsm s) (ipv4_c_filt s) (Some arg) (ipv4_listen s) (ipv4_source_address s) (ipv4_source_port s)))
  else if strncmp_eq (lit "-Lu") opt 3 then
    Valued "ERROR: -Lu requires one argument."
      (fun arg s => then* c := set_loss_up arg (ipv4_c_filt s) in
                    Continues (mkIpv4Settings (ipv4_c_fsm s) c (ipv4_tundev s) (ipv4_listen s) (ipv4_source_address s) (ipv4_source_port s)))
  else if strncmp_eq (lit "-Ld") opt 3 then
    Valued "ERROR: -Lu requires one argument."
      (fun arg s => then* c := set_loss_dn arg (ipv4_c_filt s) in
                    Continues (mkIpv4Settings (ipv4_c_fsm s) c (ipv4_tundev s) (ipv4_listen s) (ipv4_source_address s) (ipv4_source_port s)))
  else if strncmp_eq (lit "-h") opt 3 then Help
  else Unknown.

Section config.
Context (getaddrinfo : list byte -> list byte -> addrinfo -> Z * option (list byte * Z))
  (getnameinfo : list byte -> Z -> Z * list byte * list byte).

(** [random] is a value of [random_device]. *)
Definition ipv4_get_config (random : Z) (argv : list (list byte)) : outcome (TCPConfig * FdAdapterConfig * bool * option (list byte)) :=
  let argv0 := nth 0 argv [] in
  then* c_filt0 := of_result (FdAdapterConfig_default getaddrinfo) in
  then* (s, args) := options (ipv4_show_usage argv0) ipv4_recognize (tail argv)
    (mkIpv4Settings TCPConfig_default c_filt0 None false ipv4_LOCAL_ADDRESS_DFLT (to_string (u16 random))) in
  if ipv4_listen s then
    then* a := of_result (Address_of_host getaddrinfo (lit "0") (nth 1 args [])) in
    then* p := of_result (port getnameinfo a) in
    if p =? 0 then Exits 1 (ipv4_show_usage argv0 (Some (lit "ERROR: listen port cannot be zero in server mode.")))
    else Continues (ipv4_c_fsm s, set_source a (ipv4_c_filt s), ipv4_listen s, ipv4_tundev s)
  else
    then* d := of_result (Address_of_host getaddrinfo (nth 0 args []) (nth 1 args [])) in
    then* a := of_result (Address_of_host getaddrinfo (ipv4_source_address s) (ipv4_source_port s)) in
    Continues (ipv4_c_fsm s, set_source a (set_destination d (ipv4_c_filt s)), ipv4_listen s, ipv4_tundev s).
End config.

(** ** tcp_ip_ethernet *)

Definition TAP_DFLT : list byte := lit "tap10".
Definition ethernet_LOCAL_ADDRESS_DFLT : list byte := lit "169.254.10.9".
Definition GATEWAY_DFLT : list byte := lit "169.254.10.1".

Definition ethernet_show_usage (argv0 : list byte) (msg : option (list byte)) : list byte :=
  lit "Usage: " ++ argv0 ++ line " [options] <host> <port>" ++ [newline] ++
  line "   Option                                                          Default" ++
  line "   --                                                              --" ++ [newline] ++
  lit "   -a <addr>       Set IP source address (client mode only)        " ++ ethernet_LOCAL_ADDRESS_DFLT ++ [newline] ++
  line "   -s <port>       Set TCP source port (client mode only)          (random)" ++ [newline] ++
  lit "   -n <addr>       Set IP next-hop address                         " ++ GATEWAY_DFLT ++ [newline] ++
  lit "   -w <winsz>      Use a window of <winsz> bytes                   " ++ to_string MAX_PAYLOAD_SIZE ++ [newline; newline] ++
  lit "   -t <tmout>      Set rt_timeout to tmout                         " ++ to_string TIMEOUT_DFLT ++ [newline; newline] ++
  lit "   -d <tapdev>     Connect to tap <tapdev>                         " ++ TAP_DFLT ++ [newline; newline] ++
  line "   -h              Show this message." ++ [newline] ++
  usage_message msg.

Record EthernetSettings := mkEthernetSettings {
  ethernet_c_fsm : TCPConfig; ethernet_tapdev : list byte; ethernet_source_address : list byte; ethernet_source_port : list byte; ethernet_next_hop_address : list byte }.

Definition ethernet_recognize (opt : list byte) : handler EthernetSettings :=
  if strncmp_eq (lit "-a") opt 3 then
    Valued "ERROR: -a requires one argument."
      (fun arg s => Continues (mkEthernetSettings (ethernet_c_fsm s) (ethernet_tapdev s) arg (ethernet_source_port s) (ethernet_next_hop_address s)))
  else if strncmp_eq (lit "-s") opt 3 then
    Valued "ERROR: -s requires one argument."
      (fun arg s => Continues (mkEthernetSettings (ethernet_c_fsm s) (ethernet_tapdev s) (ethernet_source_address s) arg (ethernet_next_hop_address s)))
  else if strncmp_eq (lit "-n") opt 3 then
    Valued "ERROR: -n requires one argument."
      (fun arg s => Continues (mkEthernetSettings (ethernet_c_fsm s) (ethernet_tapdev s) (ethernet_source_address s) (ethernet_source_port s) arg))
  else if strncmp_eq (lit "-w") opt 3 then
    Valued "ERROR: -w requires one argument."
      (fun arg s => Continues (mkEthernetSettings (set_recv_capacity arg (ethernet_c_fsm s)) (ethernet_tapdev s) (ethernet_source_address s) (ethernet_source_port s) (ethernet_next_hop_address s)))
  else if strncmp_eq (lit "-t") opt 3 then
    Valued "ERROR: -t requires one argument."
      (fun arg s => Continues (mkEthernetSettings (set_rt_timeout arg (ethernet_c_fsm s)) (ethernet_tapdev s) (ethernet_source_address s) (ethernet_source_port s) (ethernet_next_hop_address s)))
  else if strncmp_eq (lit "-d") opt 3 then
    Valued "ERROR: -t requires one argument."
      (fun arg s => Continues (mkEthernetSettings (ethernet_c_fsm s) arg (ethernet_source_address s) (ethernet_source_port s) (ethernet_next_hop_address s)))
  else if strncmp_eq (lit "-h") opt 3 then Help
  else Unknown.

Section config.
Context (getaddrinfo : list byte -> list byte -> addrinfo -> Z * option (list byte * Z)).

Definition ethernet_get_config (random : Z) (argv : list (list byte)) : outcome (TCPConfig * FdAdapterConfig * Address * list byte) :=
  let argv0 := nth 0 argv [] in
  then* c_filt := of_result (FdAdapterConfig_default getaddrinfo) in
  then* (s, args) := options (ethernet_show_usage argv0) ethernet_recognize (tail argv)
    (mkEthernetSettings TCPConfig_default TAP_DFLT ethernet_LOCAL_ADDRESS_DFLT (to_string (u16 random)) GATEWAY_DFLT) in
  then* d := of_result (Address_of_host getaddrinfo (nth 0 args []) (nth 1 args [])) in
  then* a := of_result (Address_of_host getaddrinfo (ethernet_source_address s) (ethernet_source_port s)) in
  then* next_hop := of_result (Address_of_host getaddrinfo (ethernet_next_hop_address s) (lit "0")) in
  Continues (ethernet_c_fsm s, set_source a (set_destination d c_filt), next_hop, ethernet_tapdev s).
End config.

(** ** Properties *)

(** The options a command line consists of. *)
Lemma options_accepted {S} usage (recognize : list byte -> handler S) args s s' rest :
  (2 <= length args)%nat ->
  options usage recognize args s = Continues (s', rest) <->
  exists opts, args = flat_map words opts ++ rest /\ settings recognize opts s = Some s' /\ length rest = 2%nat.
Proof.
  intros H2. split.
  - by apply (settings_options usage recognize (length args)).
  - intros (opts & -> & Hs & Hr). destruct rest as [|x [|y []]]; try done. by apply options_settings.
Qed.

Lemma of_result_continues {A} (r : result A) a : of_result r = Continues a <-> r = Ok a.
Proof. destruct r; simpl; split; congruence. Qed.

Lemma and_then_continues {A B} (m : outcome A) (k : A -> outcome B) b :
  and_then m k = Continues b <-> exists a, m = Continues a /\ k a = Continues b.
Proof.
  destruct m as [a| | |]; simpl; split; try done; try (by intros (? & ? & ?)); [intros; by exists a|].
  intros (a' & [= ->] & H). exact H.
Qed.

(** The arguments before the last two, and the last two. *)
Lemma last_two {A} (d x y : A) pre rest :
  let l := x :: pre ++ [y; rest] in nth (length l - 2) l d = y /\ nth (length l - 1) l d = rest.
Proof.
  cbv zeta. rewrite app_comm_cons. rewrite !length_app. cbn [length]. split.
  - rewrite app_nth2; [|cbn [length]; lia]. cbn [length]. by replace (S (length pre) + 2 - 2 - S (length pre))%nat with 0%nat by lia.
  - rewrite app_nth2; [|cbn [length]; lia]. cbn [length]. by replace (S (length pre) + 2 - 1 - S (length pre))%nat with 1%nat by lia.
Qed.

Section command_lines.
Context (getaddrinfo : list byte -> list byte -> addrinfo -> Z * option (list byte * Z))
  (getnameinfo : list byte -> Z -> Z * list byte * list byte) (cfg0 : FdAdapterConfig).
Context (Hcfg0 : FdAdapterConfig_default getaddrinfo = Ok cfg0).
Context (argv0 : list byte) (args : list (list byte)) (random : Z).
Context (Hargs : (2 <= length args)%nat).
Abbreviation resolve := (Address_of_host getaddrinfo).

(** A command line is options followed by host and port; the settings are those
    of the options, from the defaults on. *)
Definition udp_configured (c : TCPConfig) (f : FdAdapterConfig) (l : bool) : Prop :=
  exists opts host port f0 a,
    args = flat_map words opts ++ [host; port] /\
    settings udp_recognize opts (TCPConfig_default, cfg0, false) = Some (c, f0, l) /\
    resolve (if l then lit "0" else host) port = Ok a /\
    f = (if l then set_source a f0 else set_destination a f0).

Definition ipv4_configured (c : TCPConfig) (f : FdAdapterConfig) (l : bool) (dev : option (list byte)) : Prop :=
  exists opts host port s,
    args = flat_map words opts ++ [host; port] /\
    settings ipv4_recognize opts
      (mkIpv4Settings TCPConfig_default cfg0 None false ipv4_LOCAL_ADDRESS_DFLT (to_string (u16 random))) = Some s /\
    c = ipv4_c_fsm s /\ l = ipv4_listen s /\ dev = ipv4_tundev s /\
    if l then exists a p, resolve (lit "0") port = Ok a /\ Address.port getnameinfo a = Ok p /\ p <> 0 /\ f = set_source a (ipv4_c_filt s)
    else exists d a, resolve host port = Ok d /\ resolve (ipv4_source_address s) (ipv4_source_port s) = Ok a /\
           f = set_source a (set_destination d (ipv4_c_filt s)).

Definition ethernet_configured (c : TCPConfig) (f : FdAdapterConfig) (hop : Address) (dev : list byte) : Prop :=
  exists opts host port s d a,
    args = flat_map words opts ++ [host; port] /\
    settings ethernet_recognize opts
      (mkEthernetSettings TCPConfig_default TAP_DFLT ethernet_LOCAL_ADDRESS_DFLT (to_string (u16 random)) GATEWAY_DFLT) = Some s /\
    resolve host port = Ok d /\ resolve (ethernet_source_address s) (ethernet_source_port s) = Ok a /\
    resolve (ethernet_next_hop_address s) (lit "0") = Ok hop /\
    c = ethernet_c_fsm s /\ dev = ethernet_tapdev s /\ f = set_source a (set_destination d cfg0).

Lemma udp_command_line c f l :
  udp_get_config getaddrinfo (argv0 :: args) = Continues (c, f, l) <-> udp_configured c f l.
Proof.
  unfold udp_get_config. rewrite Hcfg0. cbn [of_result and_then]. change (tail (argv0 :: args)) with args.
  rewrite and_then_continues. split.
  - intros ([[[c1 f1] l1] rest] & (opts & E & Hs & Hr)%options_accepted & Hk); [|done].
    destruct rest as [|host [|port []]]; try done. 
    destruct (last_two [] argv0 host (flat_map words opts) port) as [E1 E2]. rewrite <- E in E1, E2. rewrite E1, E2 in Hk.
    exists opts, host, port, f1. destruct l1; apply and_then_continues in Hk as (a & Ha%of_result_continues & [= <- <- <-]); by exists a.
  - intros (opts & host & port & f0 & a & E & Hs & Ha & ->). exists (c, f0, l, [host; port]). split.
    + apply options_accepted; [done|]. by exists opts.
    + destruct (last_two [] argv0 host (flat_map words opts) port) as [E1 E2]. rewrite <- E in E1, E2. rewrite E1, E2. destruct l; by rewrite Ha.
Qed.

Lemma ipv4_command_line c f l dev :
  ipv4_get_config getaddrinfo getnameinfo random (argv0 :: args) = Continues (c, f, l, dev) <-> ipv4_configured c f l dev.
Proof.
  unfold ipv4_get_config. rewrite Hcfg0. cbn [of_result and_then]. change (tail (argv0 :: args)) with args.
  rewrite and_then_continues. split.
  - intros ([s rest] & (opts & E & Hs & Hr)%options_accepted & Hk); [|done].
    destruct rest as [|host [|port []]]; try done. exists opts, host, port, s. cbn [nth] in Hk. destruct (ipv4_listen s) eqn:El.
    + apply and_then_continues in Hk as (a & Ha%of_result_continues & (p & Hp%of_result_continues & Hk)%and_then_continues).
      destruct (Z.eqb_spec p 0); [done|]. injection Hk as <- <- <- <-. split_and!; try done. by exists a, p.
    + apply and_then_continues in Hk as (d & Hd%of_result_continues & (a & Ha%of_result_continues & [= <- <- <- <-])%and_then_continues).
      split_and!; try done. by exists d, a.
  - intros (opts & host & port & s & E & Hs & -> & -> & -> & Hl). exists (s, [host; port]). split.
    + apply options_accepted; [done|]. by exists opts.
    + cbn [nth]. destruct (ipv4_listen s).
      * destruct Hl as (a & p & -> & Hp & Hn & ->). cbn [of_result and_then]. rewrite Hp. cbn [of_result and_then]. by destruct (Z.eqb_spec p 0).
      * destruct Hl as (d & a & -> & Ha & ->). cbn [of_result and_then]. by rewrite Ha.
Qed.

Lemma ethernet_command_line c f hop dev :
  ethernet_get_config getaddrinfo random (argv0 :: args) = Continues (c, f, hop, dev) <-> ethernet_configured c f hop dev.
Proof.
  unfold ethernet_get_config. rewrite Hcfg0. cbn [of_result and_then]. change (tail (argv0 :: args)) with args.
  rewrite and_then_continues. split.
  - intros ([s rest] & (opts & E & Hs & Hr)%options_accepted & Hk); [|done].
    destruct rest as [|host [|port []]]; try done. cbn [nth] in Hk.
    apply and_then_continues in Hk as (d & Hd%of_result_continues & (a & Ha%of_result_continues & Hk)%and_then_continues).
    apply and_then_continues in Hk as (h & Hh%of_result_continues & [= <- <- <- <-]). by exists opts, host, port, s, d, a.
  - intros (opts & host & port & s & d & a & E & Hs & Hd & Ha & Hh & -> & -> & ->). exists (s, [host; port]). split.
    + apply options_accepted; [done|]. by exists opts.
    + cbn [nth]. rewrite Hd. cbn [of_result and_then]. rewrite Ha. cbn [of_result and_then]. by rewrite Hh.
Qed.
End command_lines.


Definition demo_args : list (list byte) :=
  [lit "-w"; lit "0x1000"; lit "-d"; lit "tun7"; lit "-Lu"; lit "0.25"; lit "-t"; lit "70000"; lit "10.0.0.1"; lit "80"].

