(* ===== verification/Mains.v ===== *)
(** The [main] functions of the programs that connect the terminal to a TCP
    connection: [apps/tcp_udp.cc], [tcp_ipv4.cc], [tcp_ip_ethernet.cc] and
    [tcp_native.cc], and [apps/webget.cc].

    A [main] is [None] while it runs.  [Continues] is the status it returns, [Exits] a
    call of [exit]; [Raises] is an exception that leaves the thread of a socket and so
    ends the program.  What happens in a run is in the arguments: the answers of
    the kernel to the calls of [main], and the turns of the loops.  The thread of a
    socket and the thread of [main] share nothing but the kernel's socket pair
    ([connect_owner]), so the turns of the first are taken together, where [main]
    waits for them. *)
From S2P Require Import Prelude Text WrappingIntegers Buffer FileDescriptor EventLoop Parser Address Resolver Texts Socket ByteStream.
From S2P Require Import TCPSegment Ethernet TCPReceiver TCPSender TCPState TCPConnection FdAdapter NetworkInterface TunTap TCPSpongeSocket.
From S2P Require Import SocketAdapters SocketLoop HelperSockets StreamCopy CommandLine Programs.

Definition EXIT_SUCCESS : Z := 0.
Definition EXIT_FAILURE : Z := 1.

(** The handler at the end of every [main]: the message is printed. *)
Definition caught {A} (r : outcome A) (k : A -> option (outcome Z)) : option (outcome Z) :=
  match r with
  | Continues a => k a
  | Exits status printed => Some (Exits status printed)
  | Raises _ => Some (Continues EXIT_FAILURE)
  | Undefined => Some Undefined
  end.

(** ** A connection and the terminal *)

(** From outside: the random sequence number, the turns of opening the connection
    and the time at its start; the answers and the turns of copying; the answer to
    the shutdown, and the turns of the thread with their start and the answer to
    its shutdown; the turns of the thread if the socket is destroyed instead. *)
Record SessionEvents (Input : Type) := mkSessionEvents {
  se_isn : Z; se_open : list (Turn Input); se_time : Z;
  se_flags : list (call * call); se_copy : list CopyTurn;
  se_shutdown : call; se_thread : list (Turn Input); se_thread_time : Z; se_thread_shutdown : call }.
Arguments mkSessionEvents {Input}.
Arguments se_isn {Input}.
Arguments se_open {Input}.
Arguments se_time {Input}.
Arguments se_flags {Input}.
Arguments se_copy {Input}.
Arguments se_shutdown {Input}.
Arguments se_thread {Input}.
Arguments se_thread_time {Input}.
Arguments se_thread_shutdown {Input}.

Section session.
Context `{DatagramAdapter A Input Output}.
Context (getnameinfo : list byte -> Z -> Z * list byte * list byte).

(** An exception in [main] destroys the socket on its way to the handler. *)
Definition unwind (joinable : bool) (ev : SessionEvents Input) rules (s : TCPSpongeSocket A Output) : option (outcome Z) :=
  match TCPSpongeSocket_destroy joinable (se_thread ev) (se_thread_time ev) (se_thread_shutdown ev) rules s with
  | Some (Left, _, _) => Some (Continues EXIT_FAILURE)
  | Some (Threw e, _, _) => Some (Raises e)
  | _ => None
  end.

(** From the open connection on. *)
Definition talk (ev : SessionEvents Input) rules (s : TCPSpongeSocket A Output) : option (outcome Z) :=
  match bidirectional_stream_copy (se_flags ev) (se_copy ev) (_owner s) with
  | Throw _ => unwind true ev rules s
  | Ok (Some (Threw _, _, c)) => unwind true ev rules (set_owner (_socket c) s)
  | Ok (Some (Left, _, c)) =>
      let s := set_owner (_socket c) s in
      match shutdown SHUT_RDWR (se_shutdown ev) (_owner s) with
      | (Throw _, w) => unwind true ev rules (set_owner w s)
      | (Ok _, _) =>
          match wait_until_closed true (se_shutdown ev) (se_thread ev) (se_thread_time ev) (se_thread_shutdown ev) rules s with
          | Some (Left, _, _) => Some (Continues EXIT_SUCCESS)
          | Some (Threw e, _, _) => Some (Raises e)
          | _ => None
          end
      end
  | Ok _ => None
  end.

(** Opening the connection, copying, and waiting for its end. *)
Definition session (listen : bool) (c_fsm : TCPConfig) (c_filt : FdAdapterConfig) (ev : SessionEvents Input)
    (s : TCPSpongeSocket A Output) : option (outcome Z) :=
  match (if listen then listen_and_accept getnameinfo c_fsm c_filt (se_isn ev) (se_open ev) (se_time ev) [] s
         else connect getnameinfo c_fsm c_filt (se_isn ev) (se_open ev) (se_time ev) [] s) with
  | Some (Left, rules, s) => talk ev rules s
  | Some (Threw _, rules, s) => unwind false ev rules s
  | _ => None
  end.
End session.

(** The answers to the calls of the constructors: making the descriptor and its
    settings, and the socket pair. *)
Record OpenEvents := mkOpenEvents {
  oe_open : call; oe_second : call; oe_socketpair : call; oe_fds : Z * Z; oe_pair : PairAnswers }.

Section mains.
Context (getaddrinfo : list byte -> list byte -> addrinfo -> Z * option (list byte * Z))
  (getnameinfo : list byte -> Z -> Z * list byte * list byte).

(** The random generator of the lossy adapters. *)
Context {G : Type} (draw : G -> Z * G) (seed : G).

(** ** tcp_udp *)

(** The second call is the one to [bind]. *)
Definition udp_socket_made (listen : bool) (c_filt : FdAdapterConfig) (oe : OpenEvents) :
    result (TCPSpongeSocket (LossyFdAdapter (FDWrapper * FdAdapterBase) G) (Address * BufferList)) :=
  let* udp_sock := Socket_new (oe_open oe) in
  let* _ := if listen then socket_bind (oe_second oe) else Ok tt in
  let* cfg := FdAdapterConfig_default getaddrinfo in
  TCPSpongeSocket_over (oe_socketpair oe) (oe_fds oe) (oe_pair oe)
    (mkLossyFdAdapter seed (udp_sock, mkFdAdapterBase cfg false)).

Definition udp_main (argv : list (list byte)) (oe : OpenEvents) (ev : SessionEvents udp_input) : option (outcome Z) :=
  if len argv <? 3 then Some (Exits 1 (udp_show_usage (nth 0 argv []) (Some (lit "ERROR: required arguments are missing."))))
  else
    caught (udp_get_config getaddrinfo argv) (fun '(c_fsm, c_filt, listen) =>
    caught (of_result (udp_socket_made listen c_filt oe)) (fun tcp_socket =>
      session getnameinfo (H := lossy_device_adapter draw (H := udp_socket_adapter getnameinfo)) listen c_fsm c_filt ev tcp_socket)).

(** ** tcp_ipv4 *)

Definition ipv4_socket_made (devname : list byte) (oe : OpenEvents) :
    result (TCPSpongeSocket (LossyFdAdapter (FDWrapper * FdAdapterBase) G) BufferList) :=
  let* (tun, _) := TunTapFD_of devname true (oe_open oe) (oe_second oe) in
  let* cfg := FdAdapterConfig_default getaddrinfo in
  TCPSpongeSocket_over (oe_socketpair oe) (oe_fds oe) (oe_pair oe)
    (mkLossyFdAdapter seed (tun, mkFdAdapterBase cfg false)).

(** The usage is shown, and [main] returns. *)
Definition missing_arguments : option (outcome Z) := Some (Continues EXIT_FAILURE).

Definition ipv4_main (argv : list (list byte)) (random : Z) (oe : OpenEvents) (ev : SessionEvents tun_input) : option (outcome Z) :=
  if len argv <? 3 then missing_arguments
  else
    caught (ipv4_get_config getaddrinfo getnameinfo random argv) (fun '(c_fsm, c_filt, listen, tun_dev_name) =>
    caught (of_result (ipv4_socket_made (default TUN_DFLT tun_dev_name) oe)) (fun tcp_socket =>
      session getnameinfo (H := lossy_device_adapter draw (H := tun_device_adapter getaddrinfo getnameinfo))
        listen c_fsm c_filt ev tcp_socket)).

(** ** tcp_ip_ethernet *)

(** The adapter writes a frame when it is made; [tap] answers that. *)
Definition ethernet_socket_made (tap_dev_name : list byte) (local_ethernet_address : EthernetAddress) (source next_hop : Address)
    (oe : OpenEvents) (tap : list call) : option (result (TCPSpongeSocket (FDWrapper * EthernetAdapter) Empty_set)) :=
  match
    (let* (fd, _) := TunTapFD_of tap_dev_name false (oe_open oe) (oe_second oe) in
     let* cfg := FdAdapterConfig_default getaddrinfo in
     Ok (fd, EthernetAdapter_of (mkFdAdapterBase cfg false) local_ethernet_address source next_hop))
  with
  | Throw e => Some (Throw e)
  | Ok (fd, adapter) =>
      match FileDescriptor.write (pairs tap) (BufferViewList_of_BufferList (EthernetFrame_serialize EthernetFrame_default)) true fd with
      | None => None
      | Some (Throw e, _) => Some (Throw e)
      | Some (Ok _, fd) => Some (TCPSpongeSocket_over (oe_socketpair oe) (oe_fds oe) (oe_pair oe) (fd, adapter))
      end
  end.

(** The loop that draws the Ethernet address is the one of
    [random_private_ethernet_address]. *)
Definition ethernet_main (argv : list (list byte)) (address_values : list Z) (random : Z) (oe : OpenEvents) (tap : list call)
    (ev : SessionEvents tap_input) : option (outcome Z) :=
  if len argv <? 3 then missing_arguments
  else
    let local_ethernet_address := random_private_ethernet_address address_values in
    caught (ethernet_get_config getaddrinfo random argv) (fun '(c_fsm, c_filt, next_hop, tap_dev_name) =>
      match ethernet_socket_made tap_dev_name local_ethernet_address (source c_filt) next_hop oe tap with
      | None => None
      | Some r =>
          caught (of_result r) (fun tcp_socket =>
            session getnameinfo (H := tap_device_adapter getaddrinfo getnameinfo) false c_fsm c_filt ev tcp_socket)
      end).
End mains.

(** ** tcp_native *)

(** The answers to the calls on the kernel's sockets. *)
Record NativeEvents := mkNativeEvents {
  ne_socket : call; ne_reuse : call; ne_bind : call; ne_listen : call; ne_accept : call;
  ne_accepted : sockopt * sockopt; ne_connect : call }.

Section native.
Context (getaddrinfo : list byte -> list byte -> addrinfo -> Z * option (list byte * Z)).

(** The socket of either mode. *)
Definition native_socket (server_mode : bool) (argv : list (list byte)) (ne : NativeEvents) : result FDWrapper :=
  let* socket := Socket_new (ne_socket ne) in
  if server_mode then
    let* _ := set_reuseaddr (ne_reuse ne) in
    let* _ := Address_of_host getaddrinfo (nth 2 argv []) (nth 3 argv []) in
    let* _ := socket_bind (ne_bind ne) in
    let* _ := socket_listen (ne_listen ne) in
    (accept (ne_accept ne) (ne_accepted ne).1 (ne_accepted ne).2 socket).1
  else
    let* _ := Address_of_host getaddrinfo (nth 1 argv []) (nth 2 argv []) in
    let* _ := socket_connect (ne_connect ne) in
    Ok socket.

Definition native_main (argv : list (list byte)) (ne : NativeEvents) (flags : list (call * call)) (turns : list CopyTurn) : option (outcome Z) :=
  let server_mode := strncmp_eq (lit "-l") (nth 1 argv []) 3 in
  if (len argv <? 3) || (server_mode && (len argv <? 4)) then Some (Continues EXIT_FAILURE)
  else
    caught (of_result (native_socket server_mode argv ne)) (fun socket =>
      match bidirectional_stream_copy flags turns socket with
      | Throw _ | Ok (Some (Threw _, _, _)) => Some (Continues EXIT_FAILURE)
      | Ok (Some (Left, _, _)) => Some (Continues EXIT_SUCCESS)
      | Ok _ => None
      end).
End native.

(** ** webget *)

(** The request. *)
Definition http_request (host path : list byte) : list byte :=
  let crlf := [z2b 13; z2b 10] in
  let msg := lit "GET " ++ path ++ lit " HTTP/1.1" ++ crlf in
  let msg := msg ++ lit "Host: " ++ host ++ crlf in
  msg ++ lit "Connection: close" ++ crlf ++ crlf.

(** [while (!socket.eof()) cout << socket.read();] with the answers to the reads:
    what has been printed, the descriptor, and how the loop ended. *)
Fixpoint print_all (reads : list (call * list byte)) (w : FDWrapper) : list byte * FDWrapper * progress :=
  if FileDescriptor.eof w then ([], w, Left)
  else
    match reads with
    | [] => ([], w, Waiting)
    | (c, bytes) :: reads =>
        match FileDescriptor.read SIZE_MAX (ret c) (errno c) bytes w with
        | (Throw e, w) => ([], w, Threw e)
        | (Ok data, w) => let '(out, w, p) := print_all reads w in (data ++ out, w, p)
        end
    end.

(** What happens during [get_URL]: the turns of opening the connection, the
    answers to writing the request and to the reads, and the end. *)
Record GetEvents := mkGetEvents {
  ge_open : SessionEvents tun_input; ge_random : Z; ge_write : list call; ge_reads : list (call * list byte) }.

Section webget.
Context (getaddrinfo : list byte -> list byte -> addrinfo -> Z * option (list byte * Z))
  (getnameinfo : list byte -> Z -> Z * list byte * list byte).
Abbreviation tun_adapter := (tun_device_adapter getaddrinfo getnameinfo).

(** What was printed to standard output, and the status of the program. *)
Definition get_URL (host path : list byte) (answers : DeviceAnswers) (ev : GetEvents) : list byte * option (outcome Z) :=
  let se := ge_open ev in
  match (let* socket := CS144TCPSocket_of getaddrinfo answers in
         let* address := Address_of_host getaddrinfo host (lit "http") in
         Ok (socket, address)) with
  | Throw _ => ([], Some (Continues EXIT_FAILURE))
  | Ok (socket, address) =>
      match CS144TCPSocket_connect getaddrinfo getnameinfo address (ge_random ev) (se_isn se) (se_open se) (se_time se) [] socket with
      | Some (Left, rules, s) =>
          match FileDescriptor.write (pairs (ge_write ev)) (BufferViewList_of_string (http_request host path)) true (_owner s) with
          | None => ([], None)
          | Some (Throw _, w) => ([], unwind (H := tun_adapter) true se rules (set_owner w s))
          | Some (Ok _, w) =>
              match print_all (ge_reads ev) w with
              | (out, w, Threw _) => (out, unwind (H := tun_adapter) true se rules (set_owner w s))
              | (out, w, Waiting) => (out, None)
              | (out, w, Left) =>
                  let s := set_owner w s in
                  match shutdown SHUT_RDWR (se_shutdown se) (_owner s) with
                  | (Throw _, w) => (out, unwind (H := tun_adapter) true se rules (set_owner w s))
                  | (Ok _, _) =>
                      match wait_until_closed (H := tun_adapter) true (se_shutdown se) (se_thread se) (se_thread_time se)
                              (se_thread_shutdown se) rules s with
                      | Some (Left, _, _) => (out, Some (Continues EXIT_SUCCESS))
                      | Some (Threw e, _, _) => (out, Some (Raises e))
                      | _ => (out, None)
                      end
                  end
              end
          end
      | Some (Threw _, rules, s) => ([], unwind (H := tun_adapter) false se rules s)
      | _ => ([], None)
      end
  end.

(** Without even a name [main] calls [abort], which a shell reports as 134. *)
Definition webget_main (argv : list (list byte)) (answers : DeviceAnswers) (ev : GetEvents) : list byte * option (outcome Z) :=
  if len argv <=? 0 then ([], Some (Exits 134 []))
  else if negb (len argv =? 3) then ([], Some (Continues EXIT_FAILURE))
  else get_URL (nth 1 argv []) (nth 2 argv []) answers ev.
End webget.

(** ** The owner's end of the socket

    The loop of the socket works on its own end of the pair, not on the owner's. *)

Section owner.
Context `{DatagramAdapter A Input Output}.
Context (getnameinfo : list byte -> Z -> Z * list byte * list byte).
Abbreviation sock := (TCPSpongeSocket A Output).

Lemma debug_owner (s ok : sock) r s' :
  debug_destination getnameinfo s ok = Some (r, s') -> _owner ok = _owner s -> _owner s' = _owner s.
Proof. unfold debug_destination. destruct (Address_to_string _ _); by intros [= <- <-]. Qed.

Lemma rule1_owner ev (s : sock) r s' : rule1_callback getnameinfo ev s = Some (r, s') -> _owner s' = _owner s.
Proof.
  unfold rule1_callback. destruct (da_read _ _) as [[[seg|e] a]|]; [|by intros [= <- <-]|done].
  destruct (_tcp s) as [tcp|]; [|done]. destruct (match seg with Some _ => _ | None => _ end) as [tcp'|]; [|done].
  cbv zeta. destruct (_ && _ && _); [|by intros [= <- <-]]. intros E. by apply debug_owner in E.
Qed.

Lemma rule2_owner ev (s : sock) r s' : rule2_callback getnameinfo ev s = Some (r, s') -> _owner s' = _owner s.
Proof.
  unfold rule2_callback. destruct (_tcp s) as [tcp|]; [|done]. destruct (FileDescriptor.read _ _ _ _ _) as [[data|e] w]; [|by intros [= <- <-]].
  destruct (TCPConnection.write _ _) as [n tcp']. destruct (negb _); [by intros [= <- <-]|].
  destruct (FileDescriptor.eof w); [|by intros [= <- <-]]. intros E. by apply debug_owner in E.
Qed.

Lemma rule3_owner ev (s : sock) r s' : rule3_callback getnameinfo ev s = Some (r, s') -> _owner s' = _owner s.
Proof.
  unfold rule3_callback. destruct (_tcp s) as [tcp|]; [|done]. cbv zeta.
  destruct (FileDescriptor.write _ _ _ _) as [[[n|e] w]|]; [|by intros [= <- <-]|done].
  destruct (_ || _); [|by intros [= <- <-]]. destruct (shutdown _ _ _) as [[?|?] w']; [|by intros [= <- <-]].
  intros E. by apply debug_owner in E.
Qed.

Lemma rule4_owner ev (s : sock) r s' : rule4_callback ev s = Some (r, s') -> _owner s' = _owner s.
Proof.
  unfold rule4_callback. destruct (_tcp s) as [tcp|]; [|done]. generalize (length (TCPConnection._segments_out tcp)), (ev_sends ev). clear tcp.
  intros fuel. revert s. induction fuel as [|fuel IH]; intros s sends; cbn [rule4_loop]; (destruct (_tcp s) as [tcp|]; [|done]); [by intros [= <- <-]|].
  destruct (TCPConnection._segments_out tcp) as [|front rest]; [by intros [= <- <-]|]. destruct sends as [|answers sends]; [done|].
  destruct (da_write _ _ _) as [[[out|e] a]|]; [|by intros [= <- <-]|done]. intros E. by apply IH in E.
Qed.

Definition owned_by (w : FDWrapper) (x : world (A := A) (Input := Input) (Output := Output)) : Prop := _owner x.1 = w.

Lemma rules_keep_owner w : Forall (keeps (owned_by w)) (sponge_rules getnameinfo).
Proof.
  repeat (apply Forall_cons; split); [..|by apply Forall_nil]; unfold owned_by; intros x r x' <- [E%on_inv|E%on_inv]; cbn in E;
    try (unfold no_cancel in E; by injection E as _ <-).
  - by eapply rule1_owner.
  - by eapply rule2_owner.
  - unfold rule2_cancel in E. destruct (_tcp x.1); [|done]. by injection E as _ <-.
  - by eapply rule3_owner.
  - by eapply rule4_owner.
Qed.

Lemma loop_owner condition turns base rules (s : sock) p rules' s' :
  rules `sublist_of` sponge_rules getnameinfo ->
  _tcp_loop condition turns base rules s = Some (p, rules', s') -> _owner s' = _owner s.
Proof.
  revert base rules s. induction turns as [|t turns IH]; intros base rules s Hr; cbn [_tcp_loop];
    (destruct (negb (condition s)); [by intros [= <- <- <-]|]); [by intros [= <- <- <-]|].
  destruct (wait_next_event _ _ _ _ _) as [[[res rules1] [s1 ev1]]|] eqn:Ew; [|done]. intros E.
  apply (wait_next_event_invariant _ (owned_by (_owner s))) in Ew as [Ho Hs1];
    [|eapply Forall_sublist_of; [exact Hr|apply rules_keep_owner]|done].
  change (_owner s1 = _owner s) in Ho. destruct res as [res|e]; [|by injection E as <- <- <-].
  destruct (_ || tu_abort t); [by injection E as <- <- <-|].
  assert (forall r s2, turn_tick (tu_tick t) (tu_time t) base s1 = Some (r, s2) -> _owner s2 = _owner s) as Htick.
  { unfold turn_tick. intros r s2. destruct (_tcp s1) as [tcp|]; [|done]. destruct (active tcp); [|by intros [= <- <-]].
    destruct (TCPConnection.tick _ _); [|done]. destruct (da_tick _ _ _) as [[[?|?] a]|]; [by intros [= <- <-]..|done]. }
  destruct (turn_tick _ _ _ s1) as [[[base1|e] s2]|] eqn:Et; [| |done].
  - rewrite <- (Htick _ _ eq_refl). eapply IH; [|exact E]. by etransitivity.
  - injection E as <- <- <-. by apply (Htick _ _ eq_refl).
Qed.

Lemma connect_owner c_tcp c_ad random_isn turns time (s : sock) p rules' s' :
  connect getnameinfo c_tcp c_ad random_isn turns time [] s = Some (p, rules', s') -> _owner s' = _owner s.
Proof.
  unfold connect, connect_start. destruct (_tcp s) as [tcp|]; [by intros [= <- <- <-]|]. cbn [_initialize_TCP add_rule app].
  destruct (Address_to_string _ _) as [t|e]; [|by intros [= <- <- <-]]. destruct (negb _); [by intros [= <- <- <-]|].
  destruct (_tcp_loop _ _ _ _ _) as [[[q rules1] s1]|] eqn:El; [|done].
  apply loop_owner in El; [|done]. destruct q; by intros [= <- <- <-].
Qed.
End owner.

(** ** What webget prints *)

(** The kernel answers a read with at most what was asked for, and as many bytes
    as it says. *)
Definition granted_read (r : call * list byte) : Prop := 0 <= ret r.1 <= BUFFER_SIZE /\ len r.2 = ret r.1.

(** The loop prints everything up to the end of the stream, and stops there. *)
Lemma print_all_eq pre last post w :
  Forall (fun r => granted_read r /\ 0 < ret r.1) pre -> granted_read last -> ret last.1 = 0 -> FileDescriptor.eof w = false ->
  exists w', print_all (pre ++ last :: post) w = (concat (map snd pre), w', Left).
Proof.
  intros Hpre Hlast H0. revert w. induction Hpre as [|[c bytes] pre [[Hr Hd] Hp] _ IH]; intros w Hw; cbn [app print_all map concat snd]; rewrite Hw.
  - destruct last as [c bytes]. destruct Hlast as [Hr Hd]. cbn [fst snd] in *. unfold BUFFER_SIZE in Hr.
    rewrite read_eq by (done || unfold SIZE_MAX, BUFFER_SIZE; lia). rewrite H0. cbn [Z.eqb andb].
    assert (bytes = []) as -> by (by destruct bytes; [|simpl in Hd; lia]). destruct post as [|[c' b'] post]; by eexists.
  - cbn [fst snd] in *. unfold BUFFER_SIZE in Hr. rewrite read_eq by (done || unfold SIZE_MAX, BUFFER_SIZE; lia).
    destruct (Z.eqb_spec (ret c) 0); [lia|]. rewrite andb_false_r.
    destruct (IH (register_read w)) as [w' ->]; [done|]. by exists w'.
Qed.

(** And it stops nowhere else. *)
Lemma print_all_left reads w out w' :
  Forall granted_read reads -> FileDescriptor.eof w = false -> print_all reads w = (out, w', Left) ->
  exists pre last post, reads = pre ++ last :: post /\ Forall (fun r => 0 < ret r.1) pre /\ ret last.1 = 0 /\ out = concat (map snd pre).
Proof.
  intros Hr. revert w out. induction Hr as [|[c bytes] reads [Hr Hd] _ IH]; intros w out Hw; cbn [print_all]; rewrite Hw; [done|].
  cbn [fst snd] in *. unfold BUFFER_SIZE in Hr. rewrite read_eq by (done || unfold SIZE_MAX, BUFFER_SIZE; lia).
  destruct (Z.eqb_spec (ret c) 0) as [E|E].
  - destruct reads as [|[c' b'] reads]; cbn; intros [= <- _]; exists [], (c, bytes); eexists; (split_and!; [done|by apply Forall_nil|done|]);
      by destruct bytes; [|simpl in Hd; lia].
  - rewrite andb_false_r. destruct (print_all reads (register_read w)) as [[out1 w1] p] eqn:Ep. intros [= <- <- ->].
    destruct (IH (register_read w) out1) as (pre & last & post & -> & Hp & Hl & ->); [done|done|].
    exists ((c, bytes) :: pre), last, post. split_and!; [done|by apply Forall_cons; split; [cbn; lia|]|done|done].
Qed.

Lemma Socket_of_fd fd domain type so_domain so_type w : Socket_of fd domain type so_domain so_type = Ok w -> w = fd.
Proof.
  intros (? & _ & E)%bind_ok. destruct (_ || _); [done|]. apply bind_ok in E as (? & _ & E). destruct (_ || _); [done|]. by injection E as <-.
Qed.

(** A socket is made with the owner's stream open. *)
Lemma made_owner {A Output} c fds answers (a : A) (s : TCPSpongeSocket A Output) :
  TCPSpongeSocket_over c fds answers a = Ok s -> FileDescriptor.eof (_owner s) = false.
Proof.
  intros ([fd1 fd2] & Hp & Hs)%bind_ok. unfold socket_pair_helper in Hp. apply bind_ok in Hp as (? & _ & Hp).
  apply bind_ok in Hp as (w1 & Hw & (w2 & _ & [= -> ->])%bind_ok).
  unfold TCPSpongeSocket_of in Hs. apply bind_ok in Hs as (owner & ->%Socket_of_fd & Hs).
  apply bind_ok in Hs as (td & _ & (? & _ & [= <-])%bind_ok). unfold FileDescriptor_of in Hw. destruct (_ <? _); [done|]. by injection Hw as <-.
Qed.

Lemma unwind_fails `{DatagramAdapter A Input Output} joinable ev rules (s : TCPSpongeSocket A Output) :
  unwind joinable ev rules s <> Some (Continues EXIT_SUCCESS).
Proof. unfold unwind. by destruct (TCPSpongeSocket_destroy _ _ _ _ _ _) as [[[[] ?] ?]|]. Qed.

(** A run of webget that returns success has written the request to the socket and
    printed the bytes of the socket up to the end of its stream, unchanged, and
    nothing else. *)
Lemma webget_success getaddrinfo getnameinfo host path answers ev out :
  Forall granted_read (ge_reads ev) ->
  get_URL getaddrinfo getnameinfo host path answers ev = (out, Some (Continues EXIT_SUCCESS)) ->
  (exists n w w', FileDescriptor.write (pairs (ge_write ev)) (BufferViewList_of_string (http_request host path)) true w = Some (Ok n, w')) /\
  exists pre last post, ge_reads ev = pre ++ last :: post /\ Forall (fun r => 0 < ret r.1) pre /\ ret last.1 = 0 /\
    out = concat (map snd pre).
Proof.
  intros Hr. unfold get_URL. destruct (CS144TCPSocket_of getaddrinfo answers) as [socket|e] eqn:Es; [|done]. cbn [bind].
  destruct (Address_of_host _ _ _) as [address|]; [|done]. cbn [bind].
  destruct (CS144TCPSocket_connect _ _ _ _ _ _ _ _ _) as [[[[|e|] rules] s]|] eqn:Ec; [|intros [= _ E]; by apply unwind_fails in E|done|done].
  assert (FileDescriptor.eof (_owner s) = false) as Ho.
  { unfold CS144TCPSocket_connect in Ec. destruct (multiplexer_config _ _ _ _); [|done]. apply connect_owner in Ec. rewrite Ec.
    apply bind_ok in Es as ([tun ?] & _ & (cfg & _ & Es)%bind_ok). by apply made_owner in Es. }
  destruct (FileDescriptor.write _ _ _ _) as [[[n|e] w]|] eqn:Ew; [|intros [= _ E]; by apply unwind_fails in E|done].
  assert (FileDescriptor.eof w = false) as Hw. { apply write_loop_keeps in Ew as (_ & -> & _). done. }
  destruct (print_all _ _) as [[out1 w1] p] eqn:Ep. intros E. split; [by exists n, (_owner s), w|].
  assert (p = Left /\ out1 = out) as [-> ->].
  { destruct p; [split; [done|]|injection E as _ E; by apply unwind_fails in E|done].
    destruct (shutdown _ _ _) as [[?|?] ?]; [|by injection E]. by destruct (wait_until_closed _ _ _ _ _ _ _) as [[[[] ?] ?]|]; injection E. }
  by eapply print_all_left.
Qed.
