(* ===== verification/Tcpdump.v ===== *)
(** The packet dumpers: [apps/udp_tcpdump.cc], which shows TCP segments that are
    carried in UDP datagrams, and [apps/tun.cc], which shows what arrives at a TUN
    device.

    The library [libpcap] and the function [inet_ntop] are outside of the sources:
    what the first captures is an argument, and the second a parameter.  What a
    function gives is what it prints to standard output.  A read outside of the
    captured bytes is [Undefined]. *)
From S2P Require Import Prelude Text WrappingIntegers Buffer Parser Checksum FileDescriptor TCPSegment IPv4 Address Texts Socket CommandLine.

(** ** Arguments *)

Definition show_usage (arg0 : list byte) (errmsg : option (list byte)) : list byte :=
  lit "Usage: " ++ arg0 ++ lit " [-i <intf>] [-F <file>] [-h|--help] <expression>" ++ [newline; newline] ++
  lit "  -i <intf>    only capture packets from <intf> (default: all)" ++ [newline; newline] ++
  lit "  -F <file>    reads in a filter expression from <file>" ++ [newline] ++
  lit "               <expression> is ignored if -F is supplied." ++ [newline; newline] ++
  lit "  -h, --help   show this message" ++ [newline; newline] ++
  lit "  <expression> a filter expression in pcap-filter(7) syntax" ++ [newline] ++
  (match errmsg with Some msg => [newline] ++ msg | None => [] end) ++ [newline].

(** The device, if one is given, and the words of the filter expression. *)
Fixpoint parse_arguments (arg0 : list byte) (args : list (list byte)) (dev : option (list byte)) :
    outcome (option (list byte) * list (list byte)) :=
  match args with
  | [] => Continues (dev, [])
  | opt :: rest =>
      if strncmp_eq (lit "-i") opt 3 then
        match rest with
        | [] => Exits 1 (show_usage arg0 (Some (lit "ERROR: -i requires an argument")))
        | arg :: rest => parse_arguments arg0 rest (Some arg)
        end
      else if strncmp_eq (lit "-h") opt 3 || strncmp_eq (lit "--help") opt 7 then Exits 0 (show_usage arg0 None)
      else Continues (dev, args)
  end.

(** The words with a blank behind each. *)
Definition filter_expression (args : list (list byte)) : list byte := concat (map (fun a => a ++ [space]) args).

(** ** IP headers *)

(** [data[i]] *)
Definition at_index (data : list byte) (i : Z) : outcome Z := defined (option_map b2z (data !! Z.to_nat i)).

Section dump.
Context (inet_ntop : nat -> list byte -> option (list byte)).

(** The address of [n] bytes at [data + i]. *)
Definition inet_addr (n : nat) (data : list byte) (i : Z) : outcome (list byte) :=
  if len data <? i + Z.of_nat n then Undefined
  else Continues (default (lit "unknown") (inet_ntop n (slice i (Z.of_nat n) data))).
Definition inet4_addr : list byte -> Z -> outcome (list byte) := inet_addr 4.
Definition inet6_addr : list byte -> Z -> outcome (list byte) := inet_addr 16.

(** The loop over the extension headers of IPv6: where the UDP header starts.  An
    extension header has at least eight bytes, so the length bounds the turns. *)
Fixpoint next_headers (fuel : nat) (length : Z) (data : list byte) (nxt data_offset : Z) : outcome (option Z) :=
  if nxt =? 0x11 then Continues (Some data_offset)
  else if negb (nxt =? 0) && negb (nxt =? 43) && negb (nxt =? 60) then Continues None
  else
    match fuel with
    | O => Undefined
    | S fuel =>
        then* nxt := at_index data data_offset in
        then* ext := at_index data (data_offset + 1) in
        let data_offset := data_offset + 8 * (1 + ext) in
        if length <? data_offset + 2 then Continues None
        else next_headers fuel length data nxt data_offset
    end.

(** Where the UDP payload starts, and the two addresses; [None] for [-1]. *)
Definition process_ipv4_ipv6 (length : Z) (data : list byte) : outcome (option (Z * list byte * list byte)) :=
  if length <? 1 then Continues None
  else
    then* first := at_index data 0 in
    let pt := Z.land first 0xf0 in
    if pt =? 0x40 then
      let data_offset := Z.land first 0x0f * 4 in
      if length <? data_offset then Continues None
      else
        then* proto := at_index data 9 in
        if negb (proto =? 0x11) then Continues None
        else
          then* src_addr := inet4_addr data 12 in
          then* dst_addr := inet4_addr data 16 in
          Continues (Some (data_offset + 8, src_addr, dst_addr))
    else if pt =? 0x60 then
      if length <? 42 then Continues None
      else
        then* nxt := at_index data 6 in
        then* r := next_headers (Z.to_nat length) length data nxt 40 in
        match r with
        | None => Continues None
        | Some data_offset =>
            then* src_addr := inet6_addr data 8 in
            then* dst_addr := inet6_addr data 24 in
            Continues (Some (data_offset + 8, src_addr, dst_addr))
        end
    else Continues None.

(** ** Link headers *)

(** The values of [pcap_datalink] the program knows, and the others. *)
Inductive datalink := DLT_RAW | DLT_NULL | DLT_EN10MB | DLT_LINUX_SLL | DLT_LINUX_SLL2 | DLT_OTHER.

(** The IP packet starts at an offset; or the packet is skipped; or the program
    gives up. *)
Inductive link := IP_at (hdr_off : Z) | Skip | Give_up.

(** The two bytes of a protocol number. *)
Definition ethertype (pkt : list byte) (i : Z) : outcome Z :=
  then* hi := at_index pkt i in
  then* lo := at_index pkt (i + 1) in
  Continues (Z.lor (Z.shiftl hi 8) lo).

Definition ip_type (pt : Z) : bool := (pt =? 0x0800) || (pt =? 0x86dd).

(** A header of [hdr_off] bytes with the protocol number at [i]. *)
Definition typed_link (hdr_off i : Z) (pkt : list byte) : outcome link :=
  if len pkt <? hdr_off then Continues Skip
  else then* pt := ethertype pkt i in Continues (if ip_type pt then IP_at hdr_off else Skip).

Definition link_header (dl_type : datalink) (pkt : list byte) : outcome link :=
  match dl_type with
  | DLT_NULL =>
      if len pkt <? 4 then Continues Skip
      else
        then* pt := at_index pkt 3 in
        Continues (if (pt =? 2) || (pt =? 24) || (pt =? 28) || (pt =? 30) then IP_at 4 else Skip)
  | DLT_EN10MB => typed_link 14 12 pkt
  | DLT_LINUX_SLL => typed_link 16 14 pkt
  | DLT_LINUX_SLL2 => typed_link 20 0 pkt
  | DLT_RAW => Continues (IP_at 0)
  | DLT_OTHER => Continues Give_up
  end.

(** ** Segments *)

(** What is printed about a segment; [correct] when the checksum is. *)
Definition segment_text (src dst : list byte) (seg : TCPSegment) (correct : bool) (payload_len : Z) : list byte :=
  let h := TCPSegment.header seg in
  let seqlen := u32 (length_in_sequence_space seg) in
  src ++ lit ":" ++ to_string (sport h) ++ lit " > " ++ dst ++ lit ":" ++ to_string (dport h) ++ [newline] ++ lit "    Flags [" ++
  (if urg h then lit "U" else []) ++ (if psh h then lit "P" else []) ++ (if rst h then lit "R" else []) ++
  (if syn h then lit "S" else []) ++ (if fin h then lit "F" else []) ++ (if ack h then lit "." else []) ++
  lit "] cksum 0x" ++ pad (z2b 48) 4 (to_hex (TCPSegment.cksum h)) ++ (if correct then lit " (correct)" else lit " (incorrect!)") ++
  lit " seq " ++ put_wrapping to_string (seqno h) ++
  (if 0 <? seqlen then lit ":" ++ put_wrapping to_string (add_u32 (seqno h) seqlen) else []) ++
  lit " ack " ++ put_wrapping to_string (ackno h) ++ lit " win " ++ to_string (win h) ++
  lit " length " ++ to_string payload_len ++ [newline].

(** [string::max_size()] *)
Definition string_max_size : Z := 2 ^ 63 - 1.

(** The bytes of a captured packet from [payload_off] on, as the payload of a UDP
    datagram.  The length is an unsigned difference, and a string that long
    may not be possible. *)
Definition show_payload (src dst : list byte) (pkt : list byte) (payload_off : Z) : outcome (list byte) :=
  let payload_len := u64 (len pkt - payload_off) in
  if string_max_size <? payload_len then Raises (length_error "basic_string::_M_create")
  else
    let payload := slice payload_off payload_len pkt in
    then* (res, seg) := of_result (TCPSegment_parse (Buffer_of payload) 0 TCPSegment_default) in
    let text :=
      if (1 <? ParseResult_index res)%nat
      then lit "(did not recognize TCP header) src: " ++ src ++ lit " dst: " ++ dst ++ [newline]
      else segment_text src dst seg (bool_decide (res = NoError)) payload_len in
    Continues (text ++ hexdump payload 8).

(** One packet: what is printed, or [None] when the program gives up. *)
Definition dump_packet (dl_type : datalink) (pkt : list byte) : outcome (option (list byte)) :=
  then* l := link_header dl_type pkt in
  match l with
  | Skip => Continues (Some [])
  | Give_up => Continues None
  | IP_at hdr_off =>
      then* r := process_ipv4_ipv6 (s32 (len pkt - hdr_off)) (zdrop hdr_off pkt) in
      match r with
      | None => Continues (Some [])
      | Some (start_off, src, dst) =>
          then* text := show_payload src dst pkt (hdr_off + start_off) in Continues (Some text)
      end
  end.

(** ** The program *)

(** What [pcap_next_ex] answers: a timeout, a packet, the end of the input, or an error. *)
Inductive capture := Timeout_expired | Packet (pkt : list byte) | End_of_input | Capture_error (message : list byte).

Definition capture_error (message : list byte) : list byte := lit "Error listening for packet: " ++ message ++ [newline].

(** The loop: what it prints and how the program ends; [None] while it listens. *)
Fixpoint capture_loop (dl_type : datalink) (captures : list capture) : list byte * option (outcome Z) :=
  match captures with
  | [] => ([], None)
  | Timeout_expired :: captures => capture_loop dl_type captures
  | End_of_input :: _ => ([], Some (Continues 0))
  | Capture_error message :: _ => (capture_error message, Some (Continues 1))
  | Packet pkt :: captures =>
      match dump_packet dl_type pkt with
      | Continues (Some text) => let '(out, r) := capture_loop dl_type captures in (text ++ out, r)
      | Continues None => ([], Some (Continues 1))
      | Exits status printed => (printed, Some (Exits status []))
      | Raises e => ([], Some (Raises e))
      | Undefined => ([], Some Undefined)
      end
  end.

(** The answers of the library: the datalink type and its description, or why the
    device could not be opened; and whether the filter is accepted. *)
Record PcapAnswers := mkPcapAnswers {
  pa_open : result (datalink * list byte); pa_open_error : list byte;
  pa_compile : option (list byte); pa_setfilter : option (list byte) }.

Definition tcpdump_main (argv : list (list byte)) (answers : PcapAnswers) (captures : list capture) : list byte * option (outcome Z) :=
  match parse_arguments (nth 0 argv []) (tail argv) None with
  | Exits status printed => (printed, Some (Exits status []))
  | Raises e => ([], Some (Raises e))
  | Undefined => ([], Some Undefined)
  | Continues (dev, expression) =>
      let out := match dev with Some d => lit "Capturing on interface " ++ d | None => lit "Capturing on all interfaces" end in
      match pa_open answers with
      | Throw _ => (out ++ [newline] ++ lit "Error initiating capture: " ++ pa_open_error answers ++ [newline], Some (Exits 1 []))
      | Ok (DLT_OTHER, description) =>
          (out ++ [newline] ++ lit "Error: unsupported datalink type " ++ description ++ [newline], Some (Exits 1 []))
      | Ok (dl_type, description) =>
          let out := out ++ lit " (type: " ++ description ++ lit ")" ++ [newline] ++
                     lit "Using filter expression: " ++ filter_expression expression ++ [newline] in
          match pa_compile answers, pa_setfilter answers with
          | Some message, _ => (out ++ lit "Error compiling filter expression: " ++ message ++ [newline], Some (Continues 1))
          | None, Some message => (out ++ lit "Error configuring packet filter: " ++ message ++ [newline], Some (Continues 1))
          | None, None => let '(text, r) := capture_loop dl_type captures in (out ++ text, r)
          end
      end
  end.
End dump.

(** ** tun *)

(** One packet of the device. *)
Definition tun_packet (buffer : list byte) : outcome (list byte) :=
  let out := [newline; newline] ++ lit "***" ++ [newline] ++ lit "*** Got packet:" ++ [newline] ++ lit "***" ++ [newline] ++
             hexdump buffer 0 ++ lit "attempting to parse as ipv4 datagram... " in
  then* (res, ip_dgram) := of_result (IPv4Datagram_parse (Buffer_of buffer) IPv4Datagram_default) in
  if negb (bool_decide (res = NoError)) then Continues (out ++ lit "failed." ++ [newline])
  else
    let h := IPv4.header ip_dgram in
    let out := out ++ lit "success! totlen=" ++ to_string (tot_len h) ++ lit ", IPv4 header contents:" ++ [newline] ++ IPv4Header_to_string h in
    if negb (proto h =? PROTO_TCP) then Continues (out ++ [newline] ++ lit "Not TCP, skipping." ++ [newline])
    else
      let out := out ++ [newline] ++ lit "Attempting to parse as a TCP segment... " in
      then* b := of_result (to_Buffer (IPv4.payload ip_dgram)) in
      then* (res, tcp_seg) := of_result (TCPSegment_parse b (pseudo_cksum h) TCPSegment_default) in
      if negb (bool_decide (res = NoError)) then Continues (out ++ lit "failed." ++ [newline])
      else
        Continues (out ++ lit "success! payload len=" ++ to_string (len (str (TCPSegment.payload tcp_seg))) ++
          lit ", TCP header contents:" ++ [newline] ++ TCPHeader_to_string (TCPSegment.header tcp_seg) ++ [newline]).

(** [main] of [tun.cc], with the answers to the reads of the device: what is printed, and
    the status; [None] while it waits for a packet. *)
Fixpoint tun_loop (reads : list (call * list byte)) (tun : FDWrapper) : list byte * option (outcome Z) :=
  match reads with
  | [] => ([], None)
  | (c, bytes) :: reads =>
      match FileDescriptor.read (2 ^ 64 - 1) (ret c) (errno c) bytes tun with
      | (Throw e, _) => ([], Some (Continues 1))
      | (Ok buffer, tun) =>
          match tun_packet buffer with
          | Continues text => let '(out, r) := tun_loop reads tun in (text ++ out, r)
          | Raises _ => ([], Some (Continues 1))
          | Exits status printed => (printed, Some (Exits status []))
          | Undefined => ([], Some Undefined)
          end
      end
  end.

Definition tun_main (open ioctl : call) (reads : list (call * list byte)) : list byte * option (outcome Z) :=
  match TunTapFD_of (lit "tun144") true open ioctl with
  | Throw _ => ([], Some (Continues 1))
  | Ok (tun, _) => tun_loop reads tun
  end.

(** ** Reading within the packet *)

Lemma at_index_ok data i : 0 <= i < len data -> exists v, at_index data i = Continues v /\ 0 <= v < 2 ^ 8.
Proof.
  intros Hi. unfold at_index. destruct (lookup_lt_is_Some_2 data (Z.to_nat i)) as [b Hb]; [lia|]. rewrite Hb.
  exists (b2z b). split; [done|apply b2z_range].
Qed.

Section properties.
Context (inet_ntop : nat -> list byte -> option (list byte)).

Lemma inet_addr_ok n data i : i + Z.of_nat n <= len data ->
  inet_addr inet_ntop n data i = Continues (default (lit "unknown") (inet_ntop n (slice i (Z.of_nat n) data))).
Proof. intros H. unfold inet_addr. destruct (Z.ltb_spec (len data) (i + Z.of_nat n)); [lia|done]. Qed.

(** The loop over the extension headers stays inside the packet and ends: every
    turn moves on by eight bytes or more. *)
Lemma next_headers_defined fuel data nxt off :
  40 <= off -> off + 2 <= len data -> len data - off < 8 * Z.of_nat fuel ->
  exists r, next_headers fuel (len data) data nxt off = Continues r /\ forall o, r = Some o -> 40 <= o <= len data - 2.
Proof.
  revert nxt off. induction fuel as [|fuel IH]; intros nxt off H40 Hoff Hf; [lia|]. cbn [next_headers].
  destruct (nxt =? 0x11). { eexists. split; [done|]. intros o [= <-]. lia. }
  destruct (_ && _). { by eexists. }
  destruct (at_index_ok data off) as (v & -> & Hv); [lia|]. cbn [and_then].
  destruct (at_index_ok data (off + 1)) as (x & -> & Hx); [lia|]. cbn [and_then].
  destruct (Z.ltb_spec (len data) (off + 8 * (1 + x) + 2)); [by eexists|]. apply IH; lia.
Qed.

(** The packet dumper reads only what was captured: for every packet with twenty
    bytes or more, IPv4, IPv6 or anything else, every byte that
    [process_ipv4_ipv6] reads is inside the packet, the loop over the extension
    headers of IPv6 ends, and an offset it returns leaves at least the two bytes
    of IPv6's check, or the IPv4 header, inside the packet. *)
Theorem process_in_bounds data :
  20 <= len data < 2 ^ 31 ->
  exists r, process_ipv4_ipv6 inet_ntop (len data) data = Continues r /\
    forall off src dst, r = Some (off, src, dst) -> 8 <= off <= len data + 8.
Proof.
  intros Hl. unfold process_ipv4_ipv6. destruct (Z.ltb_spec (len data) 1); [lia|].
  destruct (at_index_ok data 0) as (v & -> & Hv); [lia|]. cbn [and_then].
  destruct (Z.land v 0xf0 =? 0x40).
  - destruct (Z.ltb_spec (len data) (Z.land v 15 * 4)); [by eexists|].
    destruct (at_index_ok data 9) as (p & -> & _); [lia|]. cbn [and_then]. destruct (negb _); [by eexists|].
    unfold inet4_addr. rewrite !inet_addr_ok by lia. cbn [and_then]. eexists. split; [done|]. intros off src dst [= <- _ _].
    pose proof (Z.land_nonneg v 15). lia.
  - destruct (Z.land v 0xf0 =? 0x60); [|by eexists]. destruct (Z.ltb_spec (len data) 42); [by eexists|].
    destruct (at_index_ok data 6) as (nxt & -> & _); [lia|]. cbn [and_then].
    destruct (next_headers_defined (Z.to_nat (len data)) data nxt 40) as (r & -> & Hr); [lia..|]. cbn [and_then].
    destruct r as [o|]; [|by eexists]. unfold inet6_addr. rewrite !inet_addr_ok by lia. cbn [and_then].
    eexists. split; [done|]. intros off src dst [= <- _ _]. specialize (Hr o eq_refl). lia.
Qed.

(** ** Segments over UDP over IPv4 *)

(** An IPv4 header of any length, for UDP, with its addresses. *)
Record udp_header (ip src dst : list byte) : Prop := {
  uh_length : exists ihl, 5 <= ihl < 16 /\ ip !! 0%nat = Some (z2b (0x40 + ihl)) /\ len ip = 4 * ihl;
  uh_proto : ip !! 9%nat = Some (z2b 0x11);
  uh_src : slice 12 4 ip = src;
  uh_dst : slice 16 4 ip = dst }.

(** A link header of the given type that announces IP. *)
Definition carries_ip (dl_type : datalink) (l : list byte) : Prop := forall rest, link_header dl_type (l ++ rest) = Continues (IP_at (len l)).

(** An address as it is shown. *)
Definition shown (address : list byte) : list byte := default (lit "unknown") (inet_ntop 4 address).

Lemma slice_app_l i n (l r : list byte) : 0 <= i -> 0 <= n -> i + n <= len l -> slice i n (l ++ r) = slice i n l.
Proof.
  intros Hi Hn Hl. unfold slice, ztake, zdrop. rewrite drop_app_le, take_app_le; [done|rewrite length_drop; lia|lia].
Qed.

Lemma process_udp ip src dst rest :
  udp_header ip src dst ->
  process_ipv4_ipv6 inet_ntop (len (ip ++ rest)) (ip ++ rest) = Continues (Some (len ip + 8, shown src, shown dst)).
Proof.
  intros [(ihl & Hihl & H0 & Hl) H9 <- <-]. unfold process_ipv4_ipv6. rewrite len_app. destruct (Z.ltb_spec (len ip + len rest) 1); [lia|].
  assert (forall n v, ip !! n = Some v -> at_index (ip ++ rest) (Z.of_nat n) = Continues (b2z v)) as Hat.
  { intros n v E. unfold at_index. rewrite Nat2Z.id, (lookup_app_l_Some _ _ _ _ E). done. }
  rewrite (Hat 0%nat _ H0 : at_index (ip ++ rest) 0 = _), (Hat 9%nat _ H9 : at_index (ip ++ rest) 9 = _).
  cbn [and_then]. rewrite b2z_z2b, u8_small by lia.
  assert (Z.land (64 + ihl) 240 = 64 /\ Z.land (64 + ihl) 15 = ihl) as [-> ->].
  { assert (ihl ∈ [5; 6; 7; 8; 9; 10; 11; 12; 13; 14; 15]) as Hin by (rewrite !elem_of_cons; lia).
    repeat (apply elem_of_cons in Hin as [->|Hin]; [done|]). by apply elem_of_nil in Hin. }
  rewrite Z.eqb_refl. destruct (Z.ltb_spec (len ip + len rest) (ihl * 4)); [lia|]. cbn [negb Z.eqb Pos.eqb].
  unfold inet4_addr. rewrite !inet_addr_ok by (rewrite len_app; lia). cbn [and_then].
  rewrite !slice_app_l by lia. unfold shown. do 4 f_equal. lia.
Qed.

Lemma dump_packet_udp dl_type l ip src dst rest :
  carries_ip dl_type l -> udp_header ip src dst -> len (ip ++ rest) < 2 ^ 31 ->
  dump_packet inet_ntop dl_type (l ++ ip ++ rest) =
    then* text := show_payload (shown src) (shown dst) (l ++ ip ++ rest) (len l + (len ip + 8)) in Continues (Some text).
Proof.
  intros Hl Hip Hsmall. unfold dump_packet. rewrite Hl. cbn [and_then].
  rewrite (len_app l). replace (len l + len (ip ++ rest) - len l) with (len (ip ++ rest)) by lia.
  unfold s32. rewrite u32_small by lia. destruct (Z.ltb_spec (len (ip ++ rest)) (2 ^ 31)); [|lia].
  rewrite zdrop_app_exact, (process_udp ip src dst) by done. done.
Qed.


(** A truncated UDP packet ends the packet dumper.  When less than the eight bytes of
    the UDP header are captured behind the IPv4 header, the length of the payload
    wraps around, a string of that length cannot be made, and the exception,
    which nothing catches, ends the program. *)
Theorem tcpdump_truncated dl_type l ip src dst udp captures :
  carries_ip dl_type l -> udp_header ip src dst -> (length udp < 8)%nat -> len l < 2 ^ 31 ->
  dump_packet inet_ntop dl_type (l ++ ip ++ udp) = Raises (length_error "basic_string::_M_create") /\
  (capture_loop inet_ntop dl_type (Packet (l ++ ip ++ udp) :: captures)).2 = Some (Raises (length_error "basic_string::_M_create")).
Proof.
  intros Hl Hip Hu Hll. pose proof (uh_length _ _ _ Hip) as (ihl & Hihl & _ & Hil).
  assert (dump_packet inet_ntop dl_type (l ++ ip ++ udp) = Raises (length_error "basic_string::_M_create")) as E.
  { rewrite (dump_packet_udp dl_type l ip src dst) by (done || (rewrite !len_app; lia)). unfold show_payload. rewrite !len_app.
    replace (len l + (len ip + len udp) - (len l + (len ip + 8))) with (len udp - 8) by lia.
    assert (u64 (len udp - 8) = 2 ^ 64 + (len udp - 8)) as ->.
    { unfold u64. symmetry. apply Z.mod_unique with (q := -1); lia. }
    destruct (Z.ltb_spec string_max_size (2 ^ 64 + (len udp - 8))) as [_|H]; [done|unfold string_max_size in H; lia]. }
  split; [done|]. cbn [capture_loop]. by rewrite E.
Qed.

(** A segment with a wrong checksum is shown with a header of zeros: the header is
    not parsed. *)
Lemma incorrect_shows_zeros src dst pkt off :
  0 <= off <= len pkt -> len pkt < 2 ^ 31 ->
  value (Checksum.add (zdrop off pkt) (InternetChecksum_of 0)) <> 0 ->
  show_payload src dst pkt off =
    Continues (segment_text src dst TCPSegment_default false (len pkt - off) ++ hexdump (zdrop off pkt) 8).
Proof.
  intros Ho Hl Hv. unfold show_payload. rewrite u64_small by lia.
  destruct (Z.ltb_spec string_max_size (len pkt - off)) as [H|_]; [unfold string_max_size in H; lia|].
  assert (slice off (len pkt - off) pkt = zdrop off pkt) as ->. { unfold slice. apply ztake_all. rewrite len_zdrop; lia. }
  unfold TCPSegment_parse. rewrite str_Buffer_of by (rewrite len_zdrop; lia).
  destruct (Z.eqb_spec (value (Checksum.add (zdrop off pkt) (InternetChecksum_of 0))) 0); [done|]. done.
Qed.
End properties.

(** ** A packet on an Ethernet *)

Definition demo_ntop (n : nat) (address : list byte) : option (list byte) :=
  match n with 4%nat => Some (inet_ntoa (be_val address)) | _ => None end.
Definition demo_link : list byte := replicate 12 (z2b 2) ++ [z2b 8; z2b 0].
Definition demo_ip : list byte :=
  map z2b [0x45; 0; 0; 48; 0; 0; 0; 0; 64; 0x11; 0; 0; 10; 0; 0; 1; 10; 0; 0; 2].
Definition demo_udp : list byte := replicate 8 (z2b 7).
Definition demo_segment : TCPSegment :=
  mkTCPSegment (mkTCPHeader 1234 80 (WrappingInt32_of 1000) (WrappingInt32_of 0) 5 false false true false true false 500 0 0)
    (Buffer_of (lit "hi")).

Lemma demo_carries : carries_ip DLT_EN10MB demo_link.
Proof. intros rest. unfold link_header, typed_link. rewrite len_app. destruct (Z.ltb_spec (len demo_link + len rest) 14) as [H|_]; [simpl in H; lia|done]. Qed.

Lemma demo_ip_udp : udp_header demo_ip (map z2b [10; 0; 0; 1]) (map z2b [10; 0; 0; 2]).
Proof. split; [exists 5; split_and!; [lia..|done|done]|done..]. Qed.

Lemma process_in_bounds_witness :
  exists r, process_ipv4_ipv6 demo_ntop (len (demo_ip ++ demo_udp)) (demo_ip ++ demo_udp) = Continues r /\
    forall off src dst, r = Some (off, src, dst) -> 8 <= off <= len (demo_ip ++ demo_udp) + 8.
Proof. apply (process_in_bounds demo_ntop (demo_ip ++ demo_udp)). vm_compute. split; [discriminate|reflexivity]. Defined.


Lemma tcpdump_truncated_witness :
  dump_packet demo_ntop DLT_EN10MB (demo_link ++ demo_ip ++ take 7 demo_udp) = Raises (length_error "basic_string::_M_create").
Proof.
  apply (tcpdump_truncated demo_ntop DLT_EN10MB demo_link demo_ip (map z2b [10; 0; 0; 1]) (map z2b [10; 0; 0; 2]) (take 7 demo_udp) []);
    [apply demo_carries|apply demo_ip_udp|simpl; lia|reflexivity].
Defined.
