(* ===== verification/NetworkSimulator.v ===== *)
(** The network simulator: [apps/network_simulator.cc], which connects hosts to the
    interfaces of a [Router], sends datagrams between them and checks that they
    arrive.  Since the router is a stub, its first test fails
    ([network_simulator_fails]).

    The random numbers are arguments: [values] gives the six numbers of each
    Ethernet address, and [payloads] those in the texts of the datagrams.  The hosts are
    in a hash map, which [simulate] visits in an order that is an argument.  What is
    printed matters only where making the text can throw. *)
From S2P Require Import Prelude StdMap Text Buffer Parser IPv4 Ethernet Address Resolver Texts NetworkInterface Router.

(** ** Addresses *)

Definition random_host_ethernet_address (values : list Z) : EthernetAddress :=
  match map z2b (take 6 values) with
  | [] => []
  | first :: rest => z2b (Z.land (Z.lor (b2z first) 0x02) 0xfe) :: rest
  end.

Definition random_router_ethernet_address (values : list Z) : EthernetAddress :=
  [z2b 0x02; z2b 0; z2b 0] ++ drop 3 (map z2b (take 6 values)).

Section simulator.
Context (getaddrinfo : list byte -> list byte -> addrinfo -> Z * option (list byte * Z))
  (getnameinfo : list byte -> Z -> Z * list byte * list byte).

(** [Address{str}] *)
Definition address_of (str : string) : result Address := Address_of_ip getaddrinfo (lit str) 0.
Definition ip_of (str : string) : result Z := let* a := address_of str in ipv4_numeric a.

(** The constructor of an interface prints its IP address. *)
Definition new_interface (ethernet_address : EthernetAddress) (ip_address : Address) : result AsyncNetworkInterface :=
  let* _ := ip getnameinfo ip_address in
  Ok (AsyncNetworkInterface_of (NetworkInterface_of ethernet_address ip_address)).

(** ** Frames between interfaces *)

(** The text that is shown for a frame. *)
Definition frame_summary (f : EthernetFrame) : result (list byte) :=
  let ret := EthernetHeader_to_string (Ethernet.header f) in
  if type (Ethernet.header f) =? TYPE_IPv4 then
    let* b := to_Buffer (Ethernet.payload f) in
    let* (r, dgram) := IPv4Datagram_parse b IPv4Datagram_default in
    if bool_decide (r = NoError)
    then Ok (ret ++ lit " " ++ IPv4Header_summary (IPv4.header dgram) ++ lit " payload=" ++ [z2b 34] ++ concatenate (IPv4.payload dgram) ++ [z2b 34])
    else Ok (ret ++ lit " (bad IPv4)")
  else if type (Ethernet.header f) =? TYPE_ARP then
    let* b := to_Buffer (Ethernet.payload f) in
    let* (r, arp) := ARPMessage_parse b ARPMessage_default in
    if bool_decide (r = NoError) then Ok (ret ++ lit " " ++ ARPMessage_to_string arp) else Ok (ret ++ lit " (bad ARP)")
  else Ok ret.

(** [deliver]: every frame, as one buffer, to the destination. *)
Fixpoint deliver (src : list EthernetFrame) (dst : AsyncNetworkInterface) : partial AsyncNetworkInterface :=
  match src with
  | [] => done_with dst
  | f :: src =>
      let f := mkEthernetFrame (Ethernet.header f) (BufferList_of_string (concatenate (Ethernet.payload f))) in
      run* _ := lift_run (frame_summary f) in
      match async_recv_frame f dst with
      | None => None
      | Some (Throw e, _) => Some (Throw e)
      | Some (Ok _, dst) => deliver src dst
      end
  end.

Definition frames_out (i : AsyncNetworkInterface) : list EthernetFrame := _frames_out (base i).

(** [clear]: as many elements off the second queue as the first has. *)
Fixpoint clear {A} (queue1 queue2 : list A) : list A :=
  match queue1 with
  | [] => queue2
  | _ :: queue1 => clear queue1 (tail queue2)
  end.

Definition clear_frames (frames : list EthernetFrame) (i : AsyncNetworkInterface) : AsyncNetworkInterface :=
  mkAsyncNetworkInterface (set_frames_out (clear frames (frames_out i)) (base i)) (_datagrams_out i).

Definition exchange_frames (x y : AsyncNetworkInterface) : partial (AsyncNetworkInterface * AsyncNetworkInterface) :=
  let x_frames := frames_out x in
  let y_frames := frames_out y in
  run* y := deliver x_frames y in
  run* x := deliver y_frames x in
  done_with (clear_frames x_frames x, clear_frames y_frames y).

(** The same for three interfaces on one wire. *)
Definition exchange_frames3 (x y z : AsyncNetworkInterface) : partial (AsyncNetworkInterface * AsyncNetworkInterface * AsyncNetworkInterface) :=
  let x_frames := frames_out x in
  let y_frames := frames_out y in
  let z_frames := frames_out z in
  run* y := deliver x_frames y in
  run* z := deliver x_frames z in
  run* x := deliver y_frames x in
  run* z := deliver y_frames z in
  run* x := deliver z_frames x in
  run* y := deliver z_frames y in
  done_with (clear_frames x_frames x, clear_frames y_frames y, clear_frames z_frames z).

(** ** Hosts *)

Record Host := mkHost {
  _name : list byte;
  _my_address : Address;
  _interface : AsyncNetworkInterface;
  _next_hop : Address;
  _expecting_to_receive : list IPv4Datagram }.

Definition Host_of (name : string) (values : list Z) (my_address next_hop : string) : result Host :=
  let* a := address_of my_address in
  let* h := address_of next_hop in
  let* i := new_interface (random_host_ethernet_address values) a in
  Ok (mkHost (lit name) a i h []).

Definition set_interface (i : AsyncNetworkInterface) (h : Host) : Host :=
  mkHost (_name h) (_my_address h) i (_next_hop h) (_expecting_to_receive h).
Definition set_expecting (l : list IPv4Datagram) (h : Host) : Host :=
  mkHost (_name h) (_my_address h) (_interface h) (_next_hop h) l.

(** [x.serialize().concatenate() == y.serialize().concatenate()] *)
Definition same_serialized (x y : IPv4Datagram) : result bool :=
  let* a := IPv4Datagram_serialize x in
  let* b := IPv4Datagram_serialize y in
  Ok (bool_decide (concatenate a = concatenate b)).

(** The loops of [expecting] and of [remove_expectation] over the list. *)
Fixpoint expecting (l : list IPv4Datagram) (expected : IPv4Datagram) : result bool :=
  match l with
  | [] => Ok false
  | x :: l => let* same := same_serialized x expected in if same then Ok true else expecting l expected
  end.

Fixpoint remove_expectation (l : list IPv4Datagram) (expected : IPv4Datagram) : result (list IPv4Datagram) :=
  match l with
  | [] => Ok []
  | x :: l =>
      let* same := same_serialized x expected in
      if same then Ok l else let* l := remove_expectation l expected in Ok (x :: l)
  end.

Definition random_payload (value : Z) : list byte := lit "random payload: {" ++ to_string value ++ lit "}".

Definition set_ttl (ttl : Z) (d : IPv4Datagram) : IPv4Datagram :=
  let h := IPv4.header d in
  mkIPv4Datagram (mkIPv4Header (ver h) (hlen h) (tos h) (tot_len h) (ident h) (df h) (mf h) (offset h) ttl (proto h)
    (IPv4.cksum h) (IPv4.src h) (IPv4.dst h)) (IPv4.payload d).

(** The datagram [send_to] makes. *)
Definition new_datagram (src dst ttl value : Z) : IPv4Datagram :=
  let h := IPv4Header_default in
  let payload := BufferList_of_string (random_payload value) in
  mkIPv4Datagram (mkIPv4Header (ver h) (hlen h) (tos h) (u16 (hlen h * 4 + list_size payload)) (ident h) (df h) (mf h) (offset h) ttl
    (proto h) (IPv4.cksum h) src dst) payload.

Definition send_to (destination : Address) (ttl value : Z) (h : Host) : partial (IPv4Datagram * Host) :=
  run* src := lift_run (ipv4_numeric (_my_address h)) in
  run* dst := lift_run (ipv4_numeric destination) in
  let dgram := new_datagram src dst ttl value in
  match send_datagram dgram (_next_hop h) (base (_interface h)) with
  | (Throw e, _) => Some (Throw e)
  | (Ok _, n) =>
      run* _ := lift_run (ip getnameinfo (_next_hop h)) in
      done_with (dgram, set_interface (mkAsyncNetworkInterface n (_datagrams_out (_interface h))) h)
  end.

Definition expect (expected : IPv4Datagram) (h : Host) : Host := set_expecting (_expecting_to_receive h ++ [expected]) h.

(** A datagram in an error message. *)
Definition dgram_text (d : IPv4Datagram) : list byte :=
  IPv4Header_summary (IPv4.header d) ++ lit " payload=" ++ [z2b 34] ++ concatenate (IPv4.payload d) ++ [z2b 34].

Definition host_error (h : Host) (what : string) (d : IPv4Datagram) : exn :=
  runtime_error (String.string_of_list_byte (lit "Host " ++ _name h ++ lit what ++ dgram_text d)).

(** The loop of [check] over the datagrams that were received. *)
Fixpoint check_received (received : list IPv4Datagram) (h : Host) : result Host :=
  match received with
  | [] => Ok (set_interface (mkAsyncNetworkInterface (base (_interface h)) []) h)
  | d :: received =>
      let* e := expecting (_expecting_to_receive h) d in
      if negb e then Throw (host_error h " received unexpected Internet datagram: " d)
      else let* l := remove_expectation (_expecting_to_receive h) d in check_received received (set_expecting l h)
  end.

Definition check (h : Host) : result Host :=
  let* h := check_received (_datagrams_out (_interface h)) h in
  match _expecting_to_receive h with
  | [] => Ok h
  | expected :: _ => Throw (host_error h " did NOT receive an expected Internet datagram: " expected)
  end.

(** ** The network *)

Record Network := mkNetwork {
  _router : Router;
  default_id : Z; eth0_id : Z; eth1_id : Z; eth2_id : Z; uun3_id : Z; hs4_id : Z; mit5_id : Z;
  _hosts : list Host }.

(** The router with one more interface, and the interface's number. *)
Definition add_new_interface (values : list Z) (address : string) (r : Router) : result (Z * Router) :=
  let* a := address_of address in
  let* i := new_interface (random_router_ethernet_address values) a in
  Ok (add_interface i r).

(** [host(name)] *)
Fixpoint find_host (name : list byte) (hosts : list Host) : result Host :=
  match hosts with
  | [] => Throw (runtime_error (String.string_of_list_byte (lit "unknown host: " ++ name)))
  | h :: hosts => if bool_decide (_name h = name) then Ok h else find_host name hosts
  end.
Definition host (name : string) (n : Network) : result Host := find_host (lit name) (_hosts n).

(** The owner works on hosts by reference. *)
Fixpoint put_host (h : Host) (hosts : list Host) : list Host :=
  match hosts with
  | [] => []
  | x :: hosts => if bool_decide (_name x = _name h) then h :: hosts else x :: put_host h hosts
  end.
Definition set_hosts (hosts : list Host) (n : Network) : Network :=
  mkNetwork (_router n) (default_id n) (eth0_id n) (eth1_id n) (eth2_id n) (uun3_id n) (hs4_id n) (mit5_id n) hosts.
Definition set_router (r : Router) (n : Network) : Network :=
  mkNetwork r (default_id n) (eth0_id n) (eth1_id n) (eth2_id n) (uun3_id n) (hs4_id n) (mit5_id n) (_hosts n).

Definition add_route_to (prefix : string) (prefix_length : Z) (next_hop : option Address) (interface_num : Z) (r : Router) : result Router :=
  let* p := ip_of prefix in add_route getnameinfo p prefix_length next_hop interface_num r.

(** The constructor; the groups of random values in the order of the code. *)
Definition Network_of (values : nat -> list Z) : result Network :=
  let r := Router_empty in
  let* (default_id, r) := add_new_interface (values 0%nat) "171.67.76.46" r in
  let* (eth0_id, r) := add_new_interface (values 1%nat) "10.0.0.1" r in
  let* (eth1_id, r) := add_new_interface (values 2%nat) "172.16.0.1" r in
  let* (eth2_id, r) := add_new_interface (values 3%nat) "192.168.0.1" r in
  let* (uun3_id, r) := add_new_interface (values 4%nat) "198.178.229.1" r in
  let* (hs4_id, r) := add_new_interface (values 5%nat) "143.195.0.2" r in
  let* (mit5_id, r) := add_new_interface (values 6%nat) "128.30.76.255" r in
  let* applesauce := Host_of "applesauce" (values 7%nat) "10.0.0.2" "10.0.0.1" in
  let* default_router := Host_of "default_router" (values 8%nat) "171.67.76.1" "0" in
  let* cherrypie := Host_of "cherrypie" (values 9%nat) "192.168.0.2" "192.168.0.1" in
  let* hs_router := Host_of "hs_router" (values 10%nat) "143.195.0.1" "0" in
  let* dm42 := Host_of "dm42" (values 11%nat) "198.178.229.42" "198.178.229.1" in
  let* dm43 := Host_of "dm43" (values 12%nat) "198.178.229.43" "198.178.229.1" in
  let hosts := [applesauce; default_router; cherrypie; hs_router; dm42; dm43] in
  let* default_host := find_host (lit "default_router") hosts in
  let* r := add_route_to "0.0.0.0" 0 (Some (_my_address default_host)) default_id r in
  let* r := add_route_to "10.0.0.0" 8 None eth0_id r in
  let* r := add_route_to "172.16.0.0" 16 None eth1_id r in
  let* r := add_route_to "192.168.0.0" 24 None eth2_id r in
  let* r := add_route_to "198.178.229.0" 24 None uun3_id r in
  let* hs_host := find_host (lit "hs_router") hosts in
  let* r := add_route_to "143.195.0.0" 17 (Some (_my_address hs_host)) hs4_id r in
  let* r := add_route_to "143.195.128.0" 18 (Some (_my_address hs_host)) hs4_id r in
  let* r := add_route_to "143.195.192.0" 19 (Some (_my_address hs_host)) hs4_id r in
  let* mit := address_of "128.30.0.1" in
  let* r := add_route_to "128.30.76.255" 16 (Some mit) mit5_id r in
  Ok (mkNetwork r default_id eth0_id eth1_id eth2_id uun3_id hs4_id mit5_id hosts).

(** A wire between an interface of the router and a host. *)
Definition wire (id : Z) (name : string) (n : Network) : partial Network :=
  run* x := lift_run (interface id (_router n)) in
  run* h := lift_run (host name n) in
  run* (x, y) := exchange_frames x (_interface h) in
  done_with (set_hosts (put_host (set_interface y h) (_hosts n)) (set_router (update_interface id x (_router n)) n)).

(** A wire between an interface of the router and two hosts. *)
Definition wire3 (id : Z) (name1 name2 : string) (n : Network) : partial Network :=
  run* x := lift_run (interface id (_router n)) in
  run* h1 := lift_run (host name1 n) in
  run* h2 := lift_run (host name2 n) in
  run* (x, y, z) := exchange_frames3 x (_interface h1) (_interface h2) in
  done_with (set_hosts (put_host (set_interface z h2) (put_host (set_interface y h1) (_hosts n)))
    (set_router (update_interface id x (_router n)) n)).

Definition simulate_physical_connections (n : Network) : partial Network :=
  run* n := wire (default_id n) "default_router" n in
  run* n := wire (eth0_id n) "applesauce" n in
  run* n := wire (eth2_id n) "cherrypie" n in
  run* n := wire (hs4_id n) "hs_router" n in
  wire3 (uun3_id n) "dm42" "dm43" n.

(** The first loop of [simulate]. *)
Fixpoint rounds (k : nat) (n : Network) : partial Network :=
  match k with
  | O => done_with n
  | S k =>
      run* n := simulate_physical_connections (set_router (route (_router n)) n) in
      rounds k n
  end.

(** The second loop, over the hosts in the order of the hash map. *)
Fixpoint check_hosts (order : list string) (n : Network) : result Network :=
  match order with
  | [] => Ok n
  | name :: order =>
      let* h := host name n in
      let* h := check h in
      check_hosts order (set_hosts (put_host h (_hosts n)) n)
  end.

Definition simulate (order : list string) (n : Network) : partial Network :=
  run* n := rounds 256 n in lift_run (check_hosts order n).

(** One test: [from] sends to [destination], and [expected_at], if any, expects the
    datagram with its time to live reduced. *)
Definition test (order : list string) (from : string) (destination : Address) (ttl value : Z) (expected_at : option string) (n : Network) :
    partial Network :=
  run* h := lift_run (host from n) in
  run* (dgram_sent, h) := send_to destination ttl value h in
  let n := set_hosts (put_host h (_hosts n)) n in
  match expected_at with
  | None => simulate order n
  | Some name =>
      run* e := lift_run (host name n) in
      let dgram_sent := set_ttl (u8 (IPv4.ttl (IPv4.header dgram_sent) - 1)) dgram_sent in
      simulate order (set_hosts (put_host (expect dgram_sent e) (_hosts n)) n)
  end.

(** The address of a host. *)
Definition host_address (name : string) (n : Network) : result Address := let* h := host name n in Ok (_my_address h).

Definition network_simulator (values : nat -> list Z) (payloads : nat -> Z) (order : list string) : partial Network :=
  run* n := lift_run (Network_of values) in
  run* a := lift_run (host_address "cherrypie" n) in
  run* n := test order "applesauce" a 64 (payloads 0%nat) (Some "cherrypie"%string) n in
  run* a := lift_run (host_address "applesauce" n) in
  run* n := test order "cherrypie" a 64 (payloads 1%nat) (Some "applesauce"%string) n in
  run* a := lift_run (address_of "1.2.3.4") in
  run* n := test order "applesauce" a 64 (payloads 2%nat) (Some "default_router"%string) n in
  run* a := lift_run (address_of "143.195.131.17") in
  run* n := test order "applesauce" a 64 (payloads 3%nat) (Some "hs_router"%string) n in
  run* a := lift_run (address_of "143.195.193.52") in
  run* n := test order "cherrypie" a 64 (payloads 4%nat) (Some "hs_router"%string) n in
  run* a := lift_run (address_of "143.195.223.255") in
  run* n := test order "cherrypie" a 64 (payloads 5%nat) (Some "hs_router"%string) n in
  run* a := lift_run (address_of "143.195.224.0") in
  run* n := test order "cherrypie" a 64 (payloads 6%nat) (Some "default_router"%string) n in
  run* a := lift_run (host_address "dm43" n) in
  run* n := test order "dm42" a 64 (payloads 7%nat) (Some "dm43"%string) n in
  run* a := lift_run (address_of "1.2.3.4") in
  run* n := test order "applesauce" a 1 (payloads 8%nat) None n in
  run* a := lift_run (address_of "1.2.3.4") in
  test order "applesauce" a 0 (payloads 9%nat) None n.

(** [main]: the status. *)
Definition simulator_main (values : nat -> list Z) (payloads : nat -> Z) (order : list string) : option Z :=
  match network_simulator values payloads order with
  | None => None
  | Some (Ok _) => Some 0
  | Some (Throw _) => Some 1
  end.
End simulator.

(** ** Frames on a wire *)

Lemma clear_app {A} (q r : list A) : clear q (q ++ r) = r.
Proof. induction q as [|x q IH]; [done|]. exact IH. Qed.

(** A frame small enough to be in memory comes off the wire in one buffer. *)
Definition small (f : EthernetFrame) : Prop := len (concatenate (Ethernet.payload f)) < 2 ^ 64.

(** The frame that arrives. *)
Definition arriving (f : EthernetFrame) : EthernetFrame :=
  mkEthernetFrame (Ethernet.header f) (BufferList_of_string (concatenate (Ethernet.payload f))).

Lemma arriving_received f : small f -> received (arriving f).
Proof. intros Hf. exists (Buffer_of (concatenate (Ethernet.payload f))). split; [done|by apply wf_Buffer_of]. Qed.

Lemma frame_summary_ok f : received f -> exists text, frame_summary f = Ok text.
Proof.
  intros (b & Hb & Hwf). unfold frame_summary. rewrite Hb. cbn [to_Buffer BufferList_of_Buffer _buffers bind].
  destruct (_ =? TYPE_IPv4).
  - destruct (IPv4Datagram_parse_returns b IPv4Datagram_default Hwf) as (r & d & -> & _). cbn [bind]. destruct (bool_decide _); by eexists.
  - destruct (_ =? TYPE_ARP); [|by eexists].
    destruct (ARPMessage_parse_total b ARPMessage_default Hwf) as (r & m & -> & _). cbn [bind]. destruct (bool_decide _); by eexists.
Qed.

Lemma arp_small h m : wf_message m -> small (mkEthernetFrame h (arp_payload m)).
Proof.
  intros Hm. destruct (ARPMessage_parse_serialize m ARPMessage_default Hm) as (s & E & Hl & _). unfold small, arp_payload. rewrite E. simpl.
  unfold ARP_LENGTH in Hl. rewrite concatenate_of_string by lia. lia.
Qed.

Lemma dgram_small h d : sendable d -> small (mkEthernetFrame h (dgram_payload d)).
Proof.
  intros [Hw Hl]. destruct (IPv4Datagram_parse_serialize d IPv4Datagram_default Hw Hl) as (bl & v & E & Hlen & _).
  pose proof Hw as []. unfold small, dgram_payload. rewrite E. simpl. lia.
Qed.

(** The frames an interface adds when it learns. *)
Lemma learned_frames m my_ip n :
  wf_interface n -> addressed n my_ip -> wf_message m ->
  exists new, _frames_out (learned m my_ip n) = _frames_out n ++ new /\ Forall small new /\
    (_waiting_arp_internet_datagrams n = [] ->
     Forall (fun f => type (Ethernet.header f) = TYPE_ARP) new /\ _waiting_arp_internet_datagrams (learned m my_ip n) = []).
Proof.
  intros Hwf (He & Hi & Hu) Hm. eexists. split; [reflexivity|]. split.
  - apply Forall_app. split.
    + unfold answers. destruct (is_request m my_ip); [|by apply Forall_nil]. apply Forall_singleton. apply arp_small, reply_wf; try done; apply Hm.
    + apply Forall_map, Forall_forall. intros p Hp%list_elem_of_In%filter_In. destruct Hp as [Hp _]. apply list_elem_of_In in Hp.
      pose proof (wi_waiting n Hwf) as Hw. rewrite Forall_forall in Hw. apply dgram_small. by apply Hw.
  - intros E. cbn [learned _waiting_arp_internet_datagrams]. rewrite E. split; [|done]. cbn [List.filter map]. rewrite app_nil_r. unfold answers.
    destruct (is_request m my_ip); [by apply Forall_singleton|by apply Forall_nil].
Qed.

(** One frame at an interface: no exception, and only small frames in return. *)
Lemma async_recv_ok f i :
  wf_interface (base i) -> received f ->
  exists i' new, async_recv_frame f i = Some (Ok tt, i') /\ wf_interface (base i') /\
    frames_out i' = frames_out i ++ new /\ Forall small new /\
    (type (Ethernet.header f) = TYPE_ARP -> _datagrams_out i' = _datagrams_out i) /\
    (_waiting_arp_internet_datagrams (base i) = [] ->
     Forall (fun f => type (Ethernet.header f) = TYPE_ARP) new /\ _waiting_arp_internet_datagrams (base i') = []).
Proof.
  intros Hwf Hf. destruct (wi_addressed _ Hwf) as [my_ip Ha]. destruct (recv_frame_cases f (base i) my_ip Hwf Hf Ha) as (d & n' & E & Hn & Harp).
  assert (exists new, _frames_out n' = frames_out i ++ new /\ wf_interface n' /\ Forall small new /\
    (_waiting_arp_internet_datagrams (base i) = [] ->
     Forall (fun f => type (Ethernet.header f) = TYPE_ARP) new /\ _waiting_arp_internet_datagrams n' = [])) as (new & H1 & H2 & H3 & H4).
  { destruct Hn as [->|(m & Hm & ->)].
    - exists []. rewrite app_nil_r. by split_and!.
    - destruct (learned_frames m my_ip (base i) Hwf Ha Hm) as (new & ? & ? & ?). exists new. split_and!; try done. by apply learned_wf. }
  unfold async_recv_frame. rewrite E. destruct d as [d|]; eexists _, new; (split; [reflexivity|]); (split_and!; try done).
  intros Ht. by specialize (Harp Ht).
Qed.

Lemma deliver_ok src i :
  wf_interface (base i) -> Forall small src ->
  exists i' new, deliver src i = done_with i' /\ wf_interface (base i') /\ frames_out i' = frames_out i ++ new /\ Forall small new /\
    (Forall (fun f => type (Ethernet.header f) = TYPE_ARP) src -> _datagrams_out i' = _datagrams_out i) /\
    (_waiting_arp_internet_datagrams (base i) = [] ->
     Forall (fun f => type (Ethernet.header f) = TYPE_ARP) new /\ _waiting_arp_internet_datagrams (base i') = []).
Proof.
  intros Hwf Hs. revert i Hwf. induction Hs as [|f src Hf _ IH]; intros i Hwf; cbn [deliver].
  - exists i, []. rewrite app_nil_r. by split_and!.
  - fold (arriving f). destruct (frame_summary_ok _ (arriving_received f Hf)) as [text ->]. cbn [run_bind lift_run].
    destruct (async_recv_ok (arriving f) i Hwf (arriving_received f Hf)) as (i1 & n1 & -> & W1 & F1 & S1 & D1 & A1).
    destruct (IH i1 W1) as (i2 & n2 & -> & W2 & F2 & S2 & D2 & A2). exists i2, (n1 ++ n2).
    rewrite F2, F1, <- app_assoc. split_and!; try done; [by apply Forall_app|..].
    + intros [Ht Hts]%Forall_cons. rewrite D2 by done. by apply D1.
    + intros Ew. destruct (A1 Ew) as [H1 H2]. destruct (A2 H2) as [H3 H4]. split; [by apply Forall_app|done].
Qed.

Lemma wf_frames q n : wf_interface n -> wf_interface (set_frames_out q n).
Proof. intros []. by split. Qed.

(** ** Two interfaces on a wire, one of which has nothing to send but ARP *)

Definition all_arp (frames : list EthernetFrame) : Prop := Forall (fun f => type (Ethernet.header f) = TYPE_ARP) frames.

(** The router's side [e], and the host's side [y] that has received no datagram. *)
Record arp_only (e y : AsyncNetworkInterface) : Prop := {
  ao_wf_e : wf_interface (base e);
  ao_wf_y : wf_interface (base y);
  ao_waiting : _waiting_arp_internet_datagrams (base e) = [];
  ao_small_e : Forall small (frames_out e);
  ao_arp : all_arp (frames_out e);
  ao_small_y : Forall small (frames_out y);
  ao_received : _datagrams_out y = [] }.

Lemma exchange_arp e y :
  arp_only e y -> exists e' y', exchange_frames (emptied e) y = done_with (e', y') /\ arp_only e' y'.
Proof.
  intros [We Wy Hw Se Ha Sy Hd]. unfold exchange_frames. change (frames_out (emptied e)) with (frames_out e).
  destruct (deliver_ok (frames_out e) y Wy Se) as (y1 & n1 & -> & W1 & F1 & S1 & D1 & _). cbn [run_bind done_with].
  destruct (deliver_ok (frames_out y) (emptied e) We Sy) as (e1 & n2 & -> & W2 & F2 & S2 & _ & A2). cbn [run_bind done_with].
  destruct (A2 Hw) as [A3 A4]. eexists _, _. split; [reflexivity|]. unfold clear_frames. rewrite F1, F2. change (frames_out (emptied e)) with (frames_out e).
  rewrite !clear_app. split; try done; [by apply wf_frames|by apply wf_frames|]. cbn [_datagrams_out]. by rewrite D1.
Qed.

(** Interfaces that have nothing to send stay as they are. *)
Lemma clear_frames_nil i : clear_frames [] i = i.
Proof. by destruct i as [[] ?]. Qed.

Lemma exchange_silent x y : frames_out x = [] -> frames_out y = [] -> exchange_frames x y = done_with (x, y).
Proof. intros Hx Hy. unfold exchange_frames. rewrite Hx, Hy. cbn [deliver run_bind done_with]. by rewrite !clear_frames_nil. Qed.

Lemma exchange3_silent x y z :
  frames_out x = [] -> frames_out y = [] -> frames_out z = [] -> exchange_frames3 x y z = done_with (x, y, z).
Proof.
  intros Hx Hy Hz. unfold exchange_frames3. rewrite Hx, Hy, Hz. cbn [deliver run_bind done_with]. by rewrite !clear_frames_nil.
Qed.

Lemma set_interface_same h : set_interface (_interface h) h = h.
Proof. by destruct h. Qed.

(** ** The datagrams of the hosts *)

Lemma length_decimal fuel n acc : (length (decimal fuel n acc) <= fuel + length acc)%nat.
Proof.
  revert n acc. induction fuel as [|fuel IH]; intros n acc; [done|]. cbn [decimal]. destruct (n <? 10); [simpl; lia|].
  etransitivity; [apply IH|]. simpl. lia.
Qed.

Lemma len_random_payload v : 0 <= v < 2 ^ 32 -> 0 <= len (random_payload v) <= 52.
Proof.
  intros Hv. unfold random_payload, to_string. rewrite (proj2 (Z.ltb_ge v 0)), Z.abs_eq by lia. rewrite app_nil_l.
  pose proof (length_decimal (S (Z.to_nat (Z.log2 v))) v []) as Hl. simpl length in Hl at 2.
  assert (Z.log2 v < 32) by (destruct (Z.eq_dec v 0) as [->|]; [done|apply Z.log2_lt_pow2; lia]).
  rewrite !len_app. change (len (lit "random payload: {")) with 17. change (len (lit "}")) with 1. lia.
Qed.

Lemma new_datagram_sendable src dst ttl v :
  u32_value src -> u32_value dst -> 0 <= ttl < 2 ^ 8 -> 0 <= v < 2 ^ 32 -> sendable (new_datagram src dst ttl v).
Proof.
  intros Hs Hd Ht Hv. pose proof (len_random_payload v Hv) as Hl.
  assert (list_size (BufferList_of_string (random_payload v)) = len (random_payload v)) as E.
  { rewrite list_size_eq; rewrite <- concatenate_eq, concatenate_of_string; lia. }
  unfold sendable, new_datagram. cbn [IPv4.header IPv4.payload]. rewrite E, concatenate_of_string by lia.
  change (hlen IPv4Header_default) with 5. rewrite u16_small by lia. cbn [hlen tot_len]. split; [|lia].
  split; cbn [ver hlen tos tot_len ident df mf offset IPv4.ttl proto IPv4.cksum IPv4.src IPv4.dst IPv4Header_default]; try done; try lia.
Qed.

(** ** The simulated network *)

Section network.
Context `{NumericResolver getaddrinfo getnameinfo} (values : nat -> list Z).
Hypothesis address_of_zero : address_of getaddrinfo "0" = Ok (ipv4 0).
Hypothesis six_values : forall k, (6 <= length (values k))%nat.

Lemma address_of_quad s i : lit s = inet_ntoa i -> 0 <= i < 2 ^ 32 -> address_of getaddrinfo s = Ok (ipv4 i).
Proof. intros E Hi. unfold address_of. rewrite E. apply Address_of_ip_endpoint; [done|lia]. Qed.

Lemma ip_ipv4 i : 0 <= i < 2 ^ 32 -> ip getnameinfo (ipv4 i) = Ok (inet_ntoa i).
Proof. intros Hi. unfold ip, ipv4. by rewrite ip_port_endpoint by (done || lia). Qed.

(** An interface that has just been made. *)
Definition fresh_interface (eth : EthernetAddress) (i : Z) : AsyncNetworkInterface :=
  AsyncNetworkInterface_of (NetworkInterface_of eth (ipv4 i)).

Lemma add_new_interface_eq v s i r :
  lit s = inet_ntoa i -> 0 <= i < 2 ^ 32 ->
  add_new_interface getaddrinfo getnameinfo v s r = Ok (add_interface (fresh_interface (random_router_ethernet_address v) i) r).
Proof.
  intros E Hi. unfold add_new_interface, new_interface. rewrite (address_of_quad s i) by done. cbn [bind]. by rewrite ip_ipv4.
Qed.

Lemma Host_of_eq name v s i t j :
  lit s = inet_ntoa i -> 0 <= i < 2 ^ 32 -> address_of getaddrinfo t = Ok (ipv4 j) ->
  Host_of getaddrinfo getnameinfo name v s t =
    Ok (mkHost (lit name) (ipv4 i) (fresh_interface (random_host_ethernet_address v) i) (ipv4 j) []).
Proof.
  intros E Hi Hj. unfold Host_of, new_interface. rewrite (address_of_quad s i), Hj by done. cbn [bind]. by rewrite ip_ipv4.
Qed.

Lemma add_route_to_eq s i plen next_hop num r :
  lit s = inet_ntoa i -> 0 <= i < 2 ^ 32 -> match next_hop with Some h => exists j, h = ipv4 j /\ 0 <= j < 2 ^ 32 | None => True end ->
  add_route_to getaddrinfo getnameinfo s plen next_hop num r = Ok r.
Proof.
  intros E Hi Hh. unfold add_route_to, ip_of, add_route. rewrite (address_of_quad s i) by done. cbn [bind].
  rewrite ipv4_numeric_ipv4 by done. cbn [bind]. rewrite from_ipv4_numeric_eq. cbn [bind]. rewrite ip_ipv4 by done. cbn [bind].
  destruct next_hop as [h|]; [|done]. destruct Hh as (j & -> & Hj). by rewrite ip_ipv4.
Qed.

(** The network once the interface [e] of the router and the interface [y] of
    applesauce have worked, and cherrypie expects [l]. *)
Definition router_side (k : nat) (i : Z) : AsyncNetworkInterface := fresh_interface (random_router_ethernet_address (values k)) i.
Definition host_side (k : nat) (i : Z) : AsyncNetworkInterface := fresh_interface (random_host_ethernet_address (values k)) i.

Definition network (e y : AsyncNetworkInterface) (l : list IPv4Datagram) : Network :=
  mkNetwork
    (mkRouter [router_side 0 0xab434c2e; e; router_side 2 0xac100001; router_side 3 0xc0a80001; router_side 4 0xc6b2e501;
               router_side 5 0x8fc30002; router_side 6 0x801e4cff])
    0 1 2 3 4 5 6
    [mkHost (lit "applesauce") (ipv4 0x0a000002) y (ipv4 0x0a000001) [];
     mkHost (lit "default_router") (ipv4 0xab434c01) (host_side 8 0xab434c01) (ipv4 0) [];
     mkHost (lit "cherrypie") (ipv4 0xc0a80002) (host_side 9 0xc0a80002) (ipv4 0xc0a80001) l;
     mkHost (lit "hs_router") (ipv4 0x8fc30001) (host_side 10 0x8fc30001) (ipv4 0) [];
     mkHost (lit "dm42") (ipv4 0xc6b2e52a) (host_side 11 0xc6b2e52a) (ipv4 0xc6b2e501) [];
     mkHost (lit "dm43") (ipv4 0xc6b2e52b) (host_side 12 0xc6b2e52b) (ipv4 0xc6b2e501) []].

Lemma Network_of_eq :
  Network_of getaddrinfo getnameinfo values = Ok (network (router_side 1 0x0a000001) (host_side 7 0x0a000002) []).
Proof.
  unfold Network_of.
  rewrite (add_new_interface_eq _ "171.67.76.46" 0xab434c2e) by (reflexivity || lia). cbn [bind add_interface].
  rewrite (add_new_interface_eq _ "10.0.0.1" 0x0a000001) by (reflexivity || lia). cbn [bind add_interface].
  rewrite (add_new_interface_eq _ "172.16.0.1" 0xac100001) by (reflexivity || lia). cbn [bind add_interface].
  rewrite (add_new_interface_eq _ "192.168.0.1" 0xc0a80001) by (reflexivity || lia). cbn [bind add_interface].
  rewrite (add_new_interface_eq _ "198.178.229.1" 0xc6b2e501) by (reflexivity || lia). cbn [bind add_interface].
  rewrite (add_new_interface_eq _ "143.195.0.2" 0x8fc30002) by (reflexivity || lia). cbn [bind add_interface].
  rewrite (add_new_interface_eq _ "128.30.76.255" 0x801e4cff) by (reflexivity || lia). cbn [bind add_interface].
  rewrite (Host_of_eq _ _ "10.0.0.2" 0x0a000002 _ 0x0a000001); [|reflexivity|lia|by apply address_of_quad]. cbn [bind].
  rewrite (Host_of_eq _ _ "171.67.76.1" 0xab434c01 _ 0); [|reflexivity|lia|done]. cbn [bind].
  rewrite (Host_of_eq _ _ "192.168.0.2" 0xc0a80002 _ 0xc0a80001); [|reflexivity|lia|by apply address_of_quad]. cbn [bind].
  rewrite (Host_of_eq _ _ "143.195.0.1" 0x8fc30001 _ 0); [|reflexivity|lia|done]. cbn [bind].
  rewrite (Host_of_eq _ _ "198.178.229.42" 0xc6b2e52a _ 0xc6b2e501); [|reflexivity|lia|by apply address_of_quad]. cbn [bind].
  rewrite (Host_of_eq _ _ "198.178.229.43" 0xc6b2e52b _ 0xc6b2e501); [|reflexivity|lia|by apply address_of_quad]. cbn [bind].
  match goal with |- context [find_host (lit "default_router") ?l] => set (hosts := l) end.
  change (find_host (lit "default_router") hosts) with (Ok (mkHost (lit "default_router") (ipv4 0xab434c01) (host_side 8 0xab434c01) (ipv4 0) [])).
  change (find_host (lit "hs_router") hosts) with (Ok (mkHost (lit "hs_router") (ipv4 0x8fc30001) (host_side 10 0x8fc30001) (ipv4 0) [])).
  cbn [bind _my_address].
  rewrite (add_route_to_eq "0.0.0.0" 0) by (reflexivity || lia || by eexists). cbn [bind].
  rewrite (add_route_to_eq "10.0.0.0" 0x0a000000) by (reflexivity || lia || done). cbn [bind].
  rewrite (add_route_to_eq "172.16.0.0" 0xac100000) by (reflexivity || lia || done). cbn [bind].
  rewrite (add_route_to_eq "192.168.0.0" 0xc0a80000) by (reflexivity || lia || done). cbn [bind].
  rewrite (add_route_to_eq "198.178.229.0" 0xc6b2e500) by (reflexivity || lia || done). cbn [bind].
  rewrite (add_route_to_eq "143.195.0.0" 0x8fc30000) by (reflexivity || lia || by eexists). cbn [bind].
  rewrite (add_route_to_eq "143.195.128.0" 0x8fc38000) by (reflexivity || lia || by eexists). cbn [bind].
  rewrite (add_route_to_eq "143.195.192.0" 0x8fc3c000) by (reflexivity || lia || by eexists). cbn [bind].
  rewrite (address_of_quad "128.30.0.1" 0x801e0001) by (reflexivity || lia). cbn [bind].
  rewrite (add_route_to_eq "128.30.76.255" 0x801e4cff) by (reflexivity || lia || by eexists). reflexivity.
Qed.

(** A wire whose ends have nothing to send changes nothing. *)
Lemma wire_silent id name n x h :
  interface id (_router n) = Ok x -> host name n = Ok h -> frames_out x = [] -> frames_out (_interface h) = [] ->
  update_interface id x (_router n) = _router n -> put_host h (_hosts n) = _hosts n ->
  wire id name n = done_with n.
Proof.
  intros Hx Hh Fx Fh Hr Hp. unfold wire, lift_run. rewrite Hx. cbn [run_bind]. rewrite Hh. cbn [run_bind].
  rewrite exchange_silent by done. cbn [run_bind done_with]. rewrite Hr, set_interface_same. cbn [set_router _hosts]. rewrite Hp. by destruct n.
Qed.

Lemma wire3_silent id name1 name2 n x h1 h2 :
  interface id (_router n) = Ok x -> host name1 n = Ok h1 -> host name2 n = Ok h2 ->
  frames_out x = [] -> frames_out (_interface h1) = [] -> frames_out (_interface h2) = [] ->
  update_interface id x (_router n) = _router n -> put_host h2 (put_host h1 (_hosts n)) = _hosts n ->
  wire3 id name1 name2 n = done_with n.
Proof.
  intros Hx H1 H2 Fx F1 F2 Hr Hp. unfold wire3, lift_run. rewrite Hx. cbn [run_bind]. rewrite H1. cbn [run_bind]. rewrite H2. cbn [run_bind].
  rewrite exchange3_silent by done. cbn [run_bind done_with]. rewrite Hr, !set_interface_same. cbn [set_router _hosts]. rewrite Hp. by destruct n.
Qed.

(** A round is an exchange on the one wire that is in use. *)
Lemma round_eq e y l e' y' :
  exchange_frames (emptied e) y = done_with (e', y') ->
  simulate_physical_connections (set_router (route (_router (network e y l))) (network e y l)) = done_with (network e' y' l).
Proof.
  intros E. rewrite route_eq.
  change (set_router _ (network e y l)) with (network (emptied e) y l). unfold simulate_physical_connections.
  erewrite (wire_silent _ _ (network (emptied e) y l)) by reflexivity. cbn [run_bind done_with].
  assert (wire (eth0_id (network (emptied e) y l)) "applesauce" (network (emptied e) y l) = done_with (network e' y' l)) as ->.
  { unfold wire. change (lift_run (interface _ _)) with (done_with (emptied e)). cbn [run_bind done_with].
    change (lift_run (host "applesauce" _)) with (done_with (mkHost (lit "applesauce") (ipv4 0x0a000002) y (ipv4 0x0a000001) [])).
    cbn [run_bind done_with _interface]. rewrite E. reflexivity. }
  cbn [run_bind done_with]. erewrite (wire_silent _ "cherrypie" (network e' y' l)) by reflexivity. cbn [run_bind done_with].
  erewrite (wire_silent _ "hs_router" (network e' y' l)) by reflexivity. cbn [run_bind done_with].
  by erewrite (wire3_silent _ "dm42" "dm43" (network e' y' l)) by reflexivity.
Qed.

Lemma rounds_eq k e y l : arp_only e y -> exists e' y', rounds k (network e y l) = done_with (network e' y' l) /\ arp_only e' y'.
Proof.
  revert e y. induction k as [|k IH]; intros e y Hey; [by exists e, y|]. cbn [rounds].
  destruct (exchange_arp e y Hey) as (e1 & y1 & E & H1). rewrite (round_eq e y l e1 y1 E). cbn [run_bind done_with]. by apply IH.
Qed.

(** ** The checks *)

Definition host_names : list string := ["applesauce"; "default_router"; "cherrypie"; "hs_router"; "dm42"; "dm43"]%string.

(** What cherrypie complains of. *)
Definition not_received (d : IPv4Datagram) : exn :=
  runtime_error (String.string_of_list_byte (lit "Host cherrypie did NOT receive an expected Internet datagram: " ++ dgram_text d)).

Lemma check_hosts_throws order e y d l :
  _datagrams_out y = [] -> "cherrypie"%string ∈ order -> Forall (fun name => name ∈ host_names) order ->
  check_hosts order (network e y (d :: l)) = Throw (not_received d).
Proof.
  intros Hy Hin Hall. revert Hin. induction Hall as [|name order Hn _ IH]; intros Hin; [by apply not_elem_of_nil in Hin|].
  apply list_elem_of_In in Hn. cbn [check_hosts].
  destruct Hn as [<-|[<-|[<-|[<-|[<-|[<-|[]]]]]]];
    try (apply elem_of_cons in Hin as [Hin|Hin]; [discriminate Hin|]; rewrite <- IH by done; reflexivity).
  - apply elem_of_cons in Hin as [Hin|Hin]; [discriminate Hin|]. rewrite <- IH by done. destruct y as [b q]. cbn [_datagrams_out] in Hy. by subst q.
  - reflexivity.
Qed.

Lemma length_host_ethernet_address v : (6 <= length v)%nat -> length (random_host_ethernet_address v) = 6%nat.
Proof.
  intros Hv. unfold random_host_ethernet_address. assert (length (map z2b (take 6 v)) = 6%nat) as E by (rewrite length_map, length_take; lia).
  by destruct (map z2b (take 6 v)).
Qed.

Lemma length_router_ethernet_address v : (6 <= length v)%nat -> length (random_router_ethernet_address v) = 6%nat.
Proof. intros Hv. unfold random_router_ethernet_address. rewrite length_app, length_drop, length_map, length_take. simpl length. lia. Qed.

(** ** The first test *)

Definition cherrypie_expects (v : Z) : IPv4Datagram := set_ttl 63 (new_datagram 0x0a000002 0xc0a80002 64 v).

(** applesauce asks for the router's address and keeps the datagram. *)
Lemma first_send v :
  0 <= v < 2 ^ 32 ->
  exists y, arp_only (router_side 1 0x0a000001) y /\
    send_to getnameinfo (ipv4 0xc0a80002) 64 v (mkHost (lit "applesauce") (ipv4 0x0a000002) (host_side 7 0x0a000002) (ipv4 0x0a000001) []) =
      done_with (new_datagram 0x0a000002 0xc0a80002 64 v, mkHost (lit "applesauce") (ipv4 0x0a000002) y (ipv4 0x0a000001) []).
Proof.
  intros Hv. set (d := new_datagram 0x0a000002 0xc0a80002 64 v).
  assert (sendable d) as Hd by (apply new_datagram_sendable; (done || lia)).
  set (n := NetworkInterface_of (random_host_ethernet_address (values 7)) (ipv4 0x0a000002)).
  assert (ipv4_numeric (ipv4 0x0a000002) = Ok 0x0a000002) as Hme by (apply ipv4_numeric_ipv4; lia).
  assert (ipv4_numeric (ipv4 0x0a000001) = Ok 0x0a000001) as Hgw by (apply ipv4_numeric_ipv4; lia).
  assert (length (random_host_ethernet_address (values 7)) = 6%nat) as Hl by apply length_host_ethernet_address, six_values.
  assert (wf_interface n) as Hn by by apply (NetworkInterface_of_wf _ _ 0x0a000002).
  assert (addressed n 0x0a000002) as Ha by done.
  destruct (send_datagram_wf d (ipv4 0x0a000001) 0x0a000001 n Hn Hd Hgw) as (n' & E & Hn'); [done|].
  exists (mkAsyncNetworkInterface n' []). split.
  - rewrite (send_unknown d (ipv4 0x0a000001) 0x0a000001 n 0x0a000002) in E by done. injection E as <-.
    split; try done; [|by apply Forall_nil|apply Forall_singleton].
    + apply (NetworkInterface_of_wf _ _ 0x0a000001); [apply length_router_ethernet_address, six_values|exact Hgw|done].
    + apply arp_small, request_wf; done.
  - unfold send_to, lift_run. cbn [_my_address]. rewrite Hme. cbn [run_bind]. rewrite (ipv4_numeric_ipv4 0xc0a80002) by lia. cbn [run_bind].
    fold d. cbn [_next_hop _interface host_side fresh_interface AsyncNetworkInterface_of base]. fold n. rewrite E.
    by rewrite ip_ipv4 by lia.
Qed.

(** C18: The simulator's first test fails, for every choice of the random numbers and
    every order in which the hash map gives the hosts: the 256 rounds all return,
    and then cherrypie has not received the datagram that applesauce sent it,
    because the router does not route.  The program reports that and its status
    is 1. *)
Theorem network_simulator_fails payloads order :
  0 <= payloads 0%nat < 2 ^ 32 -> order ≡ₚ host_names ->
  network_simulator getaddrinfo getnameinfo values payloads order = Some (Throw (not_received (cherrypie_expects (payloads 0%nat)))) /\
  simulator_main getaddrinfo getnameinfo values payloads order = Some 1.
Proof.
  intros Hv Ho.
  assert (network_simulator getaddrinfo getnameinfo values payloads order = Some (Throw (not_received (cherrypie_expects (payloads 0%nat))))) as E.
  { destruct (first_send (payloads 0%nat) Hv) as (y & Hy & Es). unfold network_simulator. rewrite Network_of_eq.
    change (lift_run (Ok (network ?e ?y ?l))) with (done_with (network e y l)). cbn [run_bind done_with].
    change (lift_run (host_address "cherrypie" _)) with (done_with (ipv4 0xc0a80002)). cbn [run_bind done_with].
    unfold test at 1. change (lift_run (host "applesauce" _)) with
      (done_with (mkHost (lit "applesauce") (ipv4 0x0a000002) (host_side 7 0x0a000002) (ipv4 0x0a000001) [])).
    cbn [run_bind done_with]. rewrite Es. cbn [run_bind done_with].
    change (set_hosts (put_host (mkHost (lit "applesauce") _ y _ _) _) _) with (network (router_side 1 0x0a000001) y []).
    change (lift_run (host "cherrypie" (network (router_side 1 0x0a000001) y []))) with
      (done_with (mkHost (lit "cherrypie") (ipv4 0xc0a80002) (host_side 9 0xc0a80002) (ipv4 0xc0a80001) [])). cbn [run_bind done_with].
    change (set_hosts _ (network _ y [])) with (network (router_side 1 0x0a000001) y [cherrypie_expects (payloads 0%nat)]).
    unfold simulate at 1. destruct (rounds_eq 256 _ y [cherrypie_expects (payloads 0%nat)] Hy) as (e' & y' & -> & H'). cbn [run_bind done_with].
    rewrite check_hosts_throws; [reflexivity|apply H'|rewrite Ho; by vm_compute; repeat constructor|].
    apply Forall_forall. intros name Hn. by rewrite Ho in Hn. }
  split; [exact E|]. unfold simulator_main. by rewrite E.
Qed.
End network.

Lemma network_simulator_fails_witness :
  network_simulator resolve_numeric name_numeric (fun k => map Z.of_nat (seq k 6)) Z.of_nat (rev host_names) =
    Some (Throw (runtime_error (String.string_of_list_byte
      (lit "Host cherrypie did NOT receive an expected Internet datagram: IPv4, len=27, protocol=6, src=10.0.0.2, dst=192.168.0.2 payload=" ++
       [z2b 34] ++ lit "random payload: {0}" ++ [z2b 34])))) /\
  simulator_main resolve_numeric name_numeric (fun k => map Z.of_nat (seq k 6)) Z.of_nat (rev host_names) = Some 1.
Proof.
  apply (network_simulator_fails (fun k => map Z.of_nat (seq k 6))).
  - reflexivity.
  - intros k. by rewrite length_map, length_seq.
  - done.
  - symmetry. apply Permutation_rev.
Defined.
