(* ===== verification/Doctests.v ===== *)
(** The programs of [doctests], which run the examples of the documentation:
    [parser_dt.cc], [address_dt.cc] and [socket_dt.cc], each with the fragments it
    includes.  The parser's example always passes; those about addresses and
    sockets pass when the resolver knows the names and the kernel delivers, in one
    piece, what was sent. *)
From S2P Require Import Prelude Text Buffer FileDescriptor Parser Address Resolver Socket SocketAdapters Mains.

(** ** The parser *)

Definition parser_example : result unit :=
  let val1 := 0xdeadbeef in
  let val2 := 0xc0c0 in
  let val3 := 0xff in
  let val4 := 0x0c05fefe in
  let buffer := [z2b 0x32] in
  let buffer := unparse_u32 buffer val1 in
  let buffer := unparse_u16 buffer val2 in
  let buffer := unparse_u8 buffer val3 in
  let buffer := unparse_u32 buffer val4 in
  let p := NetParser_of (Buffer_of buffer) in
  let* (out0, p) := parse_u8 p in
  let* (out1, p) := parse_u32 p in
  let* (out2, p) := parse_u16 p in
  let* (out3, p) := parse_u8 p in
  let* (out4, p) := parse_u32 p in
  if negb (out0 =? 0x32) || negb (out1 =? val1) || negb (out2 =? val2) || negb (out3 =? val3) || negb (out4 =? val4)
  then Throw (runtime_error "bad parse") else Ok tt.

(** What the handlers make of an example. *)
Definition status (r : result unit) : Z := match r with Ok _ => EXIT_SUCCESS | Throw _ => EXIT_FAILURE end.

Definition parser_dt : Z := status parser_example.

Section examples.
Context (getaddrinfo : list byte -> list byte -> addrinfo -> Z * option (list byte * Z))
  (getnameinfo : list byte -> Z -> Z * list byte * list byte).

(** ** Addresses *)

Definition address_example_1 : result Address := Address_of_host getaddrinfo (lit "www.google.com") (lit "https").
Definition address_example_2 : result Address := Address_of_ip getaddrinfo (lit "18.71.0.151") 53.
Definition address_example_3 (a_dns_server : Address) : result Z := ipv4_numeric a_dns_server.

Definition address_dt : Z :=
  status
    (let* google_webserver := address_example_1 in
     let* a_dns_server := address_example_2 in
     let* a_dns_server_numeric := address_example_3 a_dns_server in
     let* p := port getnameinfo google_webserver in
     if negb (p =? 443) || negb (a_dns_server_numeric =? 0x12470097) then Throw (runtime_error "unexpected value") else Ok tt).

(** ** Sockets *)

Definition hi_there : list byte := lit "hi there".
Definition hi_yourself : list byte := lit "hi yourself".

(** A method that cannot block, on one of several objects. *)
Definition on {S A} (r : result A * S) : partial (A * S) :=
  match r with (Ok a, s) => done_with (a, s) | (Throw e, _) => Some (Throw e) end.

(** [write(str)]: everything. *)
Definition write_string (answers : list call) (s : list byte) (w : FDWrapper) : partial (Z * FDWrapper) :=
  match FileDescriptor.write (pairs answers) (BufferViewList_of_string s) true w with None => None | Some r => on r end.

(** [read()] and [recv()], by the answer and the bytes. *)
Definition read_string (answer : call * list byte) (w : FDWrapper) : partial (list byte * FDWrapper) :=
  on (FileDescriptor.read SIZE_MAX (ret answer.1) (errno answer.1) answer.2 w).
Definition recv_from (answer : call * list byte * (list byte * Z)) (w : FDWrapper) : partial (received_datagram * FDWrapper) :=
  on (recv 65536 answer.1.1 answer.1.2 answer.2.1 answer.2.2 w).

Definition random_port (random : Z) : Z := u16 (random mod 50000 + 1025).

Definition compare_data (recvd recvd2 : list byte) : result unit :=
  if negb (bool_decide (recvd = hi_there)) || negb (bool_decide (recvd2 = hi_yourself))
  then Throw (runtime_error "wrong data received") else Ok tt.

(** The answers to the calls of the first example, in their order. *)
Record UdpAnswers := mkUdpAnswers {
  u_socket1 : call; u_bind : call; u_socket2 : call; u_sendto : call; u_recv : call * list byte * (list byte * Z);
  u_connect : call; u_send : call; u_recv2 : call * list byte * (list byte * Z) }.

Definition socket_example_1 (random : Z) (k : UdpAnswers) : partial unit :=
  let portnum := random_port random in
  run* sock1 := lift_run (Socket_new (u_socket1 k)) in
  run* _ := lift_run (Address_of_ip getaddrinfo (lit "127.0.0.1") portnum) in
  run* _ := lift_run (socket_bind (u_bind k)) in
  run* sock2 := lift_run (Socket_new (u_socket2 k)) in
  run* _ := lift_run (Address_of_ip getaddrinfo (lit "127.0.0.1") portnum) in
  run* (_, sock2) := on (sendto (u_sendto k) (BufferViewList_of_string hi_there) sock2) in
  run* (recvd, sock1) := recv_from (u_recv k) sock1 in
  run* _ := lift_run (socket_connect (u_connect k)) in
  run* (_, sock1) := on (send (u_send k) (BufferViewList_of_string hi_yourself) sock1) in
  run* (recvd2, sock2) := recv_from (u_recv2 k) sock2 in
  lift_run (compare_data (recv_payload recvd) (recv_payload recvd2)).

Record TcpAnswers := mkTcpAnswers {
  t_socket1 : call; t_bind : call; t_listen : call; t_socket2 : call; t_connect : call; t_accept : call;
  t_accepted : sockopt * sockopt; t_write : list call; t_read : call * list byte; t_write2 : list call;
  t_read2 : call * list byte; t_close1 : call; t_close2 : call; t_shutdown : call }.

Definition socket_example_2 (random : Z) (k : TcpAnswers) : partial unit :=
  let portnum := random_port random in
  run* sock1 := lift_run (Socket_new (t_socket1 k)) in
  run* _ := lift_run (Address_of_ip getaddrinfo (lit "127.0.0.1") portnum) in
  run* _ := lift_run (socket_bind (t_bind k)) in
  run* _ := lift_run (socket_listen (t_listen k)) in
  run* sock2 := lift_run (Socket_new (t_socket2 k)) in
  run* _ := lift_run (Address_of_ip getaddrinfo (lit "127.0.0.1") portnum) in
  run* _ := lift_run (socket_connect (t_connect k)) in
  run* (sock3, sock1) := on (accept (t_accept k) (t_accepted k).1 (t_accepted k).2 sock1) in
  run* (_, sock3) := write_string (t_write k) hi_there sock3 in
  run* (recvd, sock2) := read_string (t_read k) sock2 in
  run* (_, sock2) := write_string (t_write2 k) hi_yourself sock2 in
  run* (recvd2, sock3) := read_string (t_read2 k) sock3 in
  run* (_, sock1) := on (FileDescriptor.close (ret (t_close1 k)) (errno (t_close1 k)) sock1) in
  run* (_, sock2) := on (FileDescriptor.close (ret (t_close2 k)) (errno (t_close2 k)) sock2) in
  run* (_, sock3) := on (shutdown SHUT_RDWR (t_shutdown k) sock3) in
  lift_run (compare_data recvd recvd2).

Record PipeAnswers := mkPipeAnswers {
  p_pair : call; p_fds : Z * Z; p_first : sockopt * sockopt; p_second : sockopt * sockopt; p_write : list call;
  p_read : call * list byte; p_write2 : list call; p_read2 : call * list byte }.

Definition socket_example_3 (k : PipeAnswers) : partial unit :=
  run* _ := lift_run (checked (lit "socketpair") (p_pair k)) in
  run* fd := lift_run (FileDescriptor_of (p_fds k).1) in
  run* pipe1 := lift_run (LocalStreamSocket_of fd (p_first k).1 (p_first k).2) in
  run* fd := lift_run (FileDescriptor_of (p_fds k).2) in
  run* pipe2 := lift_run (LocalStreamSocket_of fd (p_second k).1 (p_second k).2) in
  run* (_, pipe1) := write_string (p_write k) hi_there pipe1 in
  run* (recvd, pipe2) := read_string (p_read k) pipe2 in
  run* (_, pipe2) := write_string (p_write2 k) hi_yourself pipe2 in
  run* (recvd2, pipe1) := read_string (p_read2 k) pipe1 in
  lift_run (compare_data recvd recvd2).

(** [None] while a write waits. *)
Definition socket_dt (random1 random2 : Z) (udp : UdpAnswers) (tcp : TcpAnswers) (pipe : PipeAnswers) : option Z :=
  option_map status
    (run* _ := socket_example_1 random1 udp in
     run* _ := socket_example_2 random2 tcp in
     socket_example_3 pipe).
End examples.

(** ** Properties *)

Lemma parser_dt_passes : parser_dt = EXIT_SUCCESS.
Proof. reflexivity. Qed.

Lemma address_dt_passes `{NumericResolver getaddrinfo getnameinfo} i :
  0 <= i < 2 ^ 32 -> address_example_1 getaddrinfo = Ok (endpoint i 443) -> address_dt getaddrinfo getnameinfo = EXIT_SUCCESS.
Proof.
  intros Hi E. unfold address_dt. rewrite E. cbn [bind]. unfold address_example_2.
  change (lit "18.71.0.151") with (inet_ntoa 0x12470097). rewrite Address_of_ip_endpoint by lia. cbn [bind].
  unfold address_example_3. rewrite ipv4_numeric_endpoint by lia. cbn [bind]. by rewrite port_endpoint by lia.
Qed.

(** Calls that succeed, and the writes of a text in pieces. *)
Definition granted (c : call) : Prop := 0 <= ret c < 2 ^ 31.
Definition in_pieces (s : list byte) (answers : list call) : Prop :=
  exists pieces, answers = map (fun k => mkCall k 0) pieces /\ accepts (len s) pieces.
Definition granted_bytes (answer : call * list byte) : Prop := len answer.2 = ret answer.1 /\ ret answer.1 <= BUFFER_SIZE.
Definition granted_datagram (answer : call * list byte * (list byte * Z)) : Prop :=
  len answer.1.2 = ret answer.1.1 /\ ret answer.1.1 <= 65536 /\ exists a, Address_of_sockaddr answer.2.1 answer.2.2 = Ok a.
Definition socket_type (domain type : Z) (so : sockopt * sockopt) : Prop :=
  granted (opt_call so.1) /\ granted (opt_call so.2) /\ opt_len so.1 = 4 /\ opt_len so.2 = 4 /\
  actual_value so.1 = domain /\ actual_value so.2 = type.

Lemma write_string_ok answers s w :
  0 < len s < 2 ^ 31 -> in_pieces s answers -> exists w', write_string answers s w = done_with (len s, w').
Proof.
  intros Hs (pieces & -> & Ha). unfold write_string, pairs. rewrite map_map. cbn [ret errno].
  assert (concat (_views (BufferViewList_of_string s)) = s) as Hc by (simpl; apply app_nil_r).
  eexists. unfold FileDescriptor.write. rewrite write_loop_all by (rewrite ?Hc; done || lia). by rewrite Hc.
Qed.

Lemma read_string_ok answer w : granted_bytes answer -> exists w', read_string answer w = done_with (answer.2, w').
Proof. intros [Hl Hb]. eexists. unfold read_string. rewrite read_eq; [reflexivity|unfold SIZE_MAX, BUFFER_SIZE in *; lia..]. Qed.

Lemma recv_from_ok answer w : granted_datagram answer -> exists a w', recv_from answer w = done_with (mkReceived a answer.1.2, w').
Proof. intros (Hl & Hb & a & Ha). exists a. eexists. unfold recv_from. by rewrite (udp_recv_eq _ _ _ _ _ a) by (done || lia). Qed.

(** [sendto] and [send] do the same here. *)
Lemma sendto_ok c s w : len s < 2 ^ 31 -> ret c = len s -> exists w', on (sendto c (BufferViewList_of_string s) w) = done_with (tt, w').
Proof.
  intros Hs Hr. eexists. unfold sendto, sendmsg_helper, andthen, lift, modify. rewrite checked_ok by lia. cbn [bind].
  rewrite view_size_of_string, u64_small, Hr, Z.eqb_refl by lia. reflexivity.
Qed.

Lemma Socket_new_ok c : granted c -> exists w, Socket_new c = Ok w.
Proof.
  intros Hc. eexists. unfold Socket_new. rewrite checked_ok by done. cbn [bind]. unfold FileDescriptor_of.
  destruct (Z.ltb_spec (ret c) 0); [unfold granted in Hc; lia|reflexivity].
Qed.

Lemma Socket_of_ok fd domain type so : socket_type domain type so -> Socket_of fd domain type so.1 so.2 = Ok fd.
Proof.
  intros (H1 & H2 & L1 & L2 & V1 & V2). unfold Socket_of. rewrite checked_ok by done. cbn [bind].
  rewrite L1, V1, !Z.eqb_refl. cbn [negb orb]. rewrite checked_ok by done. cbn [bind]. by rewrite L2, V2, !Z.eqb_refl.
Qed.

(** What the kernel has to answer. *)
Record udp_granted (k : UdpAnswers) : Prop := {
  ug_calls : Forall granted [u_socket1 k; u_bind k; u_socket2 k; u_connect k];
  ug_sendto : ret (u_sendto k) = len hi_there;
  ug_recv : granted_datagram (u_recv k);
  ug_send : ret (u_send k) = len hi_yourself;
  ug_recv2 : granted_datagram (u_recv2 k) }.

Record tcp_granted (k : TcpAnswers) : Prop := {
  tg_calls : Forall granted [t_socket1 k; t_bind k; t_listen k; t_socket2 k; t_connect k; t_accept k; t_close1 k; t_close2 k; t_shutdown k];
  tg_accepted : socket_type AF_INET SOCK_STREAM (t_accepted k);
  tg_write : in_pieces hi_there (t_write k);
  tg_read : granted_bytes (t_read k);
  tg_write2 : in_pieces hi_yourself (t_write2 k);
  tg_read2 : granted_bytes (t_read2 k) }.

Record pipe_granted (k : PipeAnswers) : Prop := {
  pg_calls : granted (p_pair k) /\ 0 <= (p_fds k).1 /\ 0 <= (p_fds k).2;
  pg_first : socket_type AF_UNIX SOCK_STREAM (p_first k);
  pg_second : socket_type AF_UNIX SOCK_STREAM (p_second k);
  pg_write : in_pieces hi_there (p_write k);
  pg_read : granted_bytes (p_read k);
  pg_write2 : in_pieces hi_yourself (p_write2 k);
  pg_read2 : granted_bytes (p_read2 k) }.

(** The examples then pass exactly when the data has arrived whole. *)
Lemma socket_example_1_eq `{NumericResolver getaddrinfo getnameinfo} random k :
  udp_granted k ->
  socket_example_1 getaddrinfo random k = Some (compare_data (u_recv k).1.2 (u_recv2 k).1.2).
Proof.
  intros [Hc H1 R1 H2 R2]. apply Forall_cons in Hc as [C1 Hc]. apply Forall_cons in Hc as [C2 Hc].
  apply Forall_cons in Hc as [C3 Hc]. apply Forall_cons in Hc as [C4 _]. unfold socket_example_1, lift_run.
  destruct (Socket_new_ok _ C1) as [w1 ->]. cbn [run_bind].
  change (lit "127.0.0.1") with (inet_ntoa 0x7f000001). rewrite Address_of_ip_endpoint by (lia || apply u16_range). cbn [run_bind].
  unfold socket_bind. rewrite checked_ok by done. cbn [bind run_bind].
  destruct (Socket_new_ok _ C3) as [w2 ->]. cbn [run_bind].
  destruct (sendto_ok (u_sendto k) hi_there w2) as [w2' ->]; [done..|]. cbn [run_bind done_with].
  destruct (recv_from_ok _ w1 R1) as (a1 & w1' & ->). cbn [run_bind done_with].
  unfold socket_connect. rewrite checked_ok by done. cbn [bind run_bind].
  change (send ?c ?s ?w) with (sendto c s w).
  destruct (sendto_ok (u_send k) hi_yourself w1') as [w1'' ->]; [done..|]. cbn [run_bind done_with].
  by destruct (recv_from_ok _ w2' R2) as (a2 & w2'' & ->).
Qed.

Lemma socket_example_3_eq k : pipe_granted k -> socket_example_3 k = Some (compare_data (p_read k).2 (p_read2 k).2).
Proof.
  intros [(C1 & F1 & F2) S1 S2 W1 R1 W2 R2]. unfold socket_example_3, lift_run. rewrite checked_ok by done. cbn [run_bind].
  unfold FileDescriptor_of. destruct (Z.ltb_spec (p_fds k).1 0); [lia|]. destruct (Z.ltb_spec (p_fds k).2 0); [lia|]. cbn [run_bind].
  unfold LocalStreamSocket_of. rewrite Socket_of_ok by done. cbn [run_bind]. rewrite Socket_of_ok by done. cbn [run_bind].
  match goal with |- context [write_string _ hi_there ?w] => destruct (write_string_ok (p_write k) hi_there w) as [w1 ->] end; [done..|].
  cbn [run_bind done_with]. match goal with |- context [read_string _ ?w] => destruct (read_string_ok (p_read k) w R1) as [w2 ->] end.
  cbn [run_bind done_with]. destruct (write_string_ok (p_write2 k) hi_yourself w2) as [w3 ->]; [done..|].
  cbn [run_bind done_with]. by destruct (read_string_ok (p_read2 k) w1 R2) as [w4 ->].
Qed.

Lemma accept_ok c so w : granted c -> socket_type AF_INET SOCK_STREAM so -> exists w1 w', on (accept c so.1 so.2 w) = done_with (w1, w').
Proof.
  intros Hc Hs. eexists _, _. unfold accept, andthen, modify, lift. rewrite checked_ok by done. unfold FileDescriptor_of.
  destruct (Z.ltb_spec (ret c) 0); [unfold granted in Hc; lia|]. unfold TCPSocket_of. by rewrite Socket_of_ok by done.
Qed.

Lemma close_ok c w : granted c -> exists w', on (FileDescriptor.close (ret c) (errno c) w) = done_with (tt, w').
Proof. intros Hc. eexists. unfold FileDescriptor.close, andthen, lift. by rewrite SystemCall_ok by done. Qed.

Lemma shutdown_ok c w : granted c -> exists w', on (shutdown SHUT_RDWR c w) = done_with (tt, w').
Proof. intros Hc. eexists. unfold shutdown, andthen, lift. by rewrite checked_ok by done. Qed.

Lemma socket_example_2_eq `{NumericResolver getaddrinfo getnameinfo} random k :
  tcp_granted k -> socket_example_2 getaddrinfo random k = Some (compare_data (t_read k).2 (t_read2 k).2).
Proof.
  intros [Hc Ha W1 R1 W2 R2]. rewrite !Forall_cons in Hc. destruct Hc as (C1 & C2 & C3 & C4 & C5 & C6 & C7 & C8 & C9 & _).
  unfold socket_example_2, lift_run. destruct (Socket_new_ok _ C1) as [w1 ->]. cbn [run_bind].
  change (lit "127.0.0.1") with (inet_ntoa 0x7f000001). rewrite Address_of_ip_endpoint by (lia || apply u16_range). cbn [run_bind].
  unfold socket_bind. rewrite checked_ok by done. cbn [bind run_bind]. unfold socket_listen. rewrite checked_ok by done. cbn [bind run_bind].
  destruct (Socket_new_ok _ C4) as [w2 ->]. cbn [run_bind]. unfold socket_connect. rewrite checked_ok by done. cbn [bind run_bind].
  destruct (accept_ok _ _ w1 C6 Ha) as (w3 & w1' & ->). cbn [run_bind done_with].
  destruct (write_string_ok (t_write k) hi_there w3) as [w3' ->]; [done..|]. cbn [run_bind done_with].
  destruct (read_string_ok (t_read k) w2 R1) as [w2' ->]. cbn [run_bind done_with].
  destruct (write_string_ok (t_write2 k) hi_yourself w2') as [w2'' ->]; [done..|]. cbn [run_bind done_with].
  destruct (read_string_ok (t_read2 k) w3' R2) as [w3'' ->]. cbn [run_bind done_with].
  destruct (close_ok _ w1' C7) as [w ->]. cbn [run_bind done_with]. destruct (close_ok _ w2'' C8) as [w' ->]. cbn [run_bind done_with].
  by destruct (shutdown_ok _ w3'' C9) as [w'' ->].
Qed.

Lemma compare_data_cases r r2 :
  (r = hi_there /\ r2 = hi_yourself) /\ compare_data r r2 = Ok tt \/
  ~ (r = hi_there /\ r2 = hi_yourself) /\ exists e, compare_data r r2 = Throw e.
Proof. unfold compare_data. repeat case_bool_decide; simpl; [by left|right..]; (split; [tauto|by eexists]). Qed.

(** The examples of the sockets pass exactly when every text arrives whole. *)
Lemma socket_dt_passes `{NumericResolver getaddrinfo getnameinfo} random1 random2 udp tcp pipe :
  udp_granted udp -> tcp_granted tcp -> pipe_granted pipe ->
  socket_dt getaddrinfo random1 random2 udp tcp pipe = Some EXIT_SUCCESS <->
  (u_recv udp).1.2 = hi_there /\ (u_recv2 udp).1.2 = hi_yourself /\ (t_read tcp).2 = hi_there /\ (t_read2 tcp).2 = hi_yourself /\
  (p_read pipe).2 = hi_there /\ (p_read2 pipe).2 = hi_yourself.
Proof.
  intros Hu Ht Hp. unfold socket_dt. rewrite socket_example_1_eq, socket_example_2_eq, socket_example_3_eq by done.
  destruct (compare_data_cases (u_recv udp).1.2 (u_recv2 udp).1.2) as [[Hu1 ->]|[Hu1 [e ->]]]; [|by split; [|tauto]].
  destruct (compare_data_cases (t_read tcp).2 (t_read2 tcp).2) as [[Ht1 ->]|[Ht1 [e ->]]]; [|by split; [|tauto]].
  destruct (compare_data_cases (p_read pipe).2 (p_read2 pipe).2) as [[Hp1 ->]|[Hp1 [e ->]]]; [|by split; [|tauto]].
  split; [tauto|done].
Qed.
